(* ===== verification/_CoqProject ===== *)
-Q . S2P
Prelude.v
CString.v
Router.v
RouterSpec.v
Utils.v
Gc.v
QueryString.v
BodyBuffer.v
Queue.v
Event.v
Service.v
Session.v
Http.v
Response.v
Base64.v
MerkleDamgard.v
Sha1.v
Sha256.v
Websocket.v
Dthread.v
MysqlClient.v
MariadbAsync.v
MariadbSpec.v
MariadbState.v
MariadbDthread.v
MariadbPool.v
Conf.v
Launcher.v
Redis.v
Redirect.v
Stage30.v
Logger.v
Digits.v
Double.v
Json.v
JsonSpec.v
JsonSafe.v
Sds.v
RedisDict.v
Hiredis.v
HiredisSpec.v
HiredisReply.v
HiredisCommand.v
HiredisContext.v
RedisAsync.v
RedisAsyncSpec.v
RedisSubscribe.v
Ssls.v
SslsSpec.v
WsBroadcast.v
SdsText.v
HiredisNet.v
JsonPackage.v
Objects.v
