(* ===== verification/Prelude.v ===== *)
(** * Verification of Duda I/O

    Duda I/O is a framework for web services written in C on top of the Monkey
    HTTP server.  A process loads services (shared libraries), each of which
    registers routes; Monkey hands every request to a switcher that looks a
    route up and calls its callback; the callback reads the request (URI
    parameters, query string, headers, body), queues body buffers and files in
    the response, and the queue is flushed as the socket accepts bytes.  Memory
    allocated for a request is collected when the request ends.  Around this
    core there are an event object, cooperative threads with channels, and
    packages (digests, base64, JSON, websockets, database and redis clients).

    ** Files and sources

    - Prelude.v: machine integers, faults, the [res] monad, tactics and shared
      lemmas.
    - CString.v: C strings, [mk_ptr_t], and the class [MkString] of Monkey's string
      functions ([mk_string_char_search], [mk_string_copy_substr]).
    - Router.v, RouterSpec.v: lib/objects/duda_router.c (registration of patterns,
      parsing of the URI, lookup, root test) and lib/objects/duda_param.c.
    - Utils.v: lib/duda_utils.c ([duda_utils_strtol]) and [duda_param_get_number].
    - Gc.v: lib/objects/duda_gc.c, over the class [GcMem] of the allocator.
    - QueryString.v: lib/objects/duda_qs.c.
    - BodyBuffer.v: lib/duda_body_buffer.c and lib/duda_sendfile.c.
    - Queue.v: lib/duda_queue.c and [duda_service_end] of
      lib/duda_old_launcher.c.
    - Event.v: lib/duda_event.c; the tree of requests and the event hooks of
      lib/duda_old_launcher.c; the validation of requests of
      lib/objects/duda_request.c.
    - Service.v: lib/duda.c (context, switcher, start), lib/duda_service.c, and
      [main] of src/duda.c.
    - Session.v: lib/objects/duda_cookie.c and lib/objects/duda_session.c, over the
      class [MkSearch].
    - Http.v: lib/objects/duda_request.c and lib/objects/duda_response.c, over
      the class [MkHttp].  Response.v: whole responses, over this file, BodyBuffer.v
      and Queue.v.
    - Base64.v, Sha1.v, Sha256.v: the packages of those names, with the loop over
      blocks the two digests share in MerkleDamgard.v.
    - Websocket.v: packages/websocket, which uses Base64.v, Sha1.v and Http.v; the
      access to the headers is the class [HeaderAccess].  WsBroadcast.v: its
      broadcaster as a system of threads and pipes.
    - Dthread.v: lib/objects/duda_dthread.c and
      lib/objects/duda_dthread_channel.c.
    - MysqlClient.v: the calls of the vendored client library
      (packages/mariadb/deps/libmariadbclient) that packages/mariadb waits for,
      with their [_start] and [_cont] wrappers, on decoded packets; the database is
      the class [Server].
    - MariadbAsync.v: packages/mariadb/async.c, mariadb.c, query.c and connection.c,
      that is the states of a connection, its queue of queries and its event
      handlers.  MariadbSpec.v has its theorems on the callbacks of a session,
      MariadbState.v those on the states and on the dispatch of events.
    - MariadbDthread.v: packages/mariadb/dthread.c, the same connection used from a
      cooperative thread.
    - MariadbPool.v: packages/mariadb/pool.c, for both interfaces.
    - Conf.v: lib/duda_conf.c and lib/duda_fconf.c, over the class [MkConf] of
      Monkey's configuration reader.
    - Launcher.v: the loading of services, the initialisation of the master and of
      the workers in lib/duda_old_launcher.c; lib/duda_package.c,
      lib/objects/duda_global.c and lib/objects/duda_worker.c; a shared library is
      the class [Library].
    - Redirect.v: [duda_router_redirect] of lib/objects/duda_router.c, over Gc.v and
      Http.v.
    - Stage30.v: the handler of requests of lib/duda_old_launcher.c ([duda_stage30],
      [duda_service_run], [duda_override_docroot]), which composes the registry of
      Event.v, the collector, the two parsers, the redirect and the services of
      Conf.v.
    - Logger.v: lib/objects/duda_log.c with its header, and
      lib/objects/duda_data.c.
    - Redis.v: packages/redis/redis.c, the adapter between hiredis and the events.
    - Sds.v, SdsText.v: packages/redis/sds.c, the strings hiredis uses and the other
      functions on them; RedisDict.v: packages/redis/dict.c, its hash table.
    - Hiredis.v: the objects of replies and the incremental reader of
      packages/redis/hiredis.c; HiredisSpec.v has its theorems on the division of the
      bytes, HiredisReply.v those on the replies of a server.
    - HiredisCommand.v: the formatting of commands of hiredis.c, over the [printf]
      of the library.  HiredisContext.v: the context, its buffers and the blocking
      client; HiredisNet.v: packages/redis/net.c.
    - RedisAsync.v: packages/redis/async.c, over the program that uses it;
      RedisAsyncSpec.v and RedisSubscribe.v have its theorems.
    - Ssls.v: packages/ssls, over the class [PolarSSL] of the TLS library; SslsSpec.v
      has its theorems.
    - Json.v: packages/json/cJSON.c, over the class [Libm]; Double.v has the
      arithmetic of [double] it uses, JsonSpec.v the theorems on the text it writes
      and reads, JsonSafe.v those on its ends, its blocks and its objects.
      Digits.v has the decimal numbers these and the redis files share.
      JsonPackage.v: the calls of packages/json/duda_package.c that use the request.
    - Objects.v: lib/objects/duda_xtime.c, parts of lib/objects/duda_console.c, and
      packages/sqlite over the class [Sqlite].

    Definitions carry the names of the C functions; helpers are named after the
    loop or block they stand for.  State that a C function mutates is an argument
    and a result, in the order return value, new state, effects.

    ** Conventions

    The target is LP64, little endian.  Integers are [Z], reduced with [wrap] and
    [swrap] where the source converts or computes at a width that matters.  A
    [char *] is the list of the bytes up to its NUL; an [mk_ptr_t] adds a length.
    An [mk_list] is a list, [mk_list_add] appending at its tail.  A [NULL] result
    is [None]; a [NULL] dereference, an access out of an array, a failed
    assertion or [exit] is a [Fault].  Callbacks of services are identified by
    numbers, and calls to them, writes and frees are recorded as effects.  What
    Monkey, the C library's I/O or the operating system answer is an argument
    ([so_bytes], [alloc_ok], ...) or a method of a class ([MkString], [GcMem],
    [MkHttp], [RbTree], [MkEvent], [MkSearch], [Host]); what the proofs need of a
    class is a second class ([MkStringSpec], ...) that an executable instance ([RefString],
    ...) is shown to satisfy.

    ** What is proved

    - Routing (RouterSpec.v, Service.v): the URI parser and the pattern splitter
      compute the non-empty segments of a path; the loop over the fields of a dynamic
      rule compares segment by segment, but the lookup runs it with a request
      context that is always [NULL] ([dynamic_rule_matches]): the lookup answers with
      the first registered rule that is not silent, static rules being served, dynamic
      ones and redirects dereferencing [NULL] ([path_lookup_registered]); the switcher
      searches the rules of all services as one table; parameters denote the
      segment at their position, numbers are read with saturation.
    - Request data (QueryString.v, Http.v): the query string parser stores exactly
      the parameters of the string; lookups return them; content type, body and
      length are those of the message.
    - Output (BodyBuffer.v, Queue.v, Http.v, Response.v): for every sequence of calls
      of a service and flushes in between the bytes printed and the ranges of the files
      are delivered once and in order whatever the socket accepts, a range being cut
      only where its transfer failed ([response_delivered], [failed_transfer_dropped]);
      what is printed after a file overtakes it ([print_overtakes_file]); the write event ends the request
      exactly when nothing is left; headers are sent at most once; [printf]
      terminates.
    - Memory (Gc.v): every registered pointer is released once, up to the 64 of a new
      collector and beyond while growths bring in free cells; with used memory from
      [realloc] this fails ([gc_growth_stale_cells]).
    - Events (Event.v): the handlers refine one queue per descriptor; the registry
      of requests keeps its order, and loses requests when addresses and sockets
      are ordered differently.
    - Threads (Dthread.v): the invariant of the scheduler over all sequences of
      operations, freshness of identifiers, and first-in first-out delivery of
      channels for every interleaving, with the switches inside [chan_send] and
      [chan_recv] as explicit pending halves.
    - Digests and codecs: equality with RFC 4648, FIPS 180 SHA-1 and SHA-256, for
      any division of the message into updates, and the base64 round trip.
    - Websockets: frames, unmasking, handshake and broadcast against RFC 6455; over
      every interleaving of the threads of the broadcaster each message of at most 125
      bytes is sent once to each connection it is for whose worker's pipe took it
      ([broadcast_exactly_once]); a pipe that refuses it loses it
      ([refused_write_loses]), and longer ones overrun buffers ([long_broadcasts]).
    - Sessions (Session.v): the value of a cookie is found; a session that was
      created is found, read and destroyed by the client that sends its cookie
      back, whatever its expiration time, which is never compared with the clock; a long
      cookie overruns the buffer of the file name.
    - Services: which services [main] and [duda_service_create] load, with which
      paths; which ones the sections of the virtual hosts register, with every field,
      against a description of the sections (Conf.v); that
      the start of the server succeeds when all of them can be loaded and reads
      freed memory when one cannot (Launcher.v).
    - Database queries (MariadbSpec.v): whatever the order of new queries and read
      events and the delays of the packets, as long as the rows come with their
      header, all statements of a query but the last have a result set and a later
      one does not fail late ([good_server]), the callbacks are those the replies call for, in order
      ([queries_in_order]), and all of them have been made once the packets have
      come ([queries_complete]); a row that comes later loses the rest of its
      result ([late_row_loses_rest]).  The state of a connection always names
      the call suspended in the client library (MariadbState.v).  In a cooperative
      thread rows may come at any time (MariadbDthread.v).
    - Requests (Stage30.v, Redirect.v): a new request reaches the first service its
      URI names with a registered context that holds the parsed query string and
      URI; the files below /ddr get a path composed inside its buffer; a redirect
      answers with the location and a slash.
    - Log messages (Logger.v): a message is written once to the pipe of its context;
      a logger as it is created finds no context.
    - Connection pools (MariadbPool.v): the invariant of the counters over all
      sequences of takes, returns and failures, and the end of the shrinking loop.
    - Redis connections (Redis.v): from [connect] to the close event.
    - Redis protocol: the division of the bytes into feeds has no effect on replies
      and errors, for any stream ([redis_feed_division]); the replies a server encodes
      are those the client gets ([redis_replies_delivered]); a command has
      one argument per word of its format whatever bytes are interpolated, in a
      buffer of exactly its length, and is read back as these arguments
      ([redis_command_roundtrip]); pipelined commands are sent once and in order
      through any partial writes, and answered in order ([redis_pipeline]).  Arguments
      that are printed in quotes are read back ([args_roundtrip]).  A connection has one
      open descriptor or none ([redis_descriptors]).  The hash
      table refines a finite map ([dict_refines]).
    - Redis callbacks (RedisAsyncSpec.v): each command that is accepted has its
      callback called once, in order, with its reply or with [NULL]
      ([redis_callbacks_once]); a disconnect while replies are due, and a message
      nobody subscribed to, break this ([disconnect_with_replies_due],
      [stale_callback]).  Subscriptions are maps from channels and patterns to
      callbacks ([redis_subscriptions]).
    - TLS connections (SslsSpec.v): over every sequence of events each connection is
      registered, announced, served, closed and freed once and in this order
      ([ssls_connections]); a read callback is given bytes of other sessions
      ([other_session_bytes]).
    - JSON (JsonSpec.v, JsonSafe.v): what is printed is read back as the same value;
      the reader ends on every text and stays inside the text and its blocks unless
      there is a backslash; no block is lost; objects are maps from names.
      The body of a request is read, and what is printed for it is freed with it
      ([json_exchange]).

    ** Fuel and bounds

    Loops that are not structural take fuel: [uri_parse_loop] runs with
    [2 * len + 2] and [split_loop] with [strlen + 2] turns, since a turn
    consumes a byte or closes a field; RouterSpec.v proves these enough.
    [printf_loop] doubles its buffer, and [printf_terminates] gives the number of
    turns for texts below 1 GiB.  The handlers of packages/mariadb call each other;
    they run with [queue_cost] turns, one per packet, statement and query that
    is waiting, which MariadbSpec.v proves enough.  The shrinking loop of a pool
    runs with one turn more than the pool has connections.  The reader of JSON runs with
    [2 * length + 1] turns and that of redis with two more than there are unread
    bytes; the loop over a format has one more than its characters, the buffer of
    [sdscatvprintf] is doubled at most 32 times, the queue of callbacks is drained with
    one turn more than it has entries: the theorems prove these enough.  The loops of the
    blocking redis client run as long as the socket has results: without one the call does
    not return.  Statements bound lengths where the source keeps
    them in an [int] ([2 ^ 31]).  The capacity of the scheduler doubles in [Z]:
    each thread owns a stack, so memory ends long before [int] does.

    ** Not modelled

    Pure I/O and glue (the thread that writes log files, the text of the console's
    panels, statistics, debug, the tables of function pointers, the redirection of
    messages), the result of the lookup inside [duda_service_run], which gives it
    arguments of other types than it takes, and vendored code (SQLite, the TLS
    library, of the MariaDB client its network layer and all calls the package
    does not wait for, of cJSON the references between items).  In
    packages/mariadb the callbacks of a service are recorded and do not call the
    package back, and the copies of the credentials are not kept.
    The sources lib/duda_request.c, duda_request.h and duda_service.h are not
    part of the repository, and deps/monkey is an empty submodule.

    ** Plan

    The next components, in order: callbacks that call packages/mariadb
    back; the references of packages/json. *)

From Stdlib Require Export String Ascii ZArith Lia.
From stdpp Require Export prelude.

#[global] Open Scope Z_scope.

#[global] Arguments Z.eqb _ _ : simpl never.
#[global] Arguments Z.ltb _ _ : simpl never.
#[global] Arguments Z.leb _ _ : simpl never.
#[global] Arguments Z.add _ _ : simpl never.
#[global] Arguments Z.sub _ _ : simpl never.
#[global] Arguments Z.mul _ _ : simpl never.
#[global] Arguments Z.modulo _ _ : simpl never.
#[global] Arguments Z.div _ _ : simpl never.
#[global] Arguments Z.pow _ _ : simpl never.
#[global] Arguments Z.land _ _ : simpl never.
#[global] Arguments Z.lor _ _ : simpl never.
#[global] Arguments Z.lxor _ _ : simpl never.
#[global] Arguments Z.shiftl _ _ : simpl never.
#[global] Arguments Z.shiftr _ _ : simpl never.
#[global] Arguments Z.of_nat _ : simpl never.
#[global] Arguments Z.to_nat _ : simpl never.

(** ** Machine integers

    Integers are kept in [Z]; [wrap w] is the reduction a C conversion to an
    unsigned type of [w] bits performs, [swrap w] the two's complement one. *)

Definition wrap (w z : Z) : Z := z mod 2 ^ w.
Definition swrap (w z : Z) : Z := (z + 2 ^ (w - 1)) mod 2 ^ w - 2 ^ (w - 1).

Declare Scope duda_scope.
Delimit Scope duda_scope with duda.
Notation "x '∈u' w" := (0 <= x < 2 ^ w) (at level 70) : duda_scope.
Notation "x '∈s' w" := (- 2 ^ (w - 1) <= x < 2 ^ (w - 1)) (at level 70) : duda_scope.
#[global] Open Scope duda_scope.

Lemma wrap_small w x : x ∈u w -> wrap w x = x.
Proof. intros H. apply Z.mod_small, H. Qed.

Lemma wrap_range w x : 0 <= w -> wrap w x ∈u w.
Proof. intros H. apply Z.mod_pos_bound. lia. Qed.

Lemma swrap_wrap w x : 0 <= w -> swrap w (wrap w x) = swrap w x.
Proof. intros H. unfold swrap, wrap. rewrite Z.add_mod_idemp_l by lia. done. Qed.

Lemma swrap_small w x : 0 < w -> x ∈s w -> swrap w x = x.
Proof.
  intros Hw Hx. unfold swrap. rewrite Z.mod_small; [lia|].
  replace (2 ^ w) with (2 ^ (w - 1) + 2 ^ (w - 1)); [lia|].
  replace w with (Z.succ (w - 1)) at 3 by lia. rewrite Z.pow_succ_r by lia. lia.
Qed.

(** ** Bit operations as arithmetic *)

Lemma land_shiftl_low x y k : 0 <= k -> 0 <= y < 2 ^ k -> Z.land (Z.shiftl x k) y = 0.
Proof.
  intros Hk Hy. apply Z.bits_inj'. intros n Hn. rewrite Z.land_spec, Z.bits_0.
  destruct (Z.lt_ge_cases n k) as [Hlt|Hge].
  - by rewrite Z.shiftl_spec_low.
  - rewrite <- (Z.mod_small y (2 ^ k)) by lia.
    by rewrite Z.mod_pow2_bits_high, andb_false_r by lia.
Qed.

(** A disjunction of disjoint bit fields is a sum. *)
Lemma lor_shiftl_add x y k : 0 <= k -> 0 <= y < 2 ^ k ->
  Z.lor (Z.shiftl x k) y = x * 2 ^ k + y.
Proof.
  intros Hk Hy. pose proof (land_shiftl_low x y k Hk Hy) as Hz.
  by rewrite <- Z.lxor_lor, <- Z.add_nocarry_lxor, Z.shiftl_mul_pow2 by done.
Qed.

Lemma lor_range x y k : 0 <= k -> 0 <= x < 2 ^ k -> 0 <= y < 2 ^ k -> 0 <= Z.lor x y < 2 ^ k.
Proof.
  intros Hk Hx Hy. replace (Z.lor x y) with (Z.lor x y mod 2 ^ k); [apply Z.mod_pos_bound; lia|].
  apply Z.bits_inj'. intros n Hn. destruct (Z.lt_ge_cases n k).
  - by rewrite Z.mod_pow2_bits_low by lia.
  - rewrite Z.lor_spec, <- (Z.mod_small x (2 ^ k)), <- (Z.mod_small y (2 ^ k)) by lia.
    by rewrite !Z.mod_pow2_bits_high by lia.
Qed.

Lemma land_ones_mod x k : 0 <= k -> Z.land x (2 ^ k - 1) = x mod 2 ^ k.
Proof. intros Hk. rewrite <- Z.land_ones by done. f_equal. rewrite Z.ones_equiv. lia. Qed.

(** ** Faults

    A C function that may dereference [NULL], leave an array, or stop the
    process returns a [res].  The constructors name the event. *)

Inductive fault : Set :=
  | NullDeref
  | OutOfBounds
  | ExitFailure
  | AbortCall
  | AssertFail
  | UseAfterFree
  | Uninitialised
  | DivisionByZero.

#[export] Instance fault_eq_dec : EqDecision fault.
Proof. solve_decision. Defined.

Inductive res (A : Type) : Type :=
  | Ret (a : A)
  | Fault (f : fault).
Arguments Ret {A} a.
Arguments Fault {A} f.

#[export] Instance res_ret : MRet res := fun A a => Ret a.
#[export] Instance res_bind : MBind res := fun A B k m =>
  match m with Ret a => k a | Fault f => Fault f end.
#[export] Instance res_fmap : FMap res := fun A B g m =>
  match m with Ret a => Ret (g a) | Fault f => Fault f end.

Definition no_fault {A} (m : res A) : Prop := exists a, m = Ret a.

Lemma res_bind_inv {A B} (m : res A) (k : A -> res B) b :
  m ≫= k = Ret b -> exists a, m = Ret a /\ k a = Ret b.
Proof. destruct m; [eauto|done]. Qed.

(** ** Outcomes

    A function with fuel that may also fault: [NoFuel] when the fuel is not enough. *)

Inductive outcome (A : Type) : Type :=
  | Done (a : A)
  | Crash (f : fault)
  | NoFuel.
Arguments Done {A} a.
Arguments Crash {A} f.
Arguments NoFuel {A}.

#[export] Instance outcome_bind : MBind outcome := fun A B k m =>
  match m with Done a => k a | Crash f => Crash f | NoFuel => NoFuel end.

Definition of_res {A} (m : res A) : outcome A := match m with Ret a => Done a | Fault f => Crash f end.

Lemma outcome_bind_inv {A B} (m : outcome A) (k : A -> outcome B) b :
  m ≫= k = Done b -> exists a, m = Done a /\ k a = Done b.
Proof. destruct m; [eauto|done|done]. Qed.

(** ** Tactics *)

(** Opens the binds of an equation [H] with a returned value. *)
Ltac inv_res H := repeat
  match type of H with
  | (_ ≫= _) = Ret _ => apply res_bind_inv in H as (? & ? & H)
  | (let '(_, _) := ?p in _) = Ret _ => destruct p
  | (if ?b then _ else _) = Ret _ => destruct b eqn:?
  | Fault _ = Ret _ => discriminate H
  end.

Ltac dbool1 :=
  match goal with
  | |- context [ Z.eqb ?a ?b ] => destruct (Z.eqb_spec a b)
  | |- context [ Z.ltb ?a ?b ] => destruct (Z.ltb_spec a b)
  | |- context [ Z.leb ?a ?b ] => destruct (Z.leb_spec a b)
  | |- context [ Z.gtb ?a ?b ] => rewrite (Z.gtb_ltb a b)
  | |- context [ Z.geb ?a ?b ] => rewrite (Z.geb_leb a b)
  end.
Ltac dbool := repeat (dbool1; try lia); cbn [andb orb negb].

(** Arithmetic with division and modulus by constants. *)
Ltac lia_div := Z.to_euclidean_division_equations; lia.

(** Congruences of naturals modulo a constant. *)
Lemma nat_mod_eq (a b m : nat) : (0 < m)%nat -> (exists k, a = b + k * m)%nat -> (a mod m = b mod m)%nat.
Proof. intros Hm [k ->]. apply Nat.Div0.mod_add. Qed.

Ltac dbool_in H :=
  repeat match type of H with
  | context [ Z.eqb ?a ?b ] => destruct (Z.eqb_spec a b)
  | context [ Z.ltb ?a ?b ] => destruct (Z.ltb_spec a b)
  | context [ Z.leb ?a ?b ] => destruct (Z.leb_spec a b)
  end; cbn [andb orb negb] in H.

(** ** Hint databases *)

Create HintDb duda.
Create HintDb duda_list.

(** ** Lists *)

Section lists.
Context {A : Type}.
Implicit Types l : list A.

Lemma drop_lookup_cons l i x :
  l !! i = Some x -> drop i l = x :: drop (S i) l.
Proof. intros H. by rewrite (drop_S l x i H). Qed.

Lemma list_split_lookup l i x :
  l !! i = Some x -> l = take i l ++ x :: drop (S i) l.
Proof. intros H. by rewrite (take_drop_middle l i x H). Qed.

Lemma take_drop_take l n k m : (k + n <= m)%nat ->
  take n (drop k (take m l)) = take n (drop k l).
Proof. intros H. rewrite skipn_firstn_comm, take_take. f_equal. lia. Qed.

Lemma length_drop_lt l i : (i < length l)%nat -> drop i l <> [].
Proof. intros H E. apply (f_equal length) in E. rewrite length_drop in E. simpl in E. lia. Qed.
End lists.

(** Position of the first element satisfying a boolean test. *)
Fixpoint find_index {A} (p : A -> bool) (l : list A) : option nat :=
  match l with
  | [] => None
  | x :: l' => if p x then Some 0%nat else S <$> find_index p l'
  end.

Section find_index.
Context {A : Type} (p : A -> bool).

Lemma find_index_Some l i :
  find_index p l = Some i ->
  exists x, l !! i = Some x /\ p x = true /\
    forall j y, (j < i)%nat -> l !! j = Some y -> p y = false.
Proof.
  revert i; induction l as [|x l IH]; intros i; simpl; [done|].
  destruct (p x) eqn:E.
  - intros [= <-]. exists x. repeat split; auto. intros; lia.
  - destruct (find_index p l) as [k|]; simpl; [|done]. intros [= <-].
    destruct (IH k eq_refl) as (y & Hy & Hp & Hlt). exists y. repeat split; auto.
    intros [|j] z Hj Hz; simpl in Hz; [congruence|]. eapply Hlt; [|done]; lia.
Qed.

Lemma find_index_None l :
  find_index p l = None <-> forall x, x ∈ l -> p x = false.
Proof.
  induction l as [|x l IH]; simpl; split.
  - intros _ x Hx. by apply not_elem_of_nil in Hx.
  - done.
  - destruct (p x) eqn:E; [done|].
    destruct (find_index p l); simpl; [done|]. intros _ y Hy.
    apply elem_of_cons in Hy as [->|Hy]; [done|]. by apply IH.
  - intros H. rewrite (H x) by left.
    destruct (find_index p l); simpl; [|done].
    exfalso. assert (E : Some n = None) by (apply IH; intros; apply H; by right). done.
Qed.

Lemma find_index_lt l i : find_index p l = Some i -> (i < length l)%nat.
Proof.
  intros H. apply find_index_Some in H as (x & Hx & _).
  by apply lookup_lt_Some in Hx.
Qed.
End find_index.

(** Exhaustive checking of a range of integers. *)
Lemma range_check (P : Z -> bool) (n : nat) :
  forallb P (Z.of_nat <$> seq 0 n) = true -> forall i, 0 <= i < Z.of_nat n -> P i = true.
Proof.
  intros H i Hi. rewrite forallb_forall in H. apply H.
  apply list_elem_of_In, list_elem_of_fmap. exists (Z.to_nat i).
  split; [lia|]. apply elem_of_seq. lia.
Qed.

(** Induction by groups of three elements. *)
Lemma list_ind3 {A} (P : list A -> Prop) :
  P [] -> (forall a, P [a]) -> (forall a b, P [a; b]) ->
  (forall a b c l, P l -> P (a :: b :: c :: l)) -> forall l, P l.
Proof.
  intros H0 H1 H2 H3. fix IH 1. intros [|a [|b [|c l]]]; [done|done|done|].
  apply H3, IH.
Qed.

(** ** Bytes and string literals *)

Definition is_byte (c : Z) : Prop := 0 <= c < 256.

#[export] Instance is_byte_dec c : Decision (is_byte c).
Proof. unfold is_byte. apply _. Defined.

Definition Zascii (a : ascii) : Z := Z.of_N (N_of_ascii a).

(** [cs "abc"] is the character array of the C literal, without its final NUL. *)
Definition cs (s : string) : list Z := Zascii <$> list_ascii_of_string s.
Definition ch (a : ascii) : Z := Zascii a.

Lemma Zascii_byte a : is_byte (Zascii a).
Proof. unfold is_byte, Zascii. pose proof (N_ascii_bounded a). lia. Qed.
#[export] Hint Resolve Zascii_byte : duda.
