(* ===== verification/CString.v ===== *)
(** * C strings and the Monkey string interface

    A [char *] is the list of the bytes from the pointer up to, and without,
    the terminating NUL of the buffer it points into; reading past the list
    reads that NUL.  [mk_ptr_t] adds a length.  The first part translates the
    C library functions the sources use.  The second part is the interface of
    Monkey's string helpers, whose code is not part of the repository: a class
    of operations and a class of the laws the callers rely on. *)

From S2P Require Import Prelude.

(** ** C library *)

Definition char_at (s : list Z) (i : nat) : Z := default 0 (s !! i).

Fixpoint strlen (s : list Z) : nat :=
  match s with
  | [] => 0%nat
  | c :: s' => if c =? 0 then 0%nat else S (strlen s')
  end.

Fixpoint strncmp (a b : list Z) (n : nat) : Z :=
  match n with
  | O => 0
  | S n' =>
      let ca := default 0 (head a) in
      let cb := default 0 (head b) in
      if ca =? cb then if ca =? 0 then 0 else strncmp (tail a) (tail b) n'
      else ca - cb
  end.

(** Letters and blanks of the C locale. *)
Definition isspace (c : Z) : bool := (c =? 32) || ((9 <=? c) && (c <=? 13)).

Fixpoint skip_spaces (s : list Z) : list Z :=
  match s with
  | [] => []
  | c :: s' => if isspace c then skip_spaces s' else s
  end.

Definition tolower (c : Z) : Z := if (65 <=? c) && (c <=? 90) then c + 32 else c.

(** [strstr s [c]] for a one character needle: the suffix at its first
    occurrence, or [NULL]. *)
Fixpoint strstr1 (s : list Z) (c : Z) : option (list Z) :=
  match s with
  | [] => None
  | d :: s' => if d =? 0 then None else if d =? c then Some s else strstr1 s' c
  end.

(** ** Well-formed strings *)

(** A NUL-free string: the list is exactly what [strlen] measures. *)
Definition cstr (s : list Z) : Prop := Forall (fun c => 0 < c < 256) s.

#[export] Instance cstr_dec s : Decision (cstr s).
Proof. unfold cstr. apply _. Defined.

Record mk_ptr_t := mk_ptr { data : list Z; len : Z }.

(** The bytes an [mk_ptr_t] denotes. *)
Definition ptr_bytes (p : mk_ptr_t) : list Z := take (Z.to_nat (len p)) (data p).

Definition ptr_ok (p : mk_ptr_t) : Prop :=
  cstr (data p) /\ 0 <= len p <= Z.of_nat (length (data p)).

Lemma cstr_nil : cstr [].
Proof. by apply Forall_nil. Qed.
#[export] Hint Resolve cstr_nil : core duda.

Section cstrings.
Implicit Types s a b : list Z.

Lemma cstr_app a b : cstr (a ++ b) <-> cstr a /\ cstr b.
Proof. apply Forall_app. Qed.

Lemma cstr_take n s : cstr s -> cstr (take n s).
Proof. apply Forall_take. Qed.

Lemma cstr_drop n s : cstr s -> cstr (drop n s).
Proof. apply Forall_drop. Qed.

Lemma cstr_cons c s : cstr (c :: s) <-> 0 < c < 256 /\ cstr s.
Proof. unfold cstr. by rewrite Forall_cons. Qed.

Lemma strlen_cstr s : cstr s -> strlen s = length s.
Proof.
  induction 1 as [|c s Hc _ IH]; simpl; [done|].
  destruct (Z.eqb_spec c 0); [lia|]. by rewrite IH.
Qed.

Lemma char_at_cstr s i : cstr s -> char_at s i = 0 <-> (length s <= i)%nat.
Proof.
  unfold char_at. intros Hs. destruct (s !! i) as [c|] eqn:E; simpl.
  - pose proof (Forall_lookup_1 _ _ _ _ Hs E) as Hc. simpl in Hc.
    apply lookup_lt_Some in E. lia.
  - apply lookup_ge_None in E. lia.
Qed.

(** [strncmp] tests equality of the first [n] bytes. *)
Lemma strncmp_take a b n :
  cstr a -> cstr b -> strncmp a b n = 0 <-> take n a = take n b.
Proof.
  revert a b; induction n as [|n IH]; intros a b Ha Hb; [done|].
  destruct a as [|x a], b as [|y b]; simpl.
  - done.
  - apply cstr_cons in Hb as [Hy _]. dbool. split; [lia|done].
  - apply cstr_cons in Ha as [Hx _]. dbool. split; [lia|done].
  - apply cstr_cons in Ha as [Hx Ha], Hb as [Hy Hb]. dbool.
    + subst. rewrite IH by done. split; [by intros ->|by intros [= ->]].
    + split; [lia|]. intros [= ? _]; congruence.
Qed.

Lemma strncmp_prefix u p :
  cstr u -> cstr p -> strncmp u p (length p) = 0 <-> p `prefix_of` u.
Proof.
  intros Hu Hp. rewrite strncmp_take by done. rewrite (take_ge p) by lia. split.
  - intros E. exists (drop (length p) u). by rewrite <- E at 1; rewrite take_drop.
  - intros [k ->]. by rewrite take_app_length.
Qed.

Lemma strstr1_None s c :
  cstr s -> strstr1 s c = None <-> c ∉ s.
Proof.
  induction 1 as [|d s Hd _ IH]; simpl; [split; [intros _; apply not_elem_of_nil|done]|].
  rewrite not_elem_of_cons. dbool.
  - split; [done|]. intros [? _]; congruence.
  - rewrite IH. split; [intros ?; split; [congruence|done]|tauto].
Qed.
End cstrings.

#[export] Hint Resolve cstr_take cstr_drop : duda.

(** ** Monkey's string helpers *)

(** [mk_string_char_search s c n] is the position of the first [c] among the
    first [n] bytes of [s], or [-1]; [mk_string_copy_substr s a b] is a fresh
    copy of the bytes [a .. b - 1]; [mk_string_dup] a fresh copy;
    [mk_string_search_n] the position of a string in another, or [-1]. *)
Class MkString := {
  mk_string_char_search : list Z -> Z -> Z -> Z;
  mk_string_copy_substr : list Z -> Z -> Z -> list Z;
  mk_string_dup : list Z -> list Z;
}.

Class MkStringSpec `{MkString} : Prop := {
  char_search_found s c n r :
    mk_string_char_search s c n = r -> 0 <= n -> r <> -1 ->
    0 <= r < n /\ s !! Z.to_nat r = Some c /\ c ∉ take (Z.to_nat r) s;
  char_search_absent s c n :
    mk_string_char_search s c n = -1 -> 0 <= n -> c ∉ take (Z.to_nat n) s;
  copy_substr_bytes s a b :
    0 <= a <= b -> b <= Z.of_nat (length s) ->
    mk_string_copy_substr s a b = take (Z.to_nat (b - a)) (drop (Z.to_nat a) s);
  dup_same s : cstr s -> mk_string_dup s = s;
}.

(** A reference implementation, for evaluation. *)
Module RefString.
Definition char_search (s : list Z) (c n : Z) : Z :=
  match find_index (Z.eqb c) (take (Z.to_nat n) s) with
  | Some i => Z.of_nat i
  | None => -1
  end.
Definition copy_substr (s : list Z) (a b : Z) : list Z :=
  take (Z.to_nat (b - a)) (drop (Z.to_nat a) s).
Definition ops : MkString :=
  {| mk_string_char_search := char_search;
     mk_string_copy_substr := copy_substr;
     mk_string_dup := id |}.

Lemma string_spec : @MkStringSpec ops.
Proof.
  split; simpl; unfold char_search.
  - intros s c n r Hr Hn Hne.
    destruct (find_index _ _) as [i|] eqn:E; [|lia]. subst r.
    pose proof (find_index_lt _ _ _ E) as Hlt. rewrite length_take in Hlt.
    apply find_index_Some in E as (x & Hx & Hp & Hbefore).
    apply Z.eqb_eq in Hp as <-.
    rewrite Nat2Z.id. split; [lia|]. split.
    + by apply lookup_take_Some in Hx as [? _].
    + intros Hin. apply list_elem_of_lookup in Hin as [j Hj].
      apply lookup_take_Some in Hj as [Hj Hji].
      assert (Hf : (c =? c) = false)
        by (eapply (Hbefore j); [lia|]; rewrite lookup_take_lt by lia; done).
      lia.
  - intros s c n Hr Hn.
    destruct (find_index _ _) as [i|] eqn:E; [lia|].
    intros Hin. rewrite find_index_None in E. apply E in Hin. lia.
  - done.
  - done.
Qed.
End RefString.
