(* ===== verification/Router.v ===== *)
(** * The router (lib/objects/duda_router.c)

    Registration of routes ([duda_router_map]), splitting of patterns, parsing
    of the request URI into at most [DUDA_ROUTER_URI_MAX] fields, and the
    lookup of the rule that serves a request. *)

From S2P Require Import Prelude CString.

Definition slash : Z := ch "/".
Definition colon : Z := ch ":".

(** ** Data *)

Inductive route_type := DUDA_ROUTER_STATIC | DUDA_ROUTER_DYNAMIC.
Inductive field_type := DUDA_ROUTER_FKEY | DUDA_ROUTER_FVAR.

Inductive lookup_code := DUDA_ROUTER_NOTFOUND | DUDA_ROUTER_MATCH | DUDA_ROUTER_REDIRECT.

Record duda_router_field := mk_field {
  ftype : field_type;
  fname_len : Z;
  fname : list Z;
}.

Record duda_router_path (CB : Type) := mk_path {
  ptype : route_type;
  pattern : list Z;
  pattern_len : Z;
  redirect : bool;
  fields : list duda_router_field;
  callback_name : list Z;
  callback : CB;
}.
Arguments mk_path {CB}.
Arguments ptype {CB}.
Arguments pattern {CB}.
Arguments pattern_len {CB}.
Arguments redirect {CB}.
Arguments fields {CB}.
Arguments callback_name {CB}.
Arguments callback {CB}.

Definition DUDA_ROUTER_URI_MAX : nat := 32.

(** A field of a parsed URI: the pointer into the URI and the length. *)
Record duda_router_uri_field := mk_uri_field { uname : list Z; uname_len : Z }.

(** [router_uri.fields[0 .. len-1]]. *)
Abbreviation duda_router_uri := (list duda_router_uri_field).

(** ** Operations *)

Section router.
Context {CB : Type} `{MkString}.

(** The pattern of length zero makes the code read the byte before the
    string. *)
Definition router_new_path (pat : list Z) (cb : CB) (ty : route_type)
    (fs : list duda_router_field) : res (duda_router_path CB) :=
  let plen := Z.of_nat (strlen pat) in
  let dup := mk_string_dup pat in
  if plen =? 0 then Fault OutOfBounds
  else Ret (mk_path ty dup plen
              (char_at dup (Z.to_nat (plen - 1)) =? slash) fs [] cb).

Definition router_add_static (pat : list Z) (cb : CB)
    (l : list (duda_router_path CB)) : res (Z * list (duda_router_path CB)) :=
  path ← router_new_path pat cb DUDA_ROUTER_STATIC [];
  Ret (0, l ++ [path]).

(** One turn of the [while (i < len)] loop per unit of fuel. *)
Fixpoint split_loop (fuel : nat) (pat : list Z) (plen i : Z)
    (acc : list (list Z * Z)) : option (list (list Z * Z)) :=
  match fuel with
  | O => None
  | S fuel' =>
      if i <? plen then
        let e := mk_string_char_search (drop (Z.to_nat i) pat) slash (plen - i) in
        if (0 <=? e) && (e + i <? plen) then
          let e := e + i in
          if i =? e then split_loop fuel' pat plen (i + 1) acc
          else split_loop fuel' pat plen (e + 1)
                 (acc ++ [(mk_string_copy_substr pat i e, e - i)])
        else split_loop fuel' pat plen (plen + 1)
               (acc ++ [(mk_string_copy_substr pat i plen, plen - i)])
      else Some acc
  end.

Definition router_split_pattern (pat : list Z) : option (list (list Z * Z)) :=
  split_loop (S (S (strlen pat))) pat (Z.of_nat (strlen pat)) 0 [].

Definition field_of_line (entry : list Z * Z) : duda_router_field :=
  mk_field (if char_at entry.1 0 =? colon then DUDA_ROUTER_FVAR else DUDA_ROUTER_FKEY)
           entry.2 (mk_string_dup entry.1).

Definition router_add_dynamic (pat : list Z) (cb : CB)
    (l : list (duda_router_path CB)) : res (Z * list (duda_router_path CB)) :=
  if negb (char_at pat 0 =? slash) then Ret (-1, l)
  else
    match router_split_pattern pat with
    | None => Ret (-1, l)
    | Some plist =>
        path ← router_new_path pat cb DUDA_ROUTER_DYNAMIC (field_of_line <$> plist);
        Ret (0, l ++ [path])
    end.

(** [router->map]: a [NULL] argument is [None]. *)
Definition duda_router_map (l : list (duda_router_path CB))
    (pat : option (list Z)) (cb : option CB)
    : res (Z * list (duda_router_path CB)) :=
  match pat, cb with
  | Some pat, Some cb =>
      match strstr1 pat colon with
      | None => router_add_static pat cb l
      | Some _ => router_add_dynamic pat cb l
      end
  | _, _ => Ret (-1, l)
  end.

Definition uri_add (ruri : duda_router_uri) (buf : list Z) (size : Z)
    : Z * duda_router_uri :=
  if (DUDA_ROUTER_URI_MAX <=? length ruri)%nat then (-1, ruri)
  else (0, ruri ++ [mk_uri_field buf size]).

(** The [for (; i < len; i++)] loop of [duda_router_uri_parse]: [i--] on a
    slash that closes a field makes the next turn see the same slash again,
    so a turn consumes either a byte or an open [start]. *)
Fixpoint uri_parse_loop (fuel : nat) (uri : list Z) (ulen i start : Z)
    (ruri : duda_router_uri) : option (Z * duda_router_uri) :=
  match fuel with
  | O => None
  | S fuel' =>
      if i <? ulen then
        if negb (char_at uri (Z.to_nat i) =? slash) then
          uri_parse_loop fuel' uri ulen (i + 1) start ruri
        else if start =? -1 then
          uri_parse_loop fuel' uri ulen (i + 1) i ruri
        else
          let e := i in
          let i := i - 1 in
          let size := e - start - 1 in
          if size <=? 0 then uri_parse_loop fuel' uri ulen (i + 1) (-1) ruri
          else uri_parse_loop fuel' uri ulen (i + 1) (-1)
                 (uri_add ruri (drop (Z.to_nat (start + 1)) uri) size).2
      else Some (start, ruri)
  end.

(** The length is an [int] in the code: the URI is shorter than 2 GiB. *)
Definition duda_router_uri_parse (uri : mk_ptr_t) : option duda_router_uri :=
  match uri_parse_loop (2 * Z.to_nat (len uri) + 2) (data uri) (len uri) 0 (-1) [] with
  | None => None
  | Some (start, ruri) =>
      if 0 <=? start then
        let size := len uri - start - 1 in
        if 0 <? size
        then Some (uri_add ruri (drop (Z.to_nat (start + 1)) (data uri)) size).2
        else Some ruri
      else Some ruri
  end.

(** The test of one dynamic rule, starting at field [i] with the current
    value of [match]. *)
Fixpoint dyn_match (fs : list duda_router_field) (ruri : duda_router_uri)
    (i : nat) (m : bool) : bool :=
  match fs with
  | [] => m
  | field :: fs' =>
      match ruri !! i with
      | None => false                       (* i == dr->router_uri.len *)
      | Some u =>
          match ftype field with
          | DUDA_ROUTER_FKEY =>
              if (strncmp (fname field) (uname u) (Z.to_nat (fname_len field)) =? 0)
                 && (fname_len field =? uname_len u)
              then dyn_match fs' ruri (S i) true
              else false
          | DUDA_ROUTER_FVAR => dyn_match fs' ruri (S i) m
          end
      end
  end.

(** The loop over the fields of a dynamic rule: it follows [dr] at its first turn. *)
Definition dyn_test (dr : option duda_router_uri) (fs : list duda_router_field) : res bool :=
  match fs, dr with
  | [], _ => Ret false
  | _ :: _, None => Fault NullDeref
  | _ :: _, Some ruri => Ret (dyn_match fs ruri 0 false)
  end.

(** [duda_router_redirect] (Redirect.v) follows [dr]; here it is the fact that it runs. *)
Definition redirect_answer (dr : option duda_router_uri) : res (lookup_code * option (duda_router_path CB)) :=
  match dr with
  | None => Fault NullDeref
  | Some _ => Ret (DUDA_ROUTER_REDIRECT, None)
  end.

(** The local [dr] is initialised to [NULL] and never assigned. *)
Fixpoint duda_router_path_lookup (rules : list (duda_router_path CB)) (uri : mk_ptr_t)
    : res (lookup_code * option (duda_router_path CB)) :=
  let dr : option duda_router_uri := None in
  match rules with
  | [] => Ret (DUDA_ROUTER_NOTFOUND, None)
  | p :: rules' =>
      match ptype p with
      | DUDA_ROUTER_STATIC =>
          if strncmp (data uri) (pattern p) (Z.to_nat (pattern_len p)) =? 0
          then Ret (DUDA_ROUTER_MATCH, Some p)
          else if redirect p
            && (strncmp (data uri) (pattern p) (Z.to_nat (pattern_len p - 1)) =? 0)
            && (len uri <=? pattern_len p)
          then redirect_answer dr
          else duda_router_path_lookup rules' uri
      | DUDA_ROUTER_DYNAMIC =>
          m ← dyn_test dr (fields p);
          match m with
          | true => Ret (DUDA_ROUTER_MATCH, Some p)
          | false => duda_router_path_lookup rules' uri
          end
      end
  end.
End router.

(** [ws->is_root], [ws->fixed_name] and the processed URI decide whether the
    request is for the root of the service. *)
Definition duda_router_is_request_root (is_root : bool) (fixed_name uri : mk_ptr_t) : bool :=
  if is_root && (len uri =? 1) then true
  else if negb is_root
      && (strncmp (drop 1 (data uri)) (data fixed_name) (Z.to_nat (len fixed_name)) =? 0)
  then (len uri - 1 =? len fixed_name)
    || ((char_at (data uri) (Z.to_nat (len fixed_name + 1)) =? slash)
        && (len uri <=? len fixed_name + 2))
  else false.

(** ** URI parameters (lib/objects/duda_param.c) *)

Section param.
Context `{MkString}.

(** The [mk_list_foreach] of [get_param_position], from field [i].  The
    comparison of the field type with [DUDA_ROUTER_DYNAMIC] in the source is a
    comparison with the value of [DUDA_ROUTER_FVAR]. *)
Fixpoint param_position_from (fs : list duda_router_field) (key : list Z) (i : Z) : Z :=
  match fs with
  | [] => -1
  | f :: fs' =>
      match ftype f with
      | DUDA_ROUTER_FKEY => param_position_from fs' key (i + 1)
      | DUDA_ROUTER_FVAR =>
          if negb (Z.of_nat (strlen key) =? fname_len f - 1)
          then param_position_from fs' key (i + 1)
          else if strncmp (drop 1 (fname f)) key (strlen key) =? 0 then i
          else param_position_from fs' key (i + 1)
      end
  end.

Definition get_param_position (fs : list duda_router_field) (key : option (list Z)) : Z :=
  match key with
  | None => -1
  | Some key => param_position_from fs key 0
  end.

(** [dr->router_uri.fields[match]]: the array has [DUDA_ROUTER_URI_MAX] cells,
    only the first [len] of them are written. *)
Definition uri_cell (ruri : duda_router_uri) (k : Z) : res duda_router_uri_field :=
  match ruri !! Z.to_nat k with
  | Some f => Ret f
  | None => Fault OutOfBounds
  end.

(** [None] is the [NULL] return.  A copy that succeeded is also handed to the
    garbage collector: the second component is what is registered there. *)
Definition duda_param_get {CB} (router_path : option (duda_router_path CB))
    (ruri : duda_router_uri) (key : option (list Z))
    : res (option (list Z) * list (list Z)) :=
  match key, router_path with
  | None, _ | _, None => Ret (None, [])
  | Some key, Some path =>
      let k := get_param_position (fields path) (Some key) in
      if 0 <=? k then
        field ← uri_cell ruri k;
        let value := mk_string_copy_substr (uname field) 0 (uname_len field) in
        Ret (Some value, [value])
      else Ret (None, [])
  end.
End param.
