(* ===== verification/RouterSpec.v ===== *)
(** * Correctness of the router

    The reference notion is the list of non-empty segments of a path; both
    the pattern splitter and the URI parser are shown to compute it, and the
    lookup to be matching over segments. *)

From S2P Require Import Prelude CString Router.

(** ** Segments of a path *)

Fixpoint segs_aux (cur s : list Z) : list (list Z) :=
  match s with
  | [] => match cur with [] => [] | _ => [cur] end
  | c :: s' =>
      if c =? slash
      then match cur with [] => segs_aux [] s' | _ => cur :: segs_aux [] s' end
      else segs_aux (cur ++ [c]) s'
  end.

Definition segments (s : list Z) : list (list Z) := segs_aux [] s.

(** The singleton of a non-empty segment. *)
Definition ne (a : list Z) : list (list Z) := match a with [] => [] | _ => [a] end.

(** The segments that follow the first slash. *)
Definition rooted_segments (s : list Z) : list (list Z) :=
  match find_index (Z.eqb slash) s with
  | Some k => segments (drop (S k) s)
  | None => []
  end.

Section segments.
Implicit Types a s cur : list Z.

Lemma segs_noslash cur a s :
  slash ∉ a -> segs_aux cur (a ++ s) = segs_aux (cur ++ a) s.
Proof.
  revert cur; induction a as [|c a IH]; intros cur Ha; simpl; [by rewrite app_nil_r|].
  apply not_elem_of_cons in Ha as [Hc Ha].
  destruct (Z.eqb_spec c slash); [congruence|]. rewrite IH by done.
  by rewrite <- app_assoc.
Qed.

Lemma segments_slash a s :
  slash ∉ a -> segments (a ++ slash :: s) = ne a ++ segments s.
Proof.
  intros Ha. unfold segments. rewrite segs_noslash by done. simpl.
  by destruct a.
Qed.

Lemma segments_last a : slash ∉ a -> segments a = ne a.
Proof.
  intros Ha. unfold segments. rewrite <- (app_nil_r a) at 1.
  rewrite segs_noslash by done. by destruct a.
Qed.

Lemma segments_lead s : segments (slash :: s) = segments s.
Proof. exact (segments_slash [] s (not_elem_of_nil _)). Qed.

Lemma segments_rooted s :
  head s = Some slash -> rooted_segments s = segments s.
Proof.
  destruct s as [|c s]; [done|]. intros [= ->].
  unfold rooted_segments. simpl. by rewrite segments_lead.
Qed.

Lemma rooted_segments_skip c s :
  c <> slash -> rooted_segments (c :: s) = rooted_segments s.
Proof.
  intros Hc. unfold rooted_segments. simpl.
  destruct (Z.eqb_spec slash c); [congruence|].
  by destruct (find_index _ s).
Qed.

(** Every segment is a non-empty slash-free run of bytes of the path. *)
Lemma segs_aux_parts cur s x :
  slash ∉ cur -> x ∈ segs_aux cur s -> x <> [] /\ slash ∉ x.
Proof.
  revert cur; induction s as [|c s IH]; intros cur Hcur Hx; simpl in Hx.
  - destruct cur; [by apply not_elem_of_nil in Hx|].
    apply list_elem_of_singleton in Hx as ->. done.
  - destruct (Z.eqb_spec c slash) as [->|Hc].
    + destruct cur as [|d cur]; [by eapply (IH []); [apply not_elem_of_nil|]|].
      apply elem_of_cons in Hx as [->|Hx]; [done|].
      eapply (IH []); [apply not_elem_of_nil|done].
    + apply (IH (cur ++ [c])); [|done].
      rewrite not_elem_of_app, list_elem_of_singleton. split; congruence.
Qed.

Lemma segments_parts s x : x ∈ segments s -> x <> [] /\ slash ∉ x.
Proof. apply segs_aux_parts, not_elem_of_nil. Qed.

Lemma segs_aux_cstr cur s x : cstr cur -> cstr s -> x ∈ segs_aux cur s -> cstr x.
Proof.
  revert cur; induction s as [|c s IH]; intros cur Hcur Hs Hx; simpl in Hx.
  - destruct cur; [by apply not_elem_of_nil in Hx|].
    by apply list_elem_of_singleton in Hx as ->.
  - apply cstr_cons in Hs as [Hc Hs]. dbool_in Hx.
    + destruct cur as [|d cur]; [by eapply (IH [])|].
      apply elem_of_cons in Hx as [->|Hx]; [done|]. by eapply (IH []).
    + eapply (IH (cur ++ [c])); [|done..]. apply cstr_app. split; [done|].
      by apply cstr_cons.
Qed.

Lemma segments_cstr s x : cstr s -> x ∈ segments s -> cstr x.
Proof. intros Hs. apply segs_aux_cstr; [by apply Forall_nil|done]. Qed.
End segments.

(** ** The pattern splitter *)

Definition seg_line (a : list Z) : list Z * Z := (a, Z.of_nat (length a)).

Section split.
Context `{HS : MkStringSpec}.

Lemma split_loop_ok fuel pat i acc :
  0 <= i -> (Z.to_nat (Z.of_nat (length pat) + 1 - i) < fuel)%nat ->
  split_loop fuel pat (Z.of_nat (length pat)) i acc
  = Some (acc ++ (seg_line <$> segments (drop (Z.to_nat i) pat))).
Proof.
  revert i acc; induction fuel as [|fuel IH]; intros i acc Hi Hf; [lia|]. simpl.
  destruct (Z.ltb_spec i (Z.of_nat (length pat))) as [Hlt|Hge]; cycle 1.
  { rewrite drop_ge by lia. simpl. by rewrite app_nil_r. }
  set (e := mk_string_char_search _ _ _).
  destruct (decide (e = -1)) as [He|He].
  - rewrite He. cbn [andb Z.leb]. change (0 <=? -1) with false. cbn [andb].
    pose proof (char_search_absent _ _ _ He ltac:(lia)) as Habs.
    rewrite take_ge in Habs by (rewrite length_drop; lia).
    rewrite IH by lia. rewrite (drop_ge pat (Z.to_nat (_ + 1))) by lia.
    rewrite (segments_last (drop _ _)) by done.
    assert (drop (Z.to_nat i) pat <> []) as Hne by (apply length_drop_lt; lia).
    rewrite copy_substr_bytes by lia. rewrite take_ge by (rewrite length_drop; lia).
    destruct (drop (Z.to_nat i) pat) as [|x l] eqn:E; [done|]. simpl.
    rewrite app_nil_r. do 3 f_equal. unfold seg_line. f_equal.
    rewrite <- E, length_drop. lia.
  - destruct (char_search_found _ _ _ e eq_refl ltac:(lia) He) as (Hr & Hat & Hbefore).
    assert (Hcond : (0 <=? e) && (e + i <? Z.of_nat (length pat)) = true) by lia.
    rewrite Hcond. rewrite lookup_drop in Hat.
    assert (Hdrop : drop (Z.to_nat i) pat
      = take (Z.to_nat e) (drop (Z.to_nat i) pat) ++ slash :: drop (Z.to_nat (e + i + 1)) pat).
    { rewrite <- (take_drop (Z.to_nat e) (drop (Z.to_nat i) pat)) at 1. f_equal.
      rewrite drop_drop. rewrite (drop_lookup_cons _ _ _ Hat). do 2 f_equal. lia. }
    destruct (Z.eqb_spec i (e + i)) as [Hz|Hnz].
    + rewrite IH by lia. rewrite Hdrop. assert (e = 0) as -> by lia.
      simpl. rewrite segments_lead. do 4 f_equal; lia.
    + rewrite IH by lia. rewrite Hdrop, segments_slash by done.
      rewrite copy_substr_bytes by lia.
      assert (Hl : length (take (Z.to_nat e) (drop (Z.to_nat i) pat)) = Z.to_nat e)
        by (rewrite length_take, length_drop; lia).
      destruct (take (Z.to_nat e) (drop (Z.to_nat i) pat)) as [|x l] eqn:E;
        [simpl in Hl; lia|].
      simpl. rewrite <- app_assoc. simpl. do 3 f_equal.
      unfold seg_line. rewrite Hl. f_equal; [|lia].
      rewrite <- E. f_equal. lia.
Qed.

Lemma router_split_pattern_ok pat :
  cstr pat -> router_split_pattern pat = Some (seg_line <$> segments pat).
Proof.
  intros Hp. unfold router_split_pattern. rewrite strlen_cstr by done.
  rewrite split_loop_ok by lia. by rewrite drop_0.
Qed.
End split.

(** ** The URI parser *)

(** A parsed field denotes a segment. *)
Definition field_rep (u : duda_router_uri_field) (a : list Z) : Prop :=
  uname_len u = Z.of_nat (length a) /\ take (length a) (uname u) = a /\ cstr (uname u).

Definition add_seg (l : list (list Z)) (a : list Z) : list (list Z) :=
  if (DUDA_ROUTER_URI_MAX <=? length l)%nat then l else l ++ [a].

Lemma foldl_add_seg l segs :
  (length l <= DUDA_ROUTER_URI_MAX)%nat ->
  foldl add_seg l segs = take DUDA_ROUTER_URI_MAX (l ++ segs).
Proof.
  revert l; induction segs as [|a segs IH]; intros l Hl; simpl.
  - rewrite app_nil_r, take_ge; done.
  - unfold add_seg at 2. destruct (Nat.leb_spec DUDA_ROUTER_URI_MAX (length l)) as [Hge|Hlt].
    + rewrite IH by done. assert (HE : length l = DUDA_ROUTER_URI_MAX) by lia.
      rewrite <- HE, !take_app_length. done.
    + rewrite IH by (rewrite length_app; simpl; lia). by rewrite <- app_assoc.
Qed.

Section uri_parse.
Implicit Types uri : list Z.

Lemma uri_add_rep ruri l buf a size :
  Forall2 field_rep ruri l -> size = Z.of_nat (length a) ->
  take (length a) buf = a -> cstr buf ->
  Forall2 field_rep (uri_add ruri buf size).2 (add_seg l a).
Proof.
  intros HF -> Ha Hb. unfold uri_add, add_seg.
  rewrite (Forall2_length _ _ _ HF).
  destruct (_ <=? _)%nat; simpl; [done|].
  apply Forall2_app; [done|]. repeat constructor; done.
Qed.

(** What is still to be added, from position [i] with the pending [start]. *)
Definition pending (s : list Z) (i start : Z) : list (list Z) :=
  if start =? -1 then rooted_segments (drop (Z.to_nat i) s)
  else segments (drop (Z.to_nat (start + 1)) s).

Definition start_ok (s : list Z) (i start : Z) : Prop :=
  start = -1 \/
  (0 <= start < i /\ slash ∉ drop (Z.to_nat (start + 1)) (take (Z.to_nat i) s)).

Lemma start_ok_step s i start c :
  0 <= i -> s !! Z.to_nat i = Some c -> c <> slash ->
  start_ok s i start -> start_ok s (i + 1) start.
Proof.
  intros Hi Hc Hne [->|[Hs Hno]]; [by left|]. right. split; [lia|].
  replace (Z.to_nat (i + 1)) with (S (Z.to_nat i)) by lia.
  rewrite (take_S_r _ _ c) by done.
  pose proof (lookup_lt_Some _ _ _ Hc).
  rewrite drop_app_le by (rewrite length_take; lia).
  rewrite not_elem_of_app, list_elem_of_singleton. split; congruence.
Qed.

Lemma pending_skip s i start c :
  0 <= i -> s !! Z.to_nat i = Some c -> c <> slash ->
  pending s (i + 1) start = pending s i start.
Proof.
  intros Hi Hc Hne. unfold pending. dbool; [|done].
  rewrite (drop_lookup_cons _ _ _ Hc), rooted_segments_skip by done. do 2 f_equal. lia.
Qed.

(** Closing the field opened at [start] on the slash at [i]. *)
Lemma pending_close s i start :
  s !! Z.to_nat i = Some slash -> 0 <= start < i -> start_ok s i start ->
  let a := take (Z.to_nat (i - start - 1)) (drop (Z.to_nat (start + 1)) s) in
  length a = Z.to_nat (i - start - 1) /\
  pending s i start = ne a ++ pending s i (-1).
Proof.
  intros Hc Hs [->|[_ Hno]] a; [lia|].
  pose proof (lookup_lt_Some _ _ _ Hc) as Hlt.
  assert (Hl : length a = Z.to_nat (i - start - 1))
    by (unfold a; rewrite length_take, length_drop; lia).
  split; [done|]. unfold pending. dbool.
  assert (Ha : drop (Z.to_nat (start + 1)) (take (Z.to_nat i) s) = a).
  { rewrite skipn_firstn_comm. unfold a. f_equal. lia. }
  rewrite Ha in Hno.
  assert (HE : drop (Z.to_nat (start + 1)) s = a ++ slash :: drop (S (Z.to_nat i)) s).
  { unfold a. rewrite <- (take_drop (Z.to_nat (i - start - 1)) (drop _ s)) at 1.
    f_equal. rewrite drop_drop, <- (drop_lookup_cons _ _ _ Hc). f_equal. lia. }
  rewrite HE, segments_slash by done. f_equal.
  rewrite (drop_lookup_cons _ _ _ Hc). rewrite segments_rooted by done.
  by rewrite segments_lead.
Qed.

Lemma uri_parse_loop_ok fuel uri ulen i start ruri l :
  cstr uri -> 0 <= ulen <= Z.of_nat (length uri) -> 0 <= i <= ulen ->
  let s := take (Z.to_nat ulen) uri in
  start_ok s i start -> Forall2 field_rep ruri l ->
  (2 * Z.to_nat (ulen - i) + (if (start =? -1)%Z then 0 else 1) < fuel)%nat ->
  exists start' ruri' l',
    uri_parse_loop fuel uri ulen i start ruri = Some (start', ruri') /\
    Forall2 field_rep ruri' l' /\ start_ok s ulen start' /\
    foldl add_seg l (pending s i start) = foldl add_seg l' (pending s ulen start').
Proof.
  intros Huri Hu Hi s. revert i start ruri l Hi.
  induction fuel as [|fuel IH]; intros i start ruri l Hi Hst HF Hfuel; [lia|]. simpl.
  destruct (Z.ltb_spec i ulen) as [Hlt|Hge]; cycle 1.
  { assert (i = ulen) as -> by lia. eauto 10. }
  destruct (lookup_lt_is_Some_2 uri (Z.to_nat i)) as [c Hc]; [lia|].
  assert (Hcs : s !! Z.to_nat i = Some c) by (unfold s; rewrite lookup_take_lt by lia; done).
  unfold char_at at 1. rewrite Hc. simpl.
  destruct (Z.eqb_spec c slash) as [->|Hns]; simpl; cycle 1.
  { rewrite <- (pending_skip s i start c) by (done || lia).
    apply IH; [lia| |done|dbool]. by eapply start_ok_step; [lia|..]. }
  destruct (Z.eqb_spec start (-1)) as [->|Hst1]; simpl.
  - replace (pending s i (-1)) with (pending s (i + 1) i); [apply IH; [lia| |done|dbool]|].
    + right. split; [lia|]. rewrite drop_ge; [apply not_elem_of_nil|].
      rewrite length_take. lia.
    + unfold pending. dbool. rewrite (drop_lookup_cons _ _ _ Hcs).
      rewrite segments_rooted, segments_lead by done. do 2 f_equal. lia.
  - assert (0 <= start < i) by (destruct Hst as [?|[? _]]; lia).
    destruct (pending_close s i start Hcs ltac:(lia) Hst) as [Hlen ->].
    set (a := take (Z.to_nat (i - start - 1)) (drop (Z.to_nat (start + 1)) s)) in *.
    replace (i - 1 + 1) with i by lia. rewrite foldl_app.
    destruct (Z.leb_spec (i - start - 1) 0) as [Hz|Hnz].
    + destruct a as [|x a']; [|simpl in Hlen; lia]. simpl.
      apply IH; [lia|by left|done|]. dbool.
    + destruct a as [|x a'] eqn:Ea; [simpl in Hlen; lia|]. cbn [ne foldl].
      rewrite <- Ea in *. apply IH; [lia|by left| |dbool].
      apply uri_add_rep; [done|lia| |auto with duda]. rewrite Hlen.
      unfold a, s. by rewrite take_drop_take by lia.
Qed.
End uri_parse.

(** The parser computes the first 32 segments of the URI. *)
Lemma uri_parse_rep uri :
  ptr_ok uri ->
  exists ruri, duda_router_uri_parse uri = Some ruri /\
    Forall2 field_rep ruri (take DUDA_ROUTER_URI_MAX (rooted_segments (ptr_bytes uri))).
Proof.
  intros [Hc Hl]. unfold duda_router_uri_parse.
  destruct (uri_parse_loop_ok (2 * Z.to_nat (len uri) + 2) (data uri) (len uri) 0 (-1) [] [])
    as (start & ruri & l & -> & HF & Hst & Hfold);
    [done|lia|lia|by left|constructor|simpl; lia|].
  change (pending _ 0 (-1)) with (rooted_segments (ptr_bytes uri)) in Hfold.
  rewrite foldl_add_seg in Hfold by (simpl; lia). simpl in Hfold. rewrite Hfold.
  destruct Hst as [->|[Hs Hno]].
  - cbn [pending]. simpl. unfold pending. simpl.
    rewrite drop_ge by (rewrite length_take; lia). simpl. eauto.
  - rewrite firstn_all2 in Hno by (rewrite length_take; lia).
    unfold pending. dbool; rewrite segments_last by done.
    + set (a := drop (Z.to_nat (start + 1)) (take (Z.to_nat (len uri)) (data uri))) in *.
      assert (Hla : length a = Z.to_nat (len uri - start - 1))
        by (unfold a; rewrite length_drop, length_take; lia).
      eexists; split; [done|]. destruct a as [|x a'] eqn:Ea; [simpl in Hla; lia|].
      cbn [ne foldl]. rewrite <- Ea in *.
      apply uri_add_rep; [done|lia| |auto with duda].
      rewrite Hla. unfold a. rewrite skipn_firstn_comm. f_equal. lia.
    + rewrite drop_ge by (rewrite length_take; lia). simpl. eauto.
Qed.

(** ** Dynamic rules *)

Definition is_var (f : list Z) : bool := char_at f 0 =? colon.

(** A pattern segment accepts a URI segment: a variable accepts anything. *)
Definition seg_match (f u : list Z) : Prop := is_var f = true \/ f = u.

Section dynamic.
Context `{HS : MkStringSpec}.

Definition pattern_field (a : list Z) : duda_router_field := field_of_line (seg_line a).

Lemma key_test f u a :
  cstr f -> field_rep u a ->
  (strncmp f (uname u) (length f) =? 0) && (Z.of_nat (length f) =? uname_len u) = true
  <-> f = a.
Proof.
  intros Hf (Hl & Ht & Hu).
  rewrite andb_true_iff, Z.eqb_eq, Z.eqb_eq, strncmp_take, Hl by done.
  rewrite (take_ge f) by lia. split.
  - intros [E El]. rewrite E. rewrite <- Ht. f_equal. lia.
  - intros ->. by rewrite Ht.
Qed.

Lemma dyn_match_ok pats ruri segs i m :
  Forall cstr pats -> Forall2 field_rep ruri segs ->
  dyn_match (pattern_field <$> pats) ruri i m = true <->
  (m = true \/ exists f, f ∈ pats /\ is_var f = false) /\
  Forall2 seg_match pats (take (length pats) (drop i segs)).
Proof.
  intros Hp HF. revert i m; induction Hp as [|f pats Hf Hp IH]; intros i m; simpl.
  { split; [intros ->; split; [by left|constructor]|].
    intros [[?|(f & Hin & _)] _]; [done|by apply not_elem_of_nil in Hin]. }
  destruct (ruri !! i) as [u|] eqn:Hu; cycle 1.
  { split; [done|]. intros [_ H2].
    rewrite drop_ge in H2; [by inversion H2|].
    rewrite <- (Forall2_length _ _ _ HF). by apply lookup_ge_None. }
  destruct (Forall2_lookup_l _ _ _ _ _ HF Hu) as (a & Ha & Hrep).
  rewrite (drop_lookup_cons _ _ _ Ha). simpl.
  rewrite Nat2Z.id, dup_same by done. fold (is_var f).
  destruct (is_var f) eqn:Hv; simpl.
  - rewrite IH. rewrite Forall2_cons. split.
    + intros [H1 H2]. split; [|split; [by left|done]].
      destruct H1 as [?|(g & ? & ?)]; [by left|]. right. exists g. by split; [right|].
    + intros [H1 [_ H2]]. split; [|done].
      destruct H1 as [?|(g & Hg & ?)]; [by left|]. right.
      apply elem_of_cons in Hg as [->|Hg]; [congruence|eauto].
  - destruct (_ && _) eqn:E.
    + apply (key_test f u a) in E as ->; [|done..]. rewrite IH, Forall2_cons. split.
      * intros [_ H2]. split; [right; exists a; split; [left|]; done|].
        split; [by right|done].
      * intros [_ [_ H2]]. split; [by left|done].
    + split; [done|]. intros [_ H2]. apply Forall2_cons in H2 as [[?|<-] _]; [congruence|].
      rewrite (proj2 (key_test f u f Hf Hrep)) in E by done. done.
Qed.
End dynamic.

(** ** Registration *)

Section registration.
Context {CB : Type} `{HS : MkStringSpec}.
Implicit Types l : list (duda_router_path CB).

Definition static_path (p : list Z) (cb : CB) : duda_router_path CB :=
  mk_path DUDA_ROUTER_STATIC p (Z.of_nat (length p))
    (bool_decide (last p = Some slash)) [] [] cb.
Definition dynamic_path (p : list Z) (cb : CB) : duda_router_path CB :=
  mk_path DUDA_ROUTER_DYNAMIC p (Z.of_nat (length p))
    (bool_decide (last p = Some slash)) (pattern_field <$> segments p) [] cb.

Lemma last_char_test (p : list Z) :
  (char_at p (Z.to_nat (Z.of_nat (length p) - 1)) =? slash)
  = bool_decide (last p = Some slash).
Proof.
  unfold char_at. rewrite last_lookup.
  replace (Z.to_nat _) with (pred (length p)) by lia.
  destruct (p !! pred (length p)) as [c|]; simpl.
  - destruct (Z.eqb_spec c slash) as [->|Hc]; symmetry;
      [by apply bool_decide_eq_true|apply bool_decide_eq_false; congruence].
  - done.
Qed.

Lemma new_path_ok (p : list Z) (cb : CB) ty fs :
  cstr p -> p <> [] ->
  router_new_path p cb ty fs
  = Ret (mk_path ty p (Z.of_nat (length p)) (bool_decide (last p = Some slash)) fs [] cb).
Proof.
  intros Hp Hne. unfold router_new_path. rewrite strlen_cstr, dup_same by done.
  rewrite last_char_test. destruct (Z.eqb_spec (Z.of_nat (length p)) 0); [|done].
  destruct p; [done|]. simpl in *. lia.
Qed.

Lemma map_static l (p : list Z) (cb : CB) :
  cstr p -> p <> [] -> colon ∉ p ->
  duda_router_map l (Some p) (Some cb) = Ret (0, l ++ [static_path p cb]).
Proof.
  intros Hp Hne Hc. simpl. rewrite (proj2 (strstr1_None _ _ Hp) Hc).
  unfold router_add_static. by rewrite new_path_ok.
Qed.

Lemma map_dynamic l (p : list Z) (cb : CB) :
  cstr p -> head p = Some slash -> colon ∈ p ->
  duda_router_map l (Some p) (Some cb) = Ret (0, l ++ [dynamic_path p cb]).
Proof.
  intros Hp Hh Hc. simpl.
  destruct (strstr1 p colon) eqn:E; cycle 1.
  { by apply strstr1_None in E. }
  unfold router_add_dynamic. destruct p as [|c p]; [done|]. injection Hh as ->.
  change (char_at (slash :: p) 0 =? slash) with true. cbn [negb].
  rewrite router_split_pattern_ok by done.
  rewrite new_path_ok by done. unfold dynamic_path. by rewrite <- list_fmap_compose.
Qed.

Lemma map_dynamic_rejected l (p : list Z) (cb : CB) :
  cstr p -> head p <> Some slash -> colon ∈ p ->
  duda_router_map l (Some p) (Some cb) = Ret (-1, l).
Proof.
  intros Hp Hh Hc. simpl.
  destruct (strstr1 p colon) eqn:E; [|by apply strstr1_None in E].
  unfold router_add_dynamic. destruct p as [|c p]; [done|]. unfold char_at. simpl.
  destruct (Z.eqb_spec c slash) as [->|]; done.
Qed.
End registration.

(** ** Lookup *)

Section lookup.
Context {CB : Type}.
Implicit Types (rules pre post : list (duda_router_path CB)) (p : duda_router_path CB).

(** Whether a rule serves the request, and whether it answers a redirect. *)
Definition rule_matches (ruri : duda_router_uri) (uri : mk_ptr_t) p : bool :=
  match ptype p with
  | DUDA_ROUTER_STATIC => strncmp (data uri) (pattern p) (Z.to_nat (pattern_len p)) =? 0
  | DUDA_ROUTER_DYNAMIC => dyn_match (fields p) ruri 0 false
  end.
Definition rule_redirects (uri : mk_ptr_t) p : bool :=
  match ptype p with
  | DUDA_ROUTER_STATIC =>
      redirect p
      && (strncmp (data uri) (pattern p) (Z.to_nat (pattern_len p - 1)) =? 0)
      && (len uri <=? pattern_len p)
  | DUDA_ROUTER_DYNAMIC => false
  end.
End lookup.

(** ** Properties *)

(** C1. For every request URI, the parser terminates (within the fuel
    [2 * len + 2]) and the fields it stores in [dr->router_uri] denote exactly
    the non-empty segments after the first slash, in order, cut at 32: empty
    segments (double or trailing slashes) are skipped, and bytes before the
    first slash are ignored. *)
Theorem uri_parse_segments uri :
  ptr_ok uri ->
  exists ruri, duda_router_uri_parse uri = Some ruri /\
    Forall2 field_rep ruri (take DUDA_ROUTER_URI_MAX (rooted_segments (ptr_bytes uri))).
Proof. apply uri_parse_rep. Qed.

Lemma uri_parse_segments_witness :
  exists ruri,
    duda_router_uri_parse (mk_ptr (cs "/shop//item/42/ HTTP") 15) = Some ruri /\
    Forall2 field_rep ruri [cs "shop"; cs "item"; cs "42"].
Proof.
  apply (uri_parse_segments (mk_ptr (cs "/shop//item/42/ HTTP") 15)).
  split; [|vm_compute; split; discriminate].
  apply (bool_decide_unpack _). vm_compute. exact I.
Defined.

(** C2. Registration of a route on every branch: a pattern without [':'] is
    appended as a static rule, one with [':'] that starts with a slash as a
    dynamic rule whose fields are its segments (each segment a variable when it
    starts with [':']), and one with [':'] that does not start with a slash is
    refused with -1 and leaves the rules as they were. *)
Theorem router_map_spec `{HS : MkStringSpec} {CB} (l : list (duda_router_path CB)) p cb :
  cstr p -> p <> [] ->
  duda_router_map l (Some p) (Some cb) =
    if bool_decide (colon ∈ p) then
      if bool_decide (head p = Some slash) then Ret (0, l ++ [dynamic_path p cb])
      else Ret (-1, l)
    else Ret (0, l ++ [static_path p cb]).
Proof.
  intros Hp Hne. case_bool_decide; [case_bool_decide|].
  - by apply map_dynamic.
  - by apply map_dynamic_rejected.
  - by apply map_static.
Qed.

Lemma router_map_spec_witness :
  @duda_router_map nat RefString.ops [] (Some (cs "/user/:id")) (Some 7%nat)
  = Ret (0, [@dynamic_path nat RefString.ops (cs "/user/:id") 7%nat]).
Proof.
  rewrite (@router_map_spec _ RefString.string_spec nat [] (cs "/user/:id") 7%nat);
    [vm_compute; reflexivity| |discriminate].
  apply (bool_decide_unpack _). vm_compute. exact I.
Defined.

(** C3. The loop over the fields of a dynamic rule.  On the fields of a parsed URI it accepts a rule registered with the
    pattern [p] exactly when the pattern has at least one non-variable segment, the URI has
    at least as many segments as the pattern, and every pattern segment accepts
    the URI segment at its position: a variable accepts any, a key only itself; further URI segments do not matter.
    [duda_router_path_lookup] runs this loop with a request context that is [NULL], where it faults before its first test, so that a
    dynamic rule serves no request: a lookup that reaches it dereferences [NULL]. *)
Theorem dynamic_rule_matches `{HS : MkStringSpec} {CB} (p : list Z) (cb : CB) uri ruri rules :
  cstr p -> ptr_ok uri -> duda_router_uri_parse uri = Some ruri ->
  (dyn_test (Some ruri) (fields (dynamic_path p cb)) = Ret true <->
   (exists f, f ∈ segments p /\ is_var f = false) /\
   Forall2 seg_match (segments p)
     (take (length (segments p))
        (take DUDA_ROUTER_URI_MAX (rooted_segments (ptr_bytes uri))))) /\
  (segments p <> [] -> dyn_test None (fields (dynamic_path p cb)) = Fault NullDeref /\
     duda_router_path_lookup (dynamic_path p cb :: rules) uri = Fault NullDeref).
Proof.
  intros Hp Hu Hparse. destruct (uri_parse_rep uri Hu) as (r & Hr & HF). simplify_eq. split.
  - transitivity (dyn_match (pattern_field <$> segments p) ruri 0 false = true).
    { unfold dyn_test, dynamic_path; cbn [fields]. destruct (pattern_field <$> segments p); [done|]. split; [congruence|by intros ->]. }
    rewrite dyn_match_ok; [|apply Forall_forall; intros x; by apply segments_cstr|exact HF].
    rewrite drop_0. split; [intros [[?|?] ?]; done|intros [? ?]; split; [by right|done]].
  - intros Hne. cbn. by destruct (segments p).
Qed.

Lemma dynamic_rule_matches_witness :
  dyn_test (Some [mk_uri_field (cs "user/9") 4; mk_uri_field (cs "9") 1])
    (fields (@dynamic_path nat RefString.ops (cs "/user/:id") 7%nat)) = Ret true /\
  duda_router_path_lookup [@dynamic_path nat RefString.ops (cs "/user/:id") 7%nat] (mk_ptr (cs "/user/9") 7) = Fault NullDeref.
Proof.
  destruct (@dynamic_rule_matches _ RefString.string_spec nat (cs "/user/:id") 7%nat
          (mk_ptr (cs "/user/9") 7) [mk_uri_field (cs "user/9") 4; mk_uri_field (cs "9") 1] []) as [H1 H2].
  - apply (bool_decide_unpack _). vm_compute. exact I.
  - split; [apply (bool_decide_unpack _); vm_compute; exact I|vm_compute; split; discriminate].
  - vm_compute. reflexivity.
  - split; [apply H1|apply H2; vm_compute; discriminate]. split.
    + exists (cs "user"). split; [vm_compute; left|reflexivity].
    + change (Forall2 seg_match [cs "user"; cs ":id"] [cs "user"; cs "9"]).
      constructor; [right; reflexivity|].
      constructor; [left; reflexivity|constructor].
Defined.

(** What a registered pattern does to the lookup of a URI whose bytes are [u] and length [n]. *)
Inductive verdict : Set := Silent | Serves | NullContext.

Definition route_verdict (u : list Z) (n : Z) (p : list Z) : verdict :=
  if bool_decide (colon ∈ p) then if bool_decide (head p = Some slash) then NullContext else Silent
  else if bool_decide (p `prefix_of` u) then Serves
  else if bool_decide (last p = Some slash /\ take (length p - 1) p `prefix_of` u) && (n <=? Z.of_nat (length p)) then NullContext
  else Silent.

#[export] Instance verdict_eq_dec : EqDecision verdict.
Proof. solve_decision. Defined.

(** The table after the registrations of a service. *)
Fixpoint register `{MkString} {CB} (l : list (list Z * CB)) (table : list (duda_router_path CB)) : res (list (duda_router_path CB)) :=
  match l with
  | [] => Ret table
  | (p, cb) :: l' => '(_, table) ← duda_router_map table (Some p) (Some cb); register l' table
  end.

Definition route_answer {CB} (u : list Z) (n : Z) (l : list (list Z * CB)) : res (lookup_code * option (duda_router_path CB)) :=
  match list_find (fun r => route_verdict u n r.1 <> Silent) l with
  | None => Ret (DUDA_ROUTER_NOTFOUND, None)
  | Some (_, (p, cb)) => if decide (route_verdict u n p = Serves) then Ret (DUDA_ROUTER_MATCH, Some (static_path p cb)) else Fault NullDeref
  end.

Lemma route_answer_cons {CB} u n p (cb : CB) l : route_answer u n ((p, cb) :: l) =
  match route_verdict u n p with
  | Silent => route_answer u n l
  | Serves => Ret (DUDA_ROUTER_MATCH, Some (static_path p cb))
  | NullContext => Fault NullDeref
  end.
Proof.
  unfold route_answer. cbn [list_find fst]. destruct (route_verdict u n p) eqn:E.
  - rewrite decide_False by tauto. by destruct (list_find _ l) as [[? []]|].
  - rewrite decide_True by done. by rewrite decide_True.
  - rewrite decide_True by done. by rewrite decide_False by congruence.
Qed.

(** The rules a list of registrations leaves in the table. *)
Definition route_rules `{MkString} {CB} (l : list (list Z * CB)) : list (duda_router_path CB) :=
  omap (fun r => if bool_decide (colon ∈ r.1) then if bool_decide (head r.1 = Some slash) then Some (dynamic_path r.1 r.2) else None
                 else Some (static_path r.1 r.2)) l.

Lemma register_rules `{HS : MkStringSpec} {CB} (l : list (list Z * CB)) : Forall (fun r => cstr r.1 /\ r.1 <> []) l ->
  forall table, register l table = Ret (table ++ route_rules l).
Proof.
  induction 1 as [|[p cb] l [Hp Hne] _ IH]; intros table; [cbn; by rewrite app_nil_r|]. unfold route_rules. cbn [register omap list_omap fst snd] in *.
  case_bool_decide as Hc; [case_bool_decide as Hh|].
  - rewrite map_dynamic by done. cbn [mbind res_bind]. by rewrite IH, <- app_assoc.
  - rewrite map_dynamic_rejected by done. cbn [mbind res_bind]. by rewrite IH.
  - rewrite map_static by done. cbn [mbind res_bind]. by rewrite IH, <- app_assoc.
Qed.

Lemma segs_aux_ne s : forall cur, cur <> [] \/ (exists c, c ∈ s /\ c <> slash) -> segs_aux cur s <> [].
Proof.
  induction s as [|c s IH]; intros cur Hc; cbn [segs_aux].
  - destruct Hc as [Hc|(c & Hc & _)]; [by destruct cur|by apply elem_of_nil in Hc].
  - destruct (Z.eqb_spec c slash) as [->|Hne].
    + destruct cur as [|x cur]; [|done]. apply IH. right. destruct Hc as [Hc|(c & Hc & Hne)]; [done|]. exists c. split; [|done]. by apply elem_of_cons in Hc as [|].
    + apply IH. left. by destruct cur.
Qed.

Lemma segments_colon p : colon ∈ p -> segments p <> [].
Proof. intros Hc. apply segs_aux_ne. right. by exists colon. Qed.

(** The test of a redirect compares all but the last byte. *)
Lemma redirect_prefix u p : cstr u -> cstr p -> p <> [] ->
  bool_decide (last p = Some slash) && (strncmp u p (Z.to_nat (Z.of_nat (length p) - 1)) =? 0)
  = bool_decide (last p = Some slash /\ take (length p - 1) p `prefix_of` u).
Proof.
  intros Hu Hp Hne. replace (Z.to_nat (Z.of_nat (length p) - 1)) with (length p - 1)%nat by lia.
  rewrite bool_decide_and. f_equal. apply eq_bool_prop_intro. rewrite bool_decide_spec, Is_true_true, Z.eqb_eq, strncmp_take by done. split.
  - intros E. exists (drop (length p - 1) u). by rewrite <- E, take_drop.
  - intros [k ->]. rewrite <- (length_take_le p (length p - 1)) at 1 by lia. by rewrite take_app_length.
Qed.

(** C4. The lookup as it is written, with its request context [NULL], over the rules a service registers: it answers
    with the first registration that is not silent.  A pattern without [':'] serves the URIs it is a prefix of; a pattern with [':'] that starts
    with a slash, and a pattern with a slash at its end whose other bytes start a URI that is not longer than it (the redirect), dereference
    [NULL]; every other registration is silent, and when all are the answer is not found. *)
Theorem path_lookup_registered `{HS : MkStringSpec} {CB} (l : list (list Z * CB)) uri :
  Forall (fun r => cstr r.1 /\ r.1 <> []) l -> cstr (data uri) ->
  exists table, register l [] = Ret table /\ duda_router_path_lookup table uri = route_answer (data uri) (len uri) l.
Proof.
  intros Hl Hu. exists (route_rules l). split; [by rewrite register_rules|].
  induction Hl as [|[p cb] l [Hp Hne] _ IH]; [done|]. rewrite route_answer_cons. unfold route_rules, route_verdict. cbn [omap list_omap fst snd] in *.
  case_bool_decide as Hc; [case_bool_decide as Hh|].
  - pose proof (segments_colon p Hc). cbn. by destruct (segments p).
  - done.
  - cbn. rewrite Nat2Z.id. destruct (decide (p `prefix_of` data uri)) as [Hpre|Hpre]; [rewrite (bool_decide_true _ Hpre)|rewrite (bool_decide_false _ Hpre)].
    + by rewrite (proj2 (Z.eqb_eq _ _) (proj2 (strncmp_prefix _ _ Hu Hp) Hpre)).
    + rewrite (proj2 (Z.eqb_neq _ _)) by (intros E; by apply Hpre, strncmp_prefix).
      rewrite redirect_prefix by done. by destruct (bool_decide _ && _).
Qed.

Lemma path_lookup_registered_witness : exists table,
  @register RefString.ops nat [(cs "/about", 1%nat); (cs ":x", 2%nat); (cs "/us", 3%nat); (cs "/user/:id", 4%nat)] [] = Ret table /\
  duda_router_path_lookup table (mk_ptr (cs "/user/9") 7) = Ret (DUDA_ROUTER_MATCH, Some (static_path (cs "/us") 3%nat)) /\
  duda_router_path_lookup table (mk_ptr (cs "/other") 6) = Fault NullDeref.
Proof.
  set (l := [(cs "/about", 1%nat); (cs ":x", 2%nat); (cs "/us", 3%nat); (cs "/user/:id", 4%nat)]).
  assert (Hl : Forall (fun r => cstr r.1 /\ r.1 <> []) l) by (repeat (constructor; [split; [apply (bool_decide_unpack _); vm_compute; exact I|vm_compute; discriminate]|]); constructor).
  destruct (@path_lookup_registered _ RefString.string_spec nat l (mk_ptr (cs "/user/9") 7) Hl) as (table & Ht & E1); [apply (bool_decide_unpack _); vm_compute; exact I|].
  destruct (@path_lookup_registered _ RefString.string_spec nat l (mk_ptr (cs "/other") 6) Hl) as (table' & Ht' & E2); [apply (bool_decide_unpack _); vm_compute; exact I|].
  assert (table' = table) as -> by congruence. exists table. split; [exact Ht|]. rewrite E1, E2. split; vm_compute; reflexivity.
Defined.

(** ** Parameters *)

Section param_spec.
Context `{HS : MkStringSpec}.

(** The name of the variable a pattern segment [":name"] declares. *)
Definition declares (key f : list Z) : bool := bool_decide (f = colon :: key).

Lemma param_position_ok pats key i :
  Forall cstr pats -> cstr key ->
  param_position_from (pattern_field <$> pats) key i =
  match find_index (declares key) pats with
  | Some k => i + Z.of_nat k
  | None => -1
  end.
Proof.
  intros Hp Hk. revert i; induction Hp as [|f pats Hf Hp IH]; intros i; [done|].
  simpl. rewrite strlen_cstr, dup_same by done. rewrite IH. fold (is_var f).
  assert (Hd : declares key f =
    is_var f && (Z.of_nat (length key) =? Z.of_nat (length f) - 1)
    && (strncmp (drop 1 f) key (length key) =? 0)).
  { unfold declares, is_var, char_at. destruct f as [|c f]; [done|]. simpl.
    apply cstr_cons in Hf as [_ Hf].
    destruct (Z.eqb_spec c colon) as [->|Hc]; simpl; [|apply bool_decide_eq_false; congruence].
    destruct (Z.eqb_spec (Z.of_nat (length key)) (Z.of_nat (S (length f)) - 1)) as [El|El];
      simpl; [|apply bool_decide_eq_false; intros [= ->]; lia].
    rewrite drop_0. apply eq_bool_prop_intro. rewrite bool_decide_spec.
    rewrite Is_true_true, Z.eqb_eq, strncmp_take by done.
    rewrite !take_ge by lia. split; [by intros [= ->]|by intros ->]. }
  rewrite Hd. destruct (is_var f); simpl.
  - destruct (_ =? _); simpl; [destruct (_ =? _); simpl|];
      destruct (find_index _ pats); simpl; lia.
  - destruct (find_index _ pats); simpl; lia.
Qed.

(** After a match, the position of a declared variable is a cell of the parsed
    URI, and that cell holds the URI segment of the same index. *)
Lemma matched_param_cell {CB} (p key : list Z) (cb : CB) uri ruri :
  cstr p -> cstr key -> ptr_ok uri -> duda_router_uri_parse uri = Some ruri ->
  rule_matches ruri uri (dynamic_path p cb) = true ->
  get_param_position (fields (dynamic_path p cb)) (Some key) =
    match find_index (declares key) (segments p) with Some k => Z.of_nat k | None => -1 end /\
  match find_index (declares key) (segments p) with
  | None => True
  | Some k => exists u v, uri_cell ruri (Z.of_nat k) = Ret u /\
      rooted_segments (ptr_bytes uri) !! k = Some v /\ field_rep u v
  end.
Proof.
  intros Hp Hk Hu Hparse Hm. destruct (uri_parse_rep uri Hu) as (r & Hr & HF). simplify_eq.
  assert (Hps : Forall cstr (segments p))
    by (apply Forall_forall; intros x; by apply segments_cstr).
  unfold rule_matches, dynamic_path in Hm; cbn [ptype fields] in Hm.
  rewrite dyn_match_ok in Hm by done. destruct Hm as [_ Hm]. rewrite drop_0 in Hm.
  unfold get_param_position, dynamic_path; cbn [fields]. rewrite param_position_ok by done.
  split; [by destruct (find_index _ _)|].
  destruct (find_index _ _) as [k|] eqn:Ek; [|done].
  apply find_index_lt in Ek. pose proof (Forall2_length _ _ _ Hm) as Hlen.
  rewrite !length_take in Hlen.
  destruct (lookup_lt_is_Some_2 (rooted_segments (ptr_bytes uri)) k) as [v Hv]; [lia|].
  assert (Hv' : take DUDA_ROUTER_URI_MAX (rooted_segments (ptr_bytes uri)) !! k = Some v)
    by (rewrite lookup_take_lt by lia; done).
  destruct (Forall2_lookup_r _ _ _ _ _ HF Hv') as (u & Hur & Hrep).
  exists u, v. unfold uri_cell. by rewrite Nat2Z.id, Hur.
Qed.
End param_spec.

(** After a dynamic rule has matched, [param->get(dr, key)] never leaves the
    field array, and returns a copy of the URI segment at the position of the
    first segment [":key"] of the pattern, registering that copy with the
    garbage collector; it returns [NULL] when the pattern declares no such
    variable. *)
Theorem param_get_segment `{HS : MkStringSpec} {CB} (p key : list Z) (cb : CB) uri ruri :
  cstr p -> cstr key -> ptr_ok uri -> duda_router_uri_parse uri = Some ruri ->
  rule_matches ruri uri (dynamic_path p cb) = true ->
  duda_param_get (Some (dynamic_path p cb)) ruri (Some key) =
    match find_index (declares key) (segments p) with
    | None => Ret (None, [])
    | Some k =>
        let v := default [] (rooted_segments (ptr_bytes uri) !! k) in Ret (Some v, [v])
    end.
Proof.
  intros Hp Hk Hu Hparse Hm.
  destruct (matched_param_cell p key cb uri ruri Hp Hk Hu Hparse Hm) as [Hpos Hcell].
  unfold duda_param_get. rewrite Hpos. destruct (find_index _ _) as [k|]; [|done].
  destruct Hcell as (u & v & -> & -> & Hul & Hut & _). dbool. simpl.
  assert (length v <= length (uname u))%nat.
  { apply (f_equal length) in Hut. rewrite length_take in Hut. lia. }
  rewrite copy_substr_bytes by lia. rewrite Hul, drop_0, Z.sub_0_r, Nat2Z.id, Hut. done.
Qed.

Lemma param_get_segment_witness :
  @duda_param_get RefString.ops nat
    (Some (@dynamic_path nat RefString.ops (cs "/user/:id") 7%nat))
    [mk_uri_field (cs "user/9") 4; mk_uri_field (cs "9") 1] (Some (cs "id"))
  = Ret (Some (cs "9"), [cs "9"]).
Proof.
  etransitivity;
    [apply (@param_get_segment _ RefString.string_spec nat (cs "/user/:id") (cs "id") 7%nat
       (mk_ptr (cs "/user/9") 7))|vm_compute; reflexivity];
    try (apply (bool_decide_unpack _); vm_compute; exact I); try reflexivity.
Defined.
