(* ===== verification/Utils.v ===== *)
(** * Decimal parsing (lib/duda_utils.c) and numeric URI parameters

    [duda_utils_strtol] reads an optional sign and decimal digits in a buffer of
    known length, with the accumulator kept in an [unsigned long]. *)

From S2P Require Import Prelude CString Router RouterSpec.

Definition LONG_MAX : Z := 2 ^ 63 - 1.
Definition LONG_MIN : Z := - 2 ^ 63.

Definition isdigit (c : Z) : bool := (ch "0" <=? c) && (c <=? ch "9").

(** The [for] loop, [n] turns at most; the pair is [(acc, any)]. *)
Fixpoint strtol_loop (s : list Z) (n : nat) (cutoff cutlim acc any : Z) : Z * Z :=
  match n with
  | O => (acc, any)
  | S n' =>
      let c := char_at s 0 in
      if isdigit c then
        let c := c - ch "0" in
        if 10 <=? c then (acc, -1)
        else if (any <? 0) || (cutoff <? acc) || ((acc =? cutoff) && (cutlim <? c))
        then strtol_loop (tail s) n' cutoff cutlim acc (-1)
        else strtol_loop (tail s) n' cutoff cutlim (wrap 64 (wrap 64 (acc * 10) + c)) 1
      else (acc, -1)
  end.

(** Return value and [*result].  The loop condition [s - nptr <= len] lets it
    read the bytes of index below [len]. *)
Definition duda_utils_strtol (nptr : list Z) (len : Z) : Z * Z :=
  let c := char_at nptr 0 in
  let neg := c =? ch "-" in
  let k := if neg || (c =? ch "+") then 1 else 0 in
  let cutoff := if neg then wrap 64 (- wrap 64 LONG_MIN) else LONG_MAX in
  let cutlim := cutoff mod 10 in
  let cutoff := cutoff / 10 in
  let '(acc, any) :=
    strtol_loop (drop (Z.to_nat k) nptr) (Z.to_nat (len - k)) cutoff cutlim 0 0 in
  if any <? 0 then (-1, 0)
  else (0, swrap 64 (if neg then wrap 64 (- acc) else acc)).

(** [param->get_number]: the return value, and the value stored in [*res]. *)
Definition duda_param_get_number (fs : list duda_router_field) (ruri : duda_router_uri)
    (key : option (list Z)) : res (Z * option Z) :=
  let k := get_param_position fs key in
  if k =? -1 then Ret (-1, None)
  else
    field ← uri_cell ruri k;
    let '(ret, number) := duda_utils_strtol (uname field) (uname_len field) in
    if ret =? -1 then Ret (-1, None) else Ret (0, Some number).

(** ** Reference: the value of a signed decimal *)

Definition dec_step (v c : Z) : Z := v * 10 + (c - ch "0").
Definition dec_value (ds : list Z) : Z := foldl dec_step 0 ds.

Definition digits (s : list Z) : bool := forallb isdigit s.

(** An optional sign followed by digits, possibly none. *)
Definition dec_parse (s : list Z) : option Z :=
  match s with
  | c :: ds =>
      if c =? ch "-" then if digits ds then Some (- dec_value ds) else None
      else if c =? ch "+" then if digits ds then Some (dec_value ds) else None
      else if digits s then Some (dec_value s) else None
  | [] => Some 0
  end.

Lemma isdigit_range c : isdigit c = true <-> ch "0" <= c <= ch "9".
Proof. unfold isdigit. rewrite andb_true_iff, !Z.leb_le. done. Qed.

Lemma dec_fold_mono v ds : 0 <= v -> digits ds = true -> v <= foldl dec_step v ds.
Proof.
  revert v; induction ds as [|c ds IH]; intros v Hv Hd; simpl in *; [lia|].
  apply andb_true_iff in Hd as [Hc Hd]. apply isdigit_range in Hc.
  assert (v <= dec_step v c) by (unfold dec_step; lia).
  specialize (IH (dec_step v c) ltac:(lia) Hd). lia.
Qed.

(** The cutoff test is exactly [acc * 10 + c > limit]. *)
Lemma cutoff_test limit acc c :
  0 <= limit -> 0 <= acc -> 0 <= c < 10 ->
  ((limit / 10 <? acc) || ((acc =? limit / 10) && (limit mod 10 <? c)) = true)
  <-> limit < acc * 10 + c.
Proof.
  intros Hl Ha Hc. rewrite orb_true_iff, andb_true_iff, Z.eqb_eq, !Z.ltb_lt.
  pose proof (Z.div_mod limit 10). pose proof (Z.mod_pos_bound limit 10). lia.
Qed.

Lemma strtol_loop_over s n q r acc :
  (strtol_loop s n q r acc (-1)).2 = -1.
Proof.
  revert s; induction n as [|n IH]; intros s; simpl; [done|].
  destruct (isdigit _); [|done]. destruct (_ <=? _); [done|]. simpl. apply IH.
Qed.

(** The loop computes the decimal value, or fails on a non-digit or on a value
    above the limit. *)
Lemma strtol_loop_ok limit s n acc any :
  0 <= limit <= 2 ^ 63 -> (n <= length s)%nat -> 0 <= acc <= limit -> 0 <= any ->
  let r := strtol_loop s n (limit / 10) (limit mod 10) acc any in
  let v := foldl dec_step acc (take n s) in
  if digits (take n s) && (v <=? limit) then r.1 = v /\ 0 <= r.2 else r.2 = -1.
Proof.
  intros Hl. revert s acc any; induction n as [|n IH]; intros s acc any Hn Ha Hany; simpl.
  { dbool. }
  destruct s as [|c s]; [simpl in Hn; lia|]. simpl in Hn |- *.
  change (char_at (c :: s) 0) with c.
  destruct (isdigit c) eqn:Hd; simpl; [|done].
  pose proof (proj1 (isdigit_range c) Hd) as Hc. change (ch "0") with 48 in *.
  change (ch "9") with 57 in *.
  destruct (Z.leb_spec 10 (c - 48)); [lia|].
  destruct (Z.ltb_spec any 0); [lia|]. cbn [orb].
  change (dec_step acc c) with (acc * 10 + (c - 48)).
  destruct (_ || _) eqn:E; pose proof (cutoff_test limit acc (c - 48)) as Hcut.
  - rewrite strtol_loop_over. apply Hcut in E; [|lia..].
    destruct (digits (take n s)) eqn:Hds; [|done]. cbn [andb].
    destruct (Z.leb_spec (foldl dec_step (acc * 10 + (c - 48)) (take n s)) limit) as [Hle|]; [|done].
    pose proof (dec_fold_mono (acc * 10 + (c - 48)) (take n s) ltac:(lia) Hds). lia.
  - assert (~ limit < acc * 10 + (c - 48)) by (rewrite <- Hcut by lia; congruence).
    assert (Hw : wrap 64 (wrap 64 (acc * 10) + (c - 48)) = acc * 10 + (c - 48)).
    { unfold wrap. rewrite Z.add_mod_idemp_l by lia. rewrite Z.mod_small; lia. }
    rewrite Hw. apply IH; lia.
Qed.

Definition long_limit (neg : bool) : Z := if neg then 2 ^ 63 else LONG_MAX.
Definition signed_value (neg : bool) (v : Z) : Z := if neg then - v else v.
Definition long_result (v : Z) : Z * Z :=
  if (LONG_MIN <=? v) && (v <=? LONG_MAX) then (0, v) else (-1, 0).

(** The part of the function after the sign. *)
Lemma strtol_digits neg s n :
  (n <= length s)%nat ->
  (let '(acc, any) :=
     strtol_loop s n (long_limit neg / 10) (long_limit neg mod 10) 0 0 in
   if any <? 0 then (-1, 0)
   else (0, swrap 64 (if neg then wrap 64 (- acc) else acc))) =
  if digits (take n s) then long_result (signed_value neg (dec_value (take n s)))
  else (-1, 0).
Proof.
  intros Hn. assert (0 <= long_limit neg <= 2 ^ 63) as Hlim by (destruct neg; unfold long_limit, LONG_MAX; lia).
  pose proof (strtol_loop_ok (long_limit neg) s n 0 0 Hlim Hn ltac:(lia) ltac:(lia)) as HL.
  cbv zeta in HL. fold (dec_value (take n s)) in HL.
  destruct (strtol_loop _ _ _ _ _ _) as [acc any]. simpl in HL.
  destruct (digits _) eqn:Hd; cbn [andb] in HL; [|by subst any].
  assert (0 <= dec_value (take n s)) as Hpos by (apply dec_fold_mono; [lia|done]).
  set (v := dec_value _) in *. unfold long_result, signed_value, LONG_MIN, LONG_MAX in *.
  destruct (Z.leb_spec v (long_limit neg)) as [Hle|Hgt].
  - destruct HL as [-> Hany]. destruct neg; unfold long_limit, LONG_MAX in *; dbool; f_equal.
    + rewrite swrap_wrap, swrap_small; lia.
    + rewrite swrap_small; lia.
  - subst any. destruct neg; unfold long_limit, LONG_MAX in *; dbool; done.
Qed.

Lemma strtol_value nptr len :
  0 <= len <= Z.of_nat (length nptr) ->
  duda_utils_strtol nptr len =
    match dec_parse (take (Z.to_nat len) nptr) with
    | Some v => long_result v
    | None => (-1, 0)
    end.
Proof.
  intros Hl. unfold duda_utils_strtol.
  destruct (decide (len = 0)) as [->|Hnz].
  { replace (Z.to_nat (0 - _)) with 0%nat by (destruct (_ || _); lia). simpl.
    by destruct (char_at nptr 0 =? ch "-"). }
  destruct nptr as [|c s]; [simpl in Hl; lia|]. simpl in Hl.
  replace (Z.to_nat len) with (S (Z.to_nat (len - 1))) by lia.
  change (char_at (c :: s) 0) with c. unfold dec_parse. rewrite firstn_cons.
  destruct (Z.eqb_spec c (ch "-")) as [->|Hm]; [|destruct (Z.eqb_spec c (ch "+")) as [->|Hp]];
    cbn [orb]; cbv zeta.
  - pose proof (strtol_digits true s (Z.to_nat (len - 1)) ltac:(lia)) as H.
    cbn [long_limit signed_value] in H. etransitivity; [exact H|]. by destruct (digits _).
  - pose proof (strtol_digits false s (Z.to_nat (len - 1)) ltac:(lia)) as H.
    cbn [long_limit signed_value] in H. etransitivity; [exact H|]. by destruct (digits _).
  - rewrite <- firstn_cons. replace (S (Z.to_nat (len - 1))) with (Z.to_nat (len - 0)) by lia.
    pose proof (strtol_digits false (c :: s) (Z.to_nat (len - 0)) ltac:(simpl; lia)) as H.
    cbn [long_limit signed_value] in H. etransitivity; [exact H|]. by destruct (digits _).
Qed.

(** ** Properties *)

(** [duda_utils_strtol] reads exactly the first [len] bytes as an optionally
    signed decimal: when they are one and its value fits a [long] it returns 0
    and that value, without wrapping in the unsigned accumulator, down to
    [LONG_MIN] included; on any other byte, and on overflow in either
    direction, it returns -1 and stores 0.  A buffer without digits (empty, or a
    lone sign) reads as 0. *)
Theorem strtol_reads_decimal nptr len :
  0 <= len <= Z.of_nat (length nptr) ->
  duda_utils_strtol nptr len =
    match dec_parse (take (Z.to_nat len) nptr) with
    | Some v =>
        if (LONG_MIN <=? v) && (v <=? LONG_MAX) then (0, v) else (-1, 0)
    | None => (-1, 0)
    end.
Proof. apply strtol_value. Qed.

Lemma strtol_reads_decimal_witness :
  duda_utils_strtol (cs "-9223372036854775808/x") 20 = (0, LONG_MIN) /\
  duda_utils_strtol (cs "9223372036854775808") 19 = (-1, 0) /\
  duda_utils_strtol (cs "12a") 3 = (-1, 0).
Proof.
  split; [|split];
    (rewrite strtol_reads_decimal by (vm_compute; split; discriminate); vm_compute; reflexivity).
Defined.

(** [param->get_number] of a matched dynamic rule stores the decimal value of
    the URI segment bound to the variable, and returns -1, storing nothing, when
    the variable is not declared or the segment is not a [long]. *)
Theorem param_get_number_value `{HS : MkStringSpec} {CB} (p key : list Z) (cb : CB) uri ruri :
  cstr p -> cstr key -> ptr_ok uri -> duda_router_uri_parse uri = Some ruri ->
  rule_matches ruri uri (dynamic_path p cb) = true ->
  duda_param_get_number (fields (dynamic_path p cb)) ruri (Some key) =
    match find_index (declares key) (segments p) with
    | None => Ret (-1, None)
    | Some k =>
        match dec_parse (default [] (rooted_segments (ptr_bytes uri) !! k)) with
        | Some v => if (LONG_MIN <=? v) && (v <=? LONG_MAX) then Ret (0, Some v)
                    else Ret (-1, None)
        | None => Ret (-1, None)
        end
    end.
Proof.
  intros Hp Hk Hu Hparse Hm.
  destruct (matched_param_cell p key cb uri ruri Hp Hk Hu Hparse Hm) as [Hpos Hcell].
  unfold duda_param_get_number. simpl in Hpos |- *. rewrite Hpos.
  destruct (find_index _ _) as [k|]; [|done].
  destruct Hcell as (u & v & -> & -> & Hul & Hut & _). dbool. simpl.
  assert (length v <= length (uname u))%nat.
  { apply (f_equal length) in Hut. rewrite length_take in Hut. lia. }
  rewrite strtol_value, Hul, Nat2Z.id, Hut by lia. unfold long_result.
  destruct (dec_parse v) as [x|]; [|done]. by destruct (_ && _).
Qed.

Lemma param_get_number_value_witness :
  duda_param_get_number (fields (@dynamic_path nat RefString.ops (cs "/user/:id") 7%nat))
    [mk_uri_field (cs "user/9") 4; mk_uri_field (cs "9") 1] (Some (cs "id"))
  = Ret (0, Some 9).
Proof.
  etransitivity;
    [apply (@param_get_number_value _ RefString.string_spec nat (cs "/user/:id") (cs "id") 7%nat
       (mk_ptr (cs "/user/9") 7))|vm_compute; reflexivity];
    try (apply (bool_decide_unpack _); vm_compute; exact I); reflexivity.
Defined.
