(* ===== verification/Gc.v ===== *)
(** * The per-request memory collector (lib/objects/duda_gc.c)

    Each request owns an array of cells; [duda_gc_add] records a pointer in the
    first free cell, growing the array when it is full, and
    [duda_gc_free_content] frees every recorded pointer when the request ends.
    Pointers are addresses ([Z], 0 is [NULL]).  [mem_realloc] is Monkey's: an
    operation of the class [GcMem], with the behaviour of realloc(3) as law. *)

From S2P Require Import Prelude.

Record duda_gc_entry := mk_gc_entry { gc_status : Z; gc_p : Z }.

#[export] Instance duda_gc_entry_eq_dec : EqDecision duda_gc_entry.
Proof. solve_decision. Defined.

(** [cells] is the whole allocated block, of which the first [size] are in use
    as cells. *)
Record duda_gc_map := mk_gc_map { gc_used : Z; gc_size : Z; gc_cells : list duda_gc_entry }.

Definition DUDA_GC_ENTRIES : Z := 64.
Definition DUDA_GC_CHUNK : Z := 16.
Definition sizeof_gc_entry : Z := 16.

(** [mem_alloc_z n] and [mem_realloc cells n] return the cells that fit in a
    block of [n] bytes, or [NULL]. *)
Class GcMem := {
  mem_alloc_z : Z -> option (list duda_gc_entry);
  mem_realloc : list duda_gc_entry -> Z -> option (list duda_gc_entry);
}.

Class GcMemSpec `{GcMem} : Prop := {
  alloc_z_zero n l : 0 <= n -> mem_alloc_z n = Some l ->
    l = replicate (Z.to_nat (n / sizeof_gc_entry)) (mk_gc_entry 0 0);
  realloc_keeps l n l' : mem_realloc l n = Some l' ->
    Z.of_nat (length l) <= n / sizeof_gc_entry ->
    Z.of_nat (length l') = n / sizeof_gc_entry /\ l `prefix_of` l';
}.

Section operations.
Context `{GcMem}.

(** Return value and new map; [None] for [cells == NULL]. *)
Definition duda_gc_init : Z * option duda_gc_map :=
  let size := sizeof_gc_entry * DUDA_GC_ENTRIES in
  match mem_alloc_z size with
  | None => (-1, None)
  | Some l => (0, Some (mk_gc_map 0 DUDA_GC_ENTRIES l))
  end.

(** The registering loop over the cells [i .. size - 1]. *)
Fixpoint gc_register (cs : list duda_gc_entry) (n : nat) (q : Z) {struct n} :
    res (option (list duda_gc_entry)) :=
  match n, cs with
  | O, _ => Ret None
  | S _, [] => Fault OutOfBounds
  | S n', c :: cs' =>
      if gc_status c =? 0 then Ret (Some (mk_gc_entry 1 q :: cs'))
      else r ← gc_register cs' n' q; Ret (option_map (cons c) r)
  end.

Definition gc_grow (g : duda_gc_map) : option duda_gc_map :=
  if gc_size g <=? gc_used g then
    let new_size :=
      swrap 32 (swrap 32 (gc_size g * DUDA_GC_ENTRIES) + sizeof_gc_entry * DUDA_GC_CHUNK) in
    match mem_realloc (gc_cells g) new_size with
    | Some tmp => Some (mk_gc_map (gc_used g) (gc_size g + DUDA_GC_CHUNK) tmp)
    | None => None
    end
  else Some g.

Definition duda_gc_add (g : duda_gc_map) (q : Z) : res (Z * duda_gc_map) :=
  match gc_grow g with
  | None => Ret (-1, g)
  | Some g =>
      r ← gc_register (gc_cells g) (Z.to_nat (gc_size g)) q;
      match r with
      | Some cs => Ret (0, mk_gc_map (gc_used g + 1) (gc_size g) cs)
      | None => Ret (-1, g)
      end
  end.

(** [mem_alloc] gives the new address, 0 on failure. *)
Definition duda_gc_alloc (mem_alloc : Z -> Z) (g : duda_gc_map) (n : Z) :
    res (Z * duda_gc_map) :=
  let q := mem_alloc n in
  if q =? 0 then Ret (0, g)
  else '(_, g') ← duda_gc_add g q; Ret (q, g').

(** The freeing loop: new cells, new [used], and the pointers passed to
    [mem_free], in order. *)
Fixpoint gc_free_loop (cs : list duda_gc_entry) (n : nat) (u : Z) {struct n} :
    res (list duda_gc_entry * Z * list Z) :=
  match n with
  | O => Ret (cs, u, [])
  | S n' =>
      if 0 <? u then
        match cs with
        | [] => Fault OutOfBounds
        | c :: cs' =>
            if gc_status c =? 1 then
              '(cs2, u2, fr) ← gc_free_loop cs' n' (u - 1);
              Ret (mk_gc_entry 0 0 :: cs2, u2, gc_p c :: fr)
            else
              '(cs2, u2, fr) ← gc_free_loop cs' n' u; Ret (c :: cs2, u2, fr)
        end
      else Ret (cs, u, [])
  end.

(** Return value, new map, freed pointers. *)
Definition duda_gc_free_content (g : duda_gc_map) : res (Z * duda_gc_map * list Z) :=
  '(cs, u, freed) ← gc_free_loop (gc_cells g) (Z.to_nat (gc_size g)) (gc_used g);
  Ret (Z.of_nat (length freed), mk_gc_map u (gc_size g) cs, freed).

(** A request that registers the pointers [qs] one after the other. *)
Fixpoint gc_add_all (g : duda_gc_map) (qs : list Z) : res duda_gc_map :=
  match qs with
  | [] => Ret g
  | q :: qs' => '(_, g') ← duda_gc_add g q; gc_add_all g' qs'
  end.
End operations.

(** ** Invariant *)

Definition live (cs : list duda_gc_entry) : list Z := gc_p <$> filter (fun c => gc_status c = 1) cs.

(** The registered pointers, in cell order. *)
Definition registered (g : duda_gc_map) : list Z := live (take (Z.to_nat (gc_size g)) (gc_cells g)).

Definition statuses_ok (cs : list duda_gc_entry) : Prop :=
  Forall (fun c => gc_status c = 0 \/ gc_status c = 1) cs.

(** The counter of used cells is exact, the flags are 0 or 1, and the block holds all the cells and not many more. *)
Record gc_ok (g : duda_gc_map) : Prop := {
  gc_size_range : 0 <= gc_size g < 2 ^ 24;
  gc_size_cells : (Z.to_nat (gc_size g) <= length (gc_cells g))%nat;
  gc_used_count : gc_used g = Z.of_nat (length (registered g));
  gc_statuses : statuses_ok (take (Z.to_nat (gc_size g)) (gc_cells g));
  gc_bytes : Z.of_nat (length (gc_cells g)) <= gc_size g * 4 + 16;
}.

Definition free_cells (cs : list duda_gc_entry) : Prop := Forall (fun c => gc_status c = 0) cs.

Lemma live_cons c cs : live (c :: cs) = (if gc_status c =? 1 then [gc_p c] else []) ++ live cs.
Proof.
  unfold live. rewrite filter_cons. destruct (decide (gc_status c = 1)) as [E|E].
  - by rewrite (proj2 (Z.eqb_eq _ _) E).
  - by rewrite (proj2 (Z.eqb_neq _ _) E).
Qed.

Lemma live_app a b : live (a ++ b) = live a ++ live b.
Proof. unfold live. by rewrite filter_app, fmap_app. Qed.

Lemma live_free cs : free_cells cs -> live cs = [].
Proof.
  induction 1 as [|c cs Hc _ IH]; [done|]. rewrite live_cons, Hc, IH. done.
Qed.

Lemma length_live cs : (length (live cs) <= length cs)%nat.
Proof. unfold live. rewrite length_fmap. apply length_filter. Qed.

(** The loop stops at a free cell when there is one. *)
Lemma gc_register_ok cs n q :
  (n <= length cs)%nat -> statuses_ok (take n cs) ->
  (length (live (take n cs)) < n)%nat ->
  exists cs', gc_register cs n q = Ret (Some cs') /\ length cs' = length cs /\
    drop n cs' = drop n cs /\ statuses_ok (take n cs') /\
    live (take n cs') ≡ₚ q :: live (take n cs).
Proof.
  revert cs; induction n as [|n IH]; intros [|c cs] Hn Hs Hlt; simpl in *; try lia.
  apply Forall_cons in Hs as [Hc Hs]. rewrite live_cons in Hlt.
  destruct (Z.eqb_spec (gc_status c) 0) as [E|E].
  - eexists; split; [done|]. simpl. split; [done|]. split; [done|]. split.
    + apply Forall_cons; split; [by right|done].
    + rewrite !live_cons. simpl. by rewrite E.
  - assert (gc_status c = 1) as E1 by lia. rewrite E1 in Hlt. simpl in Hlt.
    destruct (IH cs ltac:(lia) Hs ltac:(lia)) as (cs' & -> & Hl & Hd & Hs' & Hp).
    simpl. eexists; split; [done|]. simpl. split; [by f_equal|]. split; [done|]. split.
    + by apply Forall_cons.
    + rewrite !live_cons, E1. simpl. rewrite Hp. apply perm_swap.
Qed.

(** The freeing loop frees the live cells of the prefix, in order. *)
Lemma gc_free_loop_ok cs n u :
  (n <= length cs)%nat -> u = Z.of_nat (length (live (take n cs))) ->
  exists cs', gc_free_loop cs n u = Ret (cs', 0, live (take n cs)) /\
    length cs' = length cs /\ drop n cs' = drop n cs /\
    live (take n cs') = [] /\
    (statuses_ok (take n cs) -> statuses_ok (take n cs')).
Proof.
  revert cs u; induction n as [|n IH]; intros cs u Hn Hu; simpl.
  { exists cs. simpl in Hu. by subst u. }
  destruct (Z.ltb_spec 0 u) as [Hpos|Hz].
  2:{ assert (live (take (S n) cs) = []) as E by (apply nil_length_inv; lia).
      assert (u = 0) as -> by (rewrite E in Hu; done).
      exists cs. by rewrite E. }
  destruct cs as [|c cs]; [simpl in Hn; lia|]. simpl in Hn. simpl take in *.
  rewrite live_cons in Hu |- *. destruct (Z.eqb_spec (gc_status c) 1) as [E|E]; simpl in Hu.
  - destruct (IH cs (u - 1) ltac:(lia) ltac:(lia)) as (cs' & -> & Hl & Hd & Hv & Hs).
    simpl. eexists; split; [done|]. simpl. split; [by f_equal|]. split; [done|]. split.
    + by rewrite live_cons, Hv.
    + intros [_ Ho]%Forall_cons. apply Forall_cons; split; [by left|by apply Hs].
  - destruct (IH cs u ltac:(lia) ltac:(lia)) as (cs' & -> & Hl & Hd & Hv & Hs).
    simpl. eexists; split; [done|]. simpl. split; [by f_equal|]. split; [done|]. split.
    + rewrite live_cons, Hv. by destruct (Z.eqb_spec (gc_status c) 1).
    + intros [Hc Ho]%Forall_cons. apply Forall_cons; split; [done|by apply Hs].
Qed.

(** ** Correctness of the operations *)

Section correctness.
Context `{HG : GcMemSpec}.
Implicit Types g : duda_gc_map.

Definition tail_free g : Prop := free_cells (drop (Z.to_nat (gc_size g)) (gc_cells g)).

Lemma gc_init_ok g : duda_gc_init = (0, Some g) ->
  gc_ok g /\ tail_free g /\ registered g = [] /\ gc_size g = 64.
Proof.
  unfold duda_gc_init. destruct (mem_alloc_z _) as [l|] eqn:E; [|done]. intros [= <-].
  apply alloc_z_zero in E; [|done].
  change (Z.to_nat _) with 64%nat in E. subst l.
  split_and!; [split|..]; try (cbn; done); try (apply Forall_nil; done).
  apply (Forall_replicate _ 64). by left.
Qed.

Lemma gc_new_size g : gc_ok g ->
  swrap 32 (swrap 32 (gc_size g * DUDA_GC_ENTRIES) + sizeof_gc_entry * DUDA_GC_CHUNK)
  = gc_size g * 64 + 256.
Proof.
  intros [[? ?] _ _ _ _]. unfold DUDA_GC_ENTRIES, sizeof_gc_entry, DUDA_GC_CHUNK.
  rewrite (swrap_small 32 (gc_size g * 64)) by lia. rewrite swrap_small; lia.
Qed.

(** Growth keeps the registered pointers and brings 16 cells in. *)
Lemma gc_grow_ok g l' : gc_ok g -> gc_size g + 16 < 2 ^ 24 -> gc_size g <= gc_used g ->
  mem_realloc (gc_cells g) (gc_size g * 64 + 256) = Some l' ->
  free_cells (take 16 (drop (Z.to_nat (gc_size g)) l')) ->
  let g1 := mk_gc_map (gc_used g) (gc_size g + 16) l' in
  gc_grow g = Some g1 /\ gc_ok g1 /\ registered g1 = registered g /\
  gc_cells g `prefix_of` l'.
Proof.
  intros Hok Hb Hfull Hr Hfree g1. pose proof Hok as [Hs Hc Hu Hst Hby].
  assert (Hq : (gc_size g * 64 + 256) / sizeof_gc_entry = gc_size g * 4 + 16)
    by (symmetry; apply Z.div_unique_exact; unfold sizeof_gc_entry; lia).
  apply realloc_keeps in Hr as Hk; [|rewrite Hq; lia].
  destruct Hk as [Hlen [t Ht]]. rewrite Hq in Hlen.
  assert (Htake : take (Z.to_nat (gc_size g + 16)) l' =
    take (Z.to_nat (gc_size g)) (gc_cells g) ++ take 16 (drop (Z.to_nat (gc_size g)) l')).
  { replace (Z.to_nat (gc_size g + 16)) with (Z.to_nat (gc_size g) + 16)%nat by lia.
    rewrite <- take_take_drop. f_equal. subst l'. by rewrite take_app_le. }
  assert (Hreg : registered g1 = registered g).
  { unfold registered, g1; simpl. rewrite Htake, live_app, (live_free _ Hfree). apply app_nil_r. }
  split; [|split; [split|split]]; simpl; try lia.
  - unfold gc_grow. dbool. rewrite gc_new_size by done. by rewrite Hr.
  - by rewrite Hreg.
  - rewrite Htake. apply Forall_app; split; [done|].
    eapply Forall_impl; [exact Hfree|]. auto.
  - done.
  - by exists t.
Qed.

(** Registering in a map that has room. *)
Lemma gc_insert_ok g q : gc_ok g -> gc_used g < gc_size g ->
  exists cs, gc_register (gc_cells g) (Z.to_nat (gc_size g)) q = Ret (Some cs) /\
    let g' := mk_gc_map (gc_used g + 1) (gc_size g) cs in
    gc_ok g' /\ registered g' ≡ₚ q :: registered g /\ (tail_free g -> tail_free g').
Proof.
  intros [Hs Hc Hu Hst Hby] Hroom.
  destruct (gc_register_ok (gc_cells g) (Z.to_nat (gc_size g)) q Hc Hst)
    as (cs & Hr & Hl & Hd & Hst' & Hp).
  { unfold registered in Hu. lia. }
  exists cs. split; [done|]. cbv zeta.
  assert (registered (mk_gc_map (gc_used g + 1) (gc_size g) cs) ≡ₚ q :: registered g) as Hp' by done.
  split; [|split; [done|unfold tail_free; simpl; by rewrite Hd]].
  split; simpl; try done; try lia.
  rewrite Hp'. simpl. lia.
Qed.

Lemma gc_add_room g q : gc_ok g -> gc_used g < gc_size g ->
  exists g', duda_gc_add g q = Ret (0, g') /\ gc_ok g' /\
    registered g' ≡ₚ q :: registered g /\ (tail_free g -> tail_free g') /\
    gc_size g' = gc_size g.
Proof.
  intros Hok Hroom. unfold duda_gc_add, gc_grow. dbool.
  destruct (gc_insert_ok g q Hok Hroom) as (cs & -> & Hg & Hp & Ht). simpl. eauto 10.
Qed.

Lemma gc_add_full g q l' : gc_ok g -> gc_size g + 16 < 2 ^ 24 -> gc_size g <= gc_used g ->
  mem_realloc (gc_cells g) (gc_size g * 64 + 256) = Some l' ->
  free_cells (take 16 (drop (Z.to_nat (gc_size g)) l')) ->
  exists g', duda_gc_add g q = Ret (0, g') /\ gc_ok g' /\
    registered g' ≡ₚ q :: registered g /\
    (free_cells (drop (Z.to_nat (gc_size g)) l') -> tail_free g') /\
    gc_size g' = gc_size g + 16.
Proof.
  intros Hok Hb Hfull Hr Hf. unfold duda_gc_add.
  destruct (gc_grow_ok g l' Hok Hb Hfull Hr Hf) as (-> & Hok1 & Hreg & _).
  pose proof (gc_used_count _ Hok1) as Hu1. rewrite Hreg in Hu1.
  pose proof (length_live (take (Z.to_nat (gc_size g)) (gc_cells g))) as Hle.
  rewrite length_take in Hle. unfold registered in Hu1. simpl in Hu1.
  pose proof (gc_size_range _ Hok).
  destruct (gc_insert_ok _ q Hok1) as (cs & Hcs & Hg & Hp & Ht); [simpl; lia|].
  simpl in Hcs |- *. rewrite Hcs, Hreg in *. simpl.
  eexists; split_and!; [done|done|done| |done].
  intros Hd. apply Ht. unfold tail_free; simpl.
  replace (Z.to_nat (gc_size g + 16)) with (Z.to_nat (gc_size g) + 16)%nat by lia.
  rewrite <- drop_drop. by apply Forall_drop.
Qed.

Definition can_grow g : Prop :=
  gc_size g + 16 < 2 ^ 24 /\
  exists l', mem_realloc (gc_cells g) (gc_size g * 64 + 256) = Some l' /\
    free_cells (take 16 (drop (Z.to_nat (gc_size g)) l')).

(** Every registration finds a free cell, or the array can grow and the cells that this brings in happen to be free. *)
Fixpoint room g (qs : list Z) : Prop :=
  match qs with
  | [] => True
  | q :: qs' => (gc_used g < gc_size g \/ can_grow g) /\ match duda_gc_add g q with Ret (_, g') => room g' qs' | Fault _ => True end
  end.

(** Registering a pointer succeeds whenever there is a free cell, or the
    array can grow into free cells: it returns 0, adds exactly that pointer to
    the registered ones and keeps the invariant. *)
Lemma gc_add_ok g q : gc_ok g ->
  gc_used g < gc_size g \/ can_grow g ->
  exists g', duda_gc_add g q = Ret (0, g') /\ gc_ok g' /\
    registered g' ≡ₚ q :: registered g.
Proof.
  intros Hok Hcan. destruct (decide (gc_used g < gc_size g)) as [Hroom|Hfull].
  - destruct (gc_add_room g q Hok Hroom) as (g' & ? & ? & ? & _). eauto.
  - destruct Hcan as [?|(Hb & l' & Hr & Hf)]; [lia|].
    destruct (gc_add_full g q l' Hok Hb ltac:(lia) Hr Hf) as (g' & ? & ? & ? & _). eauto.
Qed.

(** Adding any number of pointers. *)
Lemma gc_add_all_ok qs : forall g, gc_ok g -> room g qs ->
  exists g', gc_add_all g qs = Ret g' /\ gc_ok g' /\ registered g' ≡ₚ qs ++ registered g.
Proof.
  induction qs as [|q qs IH]; intros g Hok Hr; simpl; [eauto|]. destruct Hr as [Hcan Hr].
  destruct (gc_add_ok g q Hok Hcan) as (g1 & Hadd & Hok1 & Hp1). rewrite Hadd in *. simpl.
  destruct (IH g1 Hok1 Hr) as (g' & Hall & Hok' & Hp').
  exists g'. split_and!; [done|done|]. rewrite Hp', Hp1. by rewrite Permutation_middle.
Qed.

(** As many pointers as there are free cells need no growth. *)
Lemma room_within qs : forall g, gc_ok g -> gc_used g + Z.of_nat (length qs) <= gc_size g -> room g qs.
Proof.
  induction qs as [|q qs IH]; intros g Hok Hl; [done|]. cbn [length room] in *. split; [left; lia|].
  destruct (gc_add_room g q Hok ltac:(lia)) as (g1 & -> & Hok1 & Hp & _ & Hs). apply IH; [done|].
  rewrite (gc_used_count _ Hok1), Hp, Hs. cbn [length]. rewrite Nat2Z.inj_succ, <- (gc_used_count _ Hok). lia.
Qed.

Lemma gc_free_ok g : gc_ok g ->
  exists g', duda_gc_free_content g = Ret (gc_used g, g', registered g) /\
    gc_ok g' /\ registered g' = [] /\ gc_used g' = 0.
Proof.
  intros [Hs Hc Hu Hst Hby]. unfold duda_gc_free_content.
  destruct (gc_free_loop_ok (gc_cells g) (Z.to_nat (gc_size g)) (gc_used g) Hc Hu)
    as (cs & -> & Hl & Hd & Hv & Hst'). simpl.
  exists (mk_gc_map 0 (gc_size g) cs). split.
  - do 2 f_equal. f_equal. by rewrite Hu.
  - split; [|done]. split; simpl; auto; try lia.
    unfold registered; simpl. by rewrite Hv.
Qed.
End correctness.

(** A reference allocator; [stale] is what the memory past the old block holds
    first, the rest being zero. *)
Module RefGc.
Definition ops (stale : list duda_gc_entry) : GcMem :=
  {| mem_alloc_z n := Some (replicate (Z.to_nat (n / sizeof_gc_entry)) (mk_gc_entry 0 0));
     mem_realloc l n :=
       Some (resize (Z.to_nat (n / sizeof_gc_entry)) (mk_gc_entry 0 0) (l ++ stale)) |}.

Lemma gc_spec stale : @GcMemSpec (ops stale).
Proof.
  split; simpl.
  - by intros n l _ [= <-].
  - intros l n l' [= <-] Hle. rewrite length_resize, resize_spec.
    split; [lia|]. rewrite take_app_ge by lia. rewrite <- app_assoc. by eexists.
Qed.
End RefGc.

(** ** Properties *)

(** C22. A request's memory is released exactly once: after any sequence of
    registrations on a new collector, [duda_gc_free_content] frees the registered
    pointers and no other, once per registration, returns their number, and
    leaves an empty well-formed collector.  This holds for the 64 pointers a new collector has cells for, and for more as long as
    the cells that each growth brings in happen to be free: [realloc] does not clear the memory it adds, and the code does not either, so
    that it fails for an allocator that hands out used memory ([gc_growth_stale_cells]). *)
Theorem gc_lifecycle `{HG : GcMemSpec} g qs :
  duda_gc_init = (0, Some g) ->
  ((length qs <= 64)%nat -> room g qs) /\
  (room g qs -> exists g1 g2 freed,
    gc_add_all g qs = Ret g1 /\
    duda_gc_free_content g1 = Ret (Z.of_nat (length qs), g2, freed) /\
    freed ≡ₚ qs /\ gc_ok g2 /\ registered g2 = []).
Proof.
  intros Hi. apply gc_init_ok in Hi as (Hok & _ & Hreg & Hsz).
  pose proof (gc_used_count _ Hok) as Hu. rewrite Hreg in Hu. simpl in Hu.
  split; [intros Hl; apply room_within; [done|lia]|]. intros Hr.
  destruct (gc_add_all_ok qs g Hok Hr) as (g1 & Hadd & Hok1 & Hp).
  rewrite Hreg, app_nil_r in Hp.
  destruct (gc_free_ok g1 Hok1) as (g2 & Hf & Hok2 & Hr2 & _).
  exists g1, g2, (registered g1). split_and!; auto.
  by rewrite Hf, (gc_used_count _ Hok1), (Permutation_length Hp).
Qed.

Lemma gc_lifecycle_witness : exists g1 g2 freed,
  @gc_add_all (RefGc.ops []) (mk_gc_map 0 64 (replicate 64 (mk_gc_entry 0 0)))
    (Z.of_nat <$> seq 1 64) = Ret g1 /\
  duda_gc_free_content g1 = Ret (64, g2, freed) /\
  freed ≡ₚ (Z.of_nat <$> seq 1 64) /\ gc_ok g2 /\ registered g2 = [].
Proof.
  destruct (@gc_lifecycle _ (RefGc.gc_spec []) (mk_gc_map 0 64 (replicate 64 (mk_gc_entry 0 0))) (Z.of_nat <$> seq 1 64)) as [H1 H2]; [reflexivity|].
  apply H2, H1, Nat.leb_le. reflexivity.
Defined.

(** The growth of the collector does not clear the cells it brings in: with
    a [realloc] whose new memory starts with one stale cell marked used, 65
    registrations succeed, and the end of the request frees the pointer of the
    stale cell, which was never registered, and leaks the last one. *)
Theorem gc_growth_stale_cells :
  let M := RefGc.ops [mk_gc_entry 1 57005] in
  exists g g1 g2 freed,
    @GcMemSpec M /\ @duda_gc_init M = (0, Some g) /\
    @gc_add_all M g (Z.of_nat <$> seq 1 65) = Ret g1 /\ gc_used g1 = 65 /\
    duda_gc_free_content g1 = Ret (65, g2, freed) /\ 57005 ∈ freed /\ 65 ∉ freed.
Proof.
  cbv zeta. do 4 eexists. split_and!; [apply RefGc.gc_spec|reflexivity|vm_compute; reflexivity..| |];
    apply (bool_decide_unpack _); vm_compute; exact I.
Qed.
