(* ===== verification/QueryString.v ===== *)
(** * Query strings (lib/objects/duda_qs.c)

    [duda_qs_parse] fills the 32 entry array of the request in one pass over
    the bytes; [get], [get_id] and [cmp] read it.  Entries are pointers into the
    query string, as in the source. *)

From S2P Require Import Prelude CString Gc.

Record duda_qs_entry := mk_qs_entry { qkey : mk_ptr_t; qvalue : mk_ptr_t }.
Record duda_qs_map := mk_qs_map { qs_count : Z; qs_entries : list duda_qs_entry }.

Definition QS_ENTRIES_SIZE : nat := 32.

Definition set_key (k : mk_ptr_t) (e : duda_qs_entry) : duda_qs_entry := mk_qs_entry k (qvalue e).
Definition set_value (v : mk_ptr_t) (e : duda_qs_entry) : duda_qs_entry := mk_qs_entry (qkey e) v.

(** A store into [qs->entries[i]]. *)
Definition entry_write (l : list duda_qs_entry) (i : nat) (f : duda_qs_entry -> duda_qs_entry) :
    res (list duda_qs_entry) :=
  match l !! i with
  | Some e => Ret (<[i := f e]> l)
  | None => Fault OutOfBounds
  end.

(** The local variables of the loop; [key] and [val] are offsets. *)
Record qs_state := mk_qs_state {
  q_entries : list duda_qs_entry; q_count : nat; q_key : option nat; q_val : option nat }.

(** [if (key && val)]: close the value that ends at [i]. *)
Definition qs_close (s : list Z) (i : nat) (st : qs_state) : res qs_state :=
  match q_key st, q_val st with
  | Some _, Some v =>
      let len := Z.of_nat i - Z.of_nat v in
      l ← entry_write (q_entries st) (q_count st) (set_value (mk_ptr (drop (v + 1) s) (len - 1)));
      Ret (mk_qs_state l (q_count st + 1) (q_key st) (q_val st))
  | _, _ => Ret st
  end.

(** One turn of the loop: the [switch] on the byte at [i]. *)
Definition qs_step (s : list Z) (i : nat) (st : qs_state) : res qs_state :=
  let c := char_at s i in
  if c =? ch "&" then
    st ← qs_close s i st; Ret (mk_qs_state (q_entries st) (q_count st) None None)
  else if c =? ch "=" then
    match q_key st, q_val st with
    | Some k, None =>
        let len := Z.of_nat i - Z.of_nat k in
        l ← entry_write (q_entries st) (q_count st) (set_key (mk_ptr (drop k s) len));
        Ret (mk_qs_state l (q_count st) (q_key st)
               (if c =? ch " " then None else Some i))
    | _, _ => Ret st
    end
  else match q_key st with
       | None => Ret (mk_qs_state (q_entries st) (q_count st) (Some i) (q_val st))
       | Some _ => Ret st
       end.

Fixpoint qs_loop (s : list Z) (i n : nat) (st : qs_state) : res qs_state :=
  match n with
  | O => Ret st
  | S n' => st' ← qs_step s i st; qs_loop s (S i) n' st'
  end.

(** [None] stands for a request without a query string. *)
Definition duda_qs_parse (qs : duda_qs_map) (query_string : option mk_ptr_t) :
    res (Z * duda_qs_map) :=
  match query_string with
  | None => Ret (-1, qs)
  | Some q =>
      let qs_len := Z.to_nat (swrap 32 (len q)) in
      st ← qs_loop (data q) 0 qs_len (mk_qs_state (qs_entries qs) 0 None None);
      st ← qs_close (data q) qs_len st;
      let count := Z.of_nat (q_count st) in
      Ret (count, mk_qs_map count (q_entries st))
  end.

Definition duda_qs_count (qs : duda_qs_map) : Z := qs_count qs.

(** [str_copy_substr] gives the copied bytes at a new address, which is
    registered in the collector of the request. *)
Section accessors.
Context `{MkString, GcMem}.
Variable substr_address : Z.

(** The loop of [duda_qs_get] over the entries [i .. count - 1]. *)
Fixpoint qs_search (l : list duda_qs_entry) (n : nat) (key : list Z) : option mk_ptr_t :=
  match n, l with
  | S n', e :: l' =>
      if (len (qkey e) =? Z.of_nat (strlen key)) &&
         (strncmp (data (qkey e)) key (strlen key) =? 0)
      then Some (qvalue e) else qs_search l' n' key
  | _, _ => None
  end.

Definition qs_value_copy (g : duda_gc_map) (v : mk_ptr_t) :
    res (option (list Z) * duda_gc_map) :=
  let value := mk_string_copy_substr (data v) 0 (len v) in
  '(_, g') ← duda_gc_add g substr_address;
  Ret (Some value, g').

Definition duda_qs_get (qs : duda_qs_map) (g : duda_gc_map) (key : list Z) :
    res (option (list Z) * duda_gc_map) :=
  if qs_count qs <=? 0 then Ret (None, g)
  else match qs_search (qs_entries qs) (Z.to_nat (qs_count qs)) key with
       | Some v => qs_value_copy g v
       | None => Ret (None, g)
       end.

Definition duda_qs_get_id (qs : duda_qs_map) (g : duda_gc_map) (idx : Z) :
    res (option (list Z) * duda_gc_map) :=
  if (idx <? 0) || (qs_count qs <=? 0) then Ret (None, g)
  else if qs_count qs <=? idx then Ret (None, g)
  else match qs_entries qs !! Z.to_nat idx with
       | Some e => qs_value_copy g (qvalue e)
       | None => Fault OutOfBounds
       end.
End accessors.

Fixpoint qs_cmp_loop (l : list duda_qs_entry) (n : nat) (key value : list Z) : Z :=
  match n, l with
  | S n', e :: l' =>
      if (strncmp (data (qkey e)) key (Z.to_nat (len (qkey e))) =? 0) &&
         (strncmp (data (qvalue e)) value (Z.to_nat (len (qvalue e))) =? 0)
      then 0 else qs_cmp_loop l' n' key value
  | _, _ => -1
  end.

Definition duda_qs_cmp (qs : duda_qs_map) (key value : list Z) : Z :=
  if qs_count qs <=? 0 then -1
  else qs_cmp_loop (qs_entries qs) (Z.to_nat (qs_count qs)) key value.

(** ** Reference: the parameters of a query string

    The chunks between ['&']; of each chunk, leading ['='] are skipped, the name
    runs to the next ['='] and the value to the end of the chunk.  A chunk without
    a name or without ['='] after it is not a parameter. *)

Fixpoint split_on (c : Z) (s : list Z) : list (list Z) :=
  match s with
  | [] => [[]]
  | d :: s' =>
      if d =? c then [] :: split_on c s'
      else match split_on c s' with
           | w :: ws => (d :: w) :: ws
           | [] => [[d]]
           end
  end.

Fixpoint skip (c : Z) (s : list Z) : list Z :=
  match s with
  | d :: s' => if d =? c then skip c s' else s
  | [] => []
  end.

Fixpoint cut (c : Z) (s : list Z) : option (list Z * list Z) :=
  match s with
  | [] => None
  | d :: s' =>
      if d =? c then Some ([], s')
      else match cut c s' with Some (a, b) => Some (d :: a, b) | None => None end
  end.

Definition chunk_param (w : list Z) : option (list Z * list Z) := cut (ch "=") (skip (ch "=") w).

Definition query_params (s : list Z) : list (list Z * list Z) :=
  omap chunk_param (split_on (ch "&") s).

(** What an array of entries denotes. *)
Definition entry_param (e : duda_qs_entry) : list Z * list Z :=
  (ptr_bytes (qkey e), ptr_bytes (qvalue e)).

Definition params_of (qs : duda_qs_map) : list (list Z * list Z) :=
  entry_param <$> take (Z.to_nat (qs_count qs)) (qs_entries qs).

(** ** The parser computes the parameters

    The loop is related to an automaton over the contents of the current chunk,
    which in turn computes [query_params]. *)

Inductive chunk_state : Set :=
  | Idle
  | InKey (k : list Z)
  | InVal (k v : list Z).

Definition next (st : chunk_state) (c : Z) : chunk_state :=
  match st with
  | Idle => if c =? ch "=" then Idle else InKey [c]
  | InKey k => if c =? ch "=" then InVal k [] else InKey (k ++ [c])
  | InVal k v => InVal k (v ++ [c])
  end.

Definition finish (st : chunk_state) : list (list Z * list Z) :=
  match st with InVal k v => [(k, v)] | _ => [] end.

Fixpoint run (st : chunk_state) (s : list Z) : list (list Z * list Z) :=
  match s with
  | [] => finish st
  | c :: s' => if c =? ch "&" then finish st ++ run Idle s' else run (next st c) s'
  end.

Lemma split_on_cons c s : exists w ws, split_on c s = w :: ws.
Proof.
  induction s as [|d s (w & ws & IH)]; simpl; [eauto|].
  destruct (d =? c); [eauto|]. rewrite IH. eauto.
Qed.

Lemma next_InVal k v w : foldl next (InVal k v) w = InVal k (v ++ w).
Proof.
  revert v; induction w as [|c w IH]; intros v; simpl; [by rewrite app_nil_r|].
  by rewrite IH, <- app_assoc.
Qed.

Lemma next_InKey k w :
  finish (foldl next (InKey k) w) =
  match cut (ch "=") w with Some (a, b) => [(k ++ a, b)] | None => [] end.
Proof.
  revert k; induction w as [|c w IH]; intros k; simpl; [done|].
  destruct (c =? ch "=").
  - rewrite next_InVal. simpl. by rewrite app_nil_r.
  - rewrite IH. destruct (cut _ w) as [[a b]|]; [|done]. by rewrite <- app_assoc.
Qed.

Lemma next_Idle w :
  finish (foldl next Idle w) = match chunk_param w with Some x => [x] | None => [] end.
Proof.
  unfold chunk_param. induction w as [|c w IH]; simpl; [done|].
  destruct (Z.eqb_spec c (ch "=")) as [->|Hne]; [done|]. simpl.
  destruct (Z.eqb_spec c (ch "=")) as [|_]; [done|].
  rewrite next_InKey. by destruct (cut _ w) as [[a b]|].
Qed.

Lemma run_split st s w ws : split_on (ch "&") s = w :: ws ->
  run st s = finish (foldl next st w) ++ omap chunk_param ws.
Proof.
  revert st w ws; induction s as [|c s IH]; intros st w ws; simpl.
  { intros [= <- <-]. simpl. by rewrite app_nil_r. }
  destruct (split_on_cons (ch "&") s) as (w' & ws' & E). rewrite E.
  destruct (c =? ch "&").
  - intros [= <- <-]. simpl. rewrite (IH Idle w' ws' E), next_Idle.
    by destruct (chunk_param w').
  - intros [= <- <-]. simpl. by apply IH.
Qed.

Lemma run_query_params s : run Idle s = query_params s.
Proof.
  unfold query_params. destruct (split_on_cons (ch "&") s) as (w & ws & E).
  rewrite (run_split _ _ _ _ E), E, next_Idle. simpl. by destruct (chunk_param w).
Qed.

Lemma run_InVal_nonempty k v s : (0 < length (run (InVal k v) s))%nat.
Proof.
  revert v; induction s as [|c s IH]; intros v; simpl; [lia|].
  destruct (_ =? _); simpl; [lia|apply IH].
Qed.

(** The bytes from [a] to [b]. *)
Definition sub (s : list Z) (a b : nat) : list Z := take (b - a) (drop a s).

Lemma sub_snoc s a b c : (a <= b)%nat -> s !! b = Some c -> sub s a (S b) = sub s a b ++ [c].
Proof.
  intros Hab Hc. unfold sub. replace (S b - a)%nat with (S (b - a)) by lia.
  apply take_S_r. rewrite lookup_drop. by replace (a + (b - a))%nat with b by lia.
Qed.

Lemma sub_empty s a : sub s a a = [].
Proof. unfold sub. by rewrite Nat.sub_diag. Qed.

Lemma ptr_bytes_sub s a b : (a <= b)%nat ->
  ptr_bytes (mk_ptr (drop a s) (Z.of_nat b - Z.of_nat a)) = sub s a b.
Proof. intros H. unfold ptr_bytes, sub; simpl. f_equal. lia. Qed.

(** A pointer into [s]. *)
Definition ptr_of (s : list Z) (p : mk_ptr_t) : Prop :=
  (exists k, data p = drop k s) /\ 0 <= len p <= Z.of_nat (length (data p)).

Definition entry_of (s : list Z) (e : duda_qs_entry) : Prop :=
  ptr_of s (qkey e) /\ ptr_of s (qvalue e).

Lemma ptr_of_sub s a b : (a <= b <= length s)%nat ->
  ptr_of s (mk_ptr (drop a s) (Z.of_nat b - Z.of_nat a)).
Proof. intros H. split; simpl; [eauto|]. rewrite length_drop. lia. Qed.

(** The pointers [key] and [val] against the contents read so far. *)
Definition pointers (s : list Z) (i : nat) (st : qs_state) (cst : chunk_state) : Prop :=
  match cst with
  | Idle => q_key st = None /\ q_val st = None
  | InKey k => exists a, q_key st = Some a /\ q_val st = None /\ (a <= i)%nat /\ k = sub s a i
  | InVal k v => exists a b e, q_key st = Some a /\ q_val st = Some b /\ (b < i)%nat /\
      q_entries st !! q_count st = Some e /\ ptr_bytes (qkey e) = k /\
      ptr_of s (qkey e) /\ v = sub s (S b) i
  end.

Record qs_inv (s : list Z) (i : nat) (st : qs_state) (cst : chunk_state)
    (done : list (list Z * list Z)) : Prop := {
  inv_pointers : pointers s i st cst;
  inv_size : length (q_entries st) = QS_ENTRIES_SIZE;
  inv_count : q_count st = length done;
  inv_done : entry_param <$> take (q_count st) (q_entries st) = done;
  inv_entries : Forall (entry_of s) (take (q_count st) (q_entries st));
}.

Lemma take_insert_snoc {A B} (f : A -> B) l n x y :
  l !! n = Some y -> f <$> take (S n) (<[n := x]> l) = (f <$> take n l) ++ [f x].
Proof.
  intros H. apply lookup_lt_Some in H.
  rewrite (take_S_r _ _ x) by (rewrite list_lookup_insert_eq; done).
  by rewrite take_insert_ge, fmap_app by lia.
Qed.

(** Closing a chunk appends its parameter. *)
Lemma qs_close_ok s i st cst done : qs_inv s i st cst done -> (i <= length s)%nat ->
  exists st', qs_close s i st = Ret st' /\ length (q_entries st') = QS_ENTRIES_SIZE /\
    q_count st' = length (done ++ finish cst) /\
    entry_param <$> take (q_count st') (q_entries st') = done ++ finish cst /\
    Forall (entry_of s) (take (q_count st') (q_entries st')).
Proof.
  intros [Hp Hs Hc Hd Ho] Hi. unfold qs_close.
  destruct cst as [|k|k v]; simpl in Hp |- *.
  - destruct Hp as [-> _]. rewrite app_nil_r. eauto 10.
  - destruct Hp as (a & -> & -> & _). rewrite app_nil_r. eauto 10.
  - destruct Hp as (a & b & e & -> & -> & Hb & He & Hk & Hko & Hv).
    unfold entry_write. rewrite He. simpl. eexists; split; [done|]. simpl.
    split_and!.
    + by rewrite length_insert.
    + rewrite length_app, Hc. simpl. lia.
    + replace (q_count st + 1)%nat with (S (q_count st)) by lia.
      rewrite (take_insert_snoc _ _ _ _ e) by done. rewrite Hd. do 2 f_equal.
      unfold entry_param; simpl. f_equal; [done|].
      replace (Z.of_nat i - Z.of_nat b - 1) with (Z.of_nat i - Z.of_nat (b + 1)) by lia.
      rewrite ptr_bytes_sub by lia. subst v. f_equal. lia.
    + replace (q_count st + 1)%nat with (S (q_count st)) by lia.
      rewrite (take_S_r _ _ (set_value (mk_ptr (drop (b + 1) s) (Z.of_nat i - Z.of_nat b - 1)) e))
        by (apply list_lookup_insert_eq; by apply lookup_lt_Some in He).
      rewrite take_insert_ge by lia. apply Forall_app; split; [done|]. apply Forall_singleton.
      split; [done|]. simpl.
      replace (Z.of_nat i - Z.of_nat b - 1) with (Z.of_nat i - Z.of_nat (b + 1)) by lia.
      apply ptr_of_sub. lia.
Qed.

(** A byte other than ['&'] moves the automaton, or overflows the array. *)
Lemma qs_step_byte s i st cst done c : qs_inv s i st cst done -> s !! i = Some c ->
  c <> ch "&" ->
  (exists st', qs_step s i st = Ret st' /\ qs_inv s (S i) st' (next cst c) done) \/
  (qs_step s i st = Fault OutOfBounds /\ length done = QS_ENTRIES_SIZE /\
   exists k, next cst c = InVal k []).
Proof.
  intros [Hp Hs Hc Hd Ho] Hi Hne. pose proof (lookup_lt_Some _ _ _ Hi) as Hlt. unfold qs_step, char_at. rewrite Hi. simpl default.
  destruct (Z.eqb_spec c (ch "&")) as [|_]; [done|].
  destruct (Z.eqb_spec c (ch "=")) as [->|Hneq]; destruct cst as [|k|k v]; simpl in Hp |- *.
  - destruct Hp as [Hk Hv]. rewrite Hk. left. eexists; split; [done|]. by constructor.
  - destruct Hp as (a & Hk & Hv & Ha & ->). rewrite Hk, Hv. unfold entry_write.
    destruct (q_entries st !! q_count st) as [e|] eqn:He; simpl.
    + left. eexists; split; [done|]. constructor; simpl.
      * eexists a, i, _. split_and!; [done..|lia| | | |].
        { apply list_lookup_insert_eq. by apply lookup_lt_Some in He. }
        { simpl. by apply ptr_bytes_sub. }
        { simpl. apply ptr_of_sub. lia. }
        { by rewrite sub_empty. }
      * by rewrite length_insert.
      * done.
      * rewrite take_insert_ge by lia. done.
      * rewrite take_insert_ge by lia. done.
    + right. apply lookup_ge_None in He.
      assert (length done = length (entry_param <$> take (q_count st) (q_entries st))) as Hl
        by (by rewrite Hd).
      rewrite length_fmap, length_take in Hl. split_and!; [done|lia|eauto].
  - destruct Hp as (a & b & e & Hk & Hv & Hb & He & Hke & Hko & ->). rewrite Hk, Hv. left.
    eexists; split; [done|]. constructor; [|done..]. simpl.
    exists a, b, e. split_and!; auto. by rewrite (sub_snoc _ _ i (ch "=")) by (done || lia).
  - destruct Hp as [Hk Hv]. rewrite Hk. left. eexists; split; [done|].
    destruct (Z.eqb_spec c (ch "=")); [done|]. constructor; simpl; [|done..].
    exists i. split_and!; [done..|lia|]. by rewrite (sub_snoc _ _ i c), sub_empty by (done || lia).
  - destruct Hp as (a & Hk & Hv & Ha & ->). rewrite Hk. left. eexists; split; [done|].
    destruct (Z.eqb_spec c (ch "=")); [done|]. constructor; simpl; [|done..].
    exists a. split_and!; [done..|lia|]. by rewrite (sub_snoc _ _ i c) by (done || lia).
  - destruct Hp as (a & b & e & Hk & Hv & Hb & He & Hke & Hko & ->). rewrite Hk. left.
    eexists; split; [done|]. constructor; [|done..]. simpl.
    exists a, b, e. split_and!; auto. by rewrite (sub_snoc _ _ i c) by (done || lia).
Qed.

Lemma qs_step_amp s i st cst done : qs_inv s i st cst done -> s !! i = Some (ch "&") ->
  exists st', qs_step s i st = Ret st' /\ qs_inv s (S i) st' Idle (done ++ finish cst).
Proof.
  intros Hinv Hi. destruct (qs_close_ok _ _ _ _ _ Hinv) as (st' & Hst & Hs & Hc & Hd & Ho).
  { apply lookup_lt_Some in Hi. lia. }
  unfold qs_step, char_at. rewrite Hi. simpl default. rewrite Hst. simpl.
  eexists; split; [done|]. by constructor.
Qed.

(** The whole pass: the entries are the parameters when they fit. *)
Definition qs_result (s : list Z) (r : res qs_state) (ps : list (list Z * list Z)) : Prop :=
  if (length ps <=? QS_ENTRIES_SIZE)%nat then
    exists st, r = Ret st /\ q_count st = length ps /\
      length (q_entries st) = QS_ENTRIES_SIZE /\
      entry_param <$> take (q_count st) (q_entries st) = ps /\
      Forall (entry_of s) (take (q_count st) (q_entries st))
  else r = Fault OutOfBounds.

Lemma qs_loop_ok s n : forall i st cst done,
  qs_inv s i st cst done -> (i + n <= length s)%nat ->
  qs_result s (st' ← qs_loop s i n st; qs_close s (i + n) st')
    (done ++ run cst (take n (drop i s))).
Proof.
  induction n as [|n IH]; intros i st cst done Hinv Hn; simpl.
  - rewrite Nat.add_0_r. destruct (qs_close_ok _ _ _ _ _ Hinv) as (st' & -> & Hs & Hc & Hd & Ho); [lia|].
    unfold qs_result.
    assert (length (done ++ finish cst) <= QS_ENTRIES_SIZE)%nat as Hle.
    { rewrite <- Hd, length_fmap, length_take. lia. }
    destruct (Nat.leb_spec (length (done ++ finish cst)) QS_ENTRIES_SIZE); [eauto 10|lia].
  - destruct (lookup_lt_is_Some_2 s i) as [c Hi]; [lia|].
    rewrite (drop_lookup_cons _ _ _ Hi). simpl.
    replace (i + S n)%nat with (S i + n)%nat by lia.
    destruct (Z.eqb_spec c (ch "&")) as [->|Hne].
    + destruct (qs_step_amp _ _ _ _ _ Hinv Hi) as (st' & -> & Hinv'). simpl.
      rewrite app_assoc. by apply IH; [|lia].
    + destruct (qs_step_byte _ _ _ _ _ _ Hinv Hi Hne) as [(st' & -> & Hinv')|(-> & Hl & k & ->)].
      * simpl. by apply IH; [|lia].
      * simpl. unfold qs_result.
        pose proof (run_InVal_nonempty k [] (take n (drop (S i) s))) as Hpos.
        destruct (Nat.leb_spec (length (done ++ run (InVal k []) (take n (drop (S i) s))))
          QS_ENTRIES_SIZE) as [Hle|]; [|done].
        rewrite length_app in Hle. lia.
Qed.

Lemma qs_parse_ok qs q :
  0 <= len q < 2 ^ 31 -> (Z.to_nat (len q) <= length (data q))%nat ->
  length (qs_entries qs) = QS_ENTRIES_SIZE ->
  let ps := query_params (ptr_bytes q) in
  if (length ps <=? QS_ENTRIES_SIZE)%nat then
    exists qs', duda_qs_parse qs (Some q) = Ret (Z.of_nat (length ps), qs') /\
      qs_count qs' = Z.of_nat (length ps) /\ length (qs_entries qs') = QS_ENTRIES_SIZE /\
      params_of qs' = ps /\
      Forall (entry_of (data q)) (take (Z.to_nat (qs_count qs')) (qs_entries qs'))
  else duda_qs_parse qs (Some q) = Fault OutOfBounds.
Proof.
  intros Hl Hd He ps. unfold duda_qs_parse. rewrite swrap_small by lia.
  pose proof (qs_loop_ok (data q) (Z.to_nat (len q)) 0
    (mk_qs_state (qs_entries qs) 0 None None) Idle []) as H.
  rewrite drop_0, run_query_params in H. simpl app in H.
  change (query_params _) with ps in H. unfold qs_result in H.
  assert (qs_inv (data q) 0 (mk_qs_state (qs_entries qs) 0 None None) Idle []) as Hinv
    by (constructor; try done; apply Forall_nil_2).
  specialize (H Hinv Hd).
  destruct (qs_loop _ _ _ _) as [st|f]; simpl in H |- *.
  - destruct (qs_close _ _ _) as [st'|f']; simpl.
    + destruct (_ <=? _)%nat; [|done]. destruct H as (st2 & [= <-] & Hc & Hlen & Hps & Ho).
      rewrite Hc in *. eexists. split_and!; [done..| |].
      * unfold params_of; simpl. by rewrite Nat2Z.id.
      * simpl. by rewrite Nat2Z.id.
    + destruct (_ <=? _)%nat; [by destruct H as (? & ? & _)|by injection H as ->].
  - destruct (_ <=? _)%nat; [by destruct H as (? & ? & _)|by injection H as ->].
Qed.

(** ** Reading the entries *)

Fixpoint assoc (key : list Z) (ps : list (list Z * list Z)) : option (list Z) :=
  match ps with
  | [] => None
  | (k, v) :: ps' => if decide (k = key) then Some v else assoc key ps'
  end.

Section reading.
Variable s : list Z.
Hypothesis Hs : cstr s.

Lemma ptr_of_ok p : ptr_of s p -> ptr_ok p.
Proof. intros [[k Hk] Hl]. split; [rewrite Hk; by apply cstr_drop|done]. Qed.

(** The test of [duda_qs_get] is equality of the names. *)
Lemma name_test p key : ptr_of s p -> cstr key ->
  (len p =? Z.of_nat (strlen key)) && (strncmp (data p) key (strlen key) =? 0) = true
  <-> ptr_bytes p = key.
Proof.
  intros Hp Hk. apply ptr_of_ok in Hp as [Hd Hl].
  rewrite andb_true_iff, !Z.eqb_eq, strlen_cstr by done. unfold ptr_bytes. split.
  - intros [He Hc]. rewrite He, Nat2Z.id. apply strncmp_take in Hc; [|done..].
    by rewrite Hc, take_ge.
  - intros He. assert (len p = Z.of_nat (length key)) as Hn.
    { rewrite <- He, length_take. lia. }
    split; [done|]. apply strncmp_take; [done..|].
    rewrite Hn, Nat2Z.id in He. by rewrite He, take_ge.
Qed.

Lemma qs_search_ok es n key : cstr key -> Forall (entry_of s) (take n es) ->
  match assoc key (entry_param <$> take n es) with
  | Some v => exists e, qs_search es n key = Some e /\ ptr_of s e /\ ptr_bytes e = v
  | None => qs_search es n key = None
  end.
Proof.
  intros Hk. revert es; induction n as [|n IH]; intros [|e es] Ho; simpl; try done.
  apply Forall_cons in Ho as [[Hke Hve] Ho].
  pose proof (name_test (qkey e) key Hke Hk) as Ht.
  destruct (_ && _) eqn:E.
  - rewrite decide_True by (by apply Ht). eauto.
  - rewrite decide_False by (intros Heq; apply Ht in Heq; congruence). by apply IH.
Qed.

Lemma prefix_test p x : ptr_of s p -> cstr x ->
  (strncmp (data p) x (Z.to_nat (len p)) =? 0) = true <-> ptr_bytes p `prefix_of` x.
Proof.
  intros Hp Hx. apply ptr_of_ok in Hp as [Hd Hl]. unfold ptr_bytes.
  rewrite Z.eqb_eq, strncmp_take by done. split.
  - intros ->. exists (drop (Z.to_nat (len p)) x). by rewrite take_drop.
  - intros [k Hk]. rewrite Hk, take_app_le, take_take.
    + f_equal. lia.
    + rewrite length_take. lia.
Qed.

Lemma qs_cmp_loop_ok es n key value : cstr key -> cstr value ->
  Forall (entry_of s) (take n es) ->
  qs_cmp_loop es n key value =
  if decide (Exists (fun kv => kv.1 `prefix_of` key /\ kv.2 `prefix_of` value)
               (entry_param <$> take n es)) then 0 else -1.
Proof.
  intros Hk Hv. revert es; induction n as [|n IH]; intros [|e es] Ho; simpl.
  1-3: done.
  apply Forall_cons in Ho as [[Hke Hve] Ho].
  pose proof (prefix_test (qkey e) key Hke Hk) as Ht1.
  pose proof (prefix_test (qvalue e) value Hve Hv) as Ht2.
  destruct (_ && _) eqn:E.
  - apply andb_true_iff in E as [E1 E2]. rewrite decide_True; [done|].
    apply Exists_cons_hd. simpl. by rewrite <- Ht1, <- Ht2.
  - rewrite IH by done. apply decide_ext. rewrite Exists_cons. simpl.
    rewrite <- Ht1, <- Ht2. split; [by right|]. intros [[E1 E2]|?]; [|done].
    by rewrite E1, E2 in E.
Qed.
End reading.

(** A collector in which one more pointer can be registered. *)
Definition gc_has_room `{GcMem} (g : duda_gc_map) : Prop :=
  gc_ok g /\ (gc_used g < gc_size g \/ can_grow g).

Lemma qs_value_copy_ok `{MkStringSpec, GcMemSpec} addr g s v : cstr s -> ptr_of s v ->
  gc_has_room g ->
  exists g', qs_value_copy addr g v = Ret (Some (ptr_bytes v), g') /\ gc_ok g' /\
    registered g' ≡ₚ addr :: registered g.
Proof.
  intros Hs [_ Hv] [Hok Hroom]. unfold qs_value_copy.
  destruct (gc_add_ok g addr Hok Hroom) as (g' & -> & Hok' & Hp). simpl.
  exists g'. split; [|done]. rewrite copy_substr_bytes, Z.sub_0_r by lia.
  by rewrite drop_0.
Qed.

(** What parsing establishes for the readers. *)
Lemma parsed_entries qs0 q n qs :
  0 <= len q < 2 ^ 31 -> (Z.to_nat (len q) <= length (data q))%nat ->
  length (qs_entries qs0) = QS_ENTRIES_SIZE ->
  duda_qs_parse qs0 (Some q) = Ret (n, qs) ->
  Forall (entry_of (data q)) (take (Z.to_nat (qs_count qs)) (qs_entries qs)) /\
  params_of qs = query_params (ptr_bytes q) /\
  qs_count qs = Z.of_nat (length (query_params (ptr_bytes q))) /\
  length (qs_entries qs) = QS_ENTRIES_SIZE /\
  (length (query_params (ptr_bytes q)) <= QS_ENTRIES_SIZE)%nat.
Proof.
  intros Hl Hd He Hp. pose proof (qs_parse_ok qs0 q Hl Hd He) as H. cbv zeta in H.
  destruct (Nat.leb_spec (length (query_params (ptr_bytes q))) QS_ENTRIES_SIZE); [|congruence].
  destruct H as (qs' & Hr & Hc & Hlen & Hps & Ho). rewrite Hp in Hr.
  injection Hr as _ ->. done.
Qed.

(** ** Properties *)

(** C23. Parsing a query string stores exactly its parameters, in order: those of
    the chunks between ['&'], a name up to the first ['='] after any leading ones
    and a value up to the end of the chunk, chunks without a name or a ['='] being
    skipped; the return value and [count] are their number.  With more than the 32
    parameters of the array the parser writes past it. *)
Theorem qs_parse_params qs q :
  0 <= len q < 2 ^ 31 -> (Z.to_nat (len q) <= length (data q))%nat ->
  length (qs_entries qs) = QS_ENTRIES_SIZE ->
  let ps := query_params (ptr_bytes q) in
  if (length ps <=? QS_ENTRIES_SIZE)%nat then
    exists qs', duda_qs_parse qs (Some q) = Ret (Z.of_nat (length ps), qs') /\
      duda_qs_count qs' = Z.of_nat (length ps) /\ params_of qs' = ps
  else duda_qs_parse qs (Some q) = Fault OutOfBounds.
Proof.
  intros Hl Hd He ps. pose proof (qs_parse_ok qs q Hl Hd He) as H. cbv zeta in H.
  change (query_params _) with ps in H. destruct (_ <=? _)%nat; [|done].
  destruct H as (qs' & ? & ? & _ & ? & _). eauto.
Qed.

Definition empty_entries : list duda_qs_entry :=
  replicate 32 (mk_qs_entry (mk_ptr [] 0) (mk_ptr [] 0)).

Lemma qs_parse_params_witness :
  (exists qs', duda_qs_parse (mk_qs_map 0 empty_entries)
      (Some (mk_ptr (cs "a=1&b&=c=x=y&&d= HTTP") 16)) = Ret (3, qs') /\
    duda_qs_count qs' = 3 /\
    params_of qs' = [(cs "a", cs "1"); (cs "c", cs "x=y"); (cs "d", cs "")]) /\
  (let q := concat (replicate 33 (cs "a=&")) in
   duda_qs_parse (mk_qs_map 0 empty_entries) (Some (mk_ptr q 99)) = Fault OutOfBounds).
Proof.
  split.
  - apply (qs_parse_params (mk_qs_map 0 empty_entries) (mk_ptr (cs "a=1&b&=c=x=y&&d= HTTP") 16));
      [vm_compute; split; congruence|vm_compute; lia|reflexivity].
  - apply (qs_parse_params (mk_qs_map 0 empty_entries)
      (mk_ptr (concat (replicate 33 (cs "a=&"))) 99));
      [vm_compute; split; congruence|vm_compute; lia|reflexivity].
Defined.

(** After a successful parse, [qs->get] returns a copy of the value of the
    first parameter with exactly that name and registers it in the collector, or
    returns [NULL] and leaves the collector alone; [qs->get_id] does the same with
    the parameter at a position, for every [int] position, negative ones
    included. *)
Theorem qs_get_values `{HS : MkStringSpec, HG : GcMemSpec} addr qs0 q n qs g key idx :
  0 <= len q < 2 ^ 31 -> ptr_ok q -> length (qs_entries qs0) = QS_ENTRIES_SIZE ->
  duda_qs_parse qs0 (Some q) = Ret (n, qs) -> cstr key -> gc_has_room g ->
  let ps := query_params (ptr_bytes q) in
  let outcome r o :=
    match o with
    | Some v => exists g', r = Ret (Some v, g') /\ gc_ok g' /\
        registered g' ≡ₚ addr :: registered g
    | None => r = Ret (None, g)
    end in
  outcome (duda_qs_get addr qs g key) (assoc key ps) /\
  outcome (duda_qs_get_id addr qs g idx)
    (if idx <? 0 then None else snd <$> ps !! Z.to_nat idx).
Proof.
  intros Hl [Hcs Hlen] He Hp Hk Hg ps outcome.
  destruct (parsed_entries qs0 q n qs Hl ltac:(lia) He Hp) as (Ho & Hps & Hc & Hsz & Hle).
  assert (Hcopy : forall p, ptr_of (data q) p ->
    outcome (qs_value_copy addr g p) (Some (ptr_bytes p)))
    by (intros p Hpo; by apply (qs_value_copy_ok _ _ (data q))).
  fold ps in Hps, Hc, Hle. split.
  - unfold duda_qs_get. pose proof (qs_search_ok _ Hcs _ _ key Hk Ho) as Hf.
    change (entry_param <$> _) with (params_of qs) in Hf. rewrite Hps in Hf.
    destruct (Z.leb_spec (qs_count qs) 0) as [Hzero|_].
    { destruct ps; [done|]. simpl in Hc. lia. }
    destruct (assoc key ps) as [v|]; [|by rewrite Hf].
    destruct Hf as (e & -> & Hpo & <-). by apply Hcopy.
  - unfold duda_qs_get_id. destruct (Z.ltb_spec idx 0); [done|]. cbn [orb].
    assert (Hat : (snd <$> ps !! Z.to_nat idx) =
      if decide (Z.to_nat idx < length ps)%nat
      then (fun e => ptr_bytes (qvalue e)) <$> qs_entries qs !! Z.to_nat idx else None).
    { rewrite <- Hps at 1. unfold params_of. rewrite list_lookup_fmap, Hc, Nat2Z.id.
      destruct (decide _) as [Hlt|Hge].
      - rewrite lookup_take_lt by done. by destruct (_ !! _).
      - by rewrite lookup_take_ge by lia. }
    rewrite Hat. destruct (Z.leb_spec (qs_count qs) 0); [by rewrite decide_False by lia|].
    destruct (Z.leb_spec (qs_count qs) idx); [by rewrite decide_False by lia|].
    rewrite decide_True by lia.
    destruct (lookup_lt_is_Some_2 (qs_entries qs) (Z.to_nat idx)) as [e He']; [lia|].
    rewrite He'. simpl. apply Hcopy.
    apply (Forall_lookup_1 (entry_of (data q)) _ (Z.to_nat idx) e) in Ho; [by destruct Ho|].
    by rewrite lookup_take_lt by lia.
Qed.

Definition ref_gc : duda_gc_map := mk_gc_map 0 64 (replicate 64 (mk_gc_entry 0 0)).

Lemma ref_gc_room : @gc_has_room (RefGc.ops []) ref_gc.
Proof.
  destruct (@gc_init_ok _ (RefGc.gc_spec []) ref_gc eq_refl) as (Hok & _). split; [done|by left].
Qed.

Lemma qs_get_values_witness : exists n qs,
  duda_qs_parse (mk_qs_map 0 empty_entries) (Some (mk_ptr (cs "a=1&b=2") 7)) = Ret (n, qs) /\
  (exists g', @duda_qs_get RefString.ops (RefGc.ops []) 4096 qs ref_gc (cs "b")
     = Ret (Some (cs "2"), g') /\ gc_ok g' /\ registered g' ≡ₚ 4096 :: registered ref_gc) /\
  @duda_qs_get_id RefString.ops (RefGc.ops []) 4096 qs ref_gc (-1) = Ret (None, ref_gc).
Proof.
  do 2 eexists. split; [vm_compute; reflexivity|].
  apply (@qs_get_values _ RefString.string_spec _ (RefGc.gc_spec []) 4096 (mk_qs_map 0 empty_entries)
    (mk_ptr (cs "a=1&b=2") 7) 2 _ ref_gc (cs "b") (-1));
    [vm_compute; split; congruence|apply (bool_decide_unpack _); vm_compute; exact I
    |reflexivity|vm_compute; reflexivity|apply (bool_decide_unpack _); vm_compute; exact I
    |apply ref_gc_room].
Defined.

(** [qs->cmp] compares each stored name and value with the arguments over
    the stored lengths only: it returns 0 exactly when some parameter's name is a
    prefix of [key] and its value a prefix of [value], so that "?a=" matches
    every value of every key that starts with "a". *)
Theorem qs_cmp_prefixes qs0 q n qs key value :
  0 <= len q < 2 ^ 31 -> ptr_ok q -> length (qs_entries qs0) = QS_ENTRIES_SIZE ->
  duda_qs_parse qs0 (Some q) = Ret (n, qs) -> cstr key -> cstr value ->
  duda_qs_cmp qs key value =
    if decide (Exists (fun kv => kv.1 `prefix_of` key /\ kv.2 `prefix_of` value)
                 (query_params (ptr_bytes q))) then 0 else -1.
Proof.
  intros Hl [Hcs Hlen] He Hp Hk Hv.
  destruct (parsed_entries qs0 q n qs Hl ltac:(lia) He Hp) as (Ho & Hps & Hc & _).
  unfold duda_qs_cmp. destruct (Z.leb_spec (qs_count qs) 0).
  - destruct (query_params _); [|simpl in Hc; lia].
    rewrite decide_False; [done|by intros []%Exists_nil].
  - rewrite (qs_cmp_loop_ok (data q)) by done.
    change (entry_param <$> _) with (params_of qs). by rewrite Hps.
Qed.

Lemma qs_cmp_prefixes_witness : exists n qs,
  duda_qs_parse (mk_qs_map 0 empty_entries) (Some (mk_ptr (cs "a=") 2)) = Ret (n, qs) /\
  duda_qs_cmp qs (cs "admin") (cs "true") = 0.
Proof.
  do 2 eexists. split; [vm_compute; reflexivity|].
  etransitivity;
    [apply (qs_cmp_prefixes (mk_qs_map 0 empty_entries) (mk_ptr (cs "a=") 2) 1)|vm_compute; reflexivity];
    [vm_compute; split; congruence|apply (bool_decide_unpack _); vm_compute; exact I
    |reflexivity|vm_compute; reflexivity|apply (bool_decide_unpack _); vm_compute; exact I
    |apply (bool_decide_unpack _); vm_compute; exact I].
Defined.
