(* ===== verification/BodyBuffer.v ===== *)
(** * Response body buffers and files being sent (lib/duda_body_buffer.c,
      lib/duda_sendfile.c)

    A body buffer is an [mk_iov]: an array of slices to write and the total
    length left.  [duda_body_buffer_flush] calls writev(2) once and adjusts the
    array after a partial write.  The result of each system call is an argument
    of the model. *)

From S2P Require Import Prelude CString.

(** [iov_base] is the list of the bytes from the pointer on. *)
Record iovec := mk_iovec { iov_base : list Z; iov_len : Z }.

(** The fields of Monkey's [mk_iov] the sources use; [io] lists the [iov_idx]
    entries in use, and [iov_size] is the allocated number. *)
Record mk_iov := mk_mk_iov { io : list iovec; total_len : Z; iov_size : Z }.

Definition iov_idx (b : mk_iov) : Z := Z.of_nat (length (io b)).

Definition BODY_BUFFER_SIZE : Z := 8.
Definition IOV_MAX : Z := 1024.

Record duda_body_buffer := mk_bb { bb_buf : mk_iov; bb_size : Z; bb_sent : Z }.

(** [iov_create] gives an empty array of the given size. *)
Definition duda_body_buffer_new : duda_body_buffer :=
  mk_bb (mk_mk_iov [] 0 BODY_BUFFER_SIZE) BODY_BUFFER_SIZE 0.

(** [iov_realloc] is Monkey's: the resized array, or [NULL]. *)
Definition duda_body_buffer_expand (iov_realloc : mk_iov -> Z -> option mk_iov)
    (bb : duda_body_buffer) : Z * duda_body_buffer :=
  let size := iov_size (bb_buf bb) + BODY_BUFFER_SIZE in
  match iov_realloc (bb_buf bb) size with
  | None => (-1, bb)
  | Some buf => (0, mk_bb buf (wrap 16 size) (bb_sent bb))
  end.

Definition io_get (l : list iovec) (i : nat) : iovec := default (mk_iovec [] 0) (l !! i).

(** The loop that finds where the written bytes end: [reset_to] and the array
    with the split entry advanced. *)
Fixpoint find_offset (l : list iovec) (n i : nat) (bytes_sent count : Z) : Z * list iovec :=
  match n with
  | O => (-1, l)
  | S n' =>
      let e := io_get l i in
      let upto := wrap 64 (count + iov_len e) in
      if upto =? bytes_sent then (Z.of_nat i, l)
      else if bytes_sent <? upto then
        let bytes_to := wrap 32 (bytes_sent - count) in
        (Z.of_nat i - 1,
         <[i := mk_iovec (drop (Z.to_nat bytes_to) (iov_base e)) (wrap 64 (iov_len e - bytes_to))]> l)
      else find_offset l n' (S i) bytes_sent (swrap 32 (count + iov_len e))
  end.

(** [for (i = 0; i <= reset_to; i++) buf->io[i].iov_len = 0]: [n] turns. *)
Fixpoint reset_entries (l : list iovec) (n : nat) : list iovec :=
  match n, l with
  | S n', e :: l' => mk_iovec (iov_base e) 0 :: reset_entries l' n'
  | _, _ => l
  end.

(** [writev] is the value the system call returns.  The result is the return
    value and the new buffer. *)
Definition duda_body_buffer_flush (writev : Z) (bb : duda_body_buffer) :
    res (Z * duda_body_buffer) :=
  let buf := bb_buf bb in
  if IOV_MAX <? iov_idx buf then Fault ExitFailure
  else
    let bytes_sent := wrap 32 writev in
    let buf :=
      if bytes_sent <? total_len buf then
        let '(reset_to, l) := find_offset (io buf) (length (io buf)) 0 bytes_sent 0 in
        mk_mk_iov (reset_entries l (Z.to_nat (reset_to + 1)))
          (wrap 64 (total_len buf - bytes_sent)) (iov_size buf)
      else buf in
    if bytes_sent =? total_len buf
    then Ret (0, mk_bb (mk_mk_iov (io buf) 0 (iov_size buf)) (bb_size bb) (bb_sent bb))
    else Ret (swrap 32 bytes_sent, mk_bb buf (bb_size bb) (bb_sent bb)).

(** ** Files *)

(** The part of Monkey's [struct file_info] the source reads. *)
Record file_info := mk_file_info { fi_size : Z; read_access : bool }.

Record duda_sendfile := mk_sf { sf_fd : Z; sf_offset : Z; pending_bytes : Z; sf_info : file_info }.

(** [file_get_info] is the answer of Monkey ([None] for -1), [open_fd] the
    descriptor returned by open(2). *)
Definition duda_sendfile_new (file_get_info : option file_info) (open_fd : Z)
    (offset count : Z) : option duda_sendfile :=
  if offset <? 0 then None
  else match file_get_info with
  | None => None
  | Some info =>
      let fsize := fi_size info in
      if (fsize <? wrap 32 offset) || (fsize <? count) ||
         (fsize <? wrap 64 (wrap 32 offset + count)) then None
      else if negb (read_access info) then None
      else if open_fd <? 0 then None
      else Some (mk_sf open_fd offset
                   (if count =? 0 then wrap 64 (fi_size info - offset) else count) info)
  end.

(** [bytes] is the return value of [socket_send_file], [offset'] what it leaves
    in [sf->offset]. *)
Definition duda_sendfile_flush (bytes offset' : Z) (sf : duda_sendfile) : Z * duda_sendfile :=
  let upd p := mk_sf (sf_fd sf) offset' p (sf_info sf) in
  if 0 <? bytes then
    let p := wrap 64 (pending_bytes sf - bytes) in (swrap 32 p, upd p)
  else if bytes =? -1 then (0, upd 0)
  else (swrap 32 (pending_bytes sf), upd (pending_bytes sf)).

(** ** What is left to send *)

Definition slice (e : iovec) : list Z := take (Z.to_nat (iov_len e)) (iov_base e).
Definition iov_bytes (l : list iovec) : list Z := concat (slice <$> l).

Definition iovec_ok (e : iovec) : Prop := 0 <= iov_len e <= Z.of_nat (length (iov_base e)).

#[export] Instance iovec_ok_dec e : Decision (iovec_ok e).
Proof. unfold iovec_ok. apply _. Defined.

(** The total is the number of bytes of the slices. *)
Record bb_ok (bb : duda_body_buffer) : Prop := {
  bb_entries : Forall iovec_ok (io (bb_buf bb));
  bb_total : total_len (bb_buf bb) = Z.of_nat (length (iov_bytes (io (bb_buf bb))));
  bb_int : total_len (bb_buf bb) < 2 ^ 31;
  bb_iov_max : iov_idx (bb_buf bb) <= IOV_MAX;
}.

Lemma slice_length e : iovec_ok e -> Z.of_nat (length (slice e)) = iov_len e.
Proof. intros [? ?]. unfold slice. rewrite length_take. lia. Qed.

Lemma iov_bytes_cons e l : iov_bytes (e :: l) = slice e ++ iov_bytes l.
Proof. done. Qed.

Lemma iov_bytes_app a b : iov_bytes (a ++ b) = iov_bytes a ++ iov_bytes b.
Proof. unfold iov_bytes. by rewrite fmap_app, concat_app. Qed.

Lemma reset_entries_bytes l n :
  iov_bytes (reset_entries l n) = iov_bytes (drop n l).
Proof.
  revert l; induction n as [|n IH]; intros [|e l]; simpl; try done.
  rewrite iov_bytes_cons, IH. done.
Qed.

Lemma reset_entries_ok l n : Forall iovec_ok l -> Forall iovec_ok (reset_entries l n).
Proof.
  revert l; induction n as [|n IH]; intros [|e l] H; simpl; try done.
  apply Forall_cons in H as [He H]. apply Forall_cons; split; [|by apply IH].
  unfold iovec_ok in *; simpl; lia.
Qed.

Lemma reset_entries_length l n : length (reset_entries l n) = length l.
Proof. revert l; induction n as [|n IH]; intros [|e l]; simpl; auto. Qed.

(** The entry in which the written bytes end is advanced to the first byte left. *)
Lemma slice_cut pre e post k :
  Forall iovec_ok pre -> iovec_ok e -> Forall iovec_ok post -> 0 <= k < iov_len e ->
  let l := pre ++ e :: post in
  let l' := <[length pre := mk_iovec (drop (Z.to_nat k) (iov_base e)) (iov_len e - k)]> l in
  Forall iovec_ok l' /\ length l' = length l /\
  iov_bytes (drop (length pre) l') = drop (length (iov_bytes pre) + Z.to_nat k) (iov_bytes l).
Proof.
  intros Hp He Hq Hk l l'. pose proof (slice_length e He) as Hse. set (e' := mk_iovec _ _) in l'.
  assert (Hl' : l' = pre ++ e' :: post).
  { unfold l', l. rewrite insert_app_r_alt, Nat.sub_diag by lia. done. }
  rewrite Hl'. split_and!.
  - apply Forall_app; split; [done|apply Forall_cons; split; [|done]].
    unfold iovec_ok, e' in *; simpl. rewrite length_drop. lia.
  - unfold l. by rewrite !length_app.
  - unfold l. rewrite drop_app_length, iov_bytes_app, !iov_bytes_cons.
    rewrite drop_app_ge by lia. rewrite drop_app_le by lia. f_equal.
    unfold slice, e'; simpl. rewrite skipn_firstn_comm. f_equal; [lia|f_equal; lia].
Qed.

(** The scan: after resetting the entries up to [reset_to], exactly the first
    [n] bytes are gone. *)
Lemma find_offset_ok pre post n :
  let l := pre ++ post in
  let count := Z.of_nat (length (iov_bytes pre)) in
  Forall iovec_ok l -> Z.of_nat (length (iov_bytes l)) < 2 ^ 31 ->
  count <= n < Z.of_nat (length (iov_bytes l)) ->
  let '(reset_to, l') := find_offset l (length post) (length pre) n count in
  -1 <= reset_to /\ Forall iovec_ok l' /\ length l' = length l /\
  iov_bytes (drop (Z.to_nat (reset_to + 1)) l') = drop (Z.to_nat n) (iov_bytes l).
Proof.
  revert pre; induction post as [|e post IH]; intros pre l count Hok Hint Hn.
  { subst l count. rewrite app_nil_r in Hn. lia. }
  simpl. assert (He : io_get l (length pre) = e).
  { unfold io_get, l. by rewrite list_lookup_middle. }
  rewrite He. pose proof Hok as Hok'. unfold l in Hok'.
  apply Forall_app in Hok' as [Hokp [Hoke Hokq]%Forall_cons].
  pose proof (slice_length e Hoke) as Hse.
  assert (Hlen : length (iov_bytes l) =
    (length (iov_bytes pre) + length (slice e) + length (iov_bytes post))%nat).
  { unfold l. rewrite iov_bytes_app, iov_bytes_cons, !length_app. lia. }
  rewrite wrap_small by (unfold count; lia).
  assert (Hb : iov_bytes l = (iov_bytes pre ++ slice e) ++ iov_bytes post).
  { unfold l. by rewrite iov_bytes_app, iov_bytes_cons, app_assoc. }
  assert (Hl : l = (pre ++ [e]) ++ post) by (unfold l; by rewrite <- app_assoc).
  destruct (Z.eqb_spec (count + iov_len e) n) as [Heq|Hne].
  - split_and!; [lia|done|done|].
    replace (Z.to_nat (Z.of_nat (length pre) + 1)) with (length (pre ++ [e]))
      by (rewrite length_app; simpl; lia).
    replace (drop _ l) with post by (rewrite Hl; by rewrite drop_app_length).
    rewrite Hb, drop_app_length'; [done|]. rewrite length_app. unfold count in Heq. lia.
  - destruct (Z.ltb_spec n (count + iov_len e)) as [Hlt|Hge].
    + rewrite (wrap_small 32) by (unfold count in *; lia).
      rewrite (wrap_small 64) by (destruct Hoke; lia).
      destruct (slice_cut pre e post (n - count)) as (H1 & H2 & H3); [done|done|done|lia|].
      split_and!; [lia|done|done|].
      replace (Z.to_nat (Z.of_nat (length pre) - 1 + 1)) with (length pre) by lia.
      etransitivity; [exact H3|]. unfold l, count in *. f_equal. lia.
    + rewrite swrap_small by (unfold count in *; lia).
      replace (S (length pre)) with (length (pre ++ [e])) by (rewrite length_app; simpl; lia).
      assert (Hc : count + iov_len e = Z.of_nat (length (iov_bytes (pre ++ [e])))).
      { rewrite iov_bytes_app, length_app. unfold iov_bytes at 2. simpl. rewrite app_nil_r.
        unfold count. lia. }
      rewrite Hc, Hl. apply IH.
      * by rewrite <- Hl.
      * by rewrite <- Hl.
      * rewrite <- Hl, <- Hc. lia.
Qed.

Lemma bytes_of_writev n : 0 <= n < 2 ^ 31 -> wrap 32 n = n.
Proof. intros. apply wrap_small. lia. Qed.

(** A write of [n] bytes, fewer than the total. *)
Lemma body_flush_partial bb n :
  bb_ok bb -> 0 <= n < total_len (bb_buf bb) ->
  exists bb',
    bb_ok bb' /\ total_len (bb_buf bb') = total_len (bb_buf bb) - n /\
    iov_bytes (io (bb_buf bb')) = drop (Z.to_nat n) (iov_bytes (io (bb_buf bb))) /\
    duda_body_buffer_flush n bb =
      if n =? total_len (bb_buf bb')
      then Ret (0, mk_bb (mk_mk_iov (io (bb_buf bb')) 0 (iov_size (bb_buf bb')))
                     (bb_size bb') (bb_sent bb'))
      else Ret (n, bb').
Proof.
  intros [Hok Htot Hint Hmax] Hn. unfold duda_body_buffer_flush.
  destruct (Z.ltb_spec IOV_MAX (iov_idx (bb_buf bb))); [lia|].
  rewrite bytes_of_writev by lia. destruct (Z.ltb_spec n (total_len (bb_buf bb))); [|lia].
  pose proof (find_offset_ok [] (io (bb_buf bb)) n) as HF. simpl in HF.
  change (Z.of_nat 0) with 0 in HF.
  rewrite Htot in Hint, Hn. specialize (HF Hok Hint Hn).
  destruct (find_offset _ _ _ _ _) as [reset_to l'].
  destruct HF as (Hr & Hok' & Hlen & Hbytes).
  rewrite (wrap_small 64) by lia.
  exists (mk_bb (mk_mk_iov (reset_entries l' (Z.to_nat (reset_to + 1)))
    (total_len (bb_buf bb) - n) (iov_size (bb_buf bb))) (bb_size bb) (bb_sent bb)). simpl.
  assert (Hb : iov_bytes (reset_entries l' (Z.to_nat (reset_to + 1))) =
    drop (Z.to_nat n) (iov_bytes (io (bb_buf bb)))) by (by rewrite reset_entries_bytes).
  split_and!; [split; simpl| done | done |].
  - by apply reset_entries_ok.
  - rewrite Hb, length_drop. lia.
  - lia.
  - unfold iov_idx in *; simpl. by rewrite reset_entries_length, Hlen.
  - dbool; [done|]. by rewrite swrap_small by lia.
Qed.

Lemma body_flush_all bb :
  bb_ok bb ->
  duda_body_buffer_flush (total_len (bb_buf bb)) bb =
    Ret (0, mk_bb (mk_mk_iov (io (bb_buf bb)) 0 (iov_size (bb_buf bb))) (bb_size bb) (bb_sent bb)).
Proof.
  intros [_ Ht Hint Hmax]. unfold duda_body_buffer_flush.
  destruct (Z.ltb_spec IOV_MAX (iov_idx (bb_buf bb))); [lia|].
  rewrite bytes_of_writev by lia. rewrite Z.ltb_irrefl, Z.eqb_refl. done.
Qed.

Lemma body_flush_refused bb : bb_ok bb -> duda_body_buffer_flush (-1) bb = Ret (-1, bb).
Proof.
  intros [_ Ht Hint Hmax]. unfold duda_body_buffer_flush.
  destruct (Z.ltb_spec IOV_MAX (iov_idx (bb_buf bb))); [lia|].
  change (wrap 32 (-1)) with (2 ^ 32 - 1). dbool. by destruct bb.
Qed.

(** ** Properties *)

(** A flush of the body buffer drops from it exactly the bytes the socket
    took: after writing [n] bytes, other than half of what was left, the slices
    hold the remaining bytes in order, the invariant holds again and the number of
    bytes written is returned; after writing all of it the total is 0 and 0 is
    returned; when the socket refuses (writev returns -1) nothing changes and -1
    is returned. *)
Theorem body_flush_progress bb n :
  bb_ok bb -> -1 <= n <= total_len (bb_buf bb) -> 2 * n <> total_len (bb_buf bb) ->
  exists r bb', duda_body_buffer_flush n bb = Ret (r, bb') /\
    (if n =? -1 then r = -1 /\ bb' = bb
     else if n =? total_len (bb_buf bb) then r = 0 /\ total_len (bb_buf bb') = 0
     else r = n /\ bb_ok bb' /\
       iov_bytes (io (bb_buf bb')) = drop (Z.to_nat n) (iov_bytes (io (bb_buf bb)))).
Proof.
  intros Hok Hn Hhalf. pose proof Hok as [_ Ht Hint Hmax].
  destruct (Z.eqb_spec n (-1)) as [->|Hne].
  - rewrite body_flush_refused by done. eauto.
  - destruct (Z.eqb_spec n (total_len (bb_buf bb))) as [->|Hlt].
    + rewrite body_flush_all by done. eexists _, _. by split.
    + destruct (body_flush_partial bb n Hok ltac:(lia)) as (bb' & Hok' & Ht' & Hb & ->).
      destruct (Z.eqb_spec n (total_len (bb_buf bb'))); [lia|].
      exists n, bb'. auto.
Qed.

Definition hello_buffer : duda_body_buffer :=
  mk_bb (mk_mk_iov [mk_iovec (cs "hello ") 6; mk_iovec (cs "world!") 6] 12 8) 8 0.

Lemma hello_ok : bb_ok hello_buffer.
Proof.
  split; [apply (bool_decide_unpack _); vm_compute; exact I|reflexivity|reflexivity|].
  vm_compute. congruence.
Qed.

Lemma body_flush_progress_witness : exists r bb',
  duda_body_buffer_flush 7 hello_buffer = Ret (r, bb') /\
  r = 7 /\ bb_ok bb' /\ iov_bytes (io (bb_buf bb')) = cs "orld!".
Proof.
  apply (body_flush_progress hello_buffer 7); [apply hello_ok|vm_compute; split; congruence|].
  vm_compute. congruence.
Defined.

(** When the socket takes exactly half of what is left, the comparison made
    after the total was reduced mistakes the flush for a complete one: it returns
    0 and sets the total to 0, while the other half is still in the slices. *)
Theorem body_flush_half_lost bb n :
  bb_ok bb -> 0 < n -> 2 * n = total_len (bb_buf bb) ->
  exists bb', duda_body_buffer_flush n bb = Ret (0, bb') /\
    total_len (bb_buf bb') = 0 /\
    iov_bytes (io (bb_buf bb')) = drop (Z.to_nat n) (iov_bytes (io (bb_buf bb))) /\
    Z.of_nat (length (iov_bytes (io (bb_buf bb')))) = n.
Proof.
  intros Hok Hn Hhalf. pose proof Hok as [_ Ht _ _].
  destruct (body_flush_partial bb n Hok ltac:(lia)) as (bb' & Hok' & Ht' & Hb & ->).
  destruct (Z.eqb_spec n (total_len (bb_buf bb'))); [|lia].
  eexists. split_and!; [done|done|done|]. simpl. rewrite Hb, length_drop. lia.
Qed.

Lemma body_flush_half_lost_witness : exists bb',
  duda_body_buffer_flush 6 hello_buffer = Ret (0, bb') /\ total_len (bb_buf bb') = 0 /\
  iov_bytes (io (bb_buf bb')) = cs "world!" /\
  Z.of_nat (length (iov_bytes (io (bb_buf bb')))) = 6.
Proof.
  apply (body_flush_half_lost hello_buffer 6); [apply hello_ok|reflexivity|reflexivity].
Defined.

(** For offsets below 4 GiB [duda_sendfile_new] accepts exactly the ranges
    inside a readable file it could open, and sends [count] bytes from the offset,
    or up to the end of the file when [count] is 0. *)
Theorem sendfile_new_range info fd offset count :
  0 <= fi_size info < 2 ^ 63 -> offset < 2 ^ 32 -> 0 <= count < 2 ^ 64 ->
  duda_sendfile_new (Some info) fd offset count =
    if (0 <=? offset) && (offset + count <=? fi_size info) && read_access info && (0 <=? fd)
    then Some (mk_sf fd offset (if count =? 0 then fi_size info - offset else count) info)
    else None.
Proof.
  intros Hs Ho Hc. unfold duda_sendfile_new.
  destruct (Z.ltb_spec offset 0); [by dbool|]. rewrite (wrap_small 32) by lia.
  destruct (Z.ltb_spec (fi_size info) offset); [by dbool|].
  destruct (Z.ltb_spec (fi_size info) count); [by dbool|]. cbn [orb].
  rewrite wrap_small by lia. rewrite (wrap_small 64) by lia.
  destruct (read_access info); dbool; done.
Qed.

Lemma sendfile_new_range_witness :
  duda_sendfile_new (Some (mk_file_info 100 true)) 5 40 0
    = Some (mk_sf 5 40 60 (mk_file_info 100 true)) /\
  duda_sendfile_new (Some (mk_file_info 100 true)) 5 40 61 = None.
Proof.
  split; (rewrite sendfile_new_range by (vm_compute; split; congruence || reflexivity));
    reflexivity.
Defined.

(** The range check is made on the low 32 bits of the offset. *)
Lemma sendfile_new_truncated :
  duda_sendfile_new (Some (mk_file_info 100 true)) 5 (2 ^ 32) 0
    = Some (mk_sf 5 (2 ^ 32) (2 ^ 64 - 2 ^ 32 + 100) (mk_file_info 100 true)).
Proof. reflexivity. Qed.
