(* ===== verification/Queue.v ===== *)
(** * The output queue of a request (lib/duda_queue.c) and the end of a request
      ([duda_service_end] of lib/duda_old_launcher.c)

    A request queues body buffers and files; each flush works on the first active
    item and keeps the request registered for write events while bytes are left.
    Requests live in a store indexed by their address; the list of requests
    waiting for write events is per worker thread ([duda_global_events_write]). *)

From stdpp Require Import gmap.
From S2P Require Import Prelude CString Gc BodyBuffer.

Inductive queue_data :=
  | QTYPE_BODY_BUFFER (bb : duda_body_buffer)
  | QTYPE_SENDFILE (sf : duda_sendfile).

Inductive queue_status : Set := QSTATUS_ACTIVE | QSTATUS_INACTIVE.

#[export] Instance queue_status_eq_dec : EqDecision queue_status.
Proof. solve_decision. Defined.

Record duda_queue_item := mk_item { item_status : queue_status; item_data : queue_data }.

Definition duda_queue_item_new (d : queue_data) : duda_queue_item := mk_item QSTATUS_ACTIVE d.

Definition duda_queue_add (it : duda_queue_item) (queue : list duda_queue_item) :
    list duda_queue_item := queue ++ [it].

Definition duda_queue_last (queue : list duda_queue_item) : option duda_queue_item := last queue.

Definition item_length (it : duda_queue_item) : Z :=
  match item_data it with
  | QTYPE_BODY_BUFFER bb => total_len (bb_buf bb)
  | QTYPE_SENDFILE sf => pending_bytes sf
  end.

Definition duda_queue_length (queue : list duda_queue_item) : Z :=
  foldl (fun length it => wrap 64 (length + item_length it)) 0 queue.

(** What the socket answers to a flush: the number of bytes it returns, and for
    a file the offset it leaves. *)
Record socket_result := mk_socket_result { so_bytes : Z; so_offset : Z }.

(** The [switch] of [duda_queue_flush], and the update of the status. *)
Definition flush_item (o : socket_result) (it : duda_queue_item) : res duda_queue_item :=
  '(ret, d) ←
    match item_data it with
    | QTYPE_BODY_BUFFER bb =>
        '(r, bb') ← duda_body_buffer_flush (so_bytes o) bb; Ret (r, QTYPE_BODY_BUFFER bb')
    | QTYPE_SENDFILE sf =>
        let '(r, sf') := duda_sendfile_flush (so_bytes o) (so_offset o) sf in
        Ret (r, QTYPE_SENDFILE sf')
    end;
  Ret (mk_item (if ret =? 0 then QSTATUS_INACTIVE else item_status it) d).

(** The loop: skip inactive items, flush the first active one and leave. *)
Fixpoint flush_first (o : socket_result) (queue : list duda_queue_item) :
    res (option (list duda_queue_item)) :=
  match queue with
  | [] => Ret None
  | it :: queue' =>
      match item_status it with
      | QSTATUS_INACTIVE =>
          r ← flush_first o queue'; Ret (option_map (cons it) r)
      | QSTATUS_ACTIVE => it' ← flush_item o it; Ret (Some (it' :: queue'))
      end
  end.

(** ** Write events; [None] is a thread without a list. *)

Definition duda_queue_event_register_write (events : option (list Z)) (dr : Z) :
    Z * option (list Z) :=
  match events with
  | None => (-1, None)
  | Some l => (0, Some (l ++ [dr]))
  end.

Fixpoint remove_first (dr : Z) (l : list Z) : option (list Z) :=
  match l with
  | [] => None
  | x :: l' => if x =? dr then Some l' else option_map (cons x) (remove_first dr l')
  end.

Definition duda_queue_event_unregister_write (events : option (list Z)) (dr : Z) :
    res (Z * option (list Z)) :=
  match events with
  | None => Fault NullDeref
  | Some l =>
      match remove_first dr l with
      | Some l' => Ret (0, Some l')
      | None => Ret (-1, Some l)
      end
  end.

Definition duda_queue_event_is_registered_write (events : option (list Z)) (dr : Z) : res bool :=
  match events with
  | None => Fault NullDeref
  | Some l => Ret (existsb (fun x => x =? dr) l)
  end.

(** Return value, queue and list of write events after a flush. *)
Definition duda_queue_flush (o : socket_result) (dr : Z) (queue : list duda_queue_item)
    (events : option (list Z)) : res (Z * list duda_queue_item * option (list Z)) :=
  r ← flush_first o queue;
  match r with
  | None => Ret (0, queue, events)
  | Some queue =>
      is_registered ← duda_queue_event_is_registered_write events dr;
      let queue_len := duda_queue_length queue in
      if (0 <? queue_len) && negb is_registered then
        Ret (swrap 32 queue_len, queue, (duda_queue_event_register_write events dr).2)
      else if (queue_len =? 0) && is_registered then
        '(_, events) ← duda_queue_event_unregister_write events dr;
        Ret (swrap 32 queue_len, queue, events)
      else Ret (swrap 32 queue_len, queue, events)
  end.

(** The resources released, in order. *)
Inductive released : Set :=
  | IovFreed
  | FdClosed (fd : Z).

Definition item_release (it : duda_queue_item) : released :=
  match item_data it with
  | QTYPE_BODY_BUFFER _ => IovFreed
  | QTYPE_SENDFILE sf => FdClosed (sf_fd sf)
  end.

(** [duda_queue_free] empties the list. *)
Definition duda_queue_free (queue : list duda_queue_item) :
    Z * list duda_queue_item * list released :=
  (0, [], item_release <$> queue).

(** ** Requests *)

Record duda_request := mk_dr {
  dr_socket : Z;
  queue_out : list duda_queue_item;
  dr_gc : duda_gc_map;
  st_service_end : bool;
}.

(** [end_callback] is the callback of the service, [http_request_end] the answer
    of Monkey. *)
Definition duda_service_end (end_callback : option (duda_request -> duda_request))
    (http_request_end : Z) (dr : duda_request) : res (Z * duda_request) :=
  let dr := match end_callback with Some f => f dr | None => dr end in
  let '(_, queue, _) := duda_queue_free (queue_out dr) in
  '(_, gc, _) ← duda_gc_free_content (dr_gc dr);
  Ret (http_request_end,
       mk_dr (dr_socket dr) queue gc (if http_request_end <? 0 then true else st_service_end dr)).

Inductive plugin_ret : Set := EVENT_CONTINUE | EVENT_OWNED | EVENT_CLOSE.

Record worker := mk_worker { requests : gmap Z duda_request; events_write : option (list Z) }.

Definition set_request (w : worker) (a : Z) (dr : duda_request) (ev : option (list Z)) : worker :=
  mk_worker (<[a := dr]> (requests w)) ev.

(** The request the loop of the callback stops at. *)
Fixpoint find_request (reqs : gmap Z duda_request) (sockfd : Z) (l : list Z) :
    res (option (Z * duda_request)) :=
  match l with
  | [] => Ret None
  | a :: l' =>
      match reqs !! a with
      | None => Fault NullDeref
      | Some dr => if dr_socket dr =? sockfd then Ret (Some (a, dr)) else find_request reqs sockfd l'
      end
  end.

Definition duda_queue_event_write_callback (end_callback : option (duda_request -> duda_request))
    (http_request_end : Z) (o : socket_result) (sockfd : Z) (w : worker) :
    res (plugin_ret * worker) :=
  match events_write w with
  | None => Fault NullDeref
  | Some l =>
      r ← find_request (requests w) sockfd l;
      match r with
      | None => Ret (EVENT_CONTINUE, w)
      | Some (a, dr) =>
          '(ret, queue, ev) ← duda_queue_flush o a (queue_out dr) (events_write w);
          let dr := mk_dr (dr_socket dr) queue (dr_gc dr) (st_service_end dr) in
          if 0 <? ret then Ret (EVENT_OWNED, set_request w a dr ev)
          else
            '(e, dr) ← duda_service_end end_callback http_request_end dr;
            Ret (if e =? -1 then EVENT_CLOSE else EVENT_OWNED, set_request w a dr ev)
      end
  end.

(** ** What a queue has left to send

    [file fd] is the content of the open file [fd]. *)

Section queue_correct.
Variable file : Z -> list Z.

Definition sf_bytes (sf : duda_sendfile) : list Z :=
  take (Z.to_nat (pending_bytes sf)) (drop (Z.to_nat (sf_offset sf)) (file (sf_fd sf))).

Definition item_bytes (it : duda_queue_item) : list Z :=
  match item_status it, item_data it with
  | QSTATUS_INACTIVE, _ => []
  | QSTATUS_ACTIVE, QTYPE_BODY_BUFFER bb => iov_bytes (io (bb_buf bb))
  | QSTATUS_ACTIVE, QTYPE_SENDFILE sf => sf_bytes sf
  end.

Definition queue_bytes (q : list duda_queue_item) : list Z := concat (item_bytes <$> q).

Lemma queue_bytes_cons it q : queue_bytes (it :: q) = item_bytes it ++ queue_bytes q.
Proof. done. Qed.

Record sf_ok (sf : duda_sendfile) : Prop := {
  sf_offset_pos : 0 <= sf_offset sf;
  sf_pending : 0 <= pending_bytes sf < 2 ^ 31;
  sf_inside : sf_offset sf + pending_bytes sf <= Z.of_nat (length (file (sf_fd sf)));
}.

(** An inactive item counts for nothing in [duda_queue_length]. *)
Definition item_ok (it : duda_queue_item) : Prop :=
  match item_status it, item_data it with
  | QSTATUS_INACTIVE, _ => item_length it = 0
  | QSTATUS_ACTIVE, QTYPE_BODY_BUFFER bb => bb_ok bb
  | QSTATUS_ACTIVE, QTYPE_SENDFILE sf => sf_ok sf
  end.

Definition queue_ok (q : list duda_queue_item) : Prop := Forall item_ok q.

(** The answers of a socket that makes progress or asks to wait: writev returns
    -1, or a positive number of bytes; the file transfer returns 0 to wait.  A transfer that
    fails with -1 drops the rest of its range: Response.v treats it with the whole response. *)
Definition accepts (it : duda_queue_item) (o : socket_result) : Prop :=
  match item_data it with
  | QTYPE_BODY_BUFFER bb =>
      so_bytes o = -1 \/ so_bytes o = total_len (bb_buf bb) \/
      (0 < so_bytes o <= total_len (bb_buf bb) /\ 2 * so_bytes o <> total_len (bb_buf bb))
  | QTYPE_SENDFILE sf =>
      0 <= so_bytes o <= pending_bytes sf /\ so_offset o = sf_offset sf + so_bytes o
  end.

Definition first_active (q : list duda_queue_item) : option duda_queue_item :=
  head (filter (fun it => item_status it = QSTATUS_ACTIVE) q).

Definition accepted (o : socket_result) : nat := Z.to_nat (so_bytes o).

Lemma sf_bytes_length sf : sf_ok sf -> Z.of_nat (length (sf_bytes sf)) = pending_bytes sf.
Proof.
  intros [? ? ?]. unfold sf_bytes. rewrite length_take, length_drop. lia.
Qed.

Lemma item_length_bytes it : item_ok it -> item_length it = Z.of_nat (length (item_bytes it)).
Proof.
  unfold item_ok, item_length, item_bytes.
  destruct (item_status it), (item_data it) as [bb|sf]; simpl; try done.
  - by intros [].
  - intros H. by rewrite sf_bytes_length.
Qed.

Lemma queue_length_from q a : queue_ok q -> 0 <= a ->
  a + Z.of_nat (length (queue_bytes q)) < 2 ^ 64 ->
  foldl (fun l it => wrap 64 (l + item_length it)) a q =
  a + Z.of_nat (length (queue_bytes q)).
Proof.
  intros Hq. revert a; induction Hq as [|it q Hit Hq IH]; intros a Ha Hlt; simpl.
  { change (queue_bytes []) with (@nil Z). simpl. lia. }
  rewrite queue_bytes_cons, length_app in *.
  pose proof (item_length_bytes it Hit) as Hl. rewrite Hl.
  rewrite wrap_small by lia. rewrite IH by lia. lia.
Qed.

Lemma queue_length_bytes q : queue_ok q -> Z.of_nat (length (queue_bytes q)) < 2 ^ 64 ->
  duda_queue_length q = Z.of_nat (length (queue_bytes q)).
Proof. intros Hq Hl. unfold duda_queue_length. rewrite queue_length_from by (done || lia). lia. Qed.

(** One item: the accepted bytes go, in order. *)
Lemma flush_item_ok it o : item_ok it -> item_status it = QSTATUS_ACTIVE -> accepts it o ->
  exists it', flush_item o it = Ret it' /\ item_ok it' /\
    item_bytes it' = drop (accepted o) (item_bytes it).
Proof.
  intros Hit Ha Hacc. unfold item_ok in Hit. unfold accepts in Hacc. unfold item_bytes at 2.
  unfold flush_item, accepted. rewrite Ha in *. destruct (item_data it) as [bb|sf].
  - destruct Hacc as [E|[E|[Hn Hhalf]]].
    + rewrite E, body_flush_refused by done. simpl. eexists; split; [done|]. by split.
    + rewrite E, body_flush_all by done. simpl. eexists; split; [done|].
      split; [done|]. simpl. destruct Hit as [_ Ht _ _].
      unfold item_bytes; simpl. rewrite drop_ge; [done|]. rewrite Ht. lia.
    + destruct (decide (so_bytes o = total_len (bb_buf bb))) as [E|Hne].
      { rewrite E, body_flush_all by done. simpl. eexists; split; [done|].
        split; [done|]. simpl. destruct Hit as [_ Ht _ _].
        unfold item_bytes; simpl. rewrite drop_ge; [done|]. rewrite Ht. lia. }
      destruct (body_flush_partial bb (so_bytes o) Hit ltac:(lia)) as (bb' & Hok' & Ht' & Hb & ->).
      destruct (Z.eqb_spec (so_bytes o) (total_len (bb_buf bb'))); [lia|]. simpl.
      destruct (Z.eqb_spec (so_bytes o) 0); [lia|]. eexists; split; [done|]. by split.
  - destruct Hacc as [Hn Hoff]. pose proof Hit as [H1 H2 H3]. unfold duda_sendfile_flush.
    assert (Hdrop : forall k, 0 <= k <= pending_bytes sf ->
      take (Z.to_nat (pending_bytes sf - k)) (drop (Z.to_nat (sf_offset sf + k)) (file (sf_fd sf)))
      = drop (Z.to_nat k) (sf_bytes sf)).
    { intros k Hk. unfold sf_bytes. rewrite skipn_firstn_comm, drop_drop. f_equal; [lia|]. f_equal. lia. }
    destruct (Z.ltb_spec 0 (so_bytes o)).
    + rewrite wrap_small, swrap_small by lia. simpl.
      destruct (Z.eqb_spec (pending_bytes sf - so_bytes o) 0) as [E|Hne].
      * eexists; split; [done|]. split; [done|]. unfold item_bytes; simpl.
        rewrite drop_ge; [done|]. pose proof (sf_bytes_length sf Hit). lia.
      * eexists; split; [done|]. split.
        { unfold item_ok; simpl. split; simpl; lia. }
        unfold item_bytes, sf_bytes; simpl. rewrite Hoff. apply Hdrop. lia.
    + assert (so_bytes o = 0) as E by lia. rewrite E in *. destruct (Z.eqb_spec 0 (-1)); [lia|].
      rewrite swrap_small by lia. simpl. rewrite Z.add_0_r in Hoff.
      destruct (Z.eqb_spec (pending_bytes sf) 0) as [Ep|Hne].
      * eexists; split; [done|]. split; [done|]. unfold item_bytes; simpl.
        unfold sf_bytes. by rewrite Ep.
      * eexists; split; [done|]. split.
        { unfold item_ok; simpl. split; simpl; lia. }
        unfold item_bytes, sf_bytes; simpl. by rewrite Hoff.
Qed.

Lemma flush_first_ok q o it : queue_ok q -> first_active q = Some it -> accepts it o ->
  (accepted o <= length (item_bytes it))%nat ->
  exists q', flush_first o q = Ret (Some q') /\ queue_ok q' /\
    queue_bytes q' = drop (accepted o) (queue_bytes q).
Proof.
  intros Hq. induction Hq as [|x q Hx Hq IH]; [done|]. intros Hf Hacc Hle. simpl.
  unfold first_active in Hf. rewrite filter_cons in Hf.
  destruct (item_status x) eqn:E.
  - rewrite decide_True in Hf by done. injection Hf as ->.
    destruct (flush_item_ok it o Hx E Hacc) as (it' & -> & Hok & Hb). simpl.
    eexists; split; [done|]. split; [by apply Forall_cons|].
    rewrite !queue_bytes_cons, Hb. by rewrite drop_app_le.
  - rewrite decide_False in Hf by done.
    destruct (IH Hf Hacc Hle) as (q' & -> & Hok & Hb). simpl.
    eexists; split; [done|]. split; [by apply Forall_cons|].
    rewrite !queue_bytes_cons. unfold item_bytes at 1 2. by rewrite E.
Qed.

Lemma accepted_le it o : item_ok it -> item_status it = QSTATUS_ACTIVE -> accepts it o ->
  (accepted o <= length (item_bytes it))%nat.
Proof.
  intros Hit Ha Hacc. pose proof (item_length_bytes it Hit) as Hl.
  unfold accepts, accepted, item_length in *. destruct (item_data it); lia.
Qed.

Lemma first_active_spec q it : first_active q = Some it -> it ∈ q /\ item_status it = QSTATUS_ACTIVE.
Proof.
  unfold first_active. intros H.
  assert (it ∈ filter (fun it => item_status it = QSTATUS_ACTIVE) q) as Hin.
  { destruct (filter _ q); [done|]. injection H as ->. left. }
  apply list_elem_of_filter in Hin. tauto.
Qed.
End queue_correct.

(** ** The list of write events *)

Lemma existsb_elem dr l : existsb (fun x => x =? dr) l = true <-> dr ∈ l.
Proof.
  induction l as [|x l IH]; simpl; [split; [done|by intros ?%not_elem_of_nil]|].
  rewrite orb_true_iff, IH, elem_of_cons, Z.eqb_eq. split; intros [?|?]; auto.
Qed.

Lemma remove_first_ok dr l : NoDup l -> dr ∈ l ->
  exists l', remove_first dr l = Some l' /\ NoDup l' /\
    forall x, x ∈ l' <-> x ∈ l /\ x <> dr.
Proof.
  induction 1 as [|x l Hx Hl IH]; [by intros ?%not_elem_of_nil|]. intros Hin. simpl.
  destruct (Z.eqb_spec x dr) as [->|Hne].
  - exists l. split; [done|]. split; [done|]. intros y. rewrite elem_of_cons. split.
    + intros Hy. split; [by right|]. by intros ->.
    + intros [[->|?] ?]; done.
  - apply elem_of_cons in Hin as [->|Hin]; [done|].
    destruct (IH Hin) as (l' & -> & Hnd & Hl'). simpl. eexists; split; [done|]. split.
    + apply NoDup_cons. split; [|done]. by rewrite Hl'; intros [? _].
    + intros y. rewrite !elem_of_cons, Hl'. split.
      * intros [->|[? ?]]; auto.
      * intros [[->|?] ?]; auto.
Qed.

Lemma flush_ok file o dr q evs it :
  queue_ok file q -> first_active q = Some it -> accepts it o ->
  Z.of_nat (length (queue_bytes file q)) < 2 ^ 31 -> NoDup evs ->
  exists q' evs',
    duda_queue_flush o dr q (Some evs)
      = Ret (Z.of_nat (length (queue_bytes file q')), q', Some evs') /\
    queue_ok file q' /\ queue_bytes file q' = drop (accepted o) (queue_bytes file q) /\
    NoDup evs' /\
    (forall x, x ∈ evs' <-> (x <> dr /\ x ∈ evs) \/ (x = dr /\ queue_bytes file q' <> [])).
Proof.
  intros Hq Hf Hacc Hlt Hnd. destruct (first_active_spec _ _ Hf) as [Hin Hact].
  assert (Hit : item_ok file it) by (by eapply Forall_forall in Hin).
  destruct (flush_first_ok file q o it Hq Hf Hacc (accepted_le file it o Hit Hact Hacc))
    as (q' & Hff & Hq' & Hb).
  unfold duda_queue_flush. rewrite Hff. simpl.
  assert (Hle : (length (queue_bytes file q') <= length (queue_bytes file q))%nat)
    by (rewrite Hb, length_drop; lia).
  rewrite (queue_length_bytes file q' Hq') by lia. rewrite swrap_small by lia.
  assert (Hnil : queue_bytes file q' = [] <-> length (queue_bytes file q') = 0%nat)
    by (split; [by intros ->|apply nil_length_inv]).
  destruct (existsb _ evs) eqn:E.
  - apply existsb_elem in E. rewrite andb_false_r, andb_true_r.
    destruct (Z.eqb_spec (Z.of_nat (length (queue_bytes file q'))) 0) as [H0|H0].
    + destruct (remove_first_ok dr evs Hnd E) as (l' & -> & Hnd' & Hl'). simpl.
      exists q', l'. split_and!; try done. intros x. rewrite Hl'.
      assert (queue_bytes file q' = []) by (apply Hnil; lia). clear Hnil; naive_solver.
    + exists q', evs. split_and!; try done. intros x.
      assert (queue_bytes file q' <> []) by (rewrite Hnil; lia).
      destruct (decide (x = dr)); clear Hnil; naive_solver.
  - assert (Hni : dr ∉ evs) by (rewrite <- existsb_elem; congruence).
    rewrite andb_true_r, andb_false_r.
    destruct (Z.ltb_spec 0 (Z.of_nat (length (queue_bytes file q')))) as [H0|H0]; simpl.
    + exists q', (evs ++ [dr]). split_and!; try done.
      * apply NoDup_app. split_and!; [done| |by apply NoDup_singleton].
        intros x Hx Hx'. apply list_elem_of_singleton in Hx' as ->. done.
      * intros x. rewrite elem_of_app, list_elem_of_singleton.
        assert (queue_bytes file q' <> []) by (rewrite Hnil; lia).
        destruct (decide (x = dr)); clear Hnil; naive_solver.
    + exists q', evs. split_and!; try done. intros x.
      assert (queue_bytes file q' = []) by (apply Hnil; lia).
      destruct (decide (x = dr)) as [->|]; clear Hnil; naive_solver.
Qed.

(** Successive flushes of a request, with the bytes the socket accepted. *)
Inductive transmits (file : Z -> list Z) (dr : Z) :
    list duda_queue_item -> option (list Z) -> list Z ->
    list duda_queue_item -> option (list Z) -> Prop :=
  | transmits_refl q ev : transmits file dr q ev [] q ev
  | transmits_step q ev it o ret q1 ev1 out q2 ev2 :
      first_active q = Some it -> accepts it o ->
      duda_queue_flush o dr q ev = Ret (ret, q1, ev1) ->
      transmits file dr q1 ev1 out q2 ev2 ->
      transmits file dr q ev (take (accepted o) (item_bytes file it) ++ out) q2 ev2.

Lemma queue_bytes_first file q it : queue_ok file q -> first_active q = Some it ->
  exists rest, queue_bytes file q = item_bytes file it ++ rest.
Proof.
  intros Hq Hf. induction q as [|x q IH]; [done|].
  apply Forall_cons in Hq as [_ Hq]. unfold first_active in Hf. rewrite filter_cons in Hf.
  rewrite queue_bytes_cons. destruct (decide (item_status x = QSTATUS_ACTIVE)) as [Ha|Ha].
  - injection Hf as ->. eauto.
  - unfold item_bytes at 1. destruct (item_status x); [done|]. by apply IH.
Qed.

(** ** Properties *)

(** A flush sends from the front of the queue: with a socket that accepts
    [n] bytes of the first active item (other than half of a body buffer), the
    bytes left are the old ones without their first [n], the queue stays
    well-formed, their number is returned, and the request is registered for write
    events exactly when bytes are left, the other requests being unaffected. *)
Theorem queue_flush_sends file o dr q evs it :
  queue_ok file q -> first_active q = Some it -> accepts it o ->
  Z.of_nat (length (queue_bytes file q)) < 2 ^ 31 -> NoDup evs ->
  exists q' evs',
    duda_queue_flush o dr q (Some evs)
      = Ret (Z.of_nat (length (queue_bytes file q')), q', Some evs') /\
    queue_ok file q' /\ queue_bytes file q' = drop (accepted o) (queue_bytes file q) /\
    NoDup evs' /\
    (forall x, x ∈ evs' <-> (x <> dr /\ x ∈ evs) \/ (x = dr /\ queue_bytes file q' <> [])).
Proof. apply flush_ok. Qed.

(** A queue with one page and one file. *)
Definition sample_file (fd : Z) : list Z := if fd =? 5 then cs "0123456789" else [].
Definition sample_queue : list duda_queue_item :=
  [mk_item QSTATUS_ACTIVE (QTYPE_BODY_BUFFER hello_buffer);
   mk_item QSTATUS_ACTIVE (QTYPE_SENDFILE (mk_sf 5 2 4 (mk_file_info 10 true)))].

Lemma sample_ok : queue_ok sample_file sample_queue.
Proof.
  repeat constructor; try (vm_compute; congruence).
Qed.

Lemma queue_flush_sends_witness : exists q' evs',
  duda_queue_flush (mk_socket_result 7 0) 9 sample_queue (Some [3])
    = Ret (Z.of_nat (length (queue_bytes sample_file q')), q', Some evs') /\
  queue_ok sample_file q' /\ queue_bytes sample_file q' = cs "orld!2345" /\ NoDup evs' /\
  (forall x, x ∈ evs' <-> (x <> 9 /\ x ∈ [3]) \/ (x = 9 /\ queue_bytes sample_file q' <> [])).
Proof.
  apply (queue_flush_sends sample_file (mk_socket_result 7 0) 9 sample_queue [3]
    (mk_item QSTATUS_ACTIVE (QTYPE_BODY_BUFFER hello_buffer)));
    [apply sample_ok|reflexivity| |reflexivity|apply (bool_decide_unpack _); vm_compute; exact I].
  right; right. split; [split; [reflexivity|vm_compute; congruence]|vm_compute; congruence].
Defined.

(** Nothing is lost, duplicated or reordered over any number of flushes: the
    bytes accepted by the socket so far, followed by the bytes still queued, are
    the bytes that were queued at the start. *)
Theorem queue_transmission file dr q evs out q' ev' :
  queue_ok file q -> Z.of_nat (length (queue_bytes file q)) < 2 ^ 31 -> NoDup evs ->
  transmits file dr q (Some evs) out q' ev' ->
  out ++ queue_bytes file q' = queue_bytes file q /\ queue_ok file q'.
Proof.
  intros Hq Hlt Hnd Ht. remember (Some evs) as ev eqn:Hev.
  revert evs Hq Hlt Hnd Hev; induction Ht as [|q ev it o ret q1 ev1 out q2 ev2 Hf Hacc Hfl _ IH];
    intros evs Hq Hlt Hnd ->; [done|].
  destruct (flush_ok file o dr q evs it Hq Hf Hacc Hlt Hnd) as (q' & evs' & Hfl' & Hq' & Hb & Hnd' & _).
  rewrite Hfl in Hfl'. injection Hfl' as -> -> ->.
  destruct (IH evs') as [Hout Hok]; [done|rewrite Hb, length_drop; lia|done|done|].
  split; [|done]. rewrite <- app_assoc, Hout, Hb.
  destruct (first_active_spec _ _ Hf) as [Hin Hact].
  assert (Hit : item_ok file it) by (by eapply Forall_forall in Hin).
  pose proof (accepted_le file it o Hit Hact Hacc) as Hle.
  destruct (queue_bytes_first file q it Hq Hf) as [rest ->].
  rewrite drop_app_le by done. by rewrite app_assoc, take_drop.
Qed.

Lemma queue_transmission_witness : exists q2 ev2,
  transmits sample_file 9 sample_queue (Some []) (cs "hello w") q2 ev2 /\
  cs "hello w" ++ queue_bytes sample_file q2 = cs "hello world!2345" /\
  queue_ok sample_file q2.
Proof.
  assert (Ht : exists q2 ev2,
    transmits sample_file 9 sample_queue (Some []) (cs "hello w") q2 ev2).
  { do 2 eexists.
    eapply (transmits_step sample_file 9 sample_queue (Some [])
      (mk_item QSTATUS_ACTIVE (QTYPE_BODY_BUFFER hello_buffer)) (mk_socket_result 7 0) _ _ _ []);
      [reflexivity| |vm_compute; reflexivity|apply transmits_refl].
    right; right; split; [split; [reflexivity|vm_compute; congruence]|vm_compute; congruence]. }
  destruct Ht as (q2 & ev2 & Ht). exists q2, ev2. split; [exact Ht|].
  apply (queue_transmission sample_file 9 sample_queue [] (cs "hello w") q2 ev2);
    [apply sample_ok|reflexivity|apply (bool_decide_unpack _); vm_compute; exact I|exact Ht].
Defined.

(** A service callback may register memory but leaves a sound collector. *)
Definition keeps_gc (cb : option (duda_request -> duda_request)) : Prop :=
  match cb with
  | Some f => forall d, gc_ok (dr_gc d) -> gc_ok (dr_gc (f d))
  | None => True
  end.

Lemma service_end_ok cb e dr : keeps_gc cb -> gc_ok (dr_gc dr) ->
  exists dr', duda_service_end cb e dr = Ret (e, dr') /\ queue_out dr' = [] /\
    gc_ok (dr_gc dr') /\ registered (dr_gc dr') = [] /\ (e < 0 -> st_service_end dr' = true).
Proof.
  intros Hcb Hg. unfold duda_service_end.
  assert (Hg' : gc_ok (dr_gc (match cb with Some f => f dr | None => dr end)))
    by (destruct cb; [by apply Hcb|done]).
  destruct (gc_free_ok _ Hg') as (g' & -> & Hok & Hr & _). simpl.
  eexists. split_and!; [done..|]. simpl. intros. by dbool.
Qed.

(** The write event of a socket flushes the first request waiting on it:
    while bytes are left the event stays owned and only that request's queue
    changes; when the last byte is accepted the request leaves the list of write
    events and is ended: its queue is emptied, its registered memory is released,
    and the connection is closed exactly when Monkey's end of request returns
    -1. *)
Theorem write_callback_ends cb e o sockfd file w evs a dr it :
  events_write w = Some evs -> NoDup evs ->
  find_request (requests w) sockfd evs = Ret (Some (a, dr)) ->
  queue_ok file (queue_out dr) -> first_active (queue_out dr) = Some it -> accepts it o ->
  Z.of_nat (length (queue_bytes file (queue_out dr))) < 2 ^ 31 ->
  gc_ok (dr_gc dr) -> keeps_gc cb ->
  let left := drop (accepted o) (queue_bytes file (queue_out dr)) in
  exists dr' evs' p,
    duda_queue_event_write_callback cb e o sockfd w
      = Ret (p, mk_worker (<[a := dr']> (requests w)) (Some evs')) /\
    (if decide (left = []) then
       p = (if e =? -1 then EVENT_CLOSE else EVENT_OWNED) /\ (a ∉ evs') /\
       queue_out dr' = [] /\ registered (dr_gc dr') = []
     else p = EVENT_OWNED /\ a ∈ evs' /\ queue_bytes file (queue_out dr') = left /\
       dr_gc dr' = dr_gc dr).
Proof.
  intros Hev Hnd Hfind Hq Hf Hacc Hlt Hg Hcb left.
  unfold duda_queue_event_write_callback. rewrite Hev, Hfind. simpl.
  destruct (flush_ok file o a _ evs it Hq Hf Hacc Hlt Hnd) as (q' & evs' & -> & Hq' & Hb & Hnd' & Hin).
  fold left in Hb. simpl. rewrite Hb in *.
  destruct (decide (left = [])) as [Hl|Hl].
  - rewrite Hl. destruct (Z.ltb_spec 0 (Z.of_nat (length (@nil Z)))) as [Hbad|_]; [simpl in Hbad; lia|].
    destruct (service_end_ok cb e (mk_dr (dr_socket dr) q' (dr_gc dr) (st_service_end dr)) Hcb Hg)
      as (dr' & -> & Hqo & _ & Hr & _). simpl.
    exists dr', evs'. eexists. split; [done|]. split_and!; try done.
    rewrite Hin. by intros [[? _]|[_ ?]].
  - destruct (Z.ltb_spec 0 (Z.of_nat (length left))) as [_|Hbad].
    2:{ destruct left; [done|simpl in Hbad; lia]. }
    eexists _, evs', _. split; [done|]. split_and!; try done. apply Hin. by right.
Qed.

Definition sample_worker : worker :=
  mk_worker {[9 := mk_dr 4 sample_queue (mk_gc_map 0 64 (replicate 64 (mk_gc_entry 0 0))) false]}
    (Some [9]).

Lemma write_callback_ends_witness : exists dr' evs' p,
  duda_queue_event_write_callback None (-1) (mk_socket_result 7 0) 4 sample_worker
    = Ret (p, mk_worker (<[9 := dr']> (requests sample_worker)) (Some evs')) /\
  p = EVENT_OWNED /\ 9 ∈ evs' /\ queue_bytes sample_file (queue_out dr') = cs "orld!2345" /\
  dr_gc dr' = mk_gc_map 0 64 (replicate 64 (mk_gc_entry 0 0)).
Proof.
  apply (write_callback_ends None (-1) (mk_socket_result 7 0) 4 sample_file sample_worker [9] 9
    (mk_dr 4 sample_queue (mk_gc_map 0 64 (replicate 64 (mk_gc_entry 0 0))) false)
    (mk_item QSTATUS_ACTIVE (QTYPE_BODY_BUFFER hello_buffer)));
    [reflexivity|apply (bool_decide_unpack _); vm_compute; exact I|reflexivity|apply sample_ok
    |reflexivity| |reflexivity|apply (@gc_init_ok _ (RefGc.gc_spec [])); reflexivity|exact I].
  right; right. split; [split; [reflexivity|vm_compute; congruence]|vm_compute; congruence].
Defined.

(** The length is returned through an [int]: a queue with 3 GiB left is reported
    as a negative number, which the write callback takes for an empty queue. *)
Lemma queue_flush_int_truncation :
  let sf := mk_sf 5 0 (3 * 2 ^ 30 + 1) (mk_file_info (3 * 2 ^ 30 + 1) true) in
  let sf' := mk_sf 5 1 (3 * 2 ^ 30) (mk_file_info (3 * 2 ^ 30 + 1) true) in
  duda_queue_flush (mk_socket_result 1 1) 9 [mk_item QSTATUS_ACTIVE (QTYPE_SENDFILE sf)] (Some [9])
    = Ret (- 2 ^ 30, [mk_item QSTATUS_ACTIVE (QTYPE_SENDFILE sf')], Some [9]).
Proof. reflexivity. Qed.
