(* ===== verification/Event.v ===== *)
(** * The event object and the request registry

    lib/duda_event.c and the event hooks of lib/duda_old_launcher.c: the list of
    event handlers of a worker, the signal channels, and the tree in which the
    requests of a worker are registered.  The balancing of the tree
    ([rb_insert_color], [rb_erase]), the polling interface and the callbacks of
    the services are parameters. *)

From Stdlib Require Import Sorted.
From S2P Require Import Prelude CString Gc BodyBuffer Queue.

(** ** The tree of requests

    A node carries the address of the request, its socket and the address of
    Monkey's request. *)

Record dr_node := mk_node { node_addr : Z; node_socket : Z; node_request : Z }.

#[export] Instance dr_node_eq_dec : EqDecision dr_node.
Proof. solve_decision. Defined.

Inductive rb_tree : Type :=
  | Nil
  | Node (l : rb_tree) (d : dr_node) (r : rb_tree).

#[export] Instance rb_tree_eq_dec : EqDecision rb_tree.
Proof. solve_decision. Defined.

Fixpoint inorder (t : rb_tree) : list dr_node :=
  match t with
  | Nil => []
  | Node l d r => inorder l ++ d :: inorder r
  end.

(** [d] is a node of [t] whose parent pointer is [parent]; [up] is the parent
    of the root of [t]. *)
Fixpoint linked (up : option Z) (t : rb_tree) (d : dr_node) (parent : option Z) : Prop :=
  match t with
  | Nil => False
  | Node l d' r =>
      (d' = d /\ up = parent) \/ linked (Some (node_addr d')) l d parent
      \/ linked (Some (node_addr d')) r d parent
  end.

(** The red-black tree of Monkey: recolouring and rotations keep the order of
    the nodes, provided the inserted node was linked under its parent. *)
Class RbTree := {
  rb_insert_color : dr_node -> option Z -> rb_tree -> rb_tree;
  rb_erase : dr_node -> rb_tree -> rb_tree;
}.

Class RbTreeSpec `{RbTree} : Prop := {
  rb_insert_color_inorder d parent t : linked None t d parent ->
    inorder (rb_insert_color d parent t) = inorder t;
  rb_erase_inorder d t : NoDup (inorder t) -> d ∈ inorder t ->
    inorder (rb_erase d t) = filter (fun d' => d' <> d) (inorder t);
}.

Section registry.
Context `{RbTree}.

(** The descent of [duda_dr_list_add] followed by [rb_link_node]: the link the
    descent stops at is overwritten with the new node, whose children are
    [NULL]; the second component is the parent pointer of the new node. *)
Fixpoint dr_link (dr : dr_node) (parent : option Z) (t : rb_tree) : rb_tree * option Z :=
  match t with
  | Nil => (Node Nil dr Nil, parent)
  | Node l this r =>
      if node_socket dr <? node_socket this
      then let '(l', p) := dr_link dr (Some (node_addr this)) l in (Node l' this r, p)
      else if node_socket dr >? node_socket this
      then let '(r', p) := dr_link dr (Some (node_addr this)) r in (Node l this r', p)
      else (Node Nil dr Nil, Some (node_addr this))
  end.

(** [None] is a thread without a registry. *)
Definition duda_dr_list_add (root : option rb_tree) (dr : dr_node) : res rb_tree :=
  match root with
  | None => Fault NullDeref
  | Some t => let '(t', parent) := dr_link dr None t in Ret (rb_insert_color dr parent t')
  end.

Fixpoint dr_search (sr : Z) (t : rb_tree) : option dr_node :=
  match t with
  | Nil => None
  | Node l d r =>
      if sr <? node_request d then dr_search sr l
      else if sr >? node_request d then dr_search sr r
      else Some d
  end.

Definition duda_dr_list_get (root : option rb_tree) (sr : Z) : option dr_node :=
  match root with
  | None => None
  | Some t => dr_search sr t
  end.

Definition duda_dr_list_del (root : option rb_tree) (sr : Z) : option dr_node * option rb_tree :=
  match duda_dr_list_get root sr with
  | None => (None, root)
  | Some d => (Some d, rb_erase d <$> root)
  end.
(** lib/objects/duda_request.c: the socket is given where the address of a request
    is expected. *)
Definition duda_request_validate_socket (root : option rb_tree) (socket : Z) : bool :=
  match duda_dr_list_get root (wrap 64 socket) with Some _ => true | None => false end.

Definition duda_request_validate_request (root : option rb_tree) (dr : dr_node) : bool :=
  match duda_dr_list_get root (wrap 64 (node_socket dr)) with
  | None => false
  | Some tmp => (node_addr tmp =? node_addr dr) && (node_socket tmp =? node_socket dr)
  end.
End registry.

(** ** Event handlers

    Callbacks are identified by a number, [0] excluded by [option]. *)

Record duda_event_handler := mk_eh {
  eh_sockfd : Z;
  eh_mode : Z;
  eh_behavior : Z;
  cb_on_read : option Z;
  cb_on_write : option Z;
  cb_on_error : option Z;
  cb_on_close : option Z;
  cb_on_timeout : option Z;
  cb_data : Z;
}.

#[export] Instance duda_event_handler_eq_dec : EqDecision duda_event_handler.
Proof. solve_decision. Defined.

(** What Monkey's polling interface provides: the value of [MK_EVENT_READ] and
    the answer of [event_socket_change_mode]. *)
Class MkEvent := {
  MK_EVENT_READ : Z;
  event_socket_change_mode : Z -> Z -> Z -> Z;
}.

Section event.
Context `{MkEvent}.

(** The handler is linked before the mode is validated. *)
Definition duda_event_add (alloc_ok : bool) (events : option (list duda_event_handler))
    (eh : duda_event_handler) : res (Z * option (list duda_event_handler)) :=
  if negb alloc_ok then Ret (-1, events)
  else match events with
       | None => Fault NullDeref
       | Some l =>
           let l := l ++ [eh] in
           if eh_mode eh <? MK_EVENT_READ then Fault ExitFailure else Ret (0, Some l)
       end.

Fixpoint eh_search (sockfd : Z) (l : list duda_event_handler) : option duda_event_handler :=
  match l with
  | [] => None
  | eh :: l' => if eh_sockfd eh =? sockfd then Some eh else eh_search sockfd l'
  end.

Definition duda_event_lookup (events : option (list duda_event_handler)) (sockfd : Z) :
    option duda_event_handler :=
  match events with
  | None => None
  | Some l => eh_search sockfd l
  end.

Definition duda_event_mode (events : option (list duda_event_handler)) (sockfd mode behavior : Z) : Z :=
  match duda_event_lookup events sockfd with
  | None => -1
  | Some _ => event_socket_change_mode sockfd mode behavior
  end.

Fixpoint eh_delete (sockfd : Z) (l : list duda_event_handler) : option (list duda_event_handler) :=
  match l with
  | [] => None
  | eh :: l' => if eh_sockfd eh =? sockfd then Some l' else (eh ::.) <$> eh_delete sockfd l'
  end.

(** The descriptor is given to [duda_dr_list_get] where the address of a request
    is expected.  The list is that of the descriptors taken out of the polling
    interface by [event_del]. *)
Definition duda_event_delete (root : option rb_tree) (events : option (list duda_event_handler))
    (sockfd : Z) : Z * option (list duda_event_handler) * list Z :=
  match events with
  | None => (-1, events, [])
  | Some l =>
      match eh_delete sockfd l with
      | None => (-1, events, [])
      | Some l' =>
          let dels := match duda_dr_list_get root (wrap 64 sockfd) with
                      | None => [sockfd]
                      | Some d => if sockfd =? node_socket d then [] else [sockfd]
                      end in
          (0, Some l', dels)
      end
  end.

(** ** Signals *)

Record duda_event_signal_channel := mk_esc { fd_r : Z; fd_w : Z }.

Inductive signal_event : Set :=
  | SignalWrite (fd val : Z)
  | Perror.

(** [write_ret fd] is what [write] answers. *)
Definition duda_event_signal (write_ret : Z -> Z) (channels : list duda_event_signal_channel) (val : Z) :
    Z * list signal_event :=
  (0, concat ((fun esc => SignalWrite (fd_w esc) val
                 :: (if write_ret (fd_w esc) <=? 0 then [Perror] else [])) <$> channels)).

(** [read_val] is the value read, [None] for a short or failed read; [setups]
    the [event_signal_cb] of the loaded services. *)
Definition duda_event_fd_read (read_val : option Z) (fd : Z) (setups : list (option Z)) :
    option plugin_ret * list (Z * Z * Z) :=
  match read_val with
  | None => (None, [])
  | Some val => (Some EVENT_OWNED, (fun cb => (cb, fd, val)) <$> omap id setups)
  end.

(** [pipe_ret] is the pair of descriptors of [pipe], [None] its failure;
    [alloc_ok] whether the channel was allocated, which is not tested. *)
Definition duda_event_create_signal_fd (pipe_ret : option (Z * Z)) (alloc_ok : bool)
    (channels : list duda_event_signal_channel) : res (Z * list duda_event_signal_channel) :=
  match pipe_ret with
  | None => Ret (-1, channels)
  | Some (r, w) =>
      if negb alloc_ok then Fault NullDeref else Ret (r, channels ++ [mk_esc r w])
  end.

(** ** The hooks of the launcher

    [invoke cb fd data] is what the callback returns, [None] for a value that
    is none of the three the interface allows. *)

Variable invoke : Z -> Z -> Z -> option plugin_ret.

Definition _mkp_event_read (events : option (list duda_event_handler)) (sockfd : Z) : res plugin_ret :=
  match duda_event_lookup events sockfd with
  | Some eh =>
      match cb_on_read eh with
      | Some cb =>
          match invoke cb (eh_sockfd eh) (cb_data eh) with
          | Some ret => Ret ret
          | None => Fault ExitFailure
          end
      | None => Ret EVENT_CONTINUE
      end
  | None => Ret EVENT_CONTINUE
  end.

(** The third component is the write callback that ran. *)
Definition _mkp_event_write (end_callback : option (duda_request -> duda_request))
    (http_request_end : Z) (o : socket_result) (events : option (list duda_event_handler))
    (sockfd : Z) (w : worker) : res (plugin_ret * worker * option Z) :=
  match duda_event_lookup events sockfd ≫= cb_on_write with
  | Some cb => Ret (EVENT_OWNED, w, Some cb)
  | None =>
      '(ret, w) ← duda_queue_event_write_callback end_callback http_request_end o sockfd w;
      Ret (ret, w, None)
  end.
End event.

(** ** The registry is ordered by socket *)

Definition ordered (key : dr_node -> Z) (l : list dr_node) : Prop :=
  StronglySorted (fun a b => key a < key b) l.

Lemma ordered_app key l1 l2 :
  ordered key (l1 ++ l2) <-> ordered key l1 /\ ordered key l2 /\ (forall a b, a ∈ l1 -> b ∈ l2 -> key a < key b).
Proof.
  unfold ordered. induction l1 as [|x l1 IH]; cbn.
  - split; [intros ?|by intros (_ & ? & _)]. split; [constructor|]. split; [done|].
    intros a b Ha. by apply not_elem_of_nil in Ha.
  - split.
    + intros [Hs Hf]%StronglySorted_inv. apply IH in Hs as (H1 & H2 & H3).
      rewrite Forall_app in Hf. destruct Hf as [Hf1 Hf2]. rewrite Forall_forall in Hf2.
      split; [by constructor|]. split; [done|]. intros a b [->|Ha]%elem_of_cons Hb; eauto.
    + intros ([Hs Hf]%StronglySorted_inv & H2 & H3). constructor.
      * apply IH. split; [done|]. split; [done|]. intros a b Ha. apply H3. set_solver.
      * apply Forall_app. split; [done|]. apply Forall_forall. intros b. apply H3. set_solver.
Qed.

Lemma ordered_cons key d l : ordered key (d :: l) <-> ordered key l /\ (forall b, b ∈ l -> key d < key b).
Proof.
  unfold ordered. split.
  - intros [? Hf]%StronglySorted_inv. split; [done|]. by apply Forall_forall.
  - intros [? ?]. constructor; [done|]. by apply Forall_forall.
Qed.

Lemma ordered_node key l d r :
  ordered key (inorder (Node l d r)) <->
  ordered key (inorder l) /\ ordered key (inorder r)
  /\ (forall a, a ∈ inorder l -> key a < key d) /\ (forall b, b ∈ inorder r -> key d < key b).
Proof.
  cbn. rewrite ordered_app, ordered_cons. split.
  - intros (H1 & (H2 & H3) & H4). split_and!; eauto. intros a Ha. apply H4; set_solver.
  - intros (H1 & H2 & H3 & H4). split_and!; eauto. intros a b Ha [->|Hb]%elem_of_cons; [by apply H3|].
    etransitivity; eauto.
Qed.

(** Linking a request whose socket is not registered adds it, and only it. *)
Lemma dr_link_adds dr t : forall up,
  ordered node_socket (inorder t) -> (forall d, d ∈ inorder t -> node_socket d <> node_socket dr) ->
  (forall d, d ∈ inorder (dr_link dr up t).1 <-> d = dr \/ d ∈ inorder t)
  /\ ordered node_socket (inorder (dr_link dr up t).1)
  /\ linked up (dr_link dr up t).1 dr (dr_link dr up t).2.
Proof.
  induction t as [|l IHl this r IHr]; intros up Hs Hf.
  { cbn. split_and!; [set_solver|repeat constructor|by left]. }
  apply ordered_node in Hs as (Hl & Hr & Hlt & Hgt).
  assert (Hthis : node_socket this <> node_socket dr) by (apply Hf; set_solver).
  cbn [dr_link]. rewrite Z.gtb_ltb. dbool.
  - destruct (IHl (Some (node_addr this))) as (Hin & Hs' & Hk); [done|set_solver|].
    destruct (dr_link dr (Some (node_addr this)) l) as [l' p]; cbn [fst snd] in *.
    split_and!; [cbn; set_solver| |cbn; tauto].
    apply ordered_node. split_and!; [done|done| |done]. intros a [->|Ha]%Hin; auto.
  - destruct (IHr (Some (node_addr this))) as (Hin & Hs' & Hk); [done|set_solver|].
    destruct (dr_link dr (Some (node_addr this)) r) as [r' p]; cbn [fst snd] in *.
    split_and!; [cbn; set_solver| |cbn; tauto].
    apply ordered_node. split_and!; [done|done|done|]. intros a [->|Ha]%Hin; auto.
Qed.

(** Looking a request up by its address works in a tree ordered by it. *)
Lemma dr_search_found t d :
  ordered node_request (inorder t) -> d ∈ inorder t -> dr_search (node_request d) t = Some d.
Proof.
  induction t as [|l IHl this r IHr]; [by intros _ ?%not_elem_of_nil|].
  intros (Hl & Hr & Hlt & Hgt)%ordered_node Hd. cbn [dr_search]. rewrite Z.gtb_ltb. cbn in Hd.
  apply elem_of_app in Hd as [Hd|[->|Hd]%elem_of_cons].
  - specialize (Hlt d Hd). dbool. auto.
  - by dbool.
  - specialize (Hgt d Hd). dbool. auto.
Qed.

Lemma dr_search_sound t sr d : dr_search sr t = Some d -> node_request d = sr /\ d ∈ inorder t.
Proof.
  induction t as [|l IHl this r IHr]; [done|]. cbn [dr_search inorder].
  rewrite elem_of_app, elem_of_cons, Z.gtb_ltb. dbool; [tauto..|].
  intros [= <-]. split; [lia|tauto].
Qed.

(** Descriptors are small numbers and requests live elsewhere, so no request is
    ever found valid. *)
Lemma validate_request_rejects t dr :
  0 <= node_socket dr < 2 ^ 31 -> (forall d, d ∈ inorder t -> 2 ^ 31 <= node_request d) ->
  duda_request_validate_request (Some t) dr = false
  /\ duda_request_validate_socket (Some t) (node_socket dr) = false.
Proof.
  intros Hs Hr. unfold duda_request_validate_request, duda_request_validate_socket. cbn [duda_dr_list_get].
  rewrite wrap_small by lia. destruct (dr_search _ _) as [d|] eqn:E; [|done].
  apply dr_search_sound in E as [Ed Hd]. specialize (Hr d Hd). lia.
Qed.

Lemma ordered_change_key (k1 k2 : dr_node -> Z) l :
  (forall a b, a ∈ l -> b ∈ l -> k1 a < k1 b -> k2 a < k2 b) -> ordered k1 l -> ordered k2 l.
Proof.
  induction l as [|x l IH]; intros Hk; [constructor|].
  rewrite !ordered_cons. intros [Hs Hx]. split; [apply IH; set_solver|].
  intros b Hb. apply Hk; set_solver.
Qed.

Lemma inorder_empty t : (forall d, d ∈ inorder t -> False) -> t = Nil.
Proof. destruct t as [|l d r]; [done|]. intros Hd. destruct (Hd d). cbn. set_solver. Qed.

(** The sockets and the addresses of the requests of [l] are in the same
    order. *)
Definition agree (l : list dr_node) : Prop :=
  forall a b, a ∈ l -> b ∈ l -> node_socket a < node_socket b -> node_request a < node_request b.

Section registry_correct.
Context `{RbTreeSpec}.

Lemma dr_list_add_registered t dr :
  ordered node_socket (inorder t) -> (forall d, d ∈ inorder t -> node_socket d <> node_socket dr) ->
  exists t', duda_dr_list_add (Some t) dr = Ret t' /\ ordered node_socket (inorder t')
  /\ forall d, d ∈ inorder t' <-> d = dr \/ d ∈ inorder t.
Proof.
  intros Hs Hf. destruct (dr_link_adds dr t None Hs Hf) as (Hin & Hs' & Hk).
  unfold duda_dr_list_add. destruct (dr_link dr None t) as [t' p]; cbn [fst snd] in *.
  exists (rb_insert_color dr p t'). rewrite (rb_insert_color_inorder _ _ _ Hk). eauto.
Qed.

(** Registering a request whose socket is not in the tree keeps the tree
    ordered by socket and adds that request only; if the addresses of the
    requests are ordered as their sockets are, every registered request is
    found by its address, and a deletion takes out the request it returns and
    no other. *)
Theorem dr_list_registers t dr :
  ordered node_socket (inorder t) -> (forall d, d ∈ inorder t -> node_socket d <> node_socket dr) ->
  agree (dr :: inorder t) ->
  exists t', duda_dr_list_add (Some t) dr = Ret t' /\ ordered node_socket (inorder t')
  /\ (forall d, d ∈ inorder t' <-> d = dr \/ d ∈ inorder t)
  /\ (forall d, d ∈ inorder t' -> duda_dr_list_get (Some t') (node_request d) = Some d)
  /\ (forall d, d ∈ inorder t' -> exists t'',
        duda_dr_list_del (Some t') (node_request d) = (Some d, Some t'')
        /\ inorder t'' = filter (fun d' => d' <> d) (inorder t')).
Proof.
  intros Hs Hf Ha. destruct (dr_list_add_registered t dr Hs Hf) as (t' & Hadd & Hs' & Hin).
  assert (Hget : forall d, d ∈ inorder t' -> duda_dr_list_get (Some t') (node_request d) = Some d).
  { intros d Hd. apply dr_search_found; [|done]. apply (ordered_change_key node_socket); [|done].
    intros a b Hai%Hin Hbi%Hin. apply Ha; apply elem_of_cons; tauto. }
  exists t'. split_and!; [done|done|done|done|]. intros d Hd. exists (rb_erase d t').
  unfold duda_dr_list_del. rewrite Hget by done. split; [done|]. apply rb_erase_inorder; [|done].
  clear -Hs'. induction (inorder t') as [|x l IH]; [constructor|]. apply ordered_cons in Hs' as [Hs Hx].
  constructor; [|by apply IH]. intros Hin. specialize (Hx _ Hin). lia.
Qed.

(** The tree is ordered by socket but searched by address: of two requests
    whose addresses are in the opposite order of their sockets, one is not
    found once both are registered, however the tree is balanced. *)
Theorem dr_list_misses d1 d2 :
  node_socket d1 < node_socket d2 -> node_request d2 < node_request d1 ->
  exists t1 t2 d, duda_dr_list_add (Some Nil) d1 = Ret t1 /\ duda_dr_list_add (Some t1) d2 = Ret t2
  /\ d ∈ inorder t2 /\ (d = d1 \/ d = d2) /\ duda_dr_list_get (Some t2) (node_request d) = None.
Proof.
  intros Hs Hr.
  destruct (dr_list_add_registered Nil d1) as (t1 & H1 & S1 & I1); [constructor|set_solver|].
  destruct (dr_list_add_registered t1 d2) as (t2 & H2 & S2 & I2); [done| |].
  { intros d [->|?%not_elem_of_nil]%I1; [lia|done]. }
  assert (Hin : forall d, d ∈ inorder t2 <-> d = d2 \/ d = d1) by (cbn in I1; set_solver).
  destruct t2 as [|l d r].
  { exfalso. assert (d1 ∈ inorder Nil) as ?%not_elem_of_nil; [|done]. apply Hin. auto. }
  apply ordered_node in S2 as (_ & _ & Hlt & Hgt).
  destruct (proj1 (Hin d)) as [->| ->]; [cbn; set_solver| |].
  - exists t1, (Node l d2 r), d1. split_and!; [done|done|apply Hin; auto|auto|]. cbn.
    rewrite Z.gtb_ltb. dbool.
    rewrite (inorder_empty r); [done|]. intros x Hx. specialize (Hgt _ Hx).
    destruct (proj1 (Hin x)) as [->| ->]; [|lia|lia]. cbn. set_solver.
  - exists t1, (Node l d1 r), d2. split_and!; [done|done|apply Hin; auto|auto|]. cbn.
    rewrite Z.gtb_ltb. dbool.
    rewrite (inorder_empty l); [done|]. intros x Hx. specialize (Hlt _ Hx).
    destruct (proj1 (Hin x)) as [->| ->]; [|lia|lia]. cbn. set_solver.
Qed.
End registry_correct.

(** An instance: a tree that is never rebalanced. *)
Module RefRb.
Definition comb (l : list dr_node) : rb_tree := foldr (fun d t => Node Nil d t) Nil l.

Definition ops : RbTree := {|
  rb_insert_color _ _ t := t;
  rb_erase d t := comb (filter (fun d' => d' <> d) (inorder t));
|}.

Lemma inorder_comb l : inorder (comb l) = l.
Proof. induction l as [|d l IH]; [done|]. cbn. by f_equal. Qed.

Lemma ops_ok : @RbTreeSpec ops.
Proof. split; [done|]. intros d t _ _. cbn. apply inorder_comb. Qed.
End RefRb.

Definition sample_tree : rb_tree := Node Nil (mk_node 1000 5 4096) Nil.

Lemma dr_list_registers_witness :
  exists t', @duda_dr_list_add RefRb.ops (Some sample_tree) (mk_node 2000 6 8192) = Ret t'
  /\ duda_dr_list_get (Some t') 8192 = Some (mk_node 2000 6 8192)
  /\ duda_dr_list_get (Some t') 4096 = Some (mk_node 1000 5 4096).
Proof.
  destruct (@dr_list_registers RefRb.ops RefRb.ops_ok sample_tree (mk_node 2000 6 8192))
    as (t' & Hadd & _ & Hin & Hget & _).
  - repeat constructor.
  - intros d [->|?%not_elem_of_nil]%elem_of_cons; cbn; [lia|done].
  - intros a b Ha Hb. cbn in Ha, Hb. rewrite !elem_of_cons in Ha, Hb.
    destruct Ha as [->|[->|?%not_elem_of_nil]], Hb as [->|[->|?%not_elem_of_nil]]; cbn; (lia || done).
  - exists t'. split; [done|]. split.
    + apply (Hget (mk_node 2000 6 8192)), Hin. auto.
    + apply (Hget (mk_node 1000 5 4096)), Hin. right. apply elem_of_cons. auto.
Defined.

Lemma dr_list_misses_witness :
  exists t1 t2 d, @duda_dr_list_add RefRb.ops (Some Nil) (mk_node 1000 5 8192) = Ret t1
  /\ @duda_dr_list_add RefRb.ops (Some t1) (mk_node 2000 6 4096) = Ret t2
  /\ d ∈ inorder t2 /\ duda_dr_list_get (Some t2) (node_request d) = None.
Proof.
  destruct (@dr_list_misses RefRb.ops RefRb.ops_ok (mk_node 1000 5 8192) (mk_node 2000 6 4096))
    as (t1 & t2 & d & H1 & H2 & Hin & _ & Hget); [cbn; lia|cbn; lia|].
  exists t1, t2, d. done.
Defined.

(** ** The handlers of a descriptor form a queue

    The contract of the object: every descriptor has a queue of handlers, [add]
    appends, [lookup] reads the front, [delete] removes the front and answers
    whether there was one. *)

Inductive event_op : Type :=
  | OpAdd (eh : duda_event_handler)
  | OpDelete (sockfd : Z).

Definition event_spec : Type := Z -> list duda_event_handler.

Definition spec_set (q : event_spec) (fd : Z) (l : list duda_event_handler) : event_spec :=
  fun fd' => if fd' =? fd then l else q fd'.

Definition spec_step (op : event_op) (q : event_spec) : Z * event_spec :=
  match op with
  | OpAdd eh => (0, spec_set q (eh_sockfd eh) (q (eh_sockfd eh) ++ [eh]))
  | OpDelete fd =>
      match q fd with
      | [] => (-1, q)
      | _ :: l => (0, spec_set q fd l)
      end
  end.

Fixpoint spec_run (ops : list event_op) (q : event_spec) : list Z * event_spec :=
  match ops with
  | [] => ([], q)
  | op :: ops' =>
      let '(r, q) := spec_step op q in
      let '(rs, q) := spec_run ops' q in (r :: rs, q)
  end.

Section event_correct.
Context `{MkEvent}.

Definition event_step (root : option rb_tree) (op : event_op) (events : option (list duda_event_handler)) :
    res (Z * option (list duda_event_handler) * list Z) :=
  match op with
  | OpAdd eh => '(r, events) ← duda_event_add true events eh; Ret (r, events, [])
  | OpDelete fd => Ret (duda_event_delete root events fd)
  end.

Fixpoint event_run (root : option rb_tree) (ops : list event_op) (events : option (list duda_event_handler)) :
    res (list Z * option (list duda_event_handler)) :=
  match ops with
  | [] => Ret ([], events)
  | op :: ops' =>
      '(r, events, _) ← event_step root op events;
      '(rs, events) ← event_run root ops' events;
      Ret (r :: rs, events)
  end.

Definition valid_op (op : event_op) : Prop :=
  match op with OpAdd eh => MK_EVENT_READ <= eh_mode eh | OpDelete _ => True end.

(** The queue of [fd] in the list of a worker. *)
Definition handlers (l : list duda_event_handler) : event_spec :=
  fun fd => List.filter (fun eh => eh_sockfd eh =? fd) l.

Lemma handlers_app l1 l2 fd : handlers (l1 ++ l2) fd = handlers l1 fd ++ handlers l2 fd.
Proof. apply List.filter_app. Qed.

Lemma eh_search_head fd l : eh_search fd l = head (handlers l fd).
Proof. induction l as [|eh l IH]; [done|]. cbn. by dbool. Qed.

Lemma eh_delete_tail fd l :
  match handlers l fd with
  | [] => eh_delete fd l = None
  | _ :: q => exists l', eh_delete fd l = Some l' /\ handlers l' fd = q
              /\ forall fd', fd' <> fd -> handlers l' fd' = handlers l fd'
  end.
Proof.
  induction l as [|eh l IH]; [done|]. cbn. dbool.
  - exists l. split_and!; [done|done|]. intros fd' Hne. unfold handlers. cbn. by dbool.
  - unfold handlers in IH. destruct (List.filter _ l) as [|h q].
    + by rewrite IH.
    + destruct IH as (l' & -> & Hq & Hf). exists (eh :: l'). cbn. split; [done|]. dbool.
      split; [done|]. intros fd' Hne. unfold handlers in *. cbn. by rewrite Hf.
Qed.

Lemma event_step_refines root op l q :
  valid_op op -> (forall fd, handlers l fd = q fd) ->
  exists l' dels, event_step root op (Some l) = Ret ((spec_step op q).1, Some l', dels)
  /\ forall fd, handlers l' fd = (spec_step op q).2 fd.
Proof.
  intros Hv Hq. destruct op as [eh|fd].
  - exists (l ++ [eh]), []. cbn in *. unfold duda_event_add. dbool. split; [done|].
    intros fd. rewrite handlers_app, Hq. unfold spec_set, handlers. cbn.
    dbool; subst; [done|]. by rewrite app_nil_r.
  - cbn [event_step spec_step duda_event_delete]. pose proof (eh_delete_tail fd l) as Hd. rewrite Hq in Hd.
    destruct (q fd) as [|h t] eqn:E; [rewrite Hd; by exists l, []|].
    destruct Hd as (l' & -> & Ht & Hf). eexists l', _. split; [done|].
    intros fd'. cbn. unfold spec_set. dbool; subst; [done|]. by rewrite Hf, Hq.
Qed.

(** C30. Whatever additions with a valid mode and deletions a worker performs,
    the answers of the operations and the handlers found by [lookup] are those
    of the queues of the contract: a second registration of a descriptor does
    not replace the first one, and a deletion uncovers the next. *)
Theorem event_registry_refines root ops :
  Forall valid_op ops ->
  exists l, event_run root ops (Some []) = Ret ((spec_run ops (fun _ => [])).1, Some l)
  /\ forall fd, duda_event_lookup (Some l) fd = head ((spec_run ops (fun _ => [])).2 fd).
Proof.
  intros Hv.
  assert (Hrun : forall l q, (forall fd, handlers l fd = q fd) -> exists l',
    event_run root ops (Some l) = Ret ((spec_run ops q).1, Some l')
    /\ forall fd, handlers l' fd = (spec_run ops q).2 fd).
  { induction Hv as [|op ops Hop _ IH]; intros l q Hq; [by exists l|].
    destruct (event_step_refines root op l q Hop Hq) as (l1 & dels & Hs & H1).
    destruct (spec_step op q) as [r q1] eqn:Eq; cbn [fst snd] in *.
    destruct (IH l1 q1 H1) as (l2 & Hr & H2). exists l2.
    cbn [event_run spec_run]. rewrite Hs, Eq. cbn. rewrite Hr. cbn.
    by destruct (spec_run ops q1). }
  destruct (Hrun [] (fun _ => [])) as (l & Hl & Hq); [done|].
  exists l. split; [done|]. intros fd. cbn. by rewrite eh_search_head, Hq.
Qed.
End event_correct.

Module RefEvent.
Definition ops : MkEvent := {| MK_EVENT_READ := 1; event_socket_change_mode _ _ _ := 0 |}.
Definition handler (fd cb : Z) : duda_event_handler :=
  mk_eh fd 1 0 (Some cb) None None None None 0.
Definition script : list event_op :=
  [OpAdd (handler 7 1); OpAdd (handler 8 2); OpAdd (handler 7 3); OpDelete 7; OpDelete 9].
End RefEvent.

Lemma event_registry_refines_witness :
  exists l, @event_run RefEvent.ops None RefEvent.script (Some []) = Ret ([0; 0; 0; 0; -1], Some l)
  /\ duda_event_lookup (Some l) 7 = Some (RefEvent.handler 7 3).
Proof.
  destruct (@event_registry_refines RefEvent.ops None RefEvent.script) as (l & Hr & Hl).
  - repeat constructor; cbn; lia.
  - exists l. split; [exact Hr|]. rewrite Hl. reflexivity.
Defined.
