(* ===== verification/Service.v ===== *)
(** * Services: loading, start and dispatch

    lib/duda.c (the context and the switcher every request goes through),
    lib/duda_service.c (the creation of a service) and the command line of
    src/duda.c.  The file system, the dynamic loader, the code of the services
    and [duda_request_create] are parameters. *)

From S2P Require Import Prelude CString Router RouterSpec Utils.

(** ** Data *)

(** What [stat] and [access] say of a path. *)
Inductive dir_status : Set := StatFails | NotDirectory | NoPermission | DirectoryOk.

#[export] Instance dir_status_eq_dec : EqDecision dir_status.
Proof. solve_decision. Defined.

Record duda_service (CB : Type) := mk_ds {
  path_root : option (list Z);
  path_log : option (list Z);
  path_data : option (list Z);
  path_html : option (list Z);
  path_service : option (list Z);
  dl_handle : Z;
  router_list : list (duda_router_path CB);
}.
Arguments mk_ds {CB}.
Arguments path_root {CB}.
Arguments path_log {CB}.
Arguments path_data {CB}.
Arguments path_html {CB}.
Arguments path_service {CB}.
Arguments dl_handle {CB}.
Arguments router_list {CB}.

Record duda (CB : Type) := mk_duda { tcp_port : option (list Z); services : list (duda_service CB) }.
Arguments mk_duda {CB}.
Arguments tcp_port {CB}.
Arguments services {CB}.

(** The operating system: directories, [dlopen], and what the bootstrap symbol
    of a library registers in the router ([None] when there is no symbol). *)
Class Host (CB : Type) := {
  dir_stat : list Z -> dir_status;
  dlopen : list Z -> option Z;
  bootstrap : Z -> option (list (duda_router_path CB));
}.

Section service.
Context {CB : Type} `{Host CB}.

(** ** lib/duda_service.c *)

(** [stat] of a [NULL] path fails. *)
Definition validate_dir (path : option (list Z)) : Z :=
  match path with
  | None => -1
  | Some p => match dir_stat p with DirectoryOk => 0 | _ => -1 end
  end.

(** The string [snprintf] writes for ["%s/%s"]. *)
Definition service_path (root : option (list Z)) (path : list Z) : list Z :=
  match root with
  | None => path
  | Some r =>
      if char_at path 0 =? slash then path
      else take (strlen r) r ++ slash :: take (strlen path) path
  end.

Definition dir_given_ok (given checked : option (list Z)) : bool :=
  match given with None => true | Some _ => validate_dir checked =? 0 end.

(** The second result is the returned service, [None] for [NULL].  The library
    is opened by the path as given. *)
Definition duda_service_create (alloc_ok : bool) (d : option (duda CB))
    (root log data html : option (list Z)) (service : list Z) :
    res (option (duda CB) * option (duda_service CB)) :=
  match d with
  | None => Ret (None, None)
  | Some d' =>
      if negb (dir_given_ok root root) then Ret (d, None)
      else if negb (dir_given_ok log log) then Ret (d, None)
      else if negb (dir_given_ok data log) then Ret (d, None)
      else if negb (dir_given_ok html html) then Ret (d, None)
      else match dlopen service with
      | None => Ret (d, None)
      | Some handle =>
          if negb alloc_ok then Ret (d, None)
          else match bootstrap handle with
          | None => Fault NullDeref
          | Some rules =>
              let ds := mk_ds root (service_path root <$> log) (service_path root <$> data)
                          (service_path root <$> html) (Some (service_path root service))
                          handle rules in
              Ret (Some (mk_duda (tcp_port d') (services d' ++ [ds])), Some ds)
          end
      end
  end.

(** ** lib/duda.c *)

Definition duda_create (alloc_ok mk_create_ok : bool) : option (duda CB) :=
  if negb alloc_ok then None else if negb mk_create_ok then None else Some (mk_duda None []).

(** How a request ends: the callback of a rule runs, or Duda answers 500. *)
Inductive served : Type :=
  | RunCallback (p : duda_router_path CB)
  | Send500.

(** [request_create p] is whether [duda_request_create] returned a request. *)
Fixpoint duda_switcher (request_create : duda_router_path CB -> bool)
    (svs : list (duda_service CB)) (uri : mk_ptr_t) : res served :=
  match svs with
  | [] => Ret Send500
  | s :: svs' =>
      '(ret, path) ← duda_router_path_lookup (router_list s) uri;
      match ret, path with
      | DUDA_ROUTER_MATCH, Some p => if request_create p then Ret (RunCallback p) else Ret Send500
      | DUDA_ROUTER_MATCH, None => Fault NullDeref
      | _, _ => duda_switcher request_create svs' uri
      end
  end.

Fixpoint dec_prefix (v : Z) (s : list Z) : Z :=
  match s with
  | [] => v
  | c :: s' => if isdigit c then dec_prefix (dec_step v c) s' else v
  end.

(** [atoi] of the C library: [(int) strtol (s, NULL, 10)]. *)
Definition atoi (s : list Z) : Z :=
  let s := skip_spaces s in
  let clamp v := Z.max LONG_MIN (Z.min LONG_MAX v) in
  let c := char_at s 0 in
  swrap 32 (clamp (if c =? ch "-" then - dec_prefix 0 (drop 1 s)
                   else if c =? ch "+" then dec_prefix 0 (drop 1 s)
                   else dec_prefix 0 s)).

Definition DUDA_DEFAULT_PORT : list Z := cs "8080".

(** The listen address given to Monkey, [None] when the start is refused. *)
Definition duda_start (d : option (duda CB)) : option (duda CB) * option (list Z) :=
  match d with
  | None => (None, None)
  | Some d =>
      let port := default DUDA_DEFAULT_PORT (tcp_port d) in
      let d := mk_duda (Some port) (services d) in
      if atoi port <=? 1 then (Some d, None) else (Some d, Some port)
  end.

(** ** src/duda.c

    One constructor per answer of [getopt_long]. *)

Inductive cli_opt : Type :=
  | OptRoot (a : list Z) | OptLogdir (a : list Z) | OptDatadir (a : list Z) | OptHtmldir (a : list Z)
  | OptService (a : list Z) | OptPort (a : list Z) | OptVersion | OptHelp | OptUnknown.

Record options := mk_options {
  opt_root : option (list Z); opt_logdir : option (list Z); opt_datadir : option (list Z);
  opt_htmldir : option (list Z); opt_webservice : option (list Z) }.

Definition no_options : options := mk_options None None None None None.

Inductive main_end : Type :=
  | Exited (code : Z)
  | Ran (d : duda CB) (listen : option (list Z)).

(** The service created with the options collected so far; [None] is a failure
    that ends the process. *)
Definition load_service (d : duda CB) (o : options) (name : list Z) : res (option (duda CB)) :=
  '(d', srv) ← duda_service_create true (Some d) (opt_root o) (opt_logdir o) (opt_datadir o)
                 (opt_htmldir o) name;
  Ret (match srv with None => None | Some _ => d' end).

Fixpoint main_loop (args : list cli_opt) (o : options) (d : duda CB) :
    res (Z + options * duda CB) :=
  match args with
  | [] => Ret (inr (o, d))
  | arg :: args' =>
      match arg with
      | OptRoot a => main_loop args' (mk_options (Some a) (opt_logdir o) (opt_datadir o) (opt_htmldir o) (opt_webservice o)) d
      | OptLogdir a => main_loop args' (mk_options (opt_root o) (Some a) (opt_datadir o) (opt_htmldir o) (opt_webservice o)) d
      | OptDatadir a => main_loop args' (mk_options (opt_root o) (opt_logdir o) (Some a) (opt_htmldir o) (opt_webservice o)) d
      | OptHtmldir a => main_loop args' (mk_options (opt_root o) (opt_logdir o) (opt_datadir o) (Some a) (opt_webservice o)) d
      | OptService a =>
          match opt_webservice o with
          | Some _ =>
              r ← load_service d o a;
              match r with
              | None => Ret (inl 1)
              | Some d => main_loop args' no_options d
              end
          | None => main_loop args' (mk_options (opt_root o) (opt_logdir o) (opt_datadir o) (opt_htmldir o) (Some a)) d
          end
      | OptPort a => main_loop args' o (mk_duda (Some a) (services d))
      | OptVersion | OptHelp => Ret (inl 0)
      | OptUnknown => Ret (inl 1)
      end
  end.

Definition main (created : option (duda CB)) (args : list cli_opt) : res main_end :=
  match created with
  | None => Ret (Exited 1)
  | Some d =>
      r ← main_loop args no_options d;
      match r with
      | inl code => Ret (Exited code)
      | inr (o, d) =>
          match opt_webservice o with
          | None => let '(d', listen) := duda_start (Some d) in Ret (Ran (default d d') listen)
          | Some name =>
              r ← load_service d o name;
              match r with
              | None => Ret (Exited 1)
              | Some d => let '(d', listen) := duda_start (Some d) in Ret (Ran (default d d') listen)
              end
          end
      end
  end.
End service.

Arguments served : clear implicits.
Arguments main_end : clear implicits.

(** ** Properties *)

(** The rules of all the services, in the order of registration. *)
Definition all_rules {CB} (svs : list (duda_service CB)) : list (duda_router_path CB) :=
  concat (router_list <$> svs).

Section dispatch.
Context {CB : Type}.
Implicit Types (r : list (duda_router_path CB)) (svs : list (duda_service CB)).

Lemma path_lookup_app r1 r2 uri :
  duda_router_path_lookup (r1 ++ r2) uri =
  '(ret, p) ← duda_router_path_lookup r1 uri;
  match ret with
  | DUDA_ROUTER_NOTFOUND => duda_router_path_lookup r2 uri
  | _ => Ret (ret, p)
  end.
Proof.
  induction r1 as [|p r1 IH]; [done|]. cbn.
  destruct (ptype p); [|by destruct (fields p)].
  destruct (strncmp _ _ _ =? 0); [done|]. by destruct (redirect p && _ && _).
Qed.

Lemma path_lookup_answers r1 uri :
  match duda_router_path_lookup r1 uri with
  | Ret (DUDA_ROUTER_NOTFOUND, None) | Ret (DUDA_ROUTER_MATCH, Some _) | Fault NullDeref => True
  | _ => False
  end.
Proof.
  induction r1 as [|p r1 IH]; [done|]. cbn.
  destruct (ptype p); [|by destruct (fields p)].
  destruct (strncmp _ _ _ =? 0); [done|]. by destruct (redirect p && _ && _).
Qed.

(** A table of static rules none of which redirects is searched for the first
    match. *)
Lemma path_lookup_find ruri r1 uri :
  Forall (fun p => ptype p = DUDA_ROUTER_STATIC /\ rule_redirects uri p = false) r1 ->
  duda_router_path_lookup r1 uri =
  Ret match List.find (rule_matches ruri uri) r1 with
      | Some p => (DUDA_ROUTER_MATCH, Some p)
      | None => (DUDA_ROUTER_NOTFOUND, None)
      end.
Proof.
  unfold rule_redirects, rule_matches.
  induction 1 as [|p r1 [Ht Hr] _ IH]; [done|]. cbn. rewrite Ht in *.
  destruct (strncmp _ _ (Z.to_nat (pattern_len p)) =? 0); [done|]. rewrite Hr. apply IH.
Qed.

Definition served_of (request_create : duda_router_path CB -> bool)
    (a : lookup_code * option (duda_router_path CB)) : served CB :=
  match a.2 with
  | Some p => if request_create p then RunCallback p else Send500
  | None => Send500
  end.

Lemma switcher_lookup create svs uri :
  duda_switcher create svs uri = served_of create <$> duda_router_path_lookup (all_rules svs) uri.
Proof.
  induction svs as [|s svs IH]; [done|]. cbn [duda_switcher].
  change (all_rules (s :: svs)) with (router_list s ++ all_rules svs). rewrite path_lookup_app. pose proof (path_lookup_answers (router_list s) uri) as Ha.
  destruct (duda_router_path_lookup (router_list s) uri) as [[[] [p|]]|[]]; try done.
  unfold served_of. cbn. by destruct (create p).
Qed.

(** C5. A request is dispatched as if the rules of all the services formed one
    table, in the order in which the services were loaded; when the rules are
    static and none redirects the request, the callback that runs is that of
    the first rule whose pattern is a prefix of the URI, and without one (or
    when the request context cannot be created) the answer is a 500. *)
Theorem switcher_dispatches create svs uri :
  duda_switcher create svs uri = served_of create <$> duda_router_path_lookup (all_rules svs) uri
  /\ (Forall (fun p => ptype p = DUDA_ROUTER_STATIC /\ rule_redirects uri p = false) (all_rules svs) ->
      duda_switcher create svs uri =
      Ret match List.find (rule_matches [] uri) (all_rules svs) with
          | Some p => if create p then RunCallback p else Send500
          | None => Send500
          end).
Proof.
  split; [apply switcher_lookup|]. intros Hst.
  rewrite switcher_lookup, (path_lookup_find []) by done.
  by destruct (List.find _ _).
Qed.
End dispatch.

Definition sample_service (rules : list (duda_router_path nat)) : duda_service nat :=
  mk_ds None None None None None 1 rules.

Definition sample_services : list (duda_service nat) :=
  [sample_service [static_path (cs "/about") 1%nat];
   sample_service [static_path (cs "/ab") 2%nat; static_path (cs "/info") 3%nat]].

Lemma switcher_dispatches_witness :
  duda_switcher (fun _ => true) sample_services (mk_ptr (cs "/abc") 4)
  = Ret (RunCallback (static_path (cs "/ab") 2%nat)).
Proof.
  etransitivity; [apply switcher_dispatches|vm_compute; reflexivity].
  repeat constructor.
Defined.

(** *** Creation of a service *)

Definition dir_ok `{Host CB} (p : option (list Z)) : Prop :=
  match p with None => True | Some p => dir_stat p = DirectoryOk end.

Section create.
Context {CB : Type} `{Host CB}.

Lemma dir_given_ok_iff p : dir_given_ok p p = true <-> dir_ok p.
Proof. destruct p as [p|]; cbn; [|done]. by destruct (dir_stat p). Qed.

(** The branches that return [NULL] with the context as it was. *)
Local Ltac refused :=
  match goal with
  | |- exists d' srv, Ret (Some ?d, None) = _ /\ _ => exists d, None; split_and!; [done| |done];
      split; [|done]; intros _ ?; intuition congruence
  end.

(** A service is created exactly when the directories given for the root,
    the logs and the pages pass their checks, the library opens and memory is
    left; for the data directory it is the log directory that is checked, so a
    data directory without a log directory is refused and a bad one next to a
    good log directory is accepted.  The new service is linked last, with the
    relative paths prefixed by the root; without a service the context is
    unchanged. *)
Theorem service_create_spec alloc_ok d root log data html service handle rules :
  bootstrap handle = Some rules ->
  dlopen service = Some handle ->
  exists d' srv, duda_service_create alloc_ok (Some d) root log data html service = Ret (Some d', srv)
  /\ (srv = None <->
        ~ (dir_ok root /\ dir_ok log /\ (data <> None -> log <> None) /\ dir_ok html /\ alloc_ok = true))
  /\ match srv with
     | None => d' = d
     | Some ds => tcp_port d' = tcp_port d /\ services d' = services d ++ [ds]
         /\ router_list ds = rules /\ path_root ds = root
         /\ path_log ds = service_path root <$> log /\ path_data ds = service_path root <$> data
         /\ path_html ds = service_path root <$> html
         /\ path_service ds = Some (service_path root service)
     end.
Proof.
  intros Hb Hd. unfold duda_service_create. rewrite Hd, Hb.
  pose proof (dir_given_ok_iff root) as Hr. pose proof (dir_given_ok_iff log) as Hl.
  pose proof (dir_given_ok_iff html) as Hh.
  assert (Hx : dir_given_ok log log = true ->
    dir_given_ok data log = true <-> (data <> None -> log <> None)).
  { destruct data, log; cbn; intuition (try done). }
  destruct (dir_given_ok root root); cbn [negb]; [|refused].
  destruct (dir_given_ok log log); cbn [negb]; [|refused]. specialize (Hx eq_refl).
  destruct (dir_given_ok data log); cbn [negb]; [|refused].
  destruct (dir_given_ok html html); cbn [negb]; [|refused].
  destruct alloc_ok; cbn [negb]; [|refused].
  eexists _, (Some _). split; [done|]. split; [|by split_and!]. split; [done|]. intros []. tauto.
Qed.
End create.

(** A host where one library and the directories of [/srv] exist. *)
Module RefHost.
Definition ops : Host nat := {|
  dir_stat p := if bool_decide (p = cs "/srv") then DirectoryOk
                else if bool_decide (p = cs "/etc/passwd") then NotDirectory else StatFails;
  dlopen p := if bool_decide (p = cs "app.duda") then Some 1
              else if bool_decide (p = cs "api.duda") then Some 2
              else if bool_decide (p = cs "web.duda") then Some 3 else None;
  bootstrap h := Some [static_path (cs "/app") (Z.to_nat h)];
|}.
End RefHost.

(** The data directory [/etc/passwd] is not a directory. *)
Lemma service_create_spec_witness :
  exists d' ds, @duda_service_create nat RefHost.ops true (Some (mk_duda None []))
    (Some (cs "/srv")) (Some (cs "/srv")) (Some (cs "/etc/passwd")) None (cs "app.duda")
    = Ret (Some d', Some ds)
  /\ path_data ds = Some (cs "/etc/passwd") /\ path_service ds = Some (cs "/srv/app.duda").
Proof.
  destruct (@service_create_spec nat RefHost.ops true (mk_duda None []) (Some (cs "/srv"))
    (Some (cs "/srv")) (Some (cs "/etc/passwd")) None (cs "app.duda") 1
    [static_path (cs "/app") 1%nat]) as (d' & srv & Hc & Hn & Hs);
    [vm_compute; reflexivity|vm_compute; reflexivity|].
  destruct srv as [ds|].
  - exists d', ds. destruct Hs as (_ & _ & _ & _ & _ & -> & _ & ->). done.
  - exfalso. apply (proj1 Hn eq_refl). vm_compute. done.
Defined.

(** *** The command line *)

(** Every second name, and the last one of an odd number. *)
Fixpoint every_second (l : list (list Z)) : list (list Z) :=
  match l with
  | [] => []
  | [a] => [a]
  | _ :: b :: l' => b :: every_second l'
  end.

Definition service_names (args : list cli_opt) : list (list Z) :=
  omap (fun a => match a with OptService n => Some n | _ => None end) args.

(** Options that neither end the process nor give a data directory. *)
Definition plain (a : cli_opt) : bool :=
  match a with
  | OptRoot _ | OptLogdir _ | OptHtmldir _ | OptService _ | OptPort _ => true
  | _ => false
  end.

Section command_line.
Context {CB : Type} `{Host CB}.

Definition loadable (n : list Z) : Prop :=
  exists h rules, dlopen n = Some h /\ bootstrap h = Some rules.

Definition handles (d : duda CB) : list (option Z) := (fun ds => Some (dl_handle ds)) <$> services d.

Hypothesis Hdirs : forall p, dir_stat p = DirectoryOk.

Lemma load_service_ok d o n :
  opt_datadir o = None -> loadable n ->
  exists d', load_service d o n = Ret (Some d') /\ handles d' = handles d ++ [dlopen n].
Proof.
  intros Hd (h & rules & Hl & Hb). unfold load_service, duda_service_create, dir_given_ok, validate_dir.
  rewrite Hd, Hl, Hb.
  destruct (opt_root o), (opt_logdir o), (opt_htmldir o); rewrite ?Hdirs; cbn; eexists; (split; [done|]);
    unfold handles; cbn; by rewrite fmap_app.
Qed.

(** The names still to be accounted for in front of the next option. *)
Definition waiting (o : options) : list (list Z) := option_list (opt_webservice o).

Lemma main_loop_loads args : forall o d,
  forallb plain args = true -> opt_datadir o = None ->
  Forall loadable (waiting o ++ service_names args) ->
  exists o' d', main_loop args o d = Ret (inr (o', d')) /\ opt_datadir o' = None
  /\ Forall loadable (waiting o')
  /\ handles d' ++ (dlopen <$> waiting o')
     = handles d ++ (dlopen <$> every_second (waiting o ++ service_names args)).
Proof.
  induction args as [|a args IH]; intros o d Hp Hd Hl.
  { exists o, d. cbn in *. rewrite app_nil_r in *. split_and!; [done..|].
    f_equal. unfold waiting. by destruct (opt_webservice o). }
  cbn in Hp. apply andb_true_iff in Hp as [Ha Hp].
  destruct a; try done; cbn [main_loop];
    try (match goal with |- context [main_loop args ?o' ?d'] => exact (IH o' d' Hp Hd Hl) end).
  unfold waiting in *. destruct (opt_webservice o) as [w|]; cbn in Hl.
  - apply Forall_cons in Hl as [_ [Hn Hl]%Forall_cons].
    destruct (load_service_ok d o a Hd Hn) as (d1 & -> & Hh). cbn.
    destruct (IH no_options d1) as (o' & d' & Hr & Hd' & Hl' & Hh'); [done..|].
    exists o', d'. split_and!; [done..|]. rewrite Hh', Hh. by rewrite <- app_assoc.
  - match goal with |- context [main_loop args ?o' ?d'] => exact (IH o' d' Hp Hd Hl) end.
Qed.

Lemma duda_start_keeps (d : duda CB) :
  exists d' listen, duda_start (Some d) = (Some d', listen) /\ services d' = services d.
Proof. unfold duda_start. destruct (_ <=? _); by eexists _, _. Qed.

(** With the options of the web services (no data directory, all other
    directories valid, all libraries loadable), the process starts with every
    second service of the command line, and the last one when their number is
    odd: of a pair [-w a -w b] only [b] is loaded. *)
Theorem main_loads_every_second args :
  forallb plain args = true -> Forall loadable (service_names args) ->
  exists d listen, main (Some (mk_duda None [])) args = Ret (Ran d listen)
  /\ handles d = dlopen <$> every_second (service_names args).
Proof.
  intros Hp Hl.
  destruct (main_loop_loads args no_options (mk_duda None []) Hp eq_refl Hl) as (o & d & Hr & Hd & Hw & Hh).
  unfold main. rewrite Hr. cbn [mbind res_bind]. unfold waiting in *. destruct (opt_webservice o) as [n|].
  - apply Forall_cons in Hw as [Hn _]. destruct (load_service_ok d o n Hd Hn) as (d1 & -> & H1). cbn [mbind res_bind].
    destruct (duda_start_keeps d1) as (d2 & listen & -> & Hs). exists d2, listen.
    split; [done|]. unfold handles in *. rewrite Hs, H1. exact Hh.
  - cbn in Hh. rewrite app_nil_r in Hh. destruct (duda_start_keeps d) as (d2 & listen & -> & Hs).
    exists d2, listen. split; [done|]. unfold handles in *. by rewrite Hs.
Qed.
End command_line.

Module AllOk.
Definition ops : Host nat := {|
  dir_stat _ := DirectoryOk;
  dlopen := @dlopen nat RefHost.ops;
  bootstrap := @bootstrap nat RefHost.ops;
|}.
End AllOk.

Lemma main_loads_every_second_witness :
  exists d listen, @main nat AllOk.ops (Some (mk_duda None []))
    [OptRoot (cs "/srv"); OptService (cs "app.duda"); OptService (cs "api.duda"); OptPort (cs "80");
     OptService (cs "web.duda")] = Ret (Ran d listen)
  /\ handles d = [Some 2; Some 3].
Proof.
  destruct (@main_loads_every_second nat AllOk.ops) with (args :=
    [OptRoot (cs "/srv"); OptService (cs "app.duda"); OptService (cs "api.duda"); OptPort (cs "80");
     OptService (cs "web.duda")]) as (d & listen & Hm & Hh).
  - reflexivity.
  - reflexivity.
  - repeat constructor; eexists _, _; (split; [vm_compute; reflexivity|reflexivity]).
  - exists d, listen. split; [exact Hm|]. rewrite Hh. vm_compute. reflexivity.
Defined.
