(* ===== verification/Session.v ===== *)
(** * Cookies and sessions (lib/objects/duda_cookie.c, lib/objects/duda_session.c)

    A session is a file named after the session, an identifier kept by the client
    in a cookie, and the expiration time.  The file system is the list of the
    regular files, with their content; the search functions of Monkey are the
    class [MkSearch]. *)

From S2P Require Import Prelude CString.

(** ** Cookies *)

Definition COOKIE_SET : list Z := cs "Set-Cookie: ".
Definition COOKIE_EQUAL : list Z := cs "=".
Definition COOKIE_PATH : list Z := cs "; path=/".
Definition COOKIE_DELETED : list Z := cs "deleted".
Definition COOKIE_EXPIRE_TIME : Z := 337606980.

(** [str_search] is the position of the first occurrence of a string in another,
    or [-1]; [str_search_n] looks at a number of bytes only. *)
Class MkSearch := {
  str_search : list Z -> list Z -> Z;
  str_search_n : list Z -> list Z -> Z -> Z;
}.

(** [key] occurs in [s] at [p] and nowhere before. *)
Definition first_at (s key : list Z) (p : nat) : Prop :=
  key `prefix_of` drop p s /\ forall q, (q < p)%nat -> ~ key `prefix_of` drop q s.

Class MkSearchSpec `{MkSearch} : Prop := {
  str_search_found s key p : cstr s -> cstr key -> key <> [] ->
    first_at s key p -> str_search s key = Z.of_nat p;
  str_search_n_found s key p n : cstr s -> cstr key -> key <> [] ->
    first_at s key p -> Z.of_nat (p + length key) <= n -> str_search_n s key n = Z.of_nat p;
}.

(** [_extra_rows], [None] before it is created; the strings added are the
    entries of the vector.  Whatever the expiration, nothing follows the path. *)
Definition duda_cookie_set (rows : option (list (list Z))) (key val : list Z) (expires : Z) :
    Z * option (list (list Z)) :=
  let rows := default [] rows in
  let rows := rows ++ [COOKIE_SET; key; COOKIE_EQUAL; val; COOKIE_PATH] in
  if expires =? COOKIE_EXPIRE_TIME then (0, Some rows)
  else if 0 <? expires then (0, Some rows)
  else (0, Some rows).

Definition duda_cookie_destroy (rows : option (list (list Z))) (key : list Z) :
    Z * option (list (list Z)) :=
  duda_cookie_set rows key COOKIE_DELETED COOKIE_EXPIRE_TIME.

(** The [for] loop: the first [';'] from [i] on, and [length] without one. *)
Fixpoint value_end (cookie : list Z) (i : Z) (n : nat) : Z :=
  match n with
  | O => i
  | S n' => if char_at cookie (Z.to_nat i) =? ch ";" then i else value_end cookie (i + 1) n'
  end.

(** Regular files by their path, in the order [readdir] lists them. *)
Abbreviation files := (list (list Z * list Z)).

Section cookie.
Context `{MkSearch}.

(** [header] is the Cookie header of the request.  The result is the pointer and
    the length of the value, [None] for [-1]. *)
Definition duda_cookie_get (header : option mk_ptr_t) (key : list Z) : option (list Z * Z) :=
  match header with
  | None => None
  | Some h =>
      let cookie := data h in
      let length := len h in
      let pos_key := str_search cookie key in
      if pos_key =? -1 then None
      else
        let pos_val := str_search_n (drop (Z.to_nat pos_key) cookie) COOKIE_EQUAL (length - pos_key) in
        if pos_val =? -1 then None
        else
          let offset := pos_key + (pos_val + 1) in
          let i := value_end cookie offset (Z.to_nat (length - offset)) in
          Some (drop (Z.to_nat offset) cookie, i - offset)
  end.

Definition duda_cookie_cmp (header : option mk_ptr_t) (key cmp : list Z) : Z :=
  match duda_cookie_get header key with
  | None => -1
  | Some (value, val_len) =>
      if negb (Z.of_nat (strlen cmp) =? val_len) then -1
      else if strncmp value cmp (Z.to_nat val_len) =? 0 then 0 else -1
  end.

(** ** Sessions *)

Definition SESSION_STORE_PATH_DEV : list Z := cs "/dev/shm/duda_sessions".
Definition SESSION_STORE_PATH_RUN : list Z := cs "/run/shm/duda_sessions".
Definition SESSION_UUID_SIZE : Z := 128.
Definition SESSION_KEY : list Z := cs "DUDA_SESSION".

Fixpoint file_read (fs : files) (path : list Z) : option (list Z) :=
  match fs with
  | [] => None
  | (p, c) :: fs' => if bool_decide (p = path) then Some c else file_read fs' path
  end.

(** [open] with [O_CREAT | O_WRONLY] and a [write] from the start: an existing
    file keeps what is behind the written bytes. *)
Fixpoint file_write (fs : files) (path value : list Z) : files :=
  match fs with
  | [] => [(path, value)]
  | (p, c) :: fs' =>
      if bool_decide (p = path) then (p, value ++ drop (length value) c) :: fs'
      else (p, c) :: file_write fs' path value
  end.

Fixpoint file_unlink (fs : files) (path : list Z) : files :=
  match fs with
  | [] => []
  | (p, c) :: fs' => if bool_decide (p = path) then fs' else (p, c) :: file_unlink fs' path
  end.

(** The name of a file of the directory [dir]. *)
Definition name_in (dir path : list Z) : option (list Z) :=
  let pre := dir ++ [ch "/"] in
  if bool_decide (pre `prefix_of` path) && negb (bool_decide (ch "/" ∈ drop (length pre) path))
  then Some (drop (length pre) path) else None.

(** What [snprintf] leaves in a buffer of [size] bytes. *)
Definition printed (size : Z) (s : list Z) : list Z := take (Z.to_nat (size - 1)) s.

(** The digits of a number in base [b], most significant first. *)
Fixpoint digits_of (fuel : nat) (b n : Z) (acc : list Z) : list Z :=
  match fuel with
  | O => acc
  | S fuel' =>
      let d := n mod b in
      let c := if d <? 10 then ch "0" + d else ch "a" + (d - 10) in
      if n / b =? 0 then c :: acc else digits_of fuel' b (n / b) (c :: acc)
  end.

(** ["%x"] and ["%d"] of an [int]. *)
Definition fmt_x (n : Z) : list Z := digits_of 8 16 (wrap 32 n) [].
Definition fmt_d (n : Z) : list Z :=
  if n <? 0 then ch "-" :: digits_of 10 10 (- n) [] else digits_of 10 10 n [].

Definition session_uuid (r1 r2 : Z) : list Z := fmt_x r1 ++ cs "-" ++ fmt_x r2.

(** [mk_api->file_get_info] is [exists_path], [mkdir] is [mkdir_ok]; a [NULL]
    path neither exists nor can be created.  The second result is the store. *)
Definition duda_session_init (exists_path mkdir_ok : list Z -> bool) (store_name : list Z) :
    Z * option (list Z) :=
  let root := if exists_path (cs "/dev/shm") then Some SESSION_STORE_PATH_DEV
              else if exists_path (cs "/run/shm") then Some SESSION_STORE_PATH_RUN
              else None in
  match root with
  | None => (-1, None)
  | Some root =>
      if negb (exists_path root) && negb (mkdir_ok root) then (-1, Some root)
      else
        let path := root ++ [ch "/"] ++ store_name in
        if negb (exists_path path) && negb (mkdir_ok path) then (-1, Some root)
        else (0, Some path)
  end.

(** [r1] and [r2] are the two random numbers, [open_ok] and [write_ok] say
    whether the system calls succeed. *)
Definition duda_session_create (alloc_ok open_ok write_ok : bool) (r1 r2 : Z) (store : list Z)
    (fs : files) (rows : option (list (list Z))) (name value : list Z) (expires : Z) :
    Z * files * option (list (list Z)) :=
  if negb alloc_ok then (-1, fs, rows)
  else
    let uuid := printed SESSION_UUID_SIZE (session_uuid r1 r2) in
    let '(_, rows) := duda_cookie_set rows SESSION_KEY uuid expires in
    let session := printed SESSION_UUID_SIZE
      (store ++ cs "/" ++ name ++ cs "." ++ uuid ++ cs "." ++ fmt_d expires) in
    if negb open_ok then (-1, fs, rows)
    else
      let written := take (strlen value) value in
      if negb write_ok then (-1, file_write fs session [], rows)
      else (0, file_write fs session written, rows).

(** The name prefix composed in the 128 byte buffer of [_duda_session_get_path]
    and [duda_session_isset]: the value of the cookie is copied without a
    check. *)
Definition session_prefix (name session_val : list Z) (vlen : Z) : res (list Z) :=
  let ret := Z.of_nat (strlen name) + 1 in
  if SESSION_UUID_SIZE <=? ret + vlen + 1 then Fault OutOfBounds
  else Ret (take (strlen name) name ++ cs "." ++ take (Z.to_nat vlen) session_val ++ cs ".").

(** The [readdir] loop. *)
Fixpoint match_name (entries : list (list Z)) (buf : list Z) : option (list Z) :=
  match entries with
  | [] => None
  | d_name :: entries' =>
      if (char_at d_name 0 =? ch ".") && negb (bool_decide (d_name = cs ".."))
      then match_name entries' buf
      else if strncmp d_name buf (length buf) =? 0 then Some d_name
      else match_name entries' buf
  end.

Definition session_files (store : list Z) (fs : files) : list (list Z) := omap (name_in store) (fs.*1).

(** [opendir_ok] is whether the store could be opened; [None] is [-1]. *)
Definition _duda_session_get_path (opendir_ok : bool) (header : option mk_ptr_t) (store : list Z)
    (fs : files) (name : list Z) (buf_size : Z) : res (option (list Z)) :=
  match duda_cookie_get header SESSION_KEY with
  | None => Ret None
  | Some (session_val, vlen) =>
      if negb opendir_ok then Ret None
      else
        buf ← session_prefix name session_val vlen;
        Ret ((fun d_name => printed buf_size (store ++ cs "/" ++ d_name))
               <$> match_name (session_files store fs) buf)
  end.

(** [to_buffer] is Monkey's [file_to_buffer] on the files as they are. *)
Definition duda_session_get (to_buffer : files -> list Z -> option (list Z)) (opendir_ok : bool) (header : option mk_ptr_t) (store : list Z)
    (fs : files) (name : list Z) : res (option (list Z)) :=
  p ← _duda_session_get_path opendir_ok header store fs name SESSION_UUID_SIZE;
  Ret (p ≫= to_buffer fs).

Definition duda_session_destroy (opendir_ok : bool) (header : option mk_ptr_t) (store : list Z)
    (fs : files) (rows : option (list (list Z))) (name : list Z) :
    res (Z * files * option (list (list Z))) :=
  p ← _duda_session_get_path opendir_ok header store fs name SESSION_UUID_SIZE;
  let '(_, rows) := duda_cookie_destroy rows SESSION_KEY in
  Ret (match p with
       | Some path => (0, file_unlink fs path, rows)
       | None => (-1, fs, rows)
       end).

Definition duda_session_isset (opendir_ok : bool) (header : option mk_ptr_t) (store : list Z)
    (fs : files) (name : list Z) : res Z :=
  match duda_cookie_get header SESSION_KEY with
  | None => Ret (-1)
  | Some (session_val, vlen) =>
      if negb opendir_ok then Ret (-1)
      else
        buf ← session_prefix name session_val vlen;
        Ret (match match_name (session_files store fs) buf with Some _ => 0 | None => -1 end)
  end.
End cookie.

(** The row of a cookie: the expiration time has no effect, so that [destroy] only
    changes the value, and the row has no end of line. *)
Definition cookie_row (key val : list Z) : list (list Z) :=
  [COOKIE_SET; key; COOKIE_EQUAL; val; COOKIE_PATH].

Lemma cookie_set_rows rows key val expires :
  duda_cookie_set rows key val expires = (0, Some (default [] rows ++ cookie_row key val)).
Proof. unfold duda_cookie_set. by destruct (expires =? COOKIE_EXPIRE_TIME), (0 <? expires). Qed.

(** ** The value of a cookie *)

Lemma value_end_ok a v r n :
  ch ";" ∉ v -> (length v <= n)%nat -> (n = length v \/ head r = Some (ch ";")) ->
  value_end (a ++ v ++ r) (Z.of_nat (length a)) n = Z.of_nat (length a + length v).
Proof.
  revert a n. induction v as [|c v IH]; intros a n Hv Hn Hr.
  - cbn [length app] in *. rewrite Nat.add_0_r. destruct n as [|n]; [done|]. cbn [value_end].
    destruct Hr as [|Hr]; [lia|]. destruct r as [|c r]; [done|]. injection Hr as ->.
    unfold char_at. by rewrite Nat2Z.id, list_lookup_middle.
  - cbn [length] in *. destruct n as [|n]; [lia|]. cbn [value_end].
    assert (Hc : char_at (a ++ (c :: v) ++ r) (Z.to_nat (Z.of_nat (length a))) = c).
    { unfold char_at. by rewrite Nat2Z.id, <- app_comm_cons, list_lookup_middle. }
    rewrite Hc. apply not_elem_of_cons in Hv as [Hne Hv]. dbool.
    specialize (IH (a ++ [c]) n Hv). rewrite length_app in IH. cbn [length] in IH.
    rewrite <- app_assoc in IH. cbn [app] in IH.
    replace (Z.of_nat (length a) + 1) with (Z.of_nat (length a + 1)) by lia.
    rewrite <- app_comm_cons, IH; [lia|lia|]. destruct Hr as [Hr|Hr]; [left; lia|by right].
Qed.

Lemma first_at_char a c r : c ∉ a -> first_at (a ++ c :: r) [c] (length a).
Proof.
  intros Hc. split; [rewrite drop_app_length; by exists r|].
  intros q Hq [k Hk]. assert (E : (a ++ c :: r) !! q = Some c).
  { by rewrite <- (Nat.add_0_r q), <- lookup_drop, Hk. }
  rewrite lookup_app_l in E by done. apply Hc. by eapply list_elem_of_lookup_2.
Qed.

(** The header [h] has the cookie [key=v], and [key] does not occur before: [rest]
    is what follows the value in the header, [post] the bytes behind the
    header. *)
Record has_cookie (h : mk_ptr_t) (key v : list Z) : Prop := {
  hc_cstr : cstr (data h);
  hc_key : cstr key /\ key <> [] /\ ch "=" ∉ key;
  hc_value : ch ";" ∉ v;
  hc_at : exists pre rest post, data h = (pre ++ key ++ ch "=" :: v ++ rest) ++ post
    /\ len h = Z.of_nat (length (pre ++ key ++ ch "=" :: v ++ rest))
    /\ (rest = [] \/ head rest = Some (ch ";")) /\ first_at (data h) key (length pre);
}.

Section cookie_correct.
Context `{MkSearchSpec}.

Lemma cookie_get_ok h key v : has_cookie h key v ->
  exists value, duda_cookie_get (Some h) key = Some (value, Z.of_nat (length v))
  /\ v `prefix_of` value /\ cstr value.
Proof.
  intros [Hs (Hck & Hk & Heq) Hv (pre & rest & post & Hd & Hl & Hr & Hf)].
  assert (Hd' : data h = pre ++ key ++ ch "=" :: v ++ rest ++ post).
  { rewrite Hd. by rewrite <- !app_assoc, <- app_comm_cons, <- app_assoc. }
  unfold duda_cookie_get. rewrite (str_search_found _ _ (length pre)) by done.
  rewrite Nat2Z.id. destruct (Z.eqb_spec (Z.of_nat (length pre)) (-1)); [lia|].
  assert (Hdrop : drop (length pre) (data h) = key ++ ch "=" :: v ++ rest ++ post).
  { by rewrite Hd', drop_app_length. }
  rewrite (str_search_n_found _ _ (length key)); cycle 1.
  { by apply cstr_drop. }
  { repeat constructor; cbn; lia. }
  { done. }
  { rewrite Hdrop. by apply first_at_char. }
  { rewrite Hl, !length_app. cbn. rewrite length_app. lia. }
  destruct (Z.eqb_spec (Z.of_nat (length key)) (-1)); [lia|].
  set (a := pre ++ key ++ [ch "="]).
  assert (Ha : data h = a ++ v ++ rest ++ post).
  { unfold a. rewrite Hd', <- !app_assoc. done. }
  replace (Z.of_nat (length pre) + (Z.of_nat (length key) + 1)) with (Z.of_nat (length a))
    by (unfold a; rewrite !length_app; cbn; lia).
  assert (Hn : Z.to_nat (len h - Z.of_nat (length a)) = (length v + length rest)%nat).
  { rewrite Hl. unfold a. rewrite !length_app. cbn. rewrite length_app. lia. }
  rewrite Hn, Nat2Z.id, Ha, value_end_ok; [|done|lia|].
  - eexists. split; [do 2 f_equal; lia|]. rewrite drop_app_length. split; [by eexists|].
    rewrite Ha in Hs. by apply cstr_app in Hs as [_ Hs].
  - destruct Hr as [->|Hr]; [left; cbn; lia|right]. by destruct rest.
Qed.

(** The value of a cookie whose name occurs first as a name is found: [get]
    points to it with its length, and [cmp] holds exactly for that value. *)
Theorem cookie_get_value h key v w : has_cookie h key v -> cstr w ->
  (exists value, duda_cookie_get (Some h) key = Some (value, Z.of_nat (length v))
                 /\ take (length v) value = v)
  /\ (duda_cookie_cmp (Some h) key w = 0 <-> w = v).
Proof.
  intros Hc Hw. destruct (cookie_get_ok h key v Hc) as (value & Hg & [k ->] & Hs). split.
  { exists (v ++ k). by rewrite take_app_length. }
  unfold duda_cookie_cmp. rewrite Hg, strlen_cstr, Nat2Z.id by done.
  destruct (Z.eqb_spec (Z.of_nat (length w)) (Z.of_nat (length v))) as [El|Hne]; cbn [negb];
    [|split; [done|]; intros ->; lia].
  apply Nat2Z.inj in El. rewrite <- El.
  destruct (Z.eqb_spec (strncmp (v ++ k) w (length w)) 0) as [E|E].
  - split; [intros _|done]. apply strncmp_prefix in E as [k' E]; [|done|done].
    by apply app_inj_1 in E as [-> _].
  - split; [done|]. intros ->. destruct E. apply strncmp_prefix; [done|done|by exists k].
Qed.
End cookie_correct.

(** ** Names and paths of the session files *)

Lemma printed_fits size s : Z.of_nat (length s) < size -> printed size s = s.
Proof. intros Hl. unfold printed. rewrite take_ge; [done|lia]. Qed.

Lemma name_in_app dir f : ch "/" ∉ f -> name_in dir (dir ++ cs "/" ++ f) = Some f.
Proof.
  intros Hf. unfold name_in. change (cs "/") with [ch "/"]. rewrite app_assoc, drop_app_length.
  rewrite bool_decide_true by (by eexists). by rewrite bool_decide_false.
Qed.

Lemma name_in_inv dir path f : name_in dir path = Some f -> path = dir ++ cs "/" ++ f.
Proof.
  unfold name_in. destruct (bool_decide _) eqn:E; [|done]. apply bool_decide_eq_true in E as [k ->].
  cbn [andb]. rewrite drop_app_length. destruct (negb _); [|done]. intros [= ->].
  by rewrite <- app_assoc.
Qed.

(** Digits and signs: nothing that separates names. *)
Definition plain_char (c : Z) : Prop := 0 < c < 256 /\ c <> ch "/" /\ c <> ch ";".

Lemma minus_plain : plain_char (ch "-").
Proof. repeat split; vm_compute; congruence. Qed.

Lemma digits_plain fuel b n acc : 1 < b <= 16 -> 0 <= n -> Forall plain_char acc ->
  Forall plain_char (digits_of fuel b n acc).
Proof.
  revert n acc. induction fuel as [|fuel IH]; intros n acc Hb Hn Ha; [done|]. cbn [digits_of].
  pose proof (Z.mod_pos_bound n b ltac:(lia)). pose proof (Z.div_pos n b Hn ltac:(lia)).
  assert (Hc : plain_char (if n mod b <? 10 then ch "0" + n mod b else ch "a" + (n mod b - 10))).
  { unfold plain_char. change (ch "0") with 48. change (ch "a") with 97. change (ch "/") with 47.
    change (ch ";") with 59. destruct (Z.ltb_spec (n mod b) 10); lia. }
  destruct (n / b =? 0); [|apply IH; [done|done|]]; by constructor.
Qed.

Lemma uuid_plain r1 r2 : Forall plain_char (session_uuid r1 r2).
Proof.
  unfold session_uuid, fmt_x. pose proof minus_plain.
  pose proof (wrap_range 32 r1 ltac:(lia)). pose proof (wrap_range 32 r2 ltac:(lia)).
  rewrite !Forall_app. split_and!; [|by repeat constructor|]; apply digits_plain; (lia || done).
Qed.

Lemma fmt_d_plain n : Forall plain_char (fmt_d n).
Proof.
  unfold fmt_d. dbool; [constructor; [apply minus_plain|]|]; apply digits_plain; (lia || done).
Qed.

Lemma plain_cstr s : Forall plain_char s -> cstr s.
Proof. intros Hs. eapply Forall_impl; [exact Hs|]. by intros c (? & _). Qed.

Lemma plain_slash s : Forall plain_char s -> ch "/" ∉ s.
Proof. intros Hs Hin. rewrite Forall_forall in Hs. by destruct (Hs _ Hin) as (_ & ? & _). Qed.

(** ** The directory *)

Lemma match_name_skip l1 l2 buf : cstr buf -> Forall cstr l1 ->
  Forall (fun f => ~ buf `prefix_of` f) l1 -> match_name (l1 ++ l2) buf = match_name l2 buf.
Proof.
  intros Hb Hc Hn. induction Hn as [|f l1 Hf _ IH]; [done|]. cbn [app match_name].
  apply Forall_cons in Hc as [Hcf Hc]. rewrite IH by done. destruct (_ && _); [done|].
  destruct (Z.eqb_spec (strncmp f buf (length buf)) 0) as [E|]; [|done].
  by apply strncmp_prefix in E.
Qed.

Lemma file_write_new fs path value : path ∉ fs.*1 -> file_write fs path value = fs ++ [(path, value)].
Proof.
  induction fs as [|[p c] fs IH]; [done|]. cbn. rewrite not_elem_of_cons. intros [Hne Hin].
  rewrite bool_decide_false by congruence. by rewrite IH.
Qed.

Lemma file_read_last fs path value : path ∉ fs.*1 -> file_read (fs ++ [(path, value)]) path = Some value.
Proof.
  induction fs as [|[p c] fs IH]; cbn; [by rewrite bool_decide_true|].
  rewrite not_elem_of_cons. intros [Hne Hin]. rewrite bool_decide_false by congruence. by apply IH.
Qed.

Lemma file_unlink_last fs path value : path ∉ fs.*1 -> file_unlink (fs ++ [(path, value)]) path = fs.
Proof.
  induction fs as [|[p c] fs IH]; cbn; [by rewrite bool_decide_true|].
  rewrite not_elem_of_cons. intros [Hne Hin]. rewrite bool_decide_false by congruence. by rewrite IH.
Qed.

(** ** The life of a session *)

(** The file of a session, and the prefix by which it is looked up. *)
Definition session_key_name (name uuid : list Z) : list Z := name ++ cs "." ++ uuid ++ cs ".".
Definition session_file (name uuid : list Z) (expires : Z) : list Z :=
  session_key_name name uuid ++ fmt_d expires.

(** Names that can be stored: a file name without a leading dot, short enough
    for the 128 byte buffers together with the store. *)
Record good_session (store name : list Z) (r1 r2 expires : Z) : Prop := {
  gs_name : cstr name /\ (ch "/" ∉ name) /\ name <> [] /\ head name <> Some (ch ".");
  gs_fits : Z.of_nat (length (store ++ cs "/" ++ session_file name (session_uuid r1 r2) expires)) < 128;
}.

(** No file of the store has the prefix of the new session. *)
Definition fresh_session (store : list Z) (fs : files) (key_name : list Z) : Prop :=
  Forall (fun f => cstr f /\ ~ key_name `prefix_of` f) (session_files store fs).

Lemma session_files_app store fs p c :
  session_files store (fs ++ [(p, c)]) = session_files store fs ++ option_list (name_in store p).
Proof.
  unfold session_files. by rewrite fmap_app, omap_app.
Qed.

Section session_facts.
Context (store name : list Z) (r1 r2 expires : Z) (fs : files).
Hypothesis Hgood : good_session store name r1 r2 expires.
Let uuid := session_uuid r1 r2.
Let key_name := session_key_name name uuid.
Let file := session_file name uuid expires.
Let path := store ++ cs "/" ++ file.

Lemma session_lengths : (length name + length uuid + 2 <= length file /\ length store + 1 + length file < 128)%nat.
Proof.
  destruct Hgood as [_ Hf]. unfold file, session_file, session_key_name, uuid in *.
  rewrite !length_app in *. cbn [length cs] in *.
  change (length (cs "/")) with 1%nat in *. change (length (cs ".")) with 1%nat in *. lia.
Qed.

Lemma key_name_cstr : cstr key_name.
Proof.
  destruct Hgood as [(Hn & _) _]. unfold key_name, session_key_name. rewrite !cstr_app.
  split_and!; [done| |apply plain_cstr, uuid_plain|]; apply (bool_decide_unpack _); vm_compute; exact I.
Qed.

Lemma session_file_slash : ch "/" ∉ file.
Proof.
  destruct Hgood as [(_ & Hs & _) _]. unfold file, session_file, session_key_name.
  rewrite !not_elem_of_app. pose proof (plain_slash _ (uuid_plain r1 r2)).
  pose proof (plain_slash _ (fmt_d_plain expires)).
  split_and!; try done; apply (bool_decide_unpack _); vm_compute; exact I.
Qed.

Lemma session_file_cstr : cstr file.
Proof. apply cstr_app. split; [apply key_name_cstr|apply plain_cstr, fmt_d_plain]. Qed.

Lemma path_new : fresh_session store fs key_name -> path ∉ fs.*1.
Proof.
  intros Hfr Hin. unfold fresh_session, session_files in Hfr. rewrite Forall_forall in Hfr.
  destruct (Hfr file) as [_ []]; [|by eexists].
  apply list_elem_of_omap. exists path. split; [done|]. apply name_in_app, session_file_slash.
Qed.

(** The lookup of the new file. *)
Lemma match_new : fresh_session store fs key_name ->
  (forall value, match_name (session_files store (fs ++ [(path, value)])) key_name = Some file)
  /\ match_name (session_files store fs) key_name = None.
Proof.
  intros Hfr. apply Forall_and in Hfr as [Hc Hn]. pose proof key_name_cstr as Hk. split.
  - intros value. rewrite session_files_app. unfold path. rewrite name_in_app by apply session_file_slash.
    rewrite match_name_skip by done. change (option_list (Some file)) with [file]. cbn [match_name].
    destruct Hgood as [(_ & _ & Hne & Hdot) _].
    assert (Hh : (char_at file 0 =? ch ".") = false).
    { unfold file, session_file, session_key_name. destruct name as [|c n]; [done|]. cbn in Hdot |- *.
      unfold char_at. cbn. dbool. congruence. }
    rewrite Hh. cbn [andb].
    rewrite (proj2 (strncmp_prefix _ _ session_file_cstr Hk)); [done|]. by eexists.
  - rewrite <- (app_nil_r (session_files store fs)). by rewrite match_name_skip.
Qed.
End session_facts.

Section session_correct.
Context `{MkSearchSpec}.

(** [file_to_buffer] reads a regular file that exists into a new buffer. *)
Definition reads_files (to_buffer : files -> list Z -> option (list Z)) : Prop :=
  forall fs path content, file_read fs path = Some content -> to_buffer fs path = Some content.

(** C40. The life of a session: after [create], a client that sends the
    cookie back finds the session with [isset] and its value with [get];
    [destroy] removes the file, and the session is then no longer found.  This is so for every expiration time, also one in the past: the documentation of
    [create] says that [expires] is the time at which the session expires, but it only becomes part of the name of the file, and no operation compares it with
    the clock. *)
Theorem session_lifecycle to_buffer store fs rows name value r1 r2 expires h :
  reads_files to_buffer ->
  good_session store name r1 r2 expires ->
  fresh_session store fs (session_key_name name (session_uuid r1 r2)) ->
  cstr value -> has_cookie h SESSION_KEY (session_uuid r1 r2) ->
  exists fs' rows', duda_session_create true true true r1 r2 store fs rows name value expires
    = (0, fs', rows')
  /\ duda_session_isset true (Some h) store fs' name = Ret 0
  /\ duda_session_get to_buffer true (Some h) store fs' name = Ret (Some value)
  /\ (exists rows'', duda_session_destroy true (Some h) store fs' rows' name = Ret (0, fs, rows''))
  /\ duda_session_isset true (Some h) store fs name = Ret (-1).
Proof.
  intros Hread Hg Hfr Hv Hc. pose proof (session_lengths _ _ _ _ _ Hg) as Hlen.
  pose proof (path_new store name r1 r2 expires fs Hg Hfr) as Hnew.
  destruct (match_new store name r1 r2 expires fs Hg Hfr) as [Hm1 Hm2].
  destruct Hg as [(Hn & _) Hfit]. destruct (cookie_get_ok h _ _ Hc) as (val & Hget & [k ->] & _).
  set (uuid := session_uuid r1 r2) in *. set (file := session_file name uuid expires) in *.
  set (path := store ++ cs "/" ++ file) in *.
  assert (Hp : session_prefix name (uuid ++ k) (Z.of_nat (length uuid)) = Ret (session_key_name name uuid)).
  { unfold session_prefix. rewrite strlen_cstr by done. change SESSION_UUID_SIZE with 128.
    destruct (Z.leb_spec 128 (Z.of_nat (length name) + 1 + Z.of_nat (length uuid) + 1)); [lia|].
    rewrite Nat2Z.id, take_ge, take_app_length by lia. done. }
  assert (Hpath : forall s, s = path -> printed SESSION_UUID_SIZE s = path).
  { intros s ->. by apply printed_fits. }
  exists (fs ++ [(path, value)]), (Some (default [] rows ++ cookie_row SESSION_KEY uuid)).
  assert (Hcreate : duda_session_create true true true r1 r2 store fs rows name value expires
    = (0, fs ++ [(path, value)], Some (default [] rows ++ cookie_row SESSION_KEY uuid))).
  { unfold duda_session_create. cbn [negb]. fold uuid. rewrite (printed_fits _ uuid) by (change SESSION_UUID_SIZE with 128; lia).
    rewrite (Hpath (store ++ cs "/" ++ name ++ cs "." ++ uuid ++ cs "." ++ fmt_d expires))
      by (unfold path, file, session_file, session_key_name; by rewrite <- !app_assoc).
    rewrite strlen_cstr, take_ge, file_write_new by (done || lia).
    by rewrite cookie_set_rows. }
  split; [done|]. unfold duda_session_isset, duda_session_get, duda_session_destroy, _duda_session_get_path.
  rewrite Hget. cbn [negb]. rewrite Hp. cbn [mbind res_bind fmap option_fmap option_map].
  rewrite Hm1, Hm2. cbn [fmap option_fmap option_map mbind option_bind]. rewrite Hpath by done.
  rewrite (Hread _ _ value), file_unlink_last by (done || by apply file_read_last). split_and!; [done|done| |done]. by eexists.
Qed.

(** The client controls the length of its cookie, and the buffer in which the
    file name is composed has 128 bytes: as soon as the session name and the
    value of the cookie have 126 bytes together, every operation on the session
    writes behind that buffer. *)
Theorem session_cookie_overflow to_buffer store fs rows name v h :
  cstr name -> has_cookie h SESSION_KEY v -> (126 <= length name + length v)%nat ->
  duda_session_isset true (Some h) store fs name = Fault OutOfBounds
  /\ duda_session_get to_buffer true (Some h) store fs name = Fault OutOfBounds
  /\ duda_session_destroy true (Some h) store fs rows name = Fault OutOfBounds.
Proof.
  intros Hn Hc Hl. destruct (cookie_get_ok h _ _ Hc) as (val & Hget & _).
  assert (Hp : session_prefix name val (Z.of_nat (length v)) = Fault OutOfBounds).
  { unfold session_prefix. rewrite strlen_cstr by done. change SESSION_UUID_SIZE with 128.
    destruct (Z.leb_spec 128 (Z.of_nat (length name) + 1 + Z.of_nat (length v) + 1)); [done|lia]. }
  unfold duda_session_isset, duda_session_get, duda_session_destroy, _duda_session_get_path.
  rewrite Hget. cbn [negb]. by rewrite Hp.
Qed.
End session_correct.

(** An instance of the search functions. *)
Module RefSearch.
Fixpoint search (s key : list Z) (i : Z) : Z :=
  if bool_decide (key `prefix_of` s) then i
  else match s with
       | [] => -1
       | _ :: s' => search s' key (i + 1)
       end.

Definition ops : MkSearch :=
  {| str_search s key := search s key 0; str_search_n s key n := search (take (Z.to_nat n) s) key 0 |}.

Lemma search_found s key p i : key <> [] -> first_at s key p -> search s key i = i + Z.of_nat p.
Proof.
  revert p i. induction s as [|c s IH]; intros p i Hk [Hp Hq]; cbn [search].
  - rewrite drop_nil in Hp. by apply prefix_nil_inv in Hp.
  - destruct p as [|p]; [rewrite bool_decide_true by done; lia|].
    rewrite bool_decide_false by (apply (Hq 0%nat); lia). rewrite (IH p); [lia|done|].
    split; [done|]. intros q Hlt. apply (Hq (S q)). lia.
Qed.

Lemma first_at_take s key p n : first_at s key p -> (p + length key <= n)%nat ->
  first_at (take n s) key p.
Proof.
  intros [[k Hk] Hq] Hn. split.
  - exists (take (n - p - length key) k). rewrite skipn_firstn_comm, Hk, take_app_ge by lia. done.
  - intros q Hlt [k' Hk']. apply (Hq q Hlt). exists (k' ++ drop n s).
    rewrite app_assoc, <- Hk', skipn_firstn_comm. rewrite <- (take_drop (n - q) (drop q s)) at 1.
    rewrite drop_drop. do 2 f_equal. lia.
Qed.

Lemma search_spec : @MkSearchSpec ops.
Proof.
  split; cbn.
  - intros s key p _ _ Hk Hf. rewrite (search_found s key p) by done. lia.
  - intros s key p n _ _ Hk Hf Hn. rewrite (search_found _ key p); [lia|done|].
    apply first_at_take; [done|lia].
Qed.
End RefSearch.

(** Evidence for [has_cookie] on concrete headers. *)
Definition first_atb (s key : list Z) (p : nat) : bool :=
  bool_decide (key `prefix_of` drop p s)
  && forallb (fun q => negb (bool_decide (key `prefix_of` drop q s))) (seq 0 p).

Lemma first_atb_sound s key p : first_atb s key p = true -> first_at s key p.
Proof.
  unfold first_atb. rewrite andb_true_iff, bool_decide_eq_true, forallb_forall. intros [Hp Hq].
  split; [done|]. intros q Hlt Hk. specialize (Hq q). rewrite in_seq in Hq.
  rewrite bool_decide_true in Hq by done. discriminate Hq. lia.
Qed.

Definition sample_cookie (v : list Z) : mk_ptr_t :=
  let body := cs "lang=en; DUDA_SESSION=" ++ v ++ cs "; a=b" in
  mk_ptr (body ++ cs "X-Next: DUDA") (Z.of_nat (length body)).

Lemma sample_has_cookie v : cstr v -> (ch ";" ∉ v) -> has_cookie (sample_cookie v) SESSION_KEY v.
Proof.
  intros Hv Hs. split.
  - cbn [sample_cookie data]. rewrite !cstr_app. split_and!; [|done|..]; apply (bool_decide_unpack _); vm_compute; exact I.
  - split_and!; [| |]; apply (bool_decide_unpack _); vm_compute; exact I.
  - done.
  - exists (cs "lang=en; "), (cs "; a=b"), (cs "X-Next: DUDA"). split_and!; [done|done|by right|].
    apply first_atb_sound. vm_compute. reflexivity.
Qed.

Definition sample_uuid : list Z := session_uuid 305419896 48879.

Lemma cookie_get_value_witness :
  duda_cookie_cmp (H := RefSearch.ops) (Some (sample_cookie (cs "12-ef"))) SESSION_KEY (cs "12-ef") = 0.
Proof.
  apply (@cookie_get_value RefSearch.ops RefSearch.search_spec (sample_cookie (cs "12-ef")) SESSION_KEY (cs "12-ef") (cs "12-ef")).
  - apply sample_has_cookie; apply (bool_decide_unpack _); vm_compute; exact I.
  - apply (bool_decide_unpack _); vm_compute; exact I.
  - reflexivity.
Defined.

Lemma session_lifecycle_witness :
  exists fs' rows', duda_session_create true true true 305419896 48879 (cs "/dev/shm/duda_sessions/app")
    [(cs "/dev/shm/duda_sessions/app/user.1-2.0", cs "x")] None (cs "user") (cs "bob") 60 = (0, fs', rows')
  /\ duda_session_get (H := RefSearch.ops) file_read true (Some (sample_cookie sample_uuid))
       (cs "/dev/shm/duda_sessions/app") fs' (cs "user") = Ret (Some (cs "bob")).
Proof.
  destruct (@session_lifecycle RefSearch.ops RefSearch.search_spec file_read (cs "/dev/shm/duda_sessions/app")
    [(cs "/dev/shm/duda_sessions/app/user.1-2.0", cs "x")] None (cs "user") (cs "bob") 305419896 48879 60
    (sample_cookie sample_uuid)) as (fs' & rows' & Hc & _ & Hg & _).
  - intros fs path content E. exact E.
  - split; [split_and!|]; apply (bool_decide_unpack _); vm_compute; exact I.
  - apply (bool_decide_unpack _); vm_compute; exact I.
  - apply (bool_decide_unpack _); vm_compute; exact I.
  - apply sample_has_cookie; apply (bool_decide_unpack _); vm_compute; exact I.
  - exists fs', rows'. exact (conj Hc Hg).
Defined.

Lemma session_cookie_overflow_witness :
  duda_session_get (H := RefSearch.ops) file_read true (Some (sample_cookie (replicate 122 (ch "a"))))
    (cs "/dev/shm/duda_sessions/app") [] (cs "user") = Fault OutOfBounds.
Proof.
  apply (@session_cookie_overflow RefSearch.ops RefSearch.search_spec file_read (cs "/dev/shm/duda_sessions/app") [] None
    (cs "user") (replicate 122 (ch "a")) (sample_cookie (replicate 122 (ch "a")))).
  - apply (bool_decide_unpack _); vm_compute; exact I.
  - apply sample_has_cookie; apply (bool_decide_unpack _); vm_compute; exact I.
  - apply Nat.leb_le. reflexivity.
Defined.
