(* ===== verification/Http.v ===== *)
(** * The request and response objects (lib/objects/duda_request.c,
      lib/objects/duda_response.c)

    The part of a request context these objects use.  Monkey's HTTP functions are
    the class [MkHttp]; the process events (abort) are faults.  What reaches
    Monkey is recorded in the order it does, as a list of [http_event]. *)

From S2P Require Import Prelude CString Gc BodyBuffer Queue.

Inductive mk_method : Set :=
  | METHOD_GET | METHOD_POST | METHOD_HEAD | METHOD_PUT | METHOD_DELETE | METHOD_OTHER.

#[export] Instance mk_method_eq_dec : EqDecision mk_method.
Proof. solve_decision. Defined.

(** The fields of Monkey's [struct mk_http_request] that are read or written;
    [rq_data] is [None] when [data.data] is [NULL]. *)
Record mk_http_request := mk_rq {
  rq_method : mk_method;
  rq_content_length : Z;
  rq_content_type : mk_ptr_t;
  rq_data : option mk_ptr_t;
  rq_connection : option mk_ptr_t;
  rs_status : Z;
  rs_content_length : Z;
  rs_rows : list (list Z);
}.

Record http_dr := mk_http_dr {
  h_socket : Z;
  h_has_session : bool;
  h_request : option mk_http_request;
  st_http_content_length : Z;
  st_http_headers_off : bool;
  st_http_headers_sent : bool;
  st_body_writes : Z;
  h_end_callback : option Z;
  h_queue_out : list duda_queue_item;
}.

(** Setters for the fields the code assigns. *)
Definition set_rq (dr : http_dr) (rq : mk_http_request) : http_dr :=
  mk_http_dr (h_socket dr) (h_has_session dr) (Some rq) (st_http_content_length dr)
    (st_http_headers_off dr) (st_http_headers_sent dr) (st_body_writes dr)
    (h_end_callback dr) (h_queue_out dr).
Definition set_headers_off (dr : http_dr) : http_dr :=
  mk_http_dr (h_socket dr) (h_has_session dr) (h_request dr) (st_http_content_length dr)
    true (st_http_headers_sent dr) (st_body_writes dr) (h_end_callback dr) (h_queue_out dr).
Definition set_headers_sent (dr : http_dr) : http_dr :=
  mk_http_dr (h_socket dr) (h_has_session dr) (h_request dr) (st_http_content_length dr)
    (st_http_headers_off dr) true (st_body_writes dr) (h_end_callback dr) (h_queue_out dr).
Definition set_st_content_length (dr : http_dr) (n : Z) : http_dr :=
  mk_http_dr (h_socket dr) (h_has_session dr) (h_request dr) n
    (st_http_headers_off dr) (st_http_headers_sent dr) (st_body_writes dr)
    (h_end_callback dr) (h_queue_out dr).
Definition set_end_callback (dr : http_dr) (cb : option Z) : http_dr :=
  mk_http_dr (h_socket dr) (h_has_session dr) (h_request dr) (st_http_content_length dr)
    (st_http_headers_off dr) (st_http_headers_sent dr) (st_body_writes dr) cb (h_queue_out dr).
Definition set_queue_out (dr : http_dr) (q : list duda_queue_item) : http_dr :=
  mk_http_dr (h_socket dr) (h_has_session dr) (h_request dr) (st_http_content_length dr)
    (st_http_headers_off dr) (st_http_headers_sent dr) (st_body_writes dr)
    (h_end_callback dr) q.
Definition set_rs_content_length (rq : mk_http_request) (n : Z) : mk_http_request :=
  mk_rq (rq_method rq) (rq_content_length rq) (rq_content_type rq) (rq_data rq)
    (rq_connection rq) (rs_status rq) n (rs_rows rq).

(** Monkey's functions.  [header_prepare] is the result of sending the headers;
    [header_get] finds the value of a request header. *)
Class MkHttp := {
  mk_http_status : mk_http_request -> Z -> mk_http_request;
  header_add : mk_http_request -> list Z -> Z -> Z * mk_http_request;
  header_prepare : mk_http_request -> Z;
  mk_header_get : Z -> mk_http_request -> list Z -> Z -> option mk_ptr_t;
  str_search_n : list Z -> list Z -> Z -> Z;
  mimetype_known : list Z -> bool;
  event_socket_change_mode : Z -> Z -> Z -> Z;
}.

Class MkHttpSpec `{MkHttp} : Prop := {
  http_status_sets rq s : rs_status (mk_http_status rq s) = s;
  header_add_keeps rq row n : rs_status (header_add rq row n).2 = rs_status rq;
  header_add_row rq row n :
    rs_rows (header_add rq row n).2 = rs_rows rq ++ [take (Z.to_nat n) row];
}.

(** What is handed to Monkey for the client. *)
Inductive http_event : Type :=
  | HeadersSent (status content_length : Z)
  | BodySent (bytes : list Z)
  | CorkOff.

Definition with_request {A} (dr : http_dr) (k : mk_http_request -> res A) : res A :=
  match h_request dr with Some rq => k rq | None => Fault NullDeref end.

(** ** The request object *)

Definition is_method (m : mk_method) (dr : http_dr) : res bool :=
  with_request dr (fun rq => Ret (bool_decide (rq_method rq = m))).

Definition duda_request_is_get := is_method METHOD_GET.
Definition duda_request_is_post := is_method METHOD_POST.
Definition duda_request_is_head := is_method METHOD_HEAD.
Definition duda_request_is_put := is_method METHOD_PUT.
Definition duda_request_is_delete := is_method METHOD_DELETE.

Definition duda_request_is_data (dr : http_dr) : res bool :=
  with_request dr (fun rq =>
    if bool_decide (rq_method rq <> METHOD_POST) && bool_decide (rq_method rq <> METHOD_PUT)
    then Ret false
    else if rq_content_length rq <=? 0 then Ret false
    else Ret true).

Definition duda_request_is_content_type (dr : http_dr) (content_type : option (list Z)) : res bool :=
  match content_type with
  | None => Ret false
  | Some ct =>
      with_request dr (fun rq =>
        let len' := strlen ct in
        if len (rq_content_type rq) <=? 0 then Ret false
        else if negb (Z.of_nat len' =? len (rq_content_type rq)) then Ret false
        else if negb (strncmp (data (rq_content_type rq)) ct len' =? 0) then Ret false
        else Ret true)
  end.

(** The new buffer, NUL terminated, and the value stored in [*len] ([None]: not
    written). *)
Definition duda_request_get_data (alloc_ok : bool) (dr : http_dr) :
    option (list Z) * option Z :=
  match h_has_session dr, h_request dr with
  | true, Some rq =>
      match rq_data rq with
      | Some d =>
          if alloc_ok then (Some (ptr_bytes d ++ [0]), Some (len d)) else (None, None)
      | None => (None, Some 0)
      end
  | _, _ => (None, Some 0)
  end.

Definition duda_request_content_length (dr : http_dr) : Z :=
  match h_has_session dr, h_request dr with
  | true, Some rq => match rq_data rq with Some _ => rq_content_length rq | None => -1 end
  | _, _ => -1
  end.

(** [FIXME: return NULL] and [return 0]: the rest of both bodies is dead code. *)
Definition duda_request_header_get (dr : http_dr) (name : Z) (key : option (list Z)) (len : Z) :
    option (list Z) := None.
Definition duda_request_header_cmp (dr : http_dr) (name : Z) (key : option (list Z)) (len : Z)
    (val : list Z) : Z := 0.

Section objects.
Context `{MkHttp}.

Definition duda_request_header_contains (dr : http_dr) (name : Z) (key : option (list Z))
    (klen : Z) (val : list Z) : Z :=
  match h_has_session dr, h_request dr, key with
  | true, Some rq, Some k =>
      match mk_header_get name rq k klen with
      | Some h => if negb (klen =? len h) then -1 else str_search_n (data h) val klen
      | None => -1
      end
  | _, _, _ => -1
  end.

(** ** The response object *)

Definition duda_response_headers_off (dr : http_dr) : Z * http_dr := (0, set_headers_off dr).

Definition duda_response_send_headers (dr : http_dr) : res (Z * http_dr * list http_event) :=
  if st_http_headers_off dr then Ret (0, set_headers_sent dr, [])
  else if st_http_headers_sent dr then Ret (-1, dr, [])
  else if 0 <? st_body_writes dr then Ret (-1, dr, [])
  else with_request dr (fun rq =>
    let rq := if st_http_content_length dr =? -2 then rq
              else if 0 <=? st_http_content_length dr
              then set_rs_content_length rq (st_http_content_length dr) else rq in
    let dr := set_rq dr rq in
    if rs_status rq <=? 0 then Fault AbortCall
    else if negb (header_prepare rq =? 0) then Ret (-1, dr, [])
    else Ret (0, set_headers_sent dr, [HeadersSent (rs_status rq) (rs_content_length rq)])).

Definition duda_response_http_status (dr : http_dr) (status : Z) : res (Z * http_dr) :=
  with_request dr (fun rq => Ret (0, set_rq dr (mk_http_status rq status))).

Definition duda_response_http_header_n (dr : http_dr) (row : list Z) (n : Z) : res (Z * http_dr) :=
  with_request dr (fun rq => let '(r, rq') := header_add rq row n in Ret (r, set_rq dr rq')).

Definition duda_response_http_header (dr : http_dr) (row : list Z) : res (Z * http_dr) :=
  duda_response_http_header_n dr row (Z.of_nat (strlen row)).

Definition duda_response_http_content_length (dr : http_dr) (length : Z) : Z * http_dr :=
  (0, set_st_content_length dr length).

Definition duda_response_http_content_type (dr : http_dr) (extension : list Z) : Z * http_dr :=
  if mimetype_known extension then (0, dr) else (-1, dr).

(** [_print]: the bytes are handed over at once. *)
Definition print_raw (dr : http_dr) (raw : list Z) (n : Z) : Z * list http_event :=
  (0, [BodySent (take (Z.to_nat n) raw)]).

Definition duda_response_print (dr : http_dr) (raw : list Z) (n : Z) : Z * list http_event :=
  print_raw dr raw n.

(** The [while (1)] of [duda_response_printf]: [n] is what vsnprintf(3) returns
    for the arguments, [realloc_ok] whether a block of a size can be had.  [Some
    size] is the size at which the text fits, [None] the error return. *)
Fixpoint printf_loop (realloc_ok : Z -> bool) (fuel : nat) (size n : Z) : option (option Z) :=
  match fuel with
  | O => None
  | S fuel' =>
      if (-1 <? n) && (n <? size) then Some (Some size)
      else
        let size := swrap 32 (size * 2) in
        if realloc_ok size then printf_loop realloc_ok fuel' size n else Some None
  end.

(** [None] when the loop does not end within [fuel] turns. *)
Definition duda_response_printf (alloc_ok : bool) (realloc_ok : Z -> bool) (fuel : nat)
    (dr : http_dr) (text : list Z) (n : Z) : option (Z * list http_event) :=
  if negb alloc_ok then Some (-1, [])
  else match printf_loop realloc_ok fuel 128 n with
       | None => None
       | Some None => Some (-1, [])
       | Some (Some _) => Some (print_raw dr text n)
       end.

Definition duda_response_sendfile_range (info : option file_info) (fd : Z) (dr : http_dr)
    (offset count : Z) : Z * http_dr :=
  match duda_sendfile_new info fd offset count with
  | None => (-1, dr)
  | Some sf =>
      (0, set_queue_out dr (duda_queue_add (duda_queue_item_new (QTYPE_SENDFILE sf)) (h_queue_out dr)))
  end.

Definition duda_response_sendfile (info : option file_info) (fd : Z) (dr : http_dr) : Z * http_dr :=
  duda_response_sendfile_range info fd dr 0 0.

Definition DUDA_EVENT_WAKEUP : Z := -1.

Definition duda_response_wait (EVENT_SLEEP : Z) (dr : http_dr) : Z :=
  event_socket_change_mode (h_socket dr) EVENT_SLEEP (-1).

Definition duda_response_continue (dr : http_dr) : Z :=
  event_socket_change_mode (h_socket dr) DUDA_EVENT_WAKEUP (-1).

Definition duda_response_end (dr : http_dr) (end_cb : option Z) :
    res (Z * http_dr * list http_event) :=
  with_request dr (fun rq =>
    if (rs_status rq =? 0) && negb (st_http_headers_off dr) then Fault AbortCall
    else
      '(ret, dr, ev) ← duda_response_send_headers (set_end_callback dr end_cb);
      if ret =? -1 then Ret (-1, dr, ev) else Ret (0, dr, ev ++ [CorkOff])).

Definition duda_response_finalize (dr : http_dr) (end_cb : option Z) : Z := 0.

Definition duda_response_flush (o : socket_result) (a : Z) (dr : http_dr) (events : option (list Z)) :
    res (Z * http_dr * option (list Z)) :=
  '(r, q, ev) ← duda_queue_flush o a (h_queue_out dr) events;
  Ret (r, set_queue_out dr q, ev).

(** ** A response as a sequence of calls *)

Inductive response_op : Type :=
  | OpHeadersOff
  | OpSendHeaders
  | OpStatus (status : Z)
  | OpHeader (row : list Z)
  | OpContentLength (length : Z)
  | OpPrint (raw : list Z) (n : Z)
  | OpSendfile (info : option file_info) (fd offset count : Z)
  | OpEnd (cb : option Z).

(** Return value, new context and what reached Monkey. *)
Definition response_step (op : response_op) (dr : http_dr) : res (Z * http_dr * list http_event) :=
  match op with
  | OpHeadersOff => let '(r, dr) := duda_response_headers_off dr in Ret (r, dr, [])
  | OpSendHeaders => duda_response_send_headers dr
  | OpStatus s => '(r, dr) ← duda_response_http_status dr s; Ret (r, dr, [])
  | OpHeader row => '(r, dr) ← duda_response_http_header dr row; Ret (r, dr, [])
  | OpContentLength n => let '(r, dr) := duda_response_http_content_length dr n in Ret (r, dr, [])
  | OpPrint raw n => let '(r, ev) := duda_response_print dr raw n in Ret (r, dr, ev)
  | OpSendfile info fd off c =>
      let '(r, dr) := duda_response_sendfile_range info fd dr off c in Ret (r, dr, [])
  | OpEnd cb => duda_response_end dr cb
  end.

Inductive response_run : http_dr -> list response_op -> list http_event -> http_dr -> Prop :=
  | run_nil dr : response_run dr [] [] dr
  | run_cons dr op r dr1 ev ops evs dr2 :
      response_step op dr = Ret (r, dr1, ev) ->
      response_run dr1 ops evs dr2 ->
      response_run dr (op :: ops) (ev ++ evs) dr2.
End objects.

Definition is_headers (e : http_event) : bool :=
  match e with HeadersSent _ _ => true | _ => false end.
Definition headers_of (evs : list http_event) : list http_event := List.filter is_headers evs.

(** ** Lemmas *)

Section response.
Context `{HM : MkHttpSpec}.

Lemma send_headers_cases dr r dr1 ev :
  duda_response_send_headers dr = Ret (r, dr1, ev) ->
  (headers_of ev = [] /\ (st_http_headers_sent dr = true -> st_http_headers_sent dr1 = true)) \/
  (st_http_headers_sent dr = false /\ st_http_headers_sent dr1 = true /\
   exists s n, ev = [HeadersSent s n] /\ 0 < s).
Proof.
  unfold duda_response_send_headers, with_request.
  destruct (st_http_headers_off dr). { intros [= <- <- <-]. by left. }
  destruct (st_http_headers_sent dr) eqn:Es. { intros [= <- <- <-]. by left. }
  destruct (0 <? st_body_writes dr). { intros [= <- <- <-]. by left. }
  destruct (h_request dr) as [rq|]; [|done].
  set (rq' := if st_http_content_length dr =? -2 then _ else _).
  destruct (Z.leb_spec (rs_status rq') 0); [done|].
  destruct (header_prepare rq' =? 0); cbn [negb]; intros [= <- <- <-]; [|by left]. right. eauto 10.
Qed.

Lemma response_step_headers op dr r dr1 ev :
  response_step op dr = Ret (r, dr1, ev) ->
  (headers_of ev = [] /\ (st_http_headers_sent dr = true -> st_http_headers_sent dr1 = true)) \/
  (st_http_headers_sent dr = false /\ st_http_headers_sent dr1 = true /\
   exists s n, headers_of ev = [HeadersSent s n] /\ 0 < s).
Proof.
  destruct op; cbn [response_step].
  - intros [= <- <- <-]. by left.
  - intros Hs. destruct (send_headers_cases _ _ _ _ Hs) as [?|(? & ? & s & n & -> & ?)]; [by left|].
    right. eauto 10.
  - unfold duda_response_http_status, with_request. destruct (h_request dr); [|done].
    intros [= <- <- <-]. by left.
  - unfold duda_response_http_header, duda_response_http_header_n, with_request.
    destruct (h_request dr) as [rq|]; [|done]. cbn. destruct (header_add _ _ _).
    intros [= <- <- <-]. by left.
  - intros [= <- <- <-]. by left.
  - intros [= <- <- <-]. by left.
  - unfold duda_response_sendfile_range. destruct (duda_sendfile_new _ _ _ _);
      intros [= <- <- <-]; by left.
  - unfold duda_response_end, with_request. destruct (h_request dr) as [rq|]; [|done].
    destruct (_ && _); [done|].
    destruct (duda_response_send_headers _) as [[[ret dr2] ev2]|] eqn:Hs; [|done]. cbn.
    destruct (send_headers_cases _ _ _ _ Hs) as [[He Hk]|(Hf & Ht & s & n & -> & Hpos)].
    + destruct (ret =? -1); intros [= <- <- <-]; left; [done|].
      unfold headers_of in *. rewrite List.filter_app, He. done.
    + destruct (ret =? -1); intros [= <- <- <-]; right; split_and!; try done; eauto 10.
Qed.

Lemma printf_loop_fits realloc_ok n : 0 <= n -> forall k fuel size,
  (forall s, realloc_ok s = true) -> (k < fuel)%nat -> 0 < size -> n < size * 2 ^ Z.of_nat k ->
  size * 2 ^ Z.of_nat k < 2 ^ 31 ->
  exists s, printf_loop realloc_ok fuel size n = Some (Some s) /\ n < s.
Proof.
  intros Hn. induction k as [|k IH]; intros fuel size Hr Hf Hs Hlt Hint; (destruct fuel; [lia|]);
    cbn [printf_loop].
  - rewrite Z.mul_1_r in Hlt. dbool. eauto.
  - destruct (Z.ltb_spec n size). { dbool. eauto. }
    rewrite andb_false_r, Hr. rewrite Nat2Z.inj_succ, Z.pow_succ_r in Hlt, Hint by lia.
    assert (1 <= 2 ^ Z.of_nat k) by lia.
    rewrite swrap_small by nia. apply IH; [done|lia|lia|nia|nia].
Qed.
End response.

(** A reference instance of Monkey's functions. *)
Module RefHttp.
Definition ops : MkHttp := {|
  mk_http_status rq s := mk_rq (rq_method rq) (rq_content_length rq) (rq_content_type rq)
    (rq_data rq) (rq_connection rq) s (rs_content_length rq) (rs_rows rq);
  header_add rq row n := (0, mk_rq (rq_method rq) (rq_content_length rq) (rq_content_type rq)
    (rq_data rq) (rq_connection rq) (rs_status rq) (rs_content_length rq)
    (rs_rows rq ++ [take (Z.to_nat n) row]));
  header_prepare rq := 0;
  mk_header_get _ _ _ _ := None;
  str_search_n s w n := if decide (take (Z.to_nat n) s = w) then 0 else -1;
  mimetype_known _ := true;
  event_socket_change_mode _ _ _ := 0 |}.

Lemma http_spec : @MkHttpSpec ops.
Proof. by split. Qed.

Definition get_request : mk_http_request :=
  mk_rq METHOD_GET 0 (mk_ptr (cs "text/html; x") 9) None None 0 (-1) [].
Definition new_dr : http_dr :=
  mk_http_dr 4 true (Some get_request) (-2) false false 0 None [].
End RefHttp.

(** ** Properties *)

(** C37. Whatever a service does with the response object, the headers are sent at
    most once per request, never after they were sent before, and never with an
    unset status. *)
Theorem headers_sent_once `{HM : MkHttpSpec} dr ops evs dr' :
  response_run dr ops evs dr' ->
  (length (headers_of evs) <= 1)%nat /\
  (st_http_headers_sent dr = true -> headers_of evs = []) /\
  (forall s n, HeadersSent s n ∈ evs -> 0 < s).
Proof.
  induction 1 as [|dr op r dr1 ev ops evs dr2 Hs _ (IH1 & IH2 & IH3)].
  { split_and!; [simpl; lia|done|]. by intros s n ?%not_elem_of_nil. }
  assert (Hin : forall s n, HeadersSent s n ∈ ev -> HeadersSent s n ∈ headers_of ev).
  { intros s n Hi. apply list_elem_of_In, List.filter_In. split; [by apply list_elem_of_In|done]. }
  unfold headers_of in *. rewrite List.filter_app, length_app.
  destruct (response_step_headers op dr r dr1 ev Hs) as [[He Hk]|(Hf & Ht & s & n & He & Hpos)];
    unfold headers_of in He; rewrite He in *.
  - split_and!; [done|intros Hsent; by rewrite IH2 by auto|].
    intros s n [Hi|Hi]%elem_of_app; [by apply Hin, not_elem_of_nil in Hi|by eapply IH3].
  - rewrite IH2 by done. split_and!; [simpl; lia|congruence|].
    intros s' n' [Hi|Hi]%elem_of_app; [|by eapply IH3].
    apply Hin, list_elem_of_singleton in Hi. by injection Hi as -> ->.
Qed.

Lemma headers_sent_once_witness :
  exists evs dr', @response_run RefHttp.ops RefHttp.new_dr
    [OpStatus 200; OpContentLength 5; OpPrint (cs "hello") 5; OpEnd None; OpEnd None; OpSendHeaders]
    evs dr' /\ headers_of evs = [HeadersSent 200 5] /\ (length (headers_of evs) <= 1)%nat.
Proof.
  assert (Hr : exists evs dr', @response_run RefHttp.ops RefHttp.new_dr
    [OpStatus 200; OpContentLength 5; OpPrint (cs "hello") 5; OpEnd None; OpEnd None; OpSendHeaders]
    evs dr' /\ headers_of evs = [HeadersSent 200 5]).
  { do 2 eexists. split; [|shelve].
    repeat (eapply run_cons; [reflexivity|]). apply run_nil. Unshelve. reflexivity. }
  destruct Hr as (evs & dr' & Hr & He). exists evs, dr'. split; [exact Hr|]. split; [exact He|].
  apply (@headers_sent_once _ RefHttp.http_spec _ _ _ _ Hr).
Defined.

(** Ending a response on a fresh context whose status was set sends the
    headers with that status and the content length the service gave, and uncorks
    the socket; ending without a status aborts the process; with headers turned off
    nothing but the uncorking happens; a second end changes nothing and returns
    -1. *)
Theorem response_end_outcomes `{HM : MkHttpSpec} dr rq cb :
  h_request dr = Some rq -> st_http_headers_sent dr = false -> st_body_writes dr = 0 ->
  0 <= rs_status rq ->
  (forall rq', header_prepare rq' = 0) ->
  let n := if 0 <=? st_http_content_length dr then st_http_content_length dr
           else rs_content_length rq in
  if st_http_headers_off dr then
    exists dr', duda_response_end dr cb = Ret (0, dr', [CorkOff]) /\ h_end_callback dr' = cb
  else if rs_status rq =? 0 then duda_response_end dr cb = Fault AbortCall
  else exists dr', duda_response_end dr cb = Ret (0, dr', [HeadersSent (rs_status rq) n; CorkOff]) /\
    h_end_callback dr' = cb /\
    (forall cb', exists dr'', duda_response_end dr' cb' = Ret (-1, dr'', [])).
Proof.
  intros Hrq Hsent Hw Hst Hprep n. unfold duda_response_end, duda_response_send_headers, with_request.
  cbn. rewrite Hrq, Hsent, Hw. destruct (st_http_headers_off dr) eqn:Eoff; cbn.
  { rewrite andb_false_r. eexists. by split. }
  rewrite andb_true_r. destruct (Z.eqb_spec (rs_status rq) 0) as [|Hnz]; [done|]. cbn.
  set (rq' := if st_http_content_length dr =? -2 then _ else _).
  assert (Hs : rs_status rq' = rs_status rq /\ rs_content_length rq' = n).
  { unfold rq', n. dbool; try done; cbn; dbool; done. }
  destruct Hs as [-> ->]. destruct (Z.leb_spec (rs_status rq) 0); [lia|]. rewrite Hprep. cbn.
  eexists. split_and!; [done|done|]. intros cb'. cbn. rewrite Eoff, andb_true_r.
  assert (rs_status rq' = rs_status rq) as -> by (unfold rq'; dbool; done).
  destruct (Z.eqb_spec (rs_status rq) 0); [lia|]. cbn. eauto.
Qed.

Lemma response_end_outcomes_witness :
  let rq := @mk_http_status RefHttp.ops RefHttp.get_request 404 in
  exists dr', @duda_response_end RefHttp.ops (set_rq RefHttp.new_dr rq) (Some 1)
    = Ret (0, dr', [HeadersSent 404 (-1); CorkOff]) /\ h_end_callback dr' = Some 1 /\
    (forall cb', exists dr'', @duda_response_end RefHttp.ops dr' cb' = Ret (-1, dr'', [])).
Proof.
  apply (@response_end_outcomes _ RefHttp.http_spec
    (set_rq RefHttp.new_dr (@mk_http_status RefHttp.ops RefHttp.get_request 404))
    (@mk_http_status RefHttp.ops RefHttp.get_request 404) (Some 1));
    [reflexivity|reflexivity|reflexivity|vm_compute; congruence|reflexivity].
Defined.

(** [response->printf] of a text of less than 1 GiB ends, after growing its
    buffer a bounded number of times, and sends exactly the text. *)
Theorem printf_terminates dr text n fuel :
  0 <= n < 2 ^ 30 -> (24 <= fuel)%nat ->
  duda_response_printf true (fun _ => true) fuel dr text n
    = Some (0, [BodySent (take (Z.to_nat n) text)]).
Proof.
  intros Hn Hf. unfold duda_response_printf. cbn [negb].
  destruct (printf_loop_fits (fun _ => true) n ltac:(lia) 23 fuel 128) as (s & -> & _);
    [done|lia|lia|change (Z.of_nat 23) with 23; lia|change (Z.of_nat 23) with 23; lia|]. done.
Qed.

Lemma printf_terminates_witness :
  duda_response_printf true (fun _ => true) 24 RefHttp.new_dr (replicate 5000 97) 5000
    = Some (0, [BodySent (take 5000 (replicate 5000 97))]).
Proof.
  apply (printf_terminates RefHttp.new_dr (replicate 5000 97) 5000 24);
    [split; [vm_compute; congruence|reflexivity]|apply Nat.leb_le; reflexivity].
Defined.

(** When vsnprintf(3) fails the loop never ends while memory can be had. *)
Lemma printf_error_diverges dr text fuel :
  duda_response_printf true (fun _ => true) fuel dr text (-1) = None.
Proof.
  unfold duda_response_printf. cbn [negb].
  assert (forall size, printf_loop (fun _ => true) fuel size (-1) = None) as ->; [|done].
  induction fuel as [|fuel IH]; intros size; cbn; [done|]. apply IH.
Qed.

(** [request->is_content_type] holds exactly for the whole value of the
    header, and [request->get_data] returns a NUL-terminated copy of the body with
    its length. *)
Theorem request_reads dr rq ct d :
  h_request dr = Some rq -> h_has_session dr = true ->
  ptr_ok (rq_content_type rq) -> cstr ct -> rq_data rq = Some d ->
  duda_request_is_content_type dr (Some ct) =
    Ret (bool_decide (ptr_bytes (rq_content_type rq) = ct /\ ct <> [])) /\
  duda_request_get_data true dr = (Some (ptr_bytes d ++ [0]), Some (len d)) /\
  duda_request_content_length dr = rq_content_length rq.
Proof.
  intros Hrq Hs [Hc Hl] Hct Hd. split_and!.
  - unfold duda_request_is_content_type, with_request. rewrite Hrq.
    rewrite strlen_cstr by done. set (p := rq_content_type rq) in *.
    assert (Hlen : length (ptr_bytes p) = Z.to_nat (len p))
      by (unfold ptr_bytes; rewrite length_take; lia).
    destruct (Z.leb_spec (len p) 0).
    { rewrite bool_decide_false; [done|]. intros [<- Hne]. apply Hne, nil_length_inv. lia. }
    destruct (Z.eqb_spec (Z.of_nat (length ct)) (len p)) as [He|Hne]; cbn [negb].
    2:{ rewrite bool_decide_false; [done|]. intros [<- _]. lia. }
    pose proof (strncmp_take (data p) ct (length ct) Hc Hct) as Ht. rewrite (take_ge ct) in Ht by lia.
    assert (Hb : ptr_bytes p = take (length ct) (data p)) by (unfold ptr_bytes; f_equal; lia).
    destruct (Z.eqb_spec (strncmp (data p) ct (length ct)) 0) as [E|E]; cbn [negb].
    + rewrite bool_decide_true; [done|]. split; [rewrite Hb; by apply Ht|].
      intros ->. simpl in He. lia.
    + rewrite bool_decide_false; [done|]. intros [Heq _]. apply E, Ht. by rewrite <- Hb.
  - unfold duda_request_get_data. by rewrite Hs, Hrq, Hd.
  - unfold duda_request_content_length. by rewrite Hs, Hrq, Hd.
Qed.

Lemma request_reads_witness :
  let rq := mk_rq METHOD_POST 2 (mk_ptr (cs "text/html; x") 9) (Some (mk_ptr (cs "hi!") 2)) None 0 0 [] in
  let dr := set_rq RefHttp.new_dr rq in
  duda_request_is_content_type dr (Some (cs "text/html")) = Ret true /\
  duda_request_get_data true dr = (Some (cs "hi" ++ [0]), Some 2) /\
  duda_request_content_length dr = 2.
Proof.
  apply (request_reads
    (set_rq RefHttp.new_dr (mk_rq METHOD_POST 2 (mk_ptr (cs "text/html; x") 9)
       (Some (mk_ptr (cs "hi!") 2)) None 0 0 []))
    (mk_rq METHOD_POST 2 (mk_ptr (cs "text/html; x") 9) (Some (mk_ptr (cs "hi!") 2)) None 0 0 [])
    (cs "text/html") (mk_ptr (cs "hi!") 2));
    try reflexivity; apply (bool_decide_unpack _); vm_compute; exact I.
Defined.
