(* ===== verification/Response.v ===== *)
(** * A whole response: calls of the service and flushes of the queue

    Composes the response object (Http.v), the files (BodyBuffer.v) and the output queue (Queue.v): a service calls
    the response object while write events flush the queue of the request in between. *)

From S2P Require Import Prelude CString BodyBuffer Queue Http.

(** What happens to a response: a call of the service, or a flush with the answer of the socket. *)
Inductive response_action : Type :=
  | Call (op : response_op)
  | Flush (o : socket_result).

(** What the service asked for: the bytes it printed, and of the files it sent the ranges that were accepted. *)
Definition printed_op (op : response_op) : list Z :=
  match op with OpPrint raw n => take (Z.to_nat n) raw | _ => [] end.

Definition body_of (evs : list http_event) : list Z :=
  concat ((fun e => match e with BodySent b => b | _ => [] end) <$> evs).

Section response.
Context `{HM : MkHttpSpec}.
(** The content of each file by its descriptor. *)
Variable file : Z -> list Z.

Definition range_op (op : response_op) : list (list Z) :=
  match op with
  | OpSendfile (Some info) fd offset count =>
      if (0 <=? offset) && (offset + count <=? fi_size info) && read_access info && (0 <=? fd)
      then [take (Z.to_nat (if count =? 0 then fi_size info - offset else count)) (drop (Z.to_nat offset) (file fd))]
      else []
  | _ => []
  end.

Definition calls (acts : list response_action) : list response_op :=
  omap (fun a => match a with Call op => Some op | Flush _ => None end) acts.
Definition printed (acts : list response_action) : list Z := concat (printed_op <$> calls acts).
(** One list of bytes per file that was accepted. *)
Definition ranges (acts : list response_action) : list (list Z) := concat (range_op <$> calls acts).

(** The transfers that [socket_send_file] fails with -1. *)
Definition failures (acts : list response_action) : nat :=
  length (List.filter (fun a => match a with Flush o => so_bytes o =? -1 | Call _ => false end) acts).

(** The bytes of the files a flush puts on the socket. *)
Definition sent_by (o : socket_result) (q : list duda_queue_item) : list Z :=
  match first_active q with Some it => take (accepted o) (item_bytes file it) | None => [] end.

(** The run of a response for the request at address [a]: what was handed to Monkey, the bytes of files that were sent, the context and
    the write events of the thread. *)
Fixpoint serve (a : Z) (acts : list response_action) (dr : http_dr) (events : option (list Z)) :
    res (list http_event * list Z * http_dr * option (list Z)) :=
  match acts with
  | [] => Ret ([], [], dr, events)
  | Call op :: acts =>
      '(_, dr, ev) ← response_step op dr;
      '(evs, out, dr, events) ← serve a acts dr events;
      Ret (ev ++ evs, out, dr, events)
  | Flush o :: acts =>
      let sent := sent_by o (h_queue_out dr) in
      '(_, dr, events) ← duda_response_flush o a dr events;
      '(evs, out, dr, events) ← serve a acts dr events;
      Ret (evs, sent ++ out, dr, events)
  end.

(** Statuses are positive; a file that is opened has the size it was reported with, which an [int] can hold. *)
Definition op_fine (op : response_op) : Prop :=
  match op with
  | OpStatus s => 0 < s
  | OpSendfile (Some info) fd offset count =>
      fi_size info = Z.of_nat (length (file fd)) /\ fi_size info < 2 ^ 31 /\ offset < 2 ^ 32 /\ 0 <= count < 2 ^ 64
  | _ => True
  end.

(** The answers of [socket_send_file] for a file: an error, or a number of bytes by which it has moved the offset. *)
Definition file_answer (it : duda_queue_item) (o : socket_result) : Prop :=
  match item_data it with
  | QTYPE_SENDFILE sf => so_bytes o = -1 \/ (0 <= so_bytes o <= pending_bytes sf /\ so_offset o = sf_offset sf + so_bytes o)
  | QTYPE_BODY_BUFFER _ => False
  end.

(** The operations are fine, and the answer of the socket is one of these, at every flush of the run. *)
Fixpoint answers_fine (a : Z) (acts : list response_action) (dr : http_dr) (events : option (list Z)) : Prop :=
  match acts with
  | [] => True
  | Call op :: acts =>
      op_fine op /\ match response_step op dr with Ret (_, dr, _) => answers_fine a acts dr events | Fault _ => True end
  | Flush o :: acts =>
      match first_active (h_queue_out dr) with Some it => file_answer it o | None => True end /\
      match duda_response_flush o a dr events with Ret (_, dr, events) => answers_fine a acts dr events | Fault _ => True end
  end.

(** The request has a status. *)
Definition has_status (dr : http_dr) : Prop := exists rq, h_request dr = Some rq /\ 0 < rs_status rq.

(** The items an operation queues. *)
Definition queued_op (op : response_op) : list duda_queue_item :=
  match op with
  | OpSendfile info fd offset count =>
      match duda_sendfile_new info fd offset count with Some sf => [duda_queue_item_new (QTYPE_SENDFILE sf)] | None => [] end
  | _ => []
  end.

Lemma queued_range op : op_fine op -> queue_ok file (queued_op op) /\ item_bytes file <$> queued_op op = range_op op.
Proof.
  destruct op as [| | | | | |[info|] fd offset count|]; cbn [queued_op range_op op_fine]; try (intros; by split; [constructor|]).
  2:{ intros _. unfold duda_sendfile_new. destruct (offset <? 0); (split; [constructor|done]). }
  intros (Hf & Hs & Ho & Hc). rewrite sendfile_new_range by lia.
  destruct (_ && _) eqn:E; [|split; [constructor|done]].
  apply andb_true_iff in E as [[[E1 E2]%andb_true_iff _]%andb_true_iff _]. apply Z.leb_le in E1, E2.
  assert (Hp : 0 <= (if count =? 0 then fi_size info - offset else count) <= fi_size info - offset) by (destruct (Z.eqb_spec count 0); lia).
  split; [|done].
  constructor; [|constructor]. cbn. split; cbn; lia.
Qed.

Lemma send_headers_total dr : has_status dr ->
  exists r dr' ev, duda_response_send_headers dr = Ret (r, dr', ev) /\ has_status dr' /\ body_of ev = [] /\ h_queue_out dr' = h_queue_out dr.
Proof.
  intros (rq & Hr & Hs). unfold duda_response_send_headers, with_request. rewrite Hr.
  repeat case_match; try (do 3 eexists; split_and!; [done|by exists rq|done|done]).
  all: match goal with H : (?s <=? 0) = true |- _ => apply Z.leb_le in H; unfold set_rs_content_length in H; repeat case_match; cbn in H; lia
    | _ => do 3 eexists; split_and!; [done| |done|done]; eexists; split; [done|]; repeat case_match; done end.
Qed.

(** A call on a request that has a status returns, keeps a status, hands over what it printed and queues its file. *)
Lemma response_step_total op dr : op_fine op -> has_status dr ->
  exists r dr' ev, response_step op dr = Ret (r, dr', ev) /\ has_status dr' /\ body_of ev = printed_op op /\
    h_queue_out dr' = h_queue_out dr ++ queued_op op.
Proof.
  intros Ho Hs. pose proof Hs as (rq & Hr & Hp).
  destruct op as [| |s|row|n|raw n|info fd offset count|cb]; cbn [response_step printed_op queued_op]; rewrite ?app_nil_r.
  - do 3 eexists. split_and!; [done|by exists rq|done|done].
  - by apply send_headers_total.
  - unfold duda_response_http_status, with_request. rewrite Hr. do 3 eexists. split_and!; [done| |done|done].
    eexists. split; [done|]. by rewrite http_status_sets.
  - unfold duda_response_http_header, duda_response_http_header_n, with_request. rewrite Hr.
    destruct (header_add rq row _) as [r rq'] eqn:E. do 3 eexists. split_and!; [done| |done|done].
    eexists. split; [done|]. pose proof (header_add_keeps rq row (Z.of_nat (strlen row))) as Hk. rewrite E in Hk. cbn in Hk. lia.
  - do 3 eexists. split_and!; [done|by exists rq|done|done].
  - do 3 eexists. split_and!; [done|by exists rq| |done]. unfold body_of. cbn. by rewrite app_nil_r.
  - unfold duda_response_sendfile_range. destruct (duda_sendfile_new info fd offset count); do 3 eexists; (split_and!; [done|by exists rq|done|]); cbn; by rewrite ?app_nil_r.
  - unfold duda_response_end, with_request. rewrite Hr, (proj2 (Z.eqb_neq (rs_status rq) 0)) by lia. cbn [andb].
    destruct (send_headers_total (set_end_callback dr cb)) as (r & dr' & ev & -> & Hs' & Hb & Hq); [by exists rq|]. cbn [mbind res_bind].
    destruct (r =? -1); do 3 eexists; (split_and!; [done|done| |done]); unfold body_of in *; rewrite ?fmap_app, ?concat_app, Hb; done.
Qed.

Lemma flush_idle o a q events : first_active q = None -> duda_queue_flush o a q events = Ret (0, q, events).
Proof.
  intros Hf. unfold duda_queue_flush. assert (flush_first o q = Ret None) as ->; [|done].
  induction q as [|it q IH]; [done|]. unfold first_active in *. rewrite filter_cons in Hf. cbn [flush_first].
  destruct (item_status it); [by rewrite decide_True in Hf|]. rewrite decide_False in Hf by done. by rewrite IH.
Qed.

(** The registration for write events returns. *)
Lemma flush_events o a q q' evs : flush_first o q = Ret (Some q') -> NoDup evs ->
  exists r evs', duda_queue_flush o a q (Some evs) = Ret (r, q', Some evs') /\ NoDup evs'.
Proof.
  intros E Hn. unfold duda_queue_flush. rewrite E. cbn [mbind res_bind duda_queue_event_is_registered_write].
  destruct (existsb _ evs) eqn:Ex; rewrite ?andb_false_r, ?andb_true_r.
  - apply existsb_elem in Ex. destruct (_ =? 0); [|by do 2 eexists].
    destruct (remove_first_ok a evs Hn Ex) as (l' & El & Hl' & _). cbn. rewrite El. by do 2 eexists.
  - destruct (0 <? _); [|by do 2 eexists]. do 2 eexists. split; [done|]. apply NoDup_app. split_and!; [done| |by apply NoDup_singleton].
    intros x Hx ->%list_elem_of_singleton. apply existsb_elem in Hx. congruence.
Qed.

(** One file: the bytes that are sent are taken off its front, or, after an error, it is dropped. *)
Lemma flush_file it o : item_ok file it -> item_status it = QSTATUS_ACTIVE -> file_answer it o ->
  exists it', flush_item o it = Ret it' /\ item_ok file it' /\
    (if so_bytes o =? -1 then item_bytes file it' = [] else item_bytes file it = take (accepted o) (item_bytes file it) ++ item_bytes file it').
Proof.
  intros Hi Ha Ho. unfold file_answer in Ho. destruct (item_data it) as [bb|sf] eqn:Ed; [done|]. destruct (Z.eqb_spec (so_bytes o) (-1)) as [E|E].
  - unfold flush_item. rewrite Ed. unfold duda_sendfile_flush. rewrite E. cbn. eexists. split; [done|]. by split.
  - destruct Ho as [|Ho]; [done|]. assert (Hacc : accepts it o) by (unfold accepts; by rewrite Ed).
    destruct (flush_item_ok file it o Hi Ha Hacc) as (it' & -> & Hi' & Eb). exists it'. split_and!; [done|done|]. by rewrite Eb, take_drop.
Qed.

(** A flush changes the first active item. *)
Lemma flush_first_split o q it : first_active q = Some it -> exists pre post, q = pre ++ it :: post /\ item_status it = QSTATUS_ACTIVE /\
  Forall (fun x => item_status x = QSTATUS_INACTIVE) pre /\ forall it', flush_item o it = Ret it' -> flush_first o q = Ret (Some (pre ++ it' :: post)).
Proof.
  induction q as [|x q IH]; [done|]. unfold first_active in *. rewrite filter_cons. destruct (item_status x) eqn:E.
  - rewrite decide_True by done. intros [= <-]. exists [], q. split_and!; [done|done|constructor|]. intros it' Ei. cbn. by rewrite E, Ei.
  - rewrite decide_False by done. intros Hx. destruct (IH Hx) as (pre & post & -> & Ha & Hp & Hf). exists (x :: pre), post. split_and!; [done|done|by constructor|].
    intros it' Ei. cbn. by rewrite E, (Hf it' Ei).
Qed.

Lemma inactive_bytes pre : Forall (fun x => item_status x = QSTATUS_INACTIVE) pre -> item_bytes file <$> pre = replicate (length pre) [].
Proof. induction 1 as [|x pre Hx _ IH]; [done|]. cbn. rewrite IH. unfold item_bytes. by rewrite Hx. Qed.

(** ** Ranges that are cut *)

(** What is delivered of each range is a prefix of it, and at most [n] of them are cut. *)
Definition cut (n : nat) (kept all : list (list Z)) : Prop :=
  Forall2 prefix kept all /\ (length (List.filter (fun p => negb (bool_decide (p.1 = p.2))) (zip kept all)) <= n)%nat.

Lemma cut_refl n l : cut n l l.
Proof.
  unfold cut. split; [done|]. induction l as [|x l IH]; cbn; [lia|]. by rewrite bool_decide_true.
Qed.

Lemma cut_none kept all : cut 0 kept all -> kept = all.
Proof.
  intros [Hk Hn]. induction Hk as [|k r kept all Hp _ IH]; [done|]. cbn in Hn. case_bool_decide as E; cbn in *; [|lia]. subst. f_equal. by apply IH.
Qed.

Lemma cut_length n kept all : cut n kept all -> (length (concat kept) <= length (concat all))%nat.
Proof. intros [Hk _]. induction Hk as [|k r kept all Hp _ IH]; [done|]. cbn. rewrite !length_app. apply prefix_length in Hp. lia. Qed.

(** Cutting one more range at its front. *)
Lemma cut_middle n kept pre x y sent (post : list (list Z)) (b : bool) : cut n kept (replicate pre [] ++ y :: post) ->
  (if b then y = [] /\ sent = [] else x = sent ++ y) ->
  exists kept', cut (if b then S n else n) kept' (replicate pre [] ++ x :: post) /\ concat kept' = sent ++ concat kept.
Proof.
  intros [Hp Hn] Hx. apply Forall2_app_inv_r in Hp as (k1 & k2 & H1 & H2 & ->). inversion H2 as [|c ? k3 ? Hc H3]; subst.
  assert (E1 : k1 = replicate pre []).
  { clear -H1. revert k1 H1. induction pre as [|pre IH]; intros k1 H1; cbn in H1; inversion H1 as [|c ? l ? Hc Hl]; subst; [done|]. apply prefix_nil_inv in Hc as ->. cbn. f_equal. by apply IH. }
  subst k1. exists (replicate pre [] ++ (sent ++ c) :: k3). split; [split|].
  - apply Forall2_app; [done|]. constructor; [|done]. destruct b; [destruct Hx as [-> ->]; apply prefix_nil_inv in Hc as ->; apply prefix_nil|subst x; by apply prefix_app].
  - rewrite zip_with_app in Hn |- * by done. rewrite List.filter_app, length_app in Hn |- *. cbn [zip_with List.filter] in *. destruct b.
    + destruct Hx as [-> ->]. apply prefix_nil_inv in Hc as ->. cbn [app fst snd] in *. rewrite (bool_decide_true (@nil Z = [])) in Hn by done. cbn in *. case_bool_decide; cbn; lia.
    + subst x. cbn [fst snd] in *. rewrite (bool_decide_ext (sent ++ c = sent ++ y) (c = y)); [by destruct (bool_decide (c = y))|]. split; [by intros ?%app_inv_head|by intros ->].
  - rewrite !concat_app. cbn [concat]. assert (Hnil : forall m, concat (replicate m (@nil Z)) = []) by (intros m; induction m; done). rewrite Hnil. cbn [app]. by rewrite <- app_assoc.
Qed.

(** The length 0 means that nothing is left. *)
Lemma queue_drained q (out all : list Z) : queue_ok file q -> out ++ queue_bytes file q = all -> Z.of_nat (length all) < 2 ^ 64 ->
  duda_queue_length q = 0 -> out = all.
Proof.
  intros Hq <- Hl H0. rewrite length_app in Hl. rewrite queue_length_bytes with (file := file) in H0 by (done || lia).
  rewrite (nil_length_inv (queue_bytes file q)) by lia. by rewrite app_nil_r.
Qed.

(** The run from a queue that has bytes left. *)
Lemma serve_from a acts : forall dr evs, has_status dr -> queue_ok file (h_queue_out dr) -> NoDup evs -> answers_fine a acts dr (Some evs) ->
  exists sent out dr' evs' kept, serve a acts dr (Some evs) = Ret (sent, out, dr', Some evs') /\ body_of sent = printed acts /\
    cut (failures acts) kept ((item_bytes file <$> h_queue_out dr) ++ ranges acts) /\ out ++ queue_bytes file (h_queue_out dr') = concat kept /\
    queue_ok file (h_queue_out dr').
Proof.
  induction acts as [|[op|o] acts IH]; intros dr evs Hs Hq Hn Ha; cbn [serve answers_fine] in *.
  - do 4 eexists. exists (item_bytes file <$> h_queue_out dr). split_and!; [done|done| |done|done]. unfold ranges. cbn. rewrite app_nil_r. apply cut_refl.
  - destruct Ha as [Ho Ha]. destruct (response_step_total op dr Ho Hs) as (r & dr1 & ev & E & Hs1 & Hb & Hq1). rewrite E in *. cbn [mbind res_bind].
    destruct (queued_range op Ho) as [Hok Hr].
    destruct (IH dr1 evs) as (sent & out & dr' & evs' & kept & -> & H1 & H2 & H3 & H4); [done| |done|done|].
    { rewrite Hq1. by apply Forall_app. }
    do 4 eexists. exists kept. split_and!; [done| | |done|done].
    + unfold body_of, printed, calls in *. cbn [omap list_omap fmap list_fmap concat]. by rewrite fmap_app, concat_app, Hb, H1.
    + rewrite Hq1, fmap_app, Hr, <- app_assoc in H2. exact H2.
  - destruct Ha as [Hacc Ha]. change (ranges (Flush o :: acts)) with (ranges acts). change (printed (Flush o :: acts)) with (printed acts).
    unfold duda_response_flush, sent_by in *. destruct (first_active (h_queue_out dr)) as [it|] eqn:Hf.
    + destruct (flush_first_split o _ it Hf) as (pre & post & Eq & Hact & Hpre & Hff). rewrite Eq in Hq. apply Forall_app in Hq as [Hqp [Hit Hqt]%Forall_cons].
      destruct (flush_file it o Hit Hact Hacc) as (it' & Ei & Hit' & Hb). destruct (flush_events o a _ _ evs (Hff it' Ei) Hn) as (r & evs1 & Efl & Hn1).
      rewrite Efl in *. cbn [mbind res_bind] in *.
      destruct (IH (set_queue_out dr (pre ++ it' :: post)) evs1) as (sent & out & dr' & evs' & kept & -> & H1 & H2 & H3 & H4);
        [by destruct Hs as (rq & ?); exists rq|apply Forall_app; split; [done|by constructor]|done|done|].
      cbn [h_queue_out set_queue_out] in H2. rewrite fmap_app, fmap_cons, inactive_bytes, <- app_assoc in H2 by done. cbn [app] in H2.
      destruct (cut_middle (failures acts) kept (length pre) (item_bytes file it) (item_bytes file it') (take (accepted o) (item_bytes file it))
        ((item_bytes file <$> post) ++ ranges acts) (so_bytes o =? -1) H2) as (kept' & Hk & Ek).
      { destruct (Z.eqb_spec (so_bytes o) (-1)) as [E|E]; [|done]. split; [done|]. unfold accepted. by rewrite E. }
      do 4 eexists. exists kept'. split_and!; [done|done| |by rewrite <- app_assoc, H3, Ek|done].
      rewrite Eq, fmap_app, fmap_cons, inactive_bytes, <- app_assoc by done. unfold failures in *. cbn [List.filter app]. by destruct (so_bytes o =? -1).
    + rewrite flush_idle in * by done. cbn [mbind res_bind] in *.
      destruct (IH (set_queue_out dr (h_queue_out dr)) evs) as (sent & out & dr' & evs' & kept & -> & H1 & H2 & H3 & H4); [by destruct Hs as (rq & ?); exists rq|done|done|done|].
      do 4 eexists. exists kept. split_and!; [done|done| |done|done]. destruct H2 as [Hp Hle]. split; [done|]. cbn [h_queue_out set_queue_out] in Hle. unfold failures in *. cbn [List.filter]. destruct (so_bytes o =? -1); cbn [length]; lia.
Qed.

(** ** Properties *)

(** C18. What a service answers is delivered in order.  For every sequence of calls of the service on a request with a status and nothing queued, with flushes of the
    queue at any point between them, and for every answer of [socket_send_file] to each (a number of bytes, or the error -1), no call faults;
    the bytes handed to Monkey are those printed, in order; and the bytes of files that were sent, followed by
    those still queued, are the ranges of the files that were asked for, in order, each whole or, after an error of the socket, cut at its end: at most as many
    ranges are cut as transfers failed, so that without an error nothing is lost or repeated.  Once the queue
    reports the length 0 all that is kept has been sent.  The files keep the size they are reported with, below 2 GiB. *)
Theorem response_delivered a acts dr evs :
  has_status dr -> h_queue_out dr = [] -> NoDup evs -> answers_fine a acts dr (Some evs) -> Z.of_nat (length (concat (ranges acts))) < 2 ^ 64 ->
  exists sent out dr' evs' kept,
    serve a acts dr (Some evs) = Ret (sent, out, dr', Some evs') /\
    body_of sent = printed acts /\
    cut (failures acts) kept (ranges acts) /\
    out ++ queue_bytes file (h_queue_out dr') = concat kept /\
    (failures acts = 0%nat -> out ++ queue_bytes file (h_queue_out dr') = concat (ranges acts)) /\
    (duda_queue_length (h_queue_out dr') = 0 -> out = concat kept).
Proof.
  intros Hs Hq Hn Ha Hl. destruct (serve_from a acts dr evs Hs) as (sent & out & dr' & evs' & kept & E & Hb & Hc & Ho & Hok); [by rewrite Hq; constructor|done|done|].
  rewrite Hq in Hc. change ((item_bytes file <$> []) ++ ranges acts) with (ranges acts) in Hc. exists sent, out, dr', evs', kept. split_and!; [done|done|done|done| |].
  - intros H0. rewrite H0 in Hc. apply cut_none in Hc as <-. exact Ho.
  - apply queue_drained; [done|done|]. pose proof (cut_length _ _ _ Hc). lia.
Qed.

End response.

(** A page and three ranges of a file, the first sent in two parts, the transfer of the second failing, the third still queued at the end. *)
Definition sample_info : file_info := mk_file_info 10 true.
Definition sample_response : list response_action :=
  [Call (OpStatus 200); Call (OpSendfile (Some sample_info) 5 2 4); Flush (mk_socket_result 3 5); Call (OpPrint (cs "page") 4);
   Call (OpSendfile (Some sample_info) 5 8 0); Flush (mk_socket_result 1 6); Flush (mk_socket_result (-1) 0);
   Call (OpSendfile (Some sample_info) 5 0 2); Call (OpEnd None)].
Definition sample_dr : http_dr :=
  mk_http_dr 4 true (Some (mk_rq METHOD_GET 0 (mk_ptr [] 0) None None 200 (-1) [])) (-2) false false 0 None [].

Lemma response_delivered_witness : exists sent out dr' evs' kept,
  @serve RefHttp.ops sample_file 9 sample_response sample_dr (Some [3]) = Ret (sent, out, dr', Some evs') /\
  body_of sent = cs "page" /\ cut 1 kept [cs "2345"; cs "89"; cs "01"] /\ out ++ queue_bytes sample_file (h_queue_out dr') = concat kept /\
  out = cs "2345" /\ queue_bytes sample_file (h_queue_out dr') = cs "01".
Proof.
  destruct (@response_delivered RefHttp.ops RefHttp.http_spec sample_file 9 sample_response sample_dr [3]) as (sent & out & dr' & evs' & kept & E & Hb & Hc & Ho & _);
    [by eexists|reflexivity|apply (bool_decide_unpack _); vm_compute; exact I| |reflexivity|].
  - repeat (split; [first [exact I|left; reflexivity|right; split; [split; vm_compute; congruence|reflexivity]|repeat split; vm_compute; congruence]|cbn [answers_fine]]). exact I.
  - exists sent, out, dr', evs', kept. split_and!; [exact E|exact Hb|exact Hc|exact Ho|..]; vm_compute in E; injection E as <- <- <- <-; reflexivity.
Defined.

(** What is printed after a file is handed over before the file: the page goes to Monkey at once and the file stays in the queue,
    although both are documented as enqueued. *)
Lemma print_overtakes_file : exists dr' evs',
  @serve RefHttp.ops sample_file 9 [Call (OpSendfile (Some sample_info) 5 2 4); Call (OpPrint (cs "page") 4)] sample_dr (Some [])
    = Ret ([BodySent (cs "page")], [], dr', Some evs') /\
  queue_bytes sample_file (h_queue_out dr') = cs "2345".
Proof. do 2 eexists. split; reflexivity. Qed.

(** An error of the socket while a file is sent: what is left of its range is dropped, and the queue goes on with the next file. *)
Lemma failed_transfer_dropped offset sf : duda_sendfile_flush (-1) offset sf = (0, mk_sf (sf_fd sf) offset 0 (sf_info sf)).
Proof. done. Qed.
