(* ===== verification/Base64.v ===== *)
(** * Base64 (packages/base64/base64.c and its copy in packages/websocket)

    The output buffer has a fixed size computed first; every store is checked
    against it.  [mem_alloc] is Monkey's: [alloc_ok] says whether it succeeds. *)

From S2P Require Import Prelude CString.

Definition base64_table : list Z :=
  cs "ABCDEFGHIJKLMNOPQRSTUVWXYZabcdefghijklmnopqrstuvwxyz0123456789+/".

Definition b64 (i : Z) : Z := default 0 (base64_table !! Z.to_nat i).

(** [*pos++ = c] in a buffer of [size] bytes, [out] being what is written. *)
Definition put (size : Z) (out : list Z) (c : Z) : res (list Z) :=
  if Z.of_nat (length out) <? size then Ret (out ++ [wrap 8 c]) else Fault OutOfBounds.

Definition put2 (size : Z) (out : list Z) (a b : Z) : res (list Z) :=
  out ← put size out a; put size out b.

Definition put4 (size : Z) (out : list Z) (a b c d : Z) : res (list Z) :=
  out ← put2 size out a b; put2 size out c d.

(** The [while] loop; it stops with fewer than three bytes left. *)
Fixpoint encode_loop (olen : Z) (out : list Z) (line_len : Z) (src : list Z) :
    res (list Z * Z * list Z) :=
  match src with
  | i0 :: i1 :: i2 :: src' =>
      out ← put4 olen out
        (b64 (Z.shiftr i0 2))
        (b64 (Z.lor (Z.shiftl (Z.land i0 3) 4) (Z.shiftr i1 4)))
        (b64 (Z.lor (Z.shiftl (Z.land i1 15) 2) (Z.shiftr i2 6)))
        (b64 (Z.land i2 63));
      encode_loop olen out (swrap 32 (line_len + 4)) src'
  | _ => Ret (out, line_len, src)
  end.

Definition encode_tail (olen : Z) (out : list Z) (line_len : Z) (rest : list Z) :
    res (list Z * Z) :=
  match rest with
  | [] => Ret (out, line_len)
  | [i0] =>
      out ← put4 olen out (b64 (Z.shiftr i0 2)) (b64 (Z.shiftl (Z.land i0 3) 4)) (ch "=") (ch "=");
      Ret (out, swrap 32 (line_len + 4))
  | i0 :: i1 :: _ =>
      out ← put4 olen out (b64 (Z.shiftr i0 2))
        (b64 (Z.lor (Z.shiftl (Z.land i0 3) 4) (Z.shiftr i1 4)))
        (b64 (Z.shiftl (Z.land i1 15) 2)) (ch "=");
      Ret (out, swrap 32 (line_len + 4))
  end.

Definition encode_olen (len : Z) : Z :=
  let olen := wrap 64 (wrap 64 (len * 4) / 3 + 4) in
  let olen := wrap 64 (olen + olen / 72) in
  wrap 64 (olen + 1).

(** The buffer up to the final NUL, and [*out_len]; [None] for [NULL].
    [has_out_len] tells whether the caller passes the [out_len] pointer. *)
Definition base64_encode (alloc_ok has_out_len : bool) (src : list Z) :
    res (option (list Z * Z)) :=
  let olen := encode_olen (Z.of_nat (length src)) in
  if negb alloc_ok then Ret None
  else
    '(out, line_len, rest) ← encode_loop olen [] 0 src;
    '(out, line_len) ← encode_tail olen out line_len rest;
    out ← (if line_len =? 0 then Ret out else put olen out 10);
    let pos := Z.of_nat (length out) in
    out ← put olen out 0;
    if negb has_out_len then Fault NullDeref
    else
      let last := wrap 64 (pos - 1) in
      if olen <=? last then Fault OutOfBounds
      else Ret (Some (<[Z.to_nat last := 0]> out, pos)).

(** [dtable]: [memset], the loop over the table, and ['=']. *)
Definition dtable : list Z :=
  <[Z.to_nat (ch "=") := 0]>
    (foldl (fun t i => <[Z.to_nat (b64 i) := i]> t) (replicate 256 128) (Z.of_nat <$> seq 0 64)).

Definition dec (c : Z) : Z := default 0 (dtable !! Z.to_nat c).

#[global] Arguments dec _ : simpl never.
#[global] Arguments b64 _ : simpl never.

Record decode_state := mk_dstate { d_out : list Z; d_in : list Z; d_block : list Z; d_count : nat }.

Definition nthz (l : list Z) (i : nat) : Z := default 0 (l !! i).

(** One turn of the second loop. *)
Definition decode_step (size : Z) (c : Z) (st : decode_state) : res decode_state :=
  let tmp := dec c in
  if tmp =? 128 then Ret st
  else
    let inb := <[d_count st := c]> (d_in st) in
    let block := <[d_count st := tmp]> (d_block st) in
    let count := S (d_count st) in
    if (count =? 4)%nat then
      out ← put2 size (d_out st)
        (Z.lor (Z.shiftl (nthz block 0) 2) (Z.shiftr (nthz block 1) 4))
        (Z.lor (Z.shiftl (nthz block 1) 4) (Z.shiftr (nthz block 2) 2));
      out ← put size out (Z.lor (Z.shiftl (nthz block 2) 6) (nthz block 3));
      Ret (mk_dstate out inb block 0)
    else Ret (mk_dstate (d_out st) inb block count).

Fixpoint decode_loop (size : Z) (src : list Z) (st : decode_state) : res decode_state :=
  match src with
  | [] => Ret st
  | c :: src' => st ← decode_step size c st; decode_loop size src' st
  end.

Definition decode_count (src : list Z) : nat := length (filter (fun c => dec c <> 128) src).

(** [in] and [block] are read only after a full block was stored. *)
Definition base64_decode (alloc_ok : bool) (src : list Z) : res (option (list Z)) :=
  let count := decode_count src in
  if negb (count mod 4 =? 0)%nat then Ret None
  else if negb alloc_ok then Ret None
  else
    st ← decode_loop (Z.of_nat count) src (mk_dstate [] (replicate 4 0) (replicate 4 0) 0);
    let out := d_out st in
    Ret (Some
      (if (0 <? length out)%nat then
         if nthz (d_in st) 2 =? ch "=" then take (length out - 2) out
         else if nthz (d_in st) 3 =? ch "=" then take (length out - 1) out
         else out
       else out)).

(** ** Reference: RFC 4648

    Each group of three bytes, as a 24-bit number, gives four digits of six
    bits; a last group of one or two bytes is completed with zeros and its unused
    digits are written ['=']. *)

Definition digit (n k : Z) : Z := b64 (n / 64 ^ k mod 64).

Fixpoint rfc4648 (src : list Z) : list Z :=
  match src with
  | a :: b :: c :: src' =>
      let n := a * 65536 + b * 256 + c in
      [digit n 3; digit n 2; digit n 1; digit n 0] ++ rfc4648 src'
  | [a; b] => let n := a * 65536 + b * 256 in [digit n 3; digit n 2; digit n 1; ch "="]
  | [a] => let n := a * 65536 in [digit n 3; digit n 2; ch "="; ch "="]
  | [] => []
  end.

(** ** Encoding *)

Lemma put_ok size out c : is_byte c -> Z.of_nat (length out) < size ->
  put size out c = Ret (out ++ [c]).
Proof. intros Hc Hl. unfold put. dbool. by rewrite wrap_small by (unfold is_byte in Hc; lia). Qed.

Lemma put2_ok size out a b : is_byte a -> is_byte b -> Z.of_nat (length out) + 2 <= size ->
  put2 size out a b = Ret (out ++ [a; b]).
Proof.
  intros Ha Hb Hl. unfold put2. rewrite put_ok by (done || lia). simpl.
  rewrite put_ok; [by rewrite <- app_assoc|done|]. rewrite length_app; simpl; lia.
Qed.

Lemma put4_ok size out a b c d : is_byte a -> is_byte b -> is_byte c -> is_byte d ->
  Z.of_nat (length out) + 4 <= size ->
  put4 size out a b c d = Ret (out ++ [a; b; c; d]).
Proof.
  intros Ha Hb Hc Hd Hl. unfold put4. rewrite put2_ok by (done || lia). simpl.
  rewrite put2_ok; [by rewrite <- app_assoc|done..|]. rewrite length_app; simpl; lia.
Qed.

Definition b64_good (i : Z) : bool :=
  (0 <? b64 i) && (b64 i <? 128) && (dec (b64 i) =? i) && negb (b64 i =? ch "=").

Lemma b64_check i : 0 <= i < 64 ->
  0 < b64 i < 128 /\ dec (b64 i) = i /\ b64 i <> ch "=".
Proof.
  intros Hi. assert (b64_good i = true) as H
    by (apply (range_check b64_good 64); [vm_compute; reflexivity|done]).
  unfold b64_good in H. rewrite !andb_true_iff, negb_true_iff in H.
  rewrite !Z.ltb_lt, !Z.eqb_eq, Z.eqb_neq in H. tauto.
Qed.

Lemma b64_byte i : 0 <= i < 64 -> is_byte (b64 i).
Proof. intros Hi. destruct (b64_check i Hi) as [? _]. unfold is_byte. lia. Qed.
#[local] Hint Resolve b64_byte : duda.

Lemma eq_byte : is_byte (ch "=").
Proof. done. Qed.
#[local] Hint Resolve eq_byte : duda.

(** The bit fields of the source are the digits of the 24-bit number. *)
Section bits.
Variables a b c : Z.
Hypotheses (Ha : is_byte a) (Hb : is_byte b) (Hc : is_byte c).
Let n := a * 65536 + b * 256 + c.

Lemma byte_shift x k : 0 <= k -> Z.shiftr x k = x / 2 ^ k.
Proof. intros. by apply Z.shiftr_div_pow2. Qed.

Lemma sextet0 : Z.shiftr a 2 = n / 64 ^ 3 mod 64.
Proof.
  rewrite byte_shift by lia. unfold n, is_byte in *. change (2 ^ 2) with 4.
  change (64 ^ 3) with 262144. lia_div.
Qed.

Lemma sextet1 : Z.lor (Z.shiftl (Z.land a 3) 4) (Z.shiftr b 4) = n / 64 ^ 2 mod 64.
Proof.
  rewrite byte_shift by lia. unfold n, is_byte in *. change (2 ^ 4) with 16.
  change (Z.land a 3) with (Z.land a (2 ^ 2 - 1)).
  rewrite land_ones_mod, lor_shiftl_add by (lia || lia_div).
  change (2 ^ 4) with 16. change (2 ^ 2) with 4. change (64 ^ 2) with 4096. lia_div.
Qed.

Lemma sextet2 : Z.lor (Z.shiftl (Z.land b 15) 2) (Z.shiftr c 6) = n / 64 ^ 1 mod 64.
Proof.
  rewrite byte_shift by lia. unfold n, is_byte in *. change (2 ^ 6) with 64.
  change (Z.land b 15) with (Z.land b (2 ^ 4 - 1)).
  rewrite land_ones_mod, lor_shiftl_add by (lia || lia_div).
  change (2 ^ 4) with 16. change (2 ^ 2) with 4. change (64 ^ 1) with 64. lia_div.
Qed.

Lemma sextet3 : Z.land c 63 = n / 64 ^ 0 mod 64.
Proof.
  change (Z.land c 63) with (Z.land c (2 ^ 6 - 1)).
  rewrite land_ones_mod by lia. unfold n, is_byte in *.
  change (2 ^ 6) with 64. change (64 ^ 0) with 1. lia_div.
Qed.
End bits.

Lemma digit_byte n k : is_byte (digit n k).
Proof. unfold digit. apply b64_byte. by apply Z.mod_pos_bound. Qed.
#[local] Hint Resolve digit_byte : duda.

Lemma encode_blocks olen src : forall out ll, Forall is_byte src ->
  Z.of_nat (length out + length (rfc4648 src)) <= olen ->
  0 <= ll -> ll + Z.of_nat (length (rfc4648 src)) < 2 ^ 31 ->
  ('(out, l, rest) ← encode_loop olen out ll src; encode_tail olen out l rest) =
  Ret (out ++ rfc4648 src, ll + Z.of_nat (length (rfc4648 src))).
Proof.
  induction src as [|a|a b|a b c src IH] using list_ind3; intros out ll Hs Ho Hl Hi.
  - simpl. by rewrite app_nil_r, Z.add_0_r.
  - apply Forall_cons in Hs as [Ha _].
    pose proof (sextet0 a 0 0 Ha ltac:(done) ltac:(done)) as E0.
    pose proof (sextet1 a 0 0 Ha ltac:(done) ltac:(done)) as E1.
    change (Z.shiftr 0 4) with 0 in E1. rewrite Z.lor_0_r in E1.
    rewrite Z.mul_0_l, !Z.add_0_r in E0, E1.
    cbn [encode_loop mbind res_bind encode_tail rfc4648]. rewrite E0, E1. fold (digit (a * 65536) 3).
    fold (digit (a * 65536) 2). rewrite put4_ok; auto with duda; [|simpl in Ho; lia].
    cbn. f_equal. f_equal. rewrite swrap_small; simpl in Hi; lia.
  - apply Forall_cons in Hs as [Ha [Hb _]%Forall_cons].
    pose proof (sextet0 a b 0 Ha Hb ltac:(done)) as E0.
    pose proof (sextet1 a b 0 Ha Hb ltac:(done)) as E1.
    pose proof (sextet2 a b 0 Ha Hb ltac:(done)) as E2.
    change (Z.shiftr 0 6) with 0 in E2. rewrite Z.lor_0_r in E2.
    rewrite !Z.add_0_r in E0, E1, E2.
    cbn [encode_loop mbind res_bind encode_tail rfc4648]. rewrite E0, E1, E2.
    fold (digit (a * 65536 + b * 256) 3) (digit (a * 65536 + b * 256) 2)
      (digit (a * 65536 + b * 256) 1).
    rewrite put4_ok; auto with duda; [|simpl in Ho; lia].
    cbn. f_equal. f_equal. rewrite swrap_small; simpl in Hi; lia.
  - apply Forall_cons in Hs as [Ha [Hb [Hc Hs]%Forall_cons]%Forall_cons].
    cbn [encode_loop rfc4648]. cbn [rfc4648 app length] in Ho, Hi.
    rewrite (sextet0 a b c), (sextet1 a b c), (sextet2 a b c), (sextet3 a b c) by done.
    set (n := a * 65536 + b * 256 + c) in *.
    fold (digit n 3) (digit n 2) (digit n 1) (digit n 0).
    rewrite put4_ok; auto with duda; [|simpl in Ho; lia]. cbn [mbind res_bind].
    rewrite swrap_small by (simpl in Hi; lia).
    specialize (IH (out ++ [digit n 3; digit n 2; digit n 1; digit n 0]) (ll + 4) Hs).
    cbn [mbind res_bind] in IH. rewrite IH.
    + rewrite <- app_assoc. f_equal. f_equal. cbn [length app]. lia.
    + rewrite length_app. cbn [length]. lia.
    + lia.
    + lia.
Qed.

Lemma rfc4648_length src :
  Z.of_nat (length (rfc4648 src)) = 4 * ((Z.of_nat (length src) + 2) / 3).
Proof.
  induction src as [|a|a b|a b c src IH] using list_ind3; try done.
  cbn [rfc4648 length app]. rewrite !Nat2Z.inj_succ, IH. lia_div.
Qed.

Lemma rfc4648_cstr src : cstr (rfc4648 src).
Proof.
  assert (Hd : forall n k, 0 < digit n k < 256).
  { intros n k. unfold digit. destruct (b64_check (n / 64 ^ k mod 64)) as [? _]; [|lia].
    by apply Z.mod_pos_bound. }
  induction src as [|a|a b|a b c src IH] using list_ind3; cbn [rfc4648 app];
    repeat (apply Forall_cons_2; [done || apply Hd|]); try apply Forall_nil_2. exact IH.
Qed.

Lemma encode_olen_enough n : 0 <= n < 2 ^ 29 -> 4 * ((n + 2) / 3) + 2 <= encode_olen n < 2 ^ 32.
Proof.
  intros Hn. unfold encode_olen. rewrite (wrap_small 64 (n * 4)) by lia.
  rewrite (wrap_small 64 (_ / 3 + 4)) by lia_div. rewrite (wrap_small 64 (_ + _ / 72)) by lia_div.
  rewrite wrap_small by lia_div. lia_div.
Qed.

Lemma encode_value src : src <> [] -> Forall is_byte src -> Z.of_nat (length src) < 2 ^ 29 ->
  base64_encode true true src =
  Ret (Some (rfc4648 src ++ [0; 0], Z.of_nat (length (rfc4648 src)) + 1)).
Proof.
  intros Hne Hb Hl. unfold base64_encode. cbn [negb].
  pose proof (rfc4648_length src) as Hr.
  pose proof (encode_olen_enough (Z.of_nat (length src)) ltac:(lia)) as Ho.
  assert (1 <= Z.of_nat (length src)) by (destruct src; [done|simpl; lia]).
  assert (4 <= Z.of_nat (length (rfc4648 src))) by (rewrite Hr; lia_div).
  set (olen := encode_olen _) in *.
  pose proof (encode_blocks olen src [] 0 Hb) as HE. simpl app in HE. cbn [length] in HE.
  rewrite Z.add_0_l in HE. specialize (HE ltac:(lia) ltac:(lia)).
  assert (Z.of_nat (length (rfc4648 src)) < 2 ^ 31) as Hint by (rewrite Hr; lia_div).
  specialize (HE Hint).
  destruct (encode_loop olen [] 0 src) as [[[out ll] rest]|]; [|done].
  cbn [mbind res_bind] in HE |- *. rewrite HE. cbn.
  destruct (Z.eqb_spec (Z.of_nat (length (rfc4648 src))) 0); [lia|].
  rewrite put_ok by (done || lia). cbn. rewrite put_ok;
    [|done|rewrite length_app; cbn [length]; lia]. cbn.
  rewrite length_app, Nat2Z.inj_add. change (Z.of_nat (length [10])) with 1.
  rewrite wrap_small by lia. rewrite (proj2 (Z.leb_gt olen _)) by lia.
  do 3 f_equal. replace (Z.to_nat _) with (length (rfc4648 src)) by lia.
  rewrite <- app_assoc, insert_app_r_alt, Nat.sub_diag by lia. done.
Qed.

(** ** Decoding *)

Definition byte0 (s0 s1 : Z) : Z := wrap 8 (Z.lor (Z.shiftl s0 2) (Z.shiftr s1 4)).
Definition byte1 (s1 s2 : Z) : Z := wrap 8 (Z.lor (Z.shiftl s1 4) (Z.shiftr s2 2)).
Definition byte2 (s2 s3 : Z) : Z := wrap 8 (Z.lor (Z.shiftl s2 6) s3).

Lemma put_wrap size out c : Z.of_nat (length out) < size ->
  put size out c = Ret (out ++ [wrap 8 c]).
Proof. intros Hl. unfold put. by dbool. Qed.

(** A block of four digits. *)
Lemma decode_block size c0 c1 c2 c3 src out inb block :
  dec c0 <> 128 -> dec c1 <> 128 -> dec c2 <> 128 -> dec c3 <> 128 ->
  length inb = 4%nat -> length block = 4%nat -> Z.of_nat (length out) + 3 <= size ->
  decode_loop size (c0 :: c1 :: c2 :: c3 :: src) (mk_dstate out inb block 0) =
  decode_loop size src
    (mk_dstate (out ++ [byte0 (dec c0) (dec c1); byte1 (dec c1) (dec c2); byte2 (dec c2) (dec c3)])
       [c0; c1; c2; c3] [dec c0; dec c1; dec c2; dec c3] 0).
Proof.
  intros H0 H1 H2 H3 Hi Hb Hl.
  destruct inb as [|? [|? [|? [|? [|]]]]]; try discriminate.
  destruct block as [|? [|? [|? [|? [|]]]]]; try discriminate.
  simpl. unfold decode_step. simpl. rewrite !(proj2 (Z.eqb_neq _ _)) by done. simpl.
  repeat (rewrite (proj2 (Z.eqb_neq _ _)) by done; simpl).
  unfold put2. rewrite put_wrap by lia. simpl.
  rewrite put_wrap by (rewrite length_app; simpl; lia). simpl.
  rewrite put_wrap by (rewrite !length_app; simpl; lia). simpl.
  by rewrite <- !app_assoc.
Qed.

(** The three bytes of a block come back. *)
Section unbits.
Variables a b c : Z.
Hypotheses (Ha : is_byte a) (Hb : is_byte b) (Hc : is_byte c).
Let n := a * 65536 + b * 256 + c.
Let s k := n / 64 ^ k mod 64.

Lemma sextet_range k : 0 <= s k < 64.
Proof. by apply Z.mod_pos_bound. Qed.

Lemma dec_bytes : byte0 (s 3) (s 2) = a /\ byte1 (s 2) (s 1) = b /\ byte2 (s 1) (s 0) = c.
Proof.
  unfold byte0, byte1, byte2.
  pose proof (sextet_range 0). pose proof (sextet_range 1). pose proof (sextet_range 2).
  pose proof (sextet_range 3).
  rewrite !byte_shift by lia.
  rewrite !lor_shiftl_add by (try change (2 ^ 4) with 16; try change (2 ^ 2) with 4; lia || lia_div).
  unfold s, n, wrap, is_byte in *. change (64 ^ 0) with 1. change (64 ^ 1) with 64.
  change (64 ^ 2) with 4096. change (64 ^ 3) with 262144. change (2 ^ 8) with 256.
  change (2 ^ 2) with 4. change (2 ^ 4) with 16. change (2 ^ 6) with 64.
  split_and!; lia_div.
Qed.
End unbits.

(** What the end of [base64_decode] keeps of the output. *)
Definition strip (st : decode_state) : list Z :=
  let out := d_out st in
  if (0 <? length out)%nat then
    if nthz (d_in st) 2 =? ch "=" then take (length out - 2) out
    else if nthz (d_in st) 3 =? ch "=" then take (length out - 1) out
    else out
  else out.

Lemma dec_eq : dec (ch "=") = 0.
Proof. reflexivity. Qed.

Lemma dec_digit n k : dec (digit n k) = n / 64 ^ k mod 64.
Proof. unfold digit. apply b64_check. by apply Z.mod_pos_bound. Qed.

Lemma dec_digit_valid n k : dec (digit n k) <> 128.
Proof. rewrite dec_digit. pose proof (Z.mod_pos_bound (n / 64 ^ k) 64). lia. Qed.

Lemma digit_not_eq n k : (digit n k =? ch "=") = false.
Proof. apply Z.eqb_neq. unfold digit. apply b64_check. by apply Z.mod_pos_bound. Qed.

Lemma dec_eq_valid : dec (ch "=") <> 128.
Proof. by rewrite dec_eq. Qed.

#[local] Hint Resolve dec_digit_valid dec_eq_valid : duda.

Lemma strip_app out x inb block k :
  (0 < length (out ++ x))%nat ->
  (if nthz inb 2 =? ch "=" then k = 2%nat else if nthz inb 3 =? ch "=" then k = 1%nat else k = 0%nat) ->
  (k <= length x)%nat ->
  strip (mk_dstate (out ++ x) inb block 0) = out ++ take (length x - k) x.
Proof.
  intros Hp Hk Hx. unfold strip; simpl. destruct (Nat.ltb_spec 0 (length (out ++ x))); [|lia].
  assert (Ht : take (length (out ++ x) - k) (out ++ x) = out ++ take (length x - k) x).
  { rewrite take_app_ge by (rewrite length_app; lia). do 2 f_equal. rewrite length_app. lia. }
  destruct (nthz inb 2 =? _); [by subst k|]. destruct (nthz inb 3 =? _); [by subst k|].
  subst k. by rewrite Nat.sub_0_r, take_ge in Ht |- * by lia.
Qed.

(** Decoding the groups of [src]. *)
Lemma decode_groups size src : forall out inb block, Forall is_byte src ->
  length inb = 4%nat -> length block = 4%nat ->
  Z.of_nat (length out + length (rfc4648 src)) <= size -> src <> [] ->
  exists st, decode_loop size (rfc4648 src) (mk_dstate out inb block 0) = Ret st /\
    strip st = out ++ src.
Proof.
  induction src as [|a|a b|a b c src IH] using list_ind3; intros out inb block Hs Hi Hb Hz Hne;
    [done| | |].
  - apply Forall_cons in Hs as [Ha _].
    pose proof (dec_bytes a 0 0 Ha ltac:(done) ltac:(done)) as (E0 & _ & _).
    rewrite Z.mul_0_l, !Z.add_0_r in E0. cbn [rfc4648 length] in *.
    rewrite decode_block by (auto with duda || lia).
    eexists; split; [done|]. rewrite !dec_digit, E0.
    erewrite (strip_app out _ _ _ 2); [done|rewrite length_app; simpl; lia|done|simpl; lia].
  - apply Forall_cons in Hs as [Ha [Hbb _]%Forall_cons].
    pose proof (dec_bytes a b 0 Ha Hbb ltac:(done)) as (E0 & E1 & _).
    rewrite !Z.add_0_r in E0, E1. cbn [rfc4648 length] in *.
    rewrite decode_block by (auto with duda || lia).
    eexists; split; [done|]. rewrite !dec_digit, E0, E1.
    erewrite (strip_app out _ _ _ 1); [done|rewrite length_app; simpl; lia| |simpl; lia].
    unfold nthz; simpl. by rewrite digit_not_eq.
  - apply Forall_cons in Hs as [Ha [Hbb [Hc Hs]%Forall_cons]%Forall_cons].
    pose proof (dec_bytes a b c Ha Hbb Hc) as (E0 & E1 & E2).
    cbn [rfc4648 length app] in *. set (n := a * 65536 + b * 256 + c) in *.
    rewrite decode_block by (auto with duda || lia). rewrite !dec_digit, E0, E1, E2.
    destruct src as [|x src].
    + eexists; split; [done|].
      erewrite (strip_app out _ _ _ 0); [done|rewrite length_app; simpl; lia| |simpl; lia].
      unfold nthz; simpl. by rewrite !digit_not_eq.
    + destruct (IH (out ++ [a; b; c]) [digit n 3; digit n 2; digit n 1; digit n 0]
        [n / 64 ^ 3 mod 64; n / 64 ^ 2 mod 64; n / 64 ^ 1 mod 64; n / 64 ^ 0 mod 64] Hs)
        as (st & Hst & Hstrip); [done|done| |done|].
      { rewrite length_app. cbn [length] in *. lia. }
      exists st. split; [exact Hst|]. by rewrite Hstrip, <- app_assoc.
Qed.

Lemma decode_loop_app size a b st :
  decode_loop size (a ++ b) st = (st' ← decode_loop size a st; decode_loop size b st').
Proof.
  revert st; induction a as [|c a IH]; intros st; simpl; [done|].
  destruct (decode_step size c st); simpl; [apply IH|done].
Qed.

(** Characters outside the alphabet are skipped. *)
Lemma decode_loop_skip size t st : Forall (fun c => dec c = 128) t ->
  decode_loop size t st = Ret st.
Proof.
  induction 1 as [|c t Hc _ IH]; simpl; [done|]. unfold decode_step. by rewrite Hc.
Qed.

Lemma rfc4648_valid src : Forall (fun c => dec c <> 128) (rfc4648 src).
Proof.
  induction src as [|a|a b|a b c src IH] using list_ind3; cbn [rfc4648 app];
    repeat (apply Forall_cons_2; [auto with duda|]); auto.
Qed.

Lemma decode_count_app a b : decode_count (a ++ b) = (decode_count a + decode_count b)%nat.
Proof. unfold decode_count. by rewrite filter_app, length_app. Qed.

Lemma decode_count_all l : Forall (fun c => dec c <> 128) l -> decode_count l = length l.
Proof.
  induction 1 as [|c l Hc _ IH]; [done|]. unfold decode_count in *.
  rewrite filter_cons_True by done. simpl. by rewrite IH.
Qed.

Lemma decode_count_none l : Forall (fun c => dec c = 128) l -> decode_count l = 0%nat.
Proof.
  induction 1 as [|c l Hc _ IH]; [done|]. unfold decode_count in *.
  rewrite filter_cons_False; [done|]. intros Hn. by apply Hn.
Qed.

Lemma decode_value src t : src <> [] -> Forall is_byte src -> Forall (fun c => dec c = 128) t ->
  base64_decode true (rfc4648 src ++ t) = Ret (Some src).
Proof.
  intros Hne Hb Ht. unfold base64_decode.
  rewrite decode_count_app, (decode_count_all _ (rfc4648_valid src)), (decode_count_none _ Ht).
  rewrite Nat.add_0_r. pose proof (rfc4648_length src) as Hl.
  assert (length (rfc4648 src) mod 4 = 0)%nat as ->.
  { apply Nat2Z.inj. rewrite Nat2Z.inj_mod, Hl. rewrite Z.mul_comm, Z_mod_mult. done. }
  simpl negb. cbn [Nat.eqb].
  destruct (decode_groups (Z.of_nat (length (rfc4648 src))) src [] (replicate 4 0) (replicate 4 0) Hb)
    as (st & Hst & Hstrip); [done..|simpl; lia|done|].
  rewrite decode_loop_app, Hst. simpl. rewrite decode_loop_skip by done. simpl.
  fold (strip st). by rewrite Hstrip.
Qed.

(** ** Properties *)

(** [base64_encode] computes the RFC 4648 encoding without leaving its
    buffer: for a non-empty input it returns the encoding, terminated by NUL, and
    [*out_len] counts one byte more than the encoding (the place of the line feed
    that was overwritten by NUL). *)
Theorem base64_encode_rfc4648 src :
  src <> [] -> Forall is_byte src -> Z.of_nat (length src) < 2 ^ 29 ->
  base64_encode true true src =
  Ret (Some (rfc4648 src ++ [0; 0], Z.of_nat (length (rfc4648 src)) + 1)).
Proof. apply encode_value. Qed.

Lemma base64_encode_rfc4648_witness :
  base64_encode true true (cs "Duda") = Ret (Some (cs "RHVkYQ==" ++ [0; 0], 9)).
Proof.
  etransitivity; [apply (base64_encode_rfc4648 (cs "Duda"))|vm_compute; reflexivity];
    [discriminate|apply (bool_decide_unpack _); vm_compute; exact I|reflexivity].
Defined.

(** C33. Decoding inverts encoding: the output of [base64_encode], over the
    [*out_len] bytes it reports, decodes to the input, whatever its length modulo 3,
    and so does the encoding followed by any characters outside the alphabet. *)
Theorem base64_roundtrip src buf out_len t :
  Forall is_byte src -> Z.of_nat (length src) < 2 ^ 29 ->
  base64_encode true true src = Ret (Some (buf, out_len)) ->
  Forall (fun c => dec c = 128) t ->
  base64_decode true (take (Z.to_nat out_len) buf) = Ret (Some src) /\
  base64_decode true (take (Z.to_nat (out_len - 1)) buf ++ t) = Ret (Some src).
Proof.
  intros Hb Hl He Ht. destruct (decide (src = [])) as [->|Hne]; [discriminate He|].
  rewrite encode_value in He by done. injection He as <- <-.
  rewrite Z.add_simpl_r, Nat2Z.id, take_app_length.
  replace (Z.to_nat (Z.of_nat (length (rfc4648 src)) + 1)) with (length (rfc4648 src) + 1)%nat by lia.
  rewrite take_app_add. split; apply decode_value; try done.
  by repeat constructor.
Qed.

Lemma base64_roundtrip_witness :
  base64_decode true (cs "RHVkYQ==" ++ [0]) = Ret (Some (cs "Duda")) /\
  base64_decode true (cs "RHVkYQ==" ++ [13; 10]) = Ret (Some (cs "Duda")).
Proof.
  apply (base64_roundtrip (cs "Duda") (cs "RHVkYQ==" ++ [0; 0]) 9 [13; 10]);
    [apply (bool_decide_unpack _); vm_compute; exact I|reflexivity|vm_compute; reflexivity
    |apply (bool_decide_unpack _); vm_compute; exact I].
Defined.

(** An empty input makes the encoder store before its buffer, and a caller that
    passes no [out_len] makes it dereference [NULL]. *)
Lemma base64_encode_faults :
  base64_encode true true [] = Fault OutOfBounds /\
  (forall src, Forall is_byte src -> Z.of_nat (length src) < 2 ^ 29 -> src <> [] ->
     base64_encode true false src = Fault NullDeref).
Proof.
  split; [reflexivity|]. intros src Hb Hl Hne.
  pose proof (encode_value src Hne Hb Hl) as He. unfold base64_encode in *. cbn [negb] in *.
  destruct (encode_loop _ _ _ _) as [[[out ll] rest]|]; [|done]. cbn [mbind res_bind] in *.
  destruct (encode_tail _ _ _ _) as [[out' ll']|]; [|done]. cbn [mbind res_bind] in *.
  destruct (if ll' =? 0 then _ else _) as [o|]; [|done]. cbn [mbind res_bind] in *.
  by destruct (put _ o 0).
Qed.
