(* ===== verification/MerkleDamgard.v ===== *)
(** * 32-bit words and iterated block hashing

    What the SHA-1 and SHA-256 packages share: big-endian words, rotations, the
    loop over full blocks of 64 bytes, and the FIPS 180 definition of a hash as
    the iteration of a compression function over the padded message, against which
    the incremental interfaces of both are proved. *)

From S2P Require Import Prelude.

Definition rotl32 (x n : Z) : Z := wrap 32 (Z.lor (Z.shiftl x n) (Z.shiftr x (32 - n))).
Definition rotr32 (x n : Z) : Z := rotl32 x (32 - n).

Definition byte_at (b : list Z) (i : nat) : Z := default 0 (b !! i).

(** [get_be32] and [GET_UINT32]. *)
Definition get_be32 (b : list Z) (i : nat) : Z :=
  Z.lor (Z.lor (Z.lor (Z.shiftl (byte_at b i) 24) (Z.shiftl (byte_at b (i + 1)) 16))
           (Z.shiftl (byte_at b (i + 2)) 8)) (byte_at b (i + 3)).

(** [put_be32] and [PUT_UINT32]: the four bytes stored. *)
Definition put_be32 (v : Z) : list Z :=
  [wrap 8 (Z.shiftr v 24); wrap 8 (Z.shiftr v 16); wrap 8 (Z.shiftr v 8); wrap 8 v].

Lemma get_be32_range b i : Forall is_byte b -> 0 <= get_be32 b i < 2 ^ 32.
Proof.
  intros Hb. assert (H : forall j, 0 <= byte_at b j < 256).
  { intros j. unfold byte_at. destruct (b !! j) as [x|] eqn:E; [|done].
    apply (Forall_lookup_1 _ _ _ _ Hb E). }
  unfold get_be32. pose proof (H i). pose proof (H (i + 1)%nat). pose proof (H (i + 2)%nat).
  pose proof (H (i + 3)%nat). repeat apply lor_range; try lia;
    rewrite Z.shiftl_mul_pow2 by lia; lia.
Qed.

(** Only the low 32 bits of a word are stored. *)
Lemma put_be32_wrap v : put_be32 (wrap 32 v) = put_be32 v.
Proof.
  assert (H : forall k, 0 <= k <= 24 -> wrap 8 (Z.shiftr (wrap 32 v) k) = wrap 8 (Z.shiftr v k)).
  { intros k Hk. unfold wrap. apply Z.bits_inj'. intros n Hn. destruct (Z.lt_ge_cases n 8).
    - rewrite !Z.mod_pow2_bits_low, !Z.shiftr_spec, Z.mod_pow2_bits_low by lia. done.
    - by rewrite !Z.mod_pow2_bits_high by lia. }
  unfold put_be32. rewrite !H by lia. pose proof (H 0 ltac:(lia)) as H0.
  rewrite !Z.shiftr_0_r in H0. by rewrite H0.
Qed.

(** [memcpy (buf + off, src, length src)]. *)
Definition memcpy_at (buf : list Z) (off : nat) (src : list Z) : list Z :=
  take off buf ++ src ++ drop (off + length src) buf.

Lemma memcpy_at_0 buf x : memcpy_at buf 0 x = x ++ drop (length x) buf.
Proof. done. Qed.

(** An element of a C array of words. *)
Definition word_at (l : list Z) (i : nat) : Z := default 0 (l !! i).

Lemma word_at_eq l i x : (i < length l)%nat -> word_at (<[i := x]> l) i = x.
Proof. intros H. unfold word_at. by rewrite list_lookup_insert_eq. Qed.

Lemma word_at_ne l i j x : i <> j -> word_at (<[i := x]> l) j = word_at l j.
Proof. intros H. unfold word_at. by rewrite list_lookup_insert_ne. Qed.

(** Equality of bitwise expressions, bit by bit. *)
Ltac bitwise :=
  apply Z.bits_inj'; intros n Hn;
  repeat rewrite ?Z.lxor_spec, ?Z.land_spec, ?Z.lor_spec, ?Z.lnot_spec, ?Z.bits_0 by done;
  repeat match goal with |- context [Z.testbit ?x n] => destruct (Z.testbit x n) end; reflexivity.

Section iterate.
Context {S : Type} (compress : S -> list Z -> S).

(** [while (len >= 64) { block (data); data += 64; len -= 64; }], and what is
    left of the data. *)
Fixpoint process_blocks (fuel : nat) (h : S) (data : list Z) : S * list Z :=
  match fuel with
  | O => (h, data)
  | Datatypes.S fuel' =>
      if (64 <=? length data)%nat
      then process_blocks fuel' (compress h (take 64 data)) (drop 64 data)
      else (h, data)
  end.

(** ** FIPS 180 *)

Fixpoint run_blocks (n : nat) (h : S) (msg : list Z) : S :=
  match n with
  | O => h
  | Datatypes.S n' => run_blocks n' (compress h (take 64 msg)) (drop 64 msg)
  end.

(** The padding: a bit 1, zeros up to 448 bits modulo 512, the length in bits on
    64 bits. *)
Definition md_pad (len : Z) : list Z :=
  128 :: replicate (Z.to_nat ((55 - len) mod 64)) 0 ++
  put_be32 (wrap 64 (8 * len) / 2 ^ 32) ++ put_be32 (wrap 64 (8 * len) mod 2 ^ 32).

Definition md_hash (h0 : S) (msg : list Z) : S :=
  let m := msg ++ md_pad (Z.of_nat (length msg)) in
  run_blocks (length m / 64) h0 m.

(** ** Facts on the iteration *)

Lemma run_blocks_add n m h msg :
  run_blocks (n + m) h msg = run_blocks m (run_blocks n h msg) (drop (64 * n) msg).
Proof.
  revert h msg; induction n as [|n IH]; intros h msg; simpl; [done|].
  rewrite IH, drop_drop. do 2 f_equal. lia.
Qed.

Lemma run_blocks_app n h msg x : (64 * n <= length msg)%nat ->
  run_blocks n h (msg ++ x) = run_blocks n h msg.
Proof.
  revert h msg; induction n as [|n IH]; intros h msg Hl; simpl; [done|].
  rewrite take_app_le, drop_app_le by lia. apply IH. rewrite length_drop. lia.
Qed.

Lemma process_blocks_run fuel h data : (length data / 64 <= fuel)%nat ->
  process_blocks fuel h data =
  (run_blocks (length data / 64) h data, drop (64 * (length data / 64)) data).
Proof.
  revert h data; induction fuel as [|fuel IH]; intros h data Hf; cbn [process_blocks].
  { replace (length data / 64)%nat with 0%nat by lia. done. }
  destruct (Nat.leb_spec 64 (length data)) as [Hle|Hlt].
  - assert (Hd : (length data / 64 = Datatypes.S (length (drop 64 data) / 64))%nat).
    { rewrite length_drop. replace (length data) with (length data - 64 + 1 * 64)%nat at 1 by lia.
      rewrite Nat.div_add by lia. lia. }
    rewrite IH by lia. rewrite Hd. cbn [run_blocks]. f_equal. rewrite drop_drop. f_equal. lia.
  - rewrite Nat.div_small by done. done.
Qed.

(** ** Incremental hashing

    [h] and [buf] after absorbing [msg]: the full blocks went through the
    compression function, the rest is at the start of the buffer. *)
Record absorbed (h0 h : S) (buf msg : list Z) : Prop := {
  abs_hash : h = run_blocks (length msg / 64) h0 msg;
  abs_buf : take (length msg mod 64) buf = drop (64 * (length msg / 64)) msg;
  abs_size : length buf = 64%nat;
}.

Lemma absorbed_init h0 buf : length buf = 64%nat -> absorbed h0 h0 buf [].
Proof. done. Qed.

Lemma div_mod_64 n : n = (64 * (n / 64) + n mod 64)%nat /\ (n mod 64 < 64)%nat.
Proof. split; [apply Nat.div_mod; lia|apply Nat.mod_upper_bound; lia]. Qed.

(** Data that does not fill the buffer. *)
Lemma absorb_short h0 h buf msg d : absorbed h0 h buf msg ->
  (length msg mod 64 + length d < 64)%nat ->
  absorbed h0 h (memcpy_at buf (length msg mod 64) d) (msg ++ d).
Proof.
  intros [Hh Hb Hs] Hl. destruct (div_mod_64 (length msg)) as [Hdm Hm].
  assert (Hq : (length (msg ++ d) / 64 = length msg / 64)%nat).
  { rewrite length_app. symmetry. apply (Nat.div_unique _ _ _ (length msg mod 64 + length d)); lia. }
  assert (Hr : (length (msg ++ d) mod 64 = length msg mod 64 + length d)%nat).
  { rewrite length_app. symmetry. apply (Nat.mod_unique _ _ (length msg / 64)); lia. }
  split; rewrite ?Hq, ?Hr.
  - by rewrite run_blocks_app by lia.
  - unfold memcpy_at. rewrite drop_app_le by lia. rewrite app_assoc.
    rewrite take_app_le by (rewrite length_app, length_take; lia).
    rewrite take_ge by (rewrite length_app, length_take; lia). by rewrite Hb.
  - unfold memcpy_at. rewrite !length_app, length_take, length_drop. lia.
Qed.

(** The block completed by the first bytes of the data. *)
Lemma absorb_fill h0 h buf msg d : absorbed h0 h buf msg ->
  (length msg mod 64 + length d = 64)%nat ->
  absorbed h0 (compress h (memcpy_at buf (length msg mod 64) d))
    (memcpy_at buf (length msg mod 64) d) (msg ++ d).
Proof.
  intros [Hh Hb Hs] Hl. destruct (div_mod_64 (length msg)) as [Hdm Hm].
  assert (Hq : (length (msg ++ d) / 64 = length msg / 64 + 1)%nat).
  { rewrite length_app. symmetry. apply (Nat.div_unique _ _ _ 0); lia. }
  assert (Hr : (length (msg ++ d) mod 64 = 0)%nat).
  { rewrite length_app. symmetry. apply (Nat.mod_unique _ _ (length msg / 64 + 1)); lia. }
  assert (Hbuf : memcpy_at buf (length msg mod 64) d = drop (64 * (length msg / 64)) (msg ++ d)).
  { unfold memcpy_at. rewrite drop_app_le, Hb by lia. rewrite (drop_ge buf) by lia.
    by rewrite app_nil_r. }
  split; rewrite ?Hq, ?Hr.
  - rewrite run_blocks_add, run_blocks_app, <- Hh by lia. cbn [run_blocks]. f_equal.
    rewrite Hbuf. symmetry. apply take_ge. rewrite length_drop, length_app. lia.
  - rewrite drop_ge by (rewrite length_app; lia). done.
  - unfold memcpy_at. rewrite !length_app, length_take, length_drop. lia.
Qed.

(** Full blocks and a rest, when the buffer is empty. *)
Lemma absorb_blocks h0 h buf msg d : absorbed h0 h buf msg -> (length msg mod 64 = 0)%nat ->
  absorbed h0 (run_blocks (length d / 64) h d)
    (memcpy_at buf 0 (drop (64 * (length d / 64)) d)) (msg ++ d).
Proof.
  intros [Hh Hb Hs] Hl. destruct (div_mod_64 (length msg)) as [Hdm _].
  destruct (div_mod_64 (length d)) as [Hdd Hdr].
  assert (Hq : (length (msg ++ d) / 64 = length msg / 64 + length d / 64)%nat).
  { rewrite length_app. symmetry. apply (Nat.div_unique _ _ _ (length d mod 64)); lia. }
  assert (Hr : (length (msg ++ d) mod 64 = length d mod 64)%nat).
  { rewrite length_app. symmetry. apply (Nat.mod_unique _ _ (length msg / 64 + length d / 64)); lia. }
  assert (Hrest : length (drop (64 * (length d / 64)) d) = (length d mod 64)%nat)
    by (rewrite length_drop; lia).
  split; rewrite ?Hq, ?Hr.
  - rewrite run_blocks_add, run_blocks_app, <- Hh by lia. f_equal.
    rewrite drop_app_ge by lia. by replace (_ - _)%nat with 0%nat by lia.
  - rewrite memcpy_at_0, take_app_le by lia. rewrite take_ge by lia.
    rewrite drop_app_ge by lia. f_equal. lia.
  - rewrite memcpy_at_0, length_app, !length_drop. lia.
Qed.

(** After absorbing the padding the hash is the one of FIPS 180. *)
Lemma absorbed_final h0 h buf msg :
  absorbed h0 h buf (msg ++ md_pad (Z.of_nat (length msg))) -> h = md_hash h0 msg.
Proof. intros [Hh _ _]. exact Hh. Qed.
End iterate.

(** Two compression functions that keep a relation between hash values on blocks
    of bytes keep it along any message. *)
Lemma run_blocks_rel {S S' : Type} (c : S -> list Z -> S) (c' : S' -> list Z -> S')
    (R : S -> S' -> Prop) n h h' msg :
  (forall h h' data, Forall is_byte data -> R h h' -> R (c h data) (c' h' data)) ->
  Forall is_byte msg -> R h h' ->
  R (run_blocks c n h msg) (run_blocks c' n h' msg).
Proof.
  intros Hc. revert h h' msg; induction n as [|n IH]; intros h h' msg Hm HR; simpl; [done|].
  apply IH; [by apply Forall_drop|]. apply Hc; [by apply Forall_take|done].
Qed.

Lemma md_pad_bytes len : Forall is_byte (md_pad len).
Proof.
  assert (Hw : forall x, is_byte (wrap 8 x)) by (intros x; apply (wrap_range 8); lia).
  unfold md_pad, put_be32. apply Forall_cons; split; [done|].
  apply Forall_app; split; [by apply Forall_replicate|]. repeat (apply Forall_cons; split); auto.
Qed.

Lemma length_md_pad len : length (md_pad len) = (Z.to_nat ((55 - len) mod 64) + 9)%nat.
Proof. unfold md_pad. simpl. rewrite length_app, length_replicate. simpl. lia. Qed.
