(* ===== verification/Sha1.v ===== *)
(** * SHA-1 (packages/sha1, and the same file in packages/websocket)

    The block function works in place on five registers whose roles rotate from
    one round to the next, and on a rolling array of 16 words; it is proved equal
    to the FIPS 180 round on a sliding state with the full 80 word schedule.
    [blk_SHA1_Update] and [blk_SHA1_Final] are proved to hash the concatenation of
    everything that was fed to them. *)

From S2P Require Import Prelude MerkleDamgard.

(** [W] is the buffer of 64 bytes. *)
Record blk_SHA_CTX := mk_sha_ctx { sha_size : Z; sha_H : list Z; sha_W : list Z }.

(** The macros [T_0_15] ... [T_60_79]: the function of a round and its constant. *)
Definition sha_fn (t : nat) (B C D : Z) : Z :=
  if (t <? 20)%nat then Z.lxor (Z.land (Z.lxor C D) B) D
  else if (t <? 40)%nat then Z.lxor (Z.lxor B C) D
  else if (t <? 60)%nat then Z.land B C + Z.land D (Z.lxor B C)
  else Z.lxor (Z.lxor B C) D.

Definition sha_const (t : nat) : Z :=
  if (t <? 20)%nat then 0x5a827999
  else if (t <? 40)%nat then 0x6ed9eba1
  else if (t <? 60)%nat then 0x8f1bbcdc
  else 0xca62c1d6.

(** [SHA_SRC] for the first 16 rounds, [SHA_MIX] after; [W(x)] is
    [array[x & 15]]. *)
Definition sha_input (data array : list Z) (t : nat) : Z :=
  let W x := word_at array (x mod 16) in
  if (t <? 16)%nat then get_be32 data (4 * t)
  else rotl32 (Z.lxor (Z.lxor (Z.lxor (W (t + 13)) (W (t + 8))) (W (t + 2))) (W t))%nat 1.

(** The register that plays role [k] (A is 0, ..., E is 4) in round [t]: the
    calls are T(A,B,C,D,E), T(E,A,B,C,D), T(D,E,A,B,C), ... *)
Definition role (t k : nat) : nat := (k + 4 * t) mod 5.

(** [SHA_ROUND]: the registers and the array are updated in place. *)
Definition sha_round (data : list Z) (t : nat) (st : list Z * list Z) : list Z * list Z :=
  let '(regs, array) := st in
  let r k := word_at regs (role t k) in
  let temp := sha_input data array t in
  let array := <[(t mod 16)%nat := temp]> array in
  let e := wrap 32 (r 4%nat + (temp + rotl32 (r 0%nat) 5 + sha_fn t (r 1%nat) (r 2%nat) (r 3%nat)
                               + sha_const t)) in
  let b := rotr32 (r 1%nat) 2 in
  (<[role t 1 := b]> (<[role t 4 := e]> regs), array).

Definition sha_rounds (data : list Z) (n : nat) (st : list Z * list Z) : list Z * list Z :=
  foldl (fun st t => sha_round data t st) st (seq 0 n).

(** The array is uninitialised in the source; each word is written before it is
    read. *)
Definition blk_SHA1_Block (H data : list Z) : list Z :=
  let '(regs, _) := sha_rounds data 80 (H, replicate 16 0) in
  zip_with (fun h r => wrap 32 (h + r)) H regs.

Definition sha1_H0 : list Z := [0x67452301; 0xefcdab89; 0x98badcfe; 0x10325476; 0xc3d2e1f0].

(** [W] holds whatever the caller's context held. *)
Definition blk_SHA1_Init (W : list Z) : blk_SHA_CTX := mk_sha_ctx 0 sha1_H0 W.

Definition blk_SHA1_Update (ctx : blk_SHA_CTX) (data : list Z) : blk_SHA_CTX :=
  let len := length data in
  let lenW := Z.to_nat (Z.land (sha_size ctx) 63) in
  let size := wrap 64 (sha_size ctx + Z.of_nat len) in
  let finish H W data :=
    let '(H, rest) := process_blocks blk_SHA1_Block (length data) H data in
    mk_sha_ctx size H (if (0 <? length rest)%nat then memcpy_at W 0 rest else W) in
  if (0 <? lenW)%nat then
    let left := if (len <? 64 - lenW)%nat then len else (64 - lenW)%nat in
    let W := memcpy_at (sha_W ctx) lenW (take left data) in
    let lenW := Z.to_nat (Z.land (Z.of_nat (lenW + left)) 63) in
    let data := drop left data in
    if (0 <? lenW)%nat then mk_sha_ctx size (sha_H ctx) W
    else finish (blk_SHA1_Block (sha_H ctx) W) W data
  else finish (sha_H ctx) (sha_W ctx) data.

(** [static const unsigned char pad[64] = { 0x80 }]. *)
Definition sha1_pad : list Z := 128 :: replicate 63 0.

Definition blk_SHA1_Final (ctx : blk_SHA_CTX) : list Z :=
  let padlen :=
    put_be32 (wrap 32 (Z.shiftr (sha_size ctx) 29)) ++
    put_be32 (wrap 32 (wrap 64 (Z.shiftl (sha_size ctx) 3))) in
  let i := Z.land (sha_size ctx) 63 in
  let ctx := blk_SHA1_Update ctx (take (Z.to_nat (1 + Z.land 63 (55 - i))) sha1_pad) in
  let ctx := blk_SHA1_Update ctx padlen in
  concat (put_be32 <$> sha_H ctx).

(** [sha1->encode]. *)
Definition sha1_encode (W data_in : list Z) : list Z :=
  blk_SHA1_Final (blk_SHA1_Update (blk_SHA1_Init W) data_in).

(** ** FIPS 180-4, section 6.1 *)
Module Fips.
Definition f (t : nat) (b c d : Z) : Z :=
  if (t <? 20)%nat then Z.lxor (Z.land b c) (Z.land (Z.lnot b) d)
  else if (t <? 40)%nat then Z.lxor (Z.lxor b c) d
  else if (t <? 60)%nat then Z.lxor (Z.lxor (Z.land b c) (Z.land b d)) (Z.land c d)
  else Z.lxor (Z.lxor b c) d.

(** The next word of the message schedule. *)
Definition word (data ws : list Z) (t : nat) : Z :=
  let w i := word_at ws i in
  if (t <? 16)%nat then get_be32 data (4 * t)
  else rotl32 (Z.lxor (Z.lxor (Z.lxor (w (t - 3)) (w (t - 8))) (w (t - 14))) (w (t - 16)))%nat 1.

Fixpoint schedule (data : list Z) (n : nat) : list Z :=
  match n with
  | O => []
  | S n' => let ws := schedule data n' in ws ++ [word data ws n']
  end.

Definition state : Type := Z * Z * Z * Z * Z.

Definition round (w : Z) (t : nat) (st : state) : state :=
  let '(a, b, c, d, e) := st in
  (wrap 32 (rotl32 a 5 + f t b c d + e + sha_const t + w), a, rotl32 b 30, c, d).

Definition rounds (ws : list Z) (n : nat) (st : state) : state :=
  foldl (fun st t => round (word_at ws t) t st) st (seq 0 n).

Definition of_list (h : list Z) : state :=
  (word_at h 0, word_at h 1, word_at h 2, word_at h 3, word_at h 4).

Definition compress (h data : list Z) : list Z :=
  let '(a, b, c, d, e) := rounds (schedule data 80) 80 (of_list h) in
  [wrap 32 (word_at h 0 + a); wrap 32 (word_at h 1 + b); wrap 32 (word_at h 2 + c);
   wrap 32 (word_at h 3 + d); wrap 32 (word_at h 4 + e)].

Definition sha1 (msg : list Z) : list Z :=
  concat (put_be32 <$> md_hash compress sha1_H0 msg).
End Fips.

(** ** The rounds *)

Lemma choose_fn b c d :
  Z.lxor (Z.land (Z.lxor c d) b) d = Z.lxor (Z.land b c) (Z.land (Z.lnot b) d).
Proof. bitwise. Qed.

Lemma majority_fn b c d :
  Z.land b c + Z.land d (Z.lxor b c)
  = Z.lxor (Z.lxor (Z.land b c) (Z.land b d)) (Z.land c d).
Proof. rewrite Z.add_nocarry_lxor; bitwise. Qed.

Lemma sha_fn_fips t b c d : sha_fn t b c d = Fips.f t b c d.
Proof.
  unfold sha_fn, Fips.f. destruct (t <? 20)%nat; [apply choose_fn|].
  destruct (t <? 40)%nat; [done|]. destruct (t <? 60)%nat; [apply majority_fn|done].
Qed.

Lemma schedule_length data n : length (Fips.schedule data n) = n.
Proof. induction n as [|n IH]; simpl; [done|]. rewrite length_app, IH. simpl. lia. Qed.

Lemma schedule_prefix data i n : (i <= n)%nat ->
  Fips.schedule data i `prefix_of` Fips.schedule data n.
Proof.
  induction 1 as [|n _ IH]; [done|]. simpl. by apply prefix_app_r.
Qed.

Lemma schedule_at data i n : (i < n)%nat ->
  word_at (Fips.schedule data n) i = Fips.word data (Fips.schedule data i) i.
Proof.
  intros Hi. unfold word_at. destruct (schedule_prefix data (S i) n Hi) as [k ->].
  simpl. rewrite <- app_assoc, lookup_app_r by (rewrite schedule_length; done).
  by rewrite schedule_length, Nat.sub_diag.
Qed.

(** The rolling array holds the last 16 words of the schedule. *)
Definition rolling (data array : list Z) (t : nat) : Prop :=
  length array = 16%nat /\
  forall i, (t - 16 <= i < t)%nat -> word_at array (i mod 16) = word_at (Fips.schedule data 80) i.

Lemma rolling_input data array t : (t < 80)%nat -> rolling data array t ->
  sha_input data array t = word_at (Fips.schedule data 80) t.
Proof.
  intros Ht [_ Hr]. rewrite schedule_at by done. unfold sha_input, Fips.word.
  destruct (Nat.ltb_spec t 16) as [|Hge]; [done|].
  assert (Hw : forall i j, (t - 16 <= i < t)%nat -> (j mod 16 = i mod 16)%nat ->
    word_at array (j mod 16) = word_at (Fips.schedule data t) i).
  { intros i j Hi ->. rewrite Hr by lia. rewrite !schedule_at by lia. done. }
  rewrite (Hw (t - 3)%nat (t + 13)%nat), (Hw (t - 8)%nat (t + 8)%nat),
    (Hw (t - 14)%nat (t + 2)%nat), (Hw (t - 16)%nat t)
    by (lia || (apply nat_mod_eq; [lia|first [exists 1%nat; lia|exists 0%nat; lia]])).
  done.
Qed.

Lemma rolling_step data array t : (t < 80)%nat -> rolling data array t ->
  rolling data (<[(t mod 16)%nat := sha_input data array t]> array) (S t).
Proof.
  intros Ht Hr. rewrite (rolling_input _ _ _ Ht Hr). destruct Hr as [Hl Hr].
  split; [by rewrite length_insert|]. intros i Hi. unfold word_at at 1.
  destruct (decide (i mod 16 = t mod 16)%nat) as [E|E].
  - rewrite E, list_lookup_insert_eq by (rewrite Hl; apply Nat.mod_upper_bound; lia). cbn [from_option id].
    assert (i = t) as ->; [|done].
    pose proof (Nat.div_mod i 16). pose proof (Nat.div_mod t 16). lia.
  - rewrite list_lookup_insert_ne by done. apply Hr.
    assert (i <> t) by congruence.
    assert (i <> t - 16 \/ t < 16)%nat; [|lia].
    destruct (decide (t < 16)%nat); [by right|left]. intros ->. apply E.
    symmetry. apply nat_mod_eq; [lia|]. exists 1%nat. lia.
Qed.

(** The sliding state of FIPS 180 seen in the registers. *)
Definition view (t : nat) (regs : list Z) : Fips.state :=
  (word_at regs (role t 0), word_at regs (role t 1), word_at regs (role t 2),
   word_at regs (role t 3), word_at regs (role t 4)).

Lemma role_shift t k : role (S t) (S k) = role t k.
Proof. unfold role. apply nat_mod_eq; [lia|]. exists 1%nat. lia. Qed.

Lemma role_wrap t : role (S t) 0 = role t 4.
Proof. unfold role. f_equal. lia. Qed.

Lemma role_lt t k : (role t k < 5)%nat.
Proof. apply Nat.mod_upper_bound. lia. Qed.

Lemma role_ne t j k : (j < 5)%nat -> (k < 5)%nat -> j <> k -> role t j <> role t k.
Proof.
  intros Hj Hk Hne E. unfold role in E.
  pose proof (Nat.div_mod (j + 4 * t) 5). pose proof (Nat.div_mod (k + 4 * t) 5). lia.
Qed.

Lemma round_view data t regs array : length regs = 5%nat ->
  let '(regs', _) := sha_round data t (regs, array) in
  length regs' = 5%nat /\
  view (S t) regs' = Fips.round (sha_input data array t) t (view t regs).
Proof.
  intros Hl. unfold sha_round. split; [by rewrite !length_insert|].
  pose proof (role_lt t 1). pose proof (role_lt t 4).
  unfold view. rewrite role_wrap, !role_shift. unfold Fips.round.
  rewrite (word_at_ne _ (role t 1) (role t 4)) by (apply role_ne; lia).
  rewrite (word_at_ne _ (role t 1) (role t 0)), (word_at_ne _ (role t 4) (role t 0))
    by (apply role_ne; lia).
  rewrite (word_at_ne _ (role t 1) (role t 2)), (word_at_ne _ (role t 4) (role t 2))
    by (apply role_ne; lia).
  rewrite (word_at_ne _ (role t 1) (role t 3)), (word_at_ne _ (role t 4) (role t 3))
    by (apply role_ne; lia).
  rewrite !word_at_eq by (rewrite ?length_insert; lia).
  rewrite sha_fn_fips. do 4 f_equal. f_equal. lia.
Qed.

Lemma rounds_view data n regs : (n <= 80)%nat -> length regs = 5%nat ->
  let '(regs', array') := sha_rounds data n (regs, replicate 16 0) in
  length regs' = 5%nat /\ rolling data array' n /\
  view n regs' = Fips.rounds (Fips.schedule data 80) n (view 0 regs).
Proof.
  intros Hn Hl. induction n as [|n IH].
  { cbn. split_and!; [done| |done]. split; [done|lia]. }
  specialize (IH ltac:(lia)). unfold sha_rounds, Fips.rounds in *.
  rewrite seq_S, !foldl_app. cbn [foldl Nat.add].
  destruct (foldl _ (regs, _) _) as [regs' array'] eqn:E. destruct IH as (Hl' & Hr & Hv).
  pose proof (round_view data n regs' array' Hl') as HR.
  destruct (sha_round data n _) as [regs2 array2] eqn:ER. assert (array2 = _) as -> by (by injection ER).
  destruct HR as [Hlen Hview]. split_and!; [done|by apply rolling_step|].
  rewrite Hview, Hv, (rolling_input data array' n) by (done || lia). done.
Qed.

Lemma length5 (l : list Z) : length l = 5%nat -> exists a b c d e, l = [a; b; c; d; e].
Proof. destruct l as [|? [|? [|? [|? [|? [|]]]]]]; try discriminate. eauto 10. Qed.

Lemma block_fips H data : length H = 5%nat -> blk_SHA1_Block H data = Fips.compress H data.
Proof.
  intros Hl. unfold blk_SHA1_Block, Fips.compress.
  pose proof (rounds_view data 80 H ltac:(lia) Hl) as HR.
  destruct (sha_rounds data 80 _) as [regs array]. destruct HR as (Hr & _ & Hv).
  change (view 0 H) with (Fips.of_list H) in Hv. rewrite <- Hv.
  destruct (length5 H Hl) as (? & ? & ? & ? & ? & ->).
  destruct (length5 regs Hr) as (? & ? & ? & ? & ? & ->). done.
Qed.

Lemma compress_length h data : length (Fips.compress h data) = 5%nat.
Proof. unfold Fips.compress. by destruct (Fips.rounds _ _ _) as [[[[? ?] ?] ?] ?]. Qed.

Lemma run_length n h msg : length h = 5%nat -> length (run_blocks Fips.compress n h msg) = 5%nat.
Proof.
  revert h msg; induction n as [|n IH]; intros h msg Hl; simpl; [done|].
  apply IH, compress_length.
Qed.

Lemma process_fips fuel h data : length h = 5%nat ->
  process_blocks blk_SHA1_Block fuel h data = process_blocks Fips.compress fuel h data.
Proof.
  revert h data; induction fuel as [|fuel IH]; intros h data Hl; cbn [process_blocks]; [done|].
  destruct (64 <=? length data)%nat; [|done].
  rewrite block_fips by done. apply IH, compress_length.
Qed.

(** ** The incremental interface *)

(** The context after absorbing [msg]. *)
Record sha_ok (ctx : blk_SHA_CTX) (msg : list Z) : Prop := {
  sha_ok_size : sha_size ctx = Z.of_nat (length msg);
  sha_ok_abs : absorbed Fips.compress sha1_H0 (sha_H ctx) (sha_W ctx) msg;
}.

Lemma land63 n : Z.to_nat (Z.land (Z.of_nat n) 63) = (n mod 64)%nat.
Proof.
  change 63 with (2 ^ 6 - 1). rewrite land_ones_mod by lia. change (2 ^ 6) with (Z.of_nat 64).
  rewrite <- Nat2Z.inj_mod. apply Nat2Z.id.
Qed.

Lemma sha_ok_H ctx msg : sha_ok ctx msg -> length (sha_H ctx) = 5%nat.
Proof. intros [_ [-> _ _]]. by apply run_length. Qed.

(** The part of [blk_SHA1_Update] after the buffer, when the buffer is empty. *)
Lemma update_blocks H W msg data : absorbed Fips.compress sha1_H0 H W msg ->
  (length msg mod 64 = 0)%nat ->
  let '(H', rest) := process_blocks blk_SHA1_Block (length data) H data in
  absorbed Fips.compress sha1_H0 H'
    (if (0 <? length rest)%nat then memcpy_at W 0 rest else W) (msg ++ data).
Proof.
  intros Ha Hm. assert (length H = 5%nat) by (destruct Ha as [-> _ _]; by apply run_length).
  rewrite process_fips, process_blocks_run by (done || by apply Nat.Div0.div_le_upper_bound; lia).
  pose proof (absorb_blocks _ _ _ _ _ data Ha Hm) as Hab.
  destruct (Nat.ltb_spec 0 (length (drop (64 * (length data / 64)) data))) as [_|Hz]; [done|].
  apply Nat.le_0_r, nil_length_inv in Hz. rewrite Hz in Hab. done.
Qed.

Lemma update_ok ctx msg data : sha_ok ctx msg ->
  Z.of_nat (length (msg ++ data)) < 2 ^ 64 ->
  sha_ok (blk_SHA1_Update ctx data) (msg ++ data).
Proof.
  intros Hok Hlt. pose proof (sha_ok_H _ _ Hok) as HH. destruct Hok as [Hs Ha].
  unfold blk_SHA1_Update. rewrite Hs, land63.
  assert (Hsz : wrap 64 (Z.of_nat (length msg) + Z.of_nat (length data)) = Z.of_nat (length (msg ++ data))).
  { rewrite length_app in *. rewrite wrap_small; lia. }
  rewrite Hsz. destruct (div_mod_64 (length msg)) as [_ Hm64].
  destruct (Nat.ltb_spec 0 (length msg mod 64)) as [Hpos|Hz].
  - rewrite land63. destruct (Nat.ltb_spec (length data) (64 - length msg mod 64)) as [Hshort|Hlong].
    + rewrite (take_ge data) by lia. rewrite Nat.mod_small by lia.
      destruct (Nat.ltb_spec 0 (length msg mod 64 + length data)); [|lia].
      split; [done|]. apply absorb_short; [done|lia].
    + replace (length msg mod 64 + (64 - length msg mod 64))%nat with 64%nat by lia.
      change (64 mod 64)%nat with 0%nat. cbn [Nat.ltb Nat.leb].
      set (k := (64 - length msg mod 64)%nat).
      assert (Hfill : (length msg mod 64 + length (take k data) = 64)%nat)
        by (rewrite length_take; unfold k; lia).
      pose proof (absorb_fill _ _ _ _ _ (take k data) Ha Hfill) as Hf.
      assert (Hm0 : (length (msg ++ take k data) mod 64 = 0)%nat).
      { rewrite length_app. destruct (div_mod_64 (length msg)) as [Hd _].
        symmetry. apply (Nat.mod_unique _ _ (length msg / 64 + 1)); lia. }
      rewrite block_fips by done.
      pose proof (update_blocks _ _ _ (drop k data) Hf Hm0) as Hu.
      destruct (process_blocks _ _ _ _) as [H' rest].
      rewrite <- app_assoc, take_drop in Hu. by split.
  - pose proof (update_blocks _ _ _ data Ha ltac:(lia)) as Hu.
    destruct (process_blocks _ _ _ _) as [H' rest]. by split.
Qed.

Lemma pad_take k : (k <= 63)%nat -> take (S k) sha1_pad = 128 :: replicate k 0.
Proof. intros Hk. unfold sha1_pad. rewrite firstn_cons, take_replicate. do 2 f_equal. lia. Qed.

Lemma final_ok ctx msg : sha_ok ctx msg -> Z.of_nat (length msg) < 2 ^ 61 ->
  blk_SHA1_Final ctx = Fips.sha1 msg.
Proof.
  intros Hok Hlt. pose proof Hok as [Hs _]. unfold blk_SHA1_Final, Fips.sha1. rewrite Hs.
  set (len := Z.of_nat (length msg)) in *.
  assert (Hi : Z.land 63 (55 - Z.land len 63) = (55 - len) mod 64).
  { rewrite Z.land_comm. change 63 with (2 ^ 6 - 1). rewrite !land_ones_mod by lia.
    change (2 ^ 6) with 64. lia_div. }
  assert (Hr : 0 <= (55 - len) mod 64 < 64) by (apply Z.mod_pos_bound; lia).
  rewrite Hi. replace (Z.to_nat (1 + (55 - len) mod 64)) with (S (Z.to_nat ((55 - len) mod 64))) by lia.
  rewrite pad_take by lia.
  assert (Hp : put_be32 (wrap 32 (Z.shiftr len 29)) ++ put_be32 (wrap 32 (wrap 64 (Z.shiftl len 3)))
    = put_be32 (wrap 64 (8 * len) / 2 ^ 32) ++ put_be32 (wrap 64 (8 * len) mod 2 ^ 32)).
  { rewrite Z.shiftr_div_pow2, Z.shiftl_mul_pow2 by lia. rewrite (wrap_small 64 (8 * len)) by lia.
    rewrite (wrap_small 64) by lia. unfold wrap. change (2 ^ 3) with 8. rewrite (Z.mul_comm len 8).
    f_equal. f_equal. change (2 ^ 29) with 536870912. change (2 ^ 32) with 4294967296. lia_div. }
  rewrite Hp. set (lenbytes := put_be32 _ ++ put_be32 _).
  assert (Hpad : (128 :: replicate (Z.to_nat ((55 - len) mod 64)) 0) ++ lenbytes = md_pad len) by done.
  pose proof (length_md_pad len) as Hplen. rewrite <- Hpad, length_app in Hplen.
  do 2 f_equal. apply (absorbed_final _ _ _ (sha_W (blk_SHA1_Update (blk_SHA1_Update ctx
    (128 :: replicate (Z.to_nat ((55 - len) mod 64)) 0)) lenbytes))).
  fold len. rewrite <- Hpad, app_assoc. apply update_ok; [apply update_ok|]; [done|..];
    rewrite !length_app; lia.
Qed.

(** One message in one piece. *)
Lemma sha1_one_piece W msg : length W = 64%nat -> Z.of_nat (length msg) < 2 ^ 61 ->
  blk_SHA1_Final (blk_SHA1_Update (blk_SHA1_Init W) msg) = Fips.sha1 msg.
Proof.
  intros HW Hl. apply final_ok; [|done]. apply (update_ok _ [] msg); [|simpl; lia].
  split; [done|]. by apply absorbed_init.
Qed.

Lemma put_be32_bytes v : Forall is_byte (put_be32 v).
Proof.
  assert (Hw : forall x, is_byte (wrap 8 x)) by (intros x; apply (wrap_range 8); lia).
  unfold put_be32. by repeat (apply Forall_cons; split).
Qed.

Lemma sha1_digest msg : length (Fips.sha1 msg) = 20%nat /\ Forall is_byte (Fips.sha1 msg).
Proof.
  unfold Fips.sha1, md_hash.
  pose proof (run_length (length (msg ++ md_pad (Z.of_nat (length msg))) / 64) sha1_H0
    (msg ++ md_pad (Z.of_nat (length msg))) eq_refl) as Hl.
  destruct (length5 _ Hl) as (a & b & c & d & e & ->). split; [done|].
  cbn [fmap list_fmap concat]. rewrite app_nil_r.
  repeat (apply Forall_app; split); apply put_be32_bytes.
Qed.

(** ** Properties *)

(** The in-place block function on rotating registers and a rolling array of
    16 words is the compression function of FIPS 180-4 with its 80 word
    schedule. *)
Theorem sha1_block_fips H data :
  length H = 5%nat -> blk_SHA1_Block H data = Fips.compress H data.
Proof. apply block_fips. Qed.

Lemma sha1_block_fips_witness :
  blk_SHA1_Block sha1_H0 (replicate 64 97) = Fips.compress sha1_H0 (replicate 64 97).
Proof. apply (sha1_block_fips sha1_H0 (replicate 64 97)). reflexivity. Defined.

(** C31. Feeding a message in any pieces to [blk_SHA1_Update] and finishing with
    [blk_SHA1_Final] gives the SHA-1 of FIPS 180-4 of the whole message, whatever
    the buffer held before. *)
Theorem sha1_incremental W chunks :
  length W = 64%nat -> Z.of_nat (length (concat chunks)) < 2 ^ 61 ->
  blk_SHA1_Final (foldl blk_SHA1_Update (blk_SHA1_Init W) chunks) = Fips.sha1 (concat chunks).
Proof.
  intros HW Hl. apply final_ok; [|done].
  assert (Hgen : forall chunks ctx msg, sha_ok ctx msg ->
    Z.of_nat (length (msg ++ concat chunks)) < 2 ^ 64 ->
    sha_ok (foldl blk_SHA1_Update ctx chunks) (msg ++ concat chunks)).
  { clear. intros chunks; induction chunks as [|c chunks IH]; intros ctx msg Hok Hlt; simpl.
    - by rewrite app_nil_r.
    - simpl in Hlt. rewrite app_assoc in Hlt |- *. apply IH; [|done].
      apply update_ok; [done|]. rewrite length_app in Hlt. lia. }
  apply (Hgen chunks _ []); [|simpl; lia]. split; [done|]. by apply absorbed_init.
Qed.

Lemma sha1_incremental_witness :
  blk_SHA1_Final (foldl blk_SHA1_Update (blk_SHA1_Init (replicate 64 255)) [cs "a"; []; cs "bc"])
  = [0xa9; 0x99; 0x3e; 0x36; 0x47; 0x06; 0x81; 0x6a; 0xba; 0x3e;
     0x25; 0x71; 0x78; 0x50; 0xc2; 0x6c; 0x9c; 0xd0; 0xd8; 0x9d].
Proof.
  etransitivity; [apply (sha1_incremental (replicate 64 255) [cs "a"; []; cs "bc"])
                 |vm_compute; reflexivity]; reflexivity.
Defined.
