(* ===== verification/Sha256.v ===== *)
(** * SHA-256 (packages/sha256/sha256.c)

    The source names [uint32] a type that is [unsigned long int]: 64 bits on
    LP64 targets.  Registers and hash words then carry bits above the 32 of
    FIPS 180-4; the model keeps them, and the proofs work modulo 2^32, a
    congruence for every operation the source applies to words. *)

From S2P Require Import Prelude MerkleDamgard.
From Stdlib Require Import Setoid Morphisms.

Record sha256_context := mk_sha256 {
  total0 : Z; total1 : Z; state : list Z; buffer : list Z }.

Definition u64_add (x y : Z) : Z := wrap 64 (x + y).

Definition SHR (x n : Z) : Z := Z.shiftr (Z.land x 0xFFFFFFFF) n.
Definition ROTR (x n : Z) : Z := Z.lor (SHR x n) (wrap 64 (Z.shiftl x (32 - n))).
Definition S0 (x : Z) : Z := Z.lxor (Z.lxor (ROTR x 7) (ROTR x 18)) (SHR x 3).
Definition S1 (x : Z) : Z := Z.lxor (Z.lxor (ROTR x 17) (ROTR x 19)) (SHR x 10).
Definition S2 (x : Z) : Z := Z.lxor (Z.lxor (ROTR x 2) (ROTR x 13)) (ROTR x 22).
Definition S3 (x : Z) : Z := Z.lxor (Z.lxor (ROTR x 6) (ROTR x 11)) (ROTR x 25).
Definition F0 (x y z : Z) : Z := Z.lor (Z.land x y) (Z.land z (Z.lor x y)).
Definition F1 (x y z : Z) : Z := Z.lxor z (Z.land x (Z.lxor y z)).

(** The constants, in the order of the calls of [P]. *)
Definition sha256_K : list Z :=
  [0x428A2F98; 0x71374491; 0xB5C0FBCF; 0xE9B5DBA5; 0x3956C25B; 0x59F111F1; 0x923F82A4; 0xAB1C5ED5;
   0xD807AA98; 0x12835B01; 0x243185BE; 0x550C7DC3; 0x72BE5D74; 0x80DEB1FE; 0x9BDC06A7; 0xC19BF174;
   0xE49B69C1; 0xEFBE4786; 0x0FC19DC6; 0x240CA1CC; 0x2DE92C6F; 0x4A7484AA; 0x5CB0A9DC; 0x76F988DA;
   0x983E5152; 0xA831C66D; 0xB00327C8; 0xBF597FC7; 0xC6E00BF3; 0xD5A79147; 0x06CA6351; 0x14292967;
   0x27B70A85; 0x2E1B2138; 0x4D2C6DFC; 0x53380D13; 0x650A7354; 0x766A0ABB; 0x81C2C92E; 0x92722C85;
   0xA2BFE8A1; 0xA81A664B; 0xC24B8B70; 0xC76C51A3; 0xD192E819; 0xD6990624; 0xF40E3585; 0x106AA070;
   0x19A4C116; 0x1E376C08; 0x2748774C; 0x34B0BCB5; 0x391C0CB3; 0x4ED8AA4A; 0x5B9CCA4F; 0x682E6FF3;
   0x748F82EE; 0x78A5636F; 0x84C87814; 0x8CC70208; 0x90BEFFFA; 0xA4506CEB; 0xBEF9A3F7; 0xC67178F2].

(** [W[t]]: read from the data for the first 16 rounds, computed by [R(t)]
    after. *)
Definition sha256_word (data W : list Z) (t : nat) : Z :=
  if (t <? 16)%nat then get_be32 data (4 * t)
  else u64_add (u64_add (u64_add (S1 (word_at W (t - 2))) (word_at W (t - 7)))
                  (S0 (word_at W (t - 15)))) (word_at W (t - 16)).

(** The register that plays role [k] (A is 0, ..., H is 7) in round [t]: the
    calls are P(A,B,...,H), P(H,A,...,G), P(G,H,A,...), ... *)
Definition role8 (t k : nat) : nat := (k + 7 * t) mod 8.

(** [P], with the word computed and stored first. *)
Definition sha256_round (data : list Z) (t : nat) (st : list Z * list Z) : list Z * list Z :=
  let '(regs, W) := st in
  let r k := word_at regs (role8 t k) in
  let x := sha256_word data W t in
  let temp1 := u64_add (u64_add (u64_add (u64_add (r 7%nat) (S3 (r 4%nat)))
                 (F1 (r 4%nat) (r 5%nat) (r 6%nat))) (word_at sha256_K t)) x in
  let temp2 := u64_add (S2 (r 0%nat)) (F0 (r 0%nat) (r 1%nat) (r 2%nat)) in
  (<[role8 t 7 := u64_add temp1 temp2]> (<[role8 t 3 := u64_add (r 3%nat) temp1]> regs), W ++ [x]).

Definition sha256_rounds (data : list Z) (n : nat) (st : list Z * list Z) : list Z * list Z :=
  foldl (fun st t => sha256_round data t st) st (seq 0 n).

Definition sha256_process (st data : list Z) : list Z :=
  let '(regs, _) := sha256_rounds data 64 (st, []) in
  zip_with u64_add st regs.

Definition sha256_H0 : list Z :=
  [0x6A09E667; 0xBB67AE85; 0x3C6EF372; 0xA54FF53A; 0x510E527F; 0x9B05688C; 0x1F83D9AB; 0x5BE0CD19].

(** [buffer] holds whatever the caller's context held. *)
Definition sha256_starts (buf : list Z) : sha256_context := mk_sha256 0 0 sha256_H0 buf.

Definition sha256_update (ctx : sha256_context) (input : list Z) : sha256_context :=
  let len := Z.of_nat (length input) in
  if len =? 0 then ctx
  else
    let left := Z.to_nat (Z.land (total0 ctx) 0x3F) in
    let fill := (64 - left)%nat in
    let t0 := Z.land (u64_add (total0 ctx) len) 0xFFFFFFFF in
    let t1 := if t0 <? len then u64_add (total1 ctx) 1 else total1 ctx in
    let '(st, buf, off, input) :=
      if (0 <? left)%nat && (fill <=? length input)%nat then
        let buf := memcpy_at (buffer ctx) left (take fill input) in
        (sha256_process (state ctx) buf, buf, 0%nat, drop fill input)
      else (state ctx, buffer ctx, left, input) in
    let '(st, rest) := process_blocks sha256_process (length input) st input in
    mk_sha256 t0 t1 st (if (0 <? length rest)%nat then memcpy_at buf off rest else buf).

Definition sha256_padding : list Z := 0x80 :: replicate 63 0.

Definition sha256_finish (ctx : sha256_context) : list Z :=
  let high := Z.lor (Z.shiftr (total0 ctx) 29) (wrap 64 (Z.shiftl (total1 ctx) 3)) in
  let low := wrap 64 (Z.shiftl (total0 ctx) 3) in
  let msglen := put_be32 high ++ put_be32 low in
  let last := Z.land (total0 ctx) 0x3F in
  let padn := if last <? 56 then 56 - last else 120 - last in
  let ctx := sha256_update ctx (take (Z.to_nat padn) sha256_padding) in
  let ctx := sha256_update ctx msglen in
  concat (put_be32 <$> state ctx).

(** [sha256->encode]. *)
Definition sha256_encode (buf data_in : list Z) : list Z :=
  sha256_finish (sha256_update (sha256_starts buf) data_in).

(** ** FIPS 180-4, section 6.2 *)
Module Fips256.
Definition shr (x n : Z) : Z := Z.shiftr x n.
Definition sigma0 (x : Z) : Z := Z.lxor (Z.lxor (rotr32 x 7) (rotr32 x 18)) (shr x 3).
Definition sigma1 (x : Z) : Z := Z.lxor (Z.lxor (rotr32 x 17) (rotr32 x 19)) (shr x 10).
Definition Sigma0 (x : Z) : Z := Z.lxor (Z.lxor (rotr32 x 2) (rotr32 x 13)) (rotr32 x 22).
Definition Sigma1 (x : Z) : Z := Z.lxor (Z.lxor (rotr32 x 6) (rotr32 x 11)) (rotr32 x 25).
Definition Ch (x y z : Z) : Z := Z.lxor (Z.land x y) (Z.land (Z.lnot x) z).
Definition Maj (x y z : Z) : Z := Z.lxor (Z.lxor (Z.land x y) (Z.land x z)) (Z.land y z).

Definition word (data ws : list Z) (t : nat) : Z :=
  if (t <? 16)%nat then get_be32 data (4 * t)
  else wrap 32 (sigma1 (word_at ws (t - 2)) + word_at ws (t - 7)
                + sigma0 (word_at ws (t - 15)) + word_at ws (t - 16)).

Fixpoint schedule (data : list Z) (n : nat) : list Z :=
  match n with
  | O => []
  | S n' => let ws := schedule data n' in ws ++ [word data ws n']
  end.

(** The working variables, [a] first. *)
Definition round (w : Z) (t : nat) (v : list Z) : list Z :=
  match v with
  | [a; b; c; d; e; f; g; h] =>
      let T1 := h + Sigma1 e + Ch e f g + word_at sha256_K t + w in
      let T2 := Sigma0 a + Maj a b c in
      [wrap 32 (T1 + T2); a; b; c; wrap 32 (d + T1); e; f; g]
  | _ => v
  end.

Definition rounds (ws : list Z) (n : nat) (v : list Z) : list Z :=
  foldl (fun v t => round (word_at ws t) t v) v (seq 0 n).

Definition compress (h data : list Z) : list Z :=
  zip_with (fun x y => wrap 32 (x + y)) h (rounds (schedule data 64) 64 h).

Definition sha256 (msg : list Z) : list Z :=
  concat (put_be32 <$> md_hash compress sha256_H0 msg).
End Fips256.

(** ** Congruence modulo 2^32 *)

Definition eqm (x y : Z) : Prop := wrap 32 x = wrap 32 y.
Infix "≈" := eqm (at level 70) : duda_scope.

#[export] Instance eqm_equiv : Equivalence eqm.
Proof. split; unfold eqm; [intros ?|intros ? ?|intros ? ? ?]; congruence. Qed.

Lemma eqm_bits x y : x ≈ y <-> forall n, 0 <= n < 32 -> Z.testbit x n = Z.testbit y n.
Proof.
  unfold eqm, wrap. split.
  - intros H n Hn. rewrite <- (Z.mod_pow2_bits_low x 32), <- (Z.mod_pow2_bits_low y 32) by lia.
    by rewrite H.
  - intros H. apply Z.bits_inj'. intros n Hn. destruct (Z.lt_ge_cases n 32).
    + rewrite !Z.mod_pow2_bits_low by lia. apply H. lia.
    + by rewrite !Z.mod_pow2_bits_high by lia.
Qed.

Ltac eqm_bitwise :=
  let x := fresh in let x' := fresh in let Hx := fresh in
  let y := fresh in let y' := fresh in let Hy := fresh in
  intros x x' Hx y y' Hy; rewrite eqm_bits in *; intros n Hn;
  rewrite ?Z.lxor_spec, ?Z.land_spec, ?Z.lor_spec; by rewrite Hx, Hy.

#[export] Instance eqm_land : Proper (eqm ==> eqm ==> eqm) Z.land.
Proof. eqm_bitwise. Qed.
#[export] Instance eqm_lor : Proper (eqm ==> eqm ==> eqm) Z.lor.
Proof. eqm_bitwise. Qed.
#[export] Instance eqm_lxor : Proper (eqm ==> eqm ==> eqm) Z.lxor.
Proof. eqm_bitwise. Qed.

#[export] Instance eqm_add : Proper (eqm ==> eqm ==> eqm) Z.add.
Proof.
  intros x x' Hx y y' Hy. unfold eqm, wrap in *. by rewrite Z.add_mod, Hx, Hy, <- Z.add_mod by lia.
Qed.

Lemma eqm_wrap32 x : wrap 32 x ≈ x.
Proof. unfold eqm, wrap. by rewrite Z.mod_mod by lia. Qed.

Lemma eqm_wrap64 x : wrap 64 x ≈ x.
Proof.
  apply eqm_bits. intros n Hn. unfold wrap. by rewrite Z.mod_pow2_bits_low by lia.
Qed.

#[export] Instance eqm_u64_add : Proper (eqm ==> eqm ==> eqm) u64_add.
Proof. intros x x' Hx y y' Hy. unfold u64_add. rewrite !eqm_wrap64. by rewrite Hx, Hy. Qed.

Lemma u64_add_eqm x y : u64_add x y ≈ x + y.
Proof. apply eqm_wrap64. Qed.

Lemma eqm_shiftl x y n : 0 <= n -> x ≈ y -> Z.shiftl x n ≈ Z.shiftl y n.
Proof.
  intros Hn H. rewrite eqm_bits in *. intros i Hi. rewrite !Z.shiftl_spec by lia.
  destruct (Z.lt_ge_cases i n); [by rewrite !Z.testbit_neg_r by lia|]. apply H. lia.
Qed.

Lemma SHR_wrap x n : SHR x n = Z.shiftr (wrap 32 x) n.
Proof. unfold SHR, wrap. by rewrite <- (land_ones_mod x 32) by lia. Qed.

#[export] Instance eqm_SHR : Proper (eqm ==> eq ==> eq) SHR.
Proof. intros x x' Hx n n' <-. by rewrite !SHR_wrap, Hx. Qed.

Lemma ROTR_rotr x n : 0 <= n <= 32 -> ROTR x n ≈ rotr32 (wrap 32 x) n.
Proof.
  intros Hn. unfold ROTR, rotr32, rotl32. rewrite eqm_wrap32, eqm_wrap64, SHR_wrap, Z.lor_comm.
  replace (32 - (32 - n)) with n by lia.
  apply eqm_lor; [|done]. apply eqm_shiftl; [lia|]. symmetry. apply eqm_wrap32.
Qed.

(** ** The functions of a round *)

Lemma S0_sigma x y : x ≈ y -> 0 <= y < 2 ^ 32 -> S0 x ≈ Fips256.sigma0 y.
Proof.
  intros H Hy. assert (E : wrap 32 x = y) by (rewrite H; by apply wrap_small).
  unfold S0, Fips256.sigma0, Fips256.shr. rewrite !ROTR_rotr, SHR_wrap, E by lia. done.
Qed.
Lemma S1_sigma x y : x ≈ y -> 0 <= y < 2 ^ 32 -> S1 x ≈ Fips256.sigma1 y.
Proof.
  intros H Hy. assert (E : wrap 32 x = y) by (rewrite H; by apply wrap_small).
  unfold S1, Fips256.sigma1, Fips256.shr. rewrite !ROTR_rotr, SHR_wrap, E by lia. done.
Qed.
Lemma S2_Sigma x y : x ≈ y -> 0 <= y < 2 ^ 32 -> S2 x ≈ Fips256.Sigma0 y.
Proof.
  intros H Hy. assert (E : wrap 32 x = y) by (rewrite H; by apply wrap_small).
  unfold S2, Fips256.Sigma0. rewrite !ROTR_rotr, E by lia. done.
Qed.
Lemma S3_Sigma x y : x ≈ y -> 0 <= y < 2 ^ 32 -> S3 x ≈ Fips256.Sigma1 y.
Proof.
  intros H Hy. assert (E : wrap 32 x = y) by (rewrite H; by apply wrap_small).
  unfold S3, Fips256.Sigma1. rewrite !ROTR_rotr, E by lia. done.
Qed.

Lemma F0_Maj x y z : F0 x y z = Fips256.Maj x y z.
Proof. unfold F0, Fips256.Maj. bitwise. Qed.

Lemma F1_Ch x y z : F1 x y z = Fips256.Ch x y z.
Proof. unfold F1, Fips256.Ch. bitwise. Qed.

#[export] Instance eqm_lnot : Proper (eqm ==> eqm) Z.lnot.
Proof.
  intros x y H. rewrite eqm_bits in *. intros n Hn. by rewrite !Z.lnot_spec, H by lia.
Qed.

#[export] Instance eqm_Ch : Proper (eqm ==> eqm ==> eqm ==> eqm) Fips256.Ch.
Proof. intros x x' Hx y y' Hy z z' Hz. unfold Fips256.Ch. by rewrite Hx, Hy, Hz. Qed.

#[export] Instance eqm_Maj : Proper (eqm ==> eqm ==> eqm ==> eqm) Fips256.Maj.
Proof. intros x x' Hx y y' Hy z z' Hz. unfold Fips256.Maj. by rewrite Hx, Hy, Hz. Qed.

(** Words of the model against words of the specification. *)
Definition wrel (x y : Z) : Prop := x ≈ y /\ 0 <= y < 2 ^ 32.

Lemma wrel_wrap x y : x ≈ y -> wrel x (wrap 32 y).
Proof. intros H. split; [by rewrite eqm_wrap32|]. by apply wrap_range. Qed.

Lemma wrel_word_at l l' i : Forall2 wrel l l' -> wrel (word_at l i) (word_at l' i).
Proof.
  intros H. revert i; induction H as [|x y l l' Hx H IH]; intros i; [done|].
  destruct i; [done|]. apply IH.
Qed.

Lemma word_rel data W ws t : Forall is_byte data -> Forall2 wrel W ws ->
  wrel (sha256_word data W t) (Fips256.word data ws t).
Proof.
  intros Hd HW. unfold sha256_word, Fips256.word. destruct (t <? 16)%nat.
  - split; [done|by apply get_be32_range].
  - destruct (wrel_word_at W ws (t - 2) HW), (wrel_word_at W ws (t - 7) HW),
      (wrel_word_at W ws (t - 15) HW), (wrel_word_at W ws (t - 16) HW).
    apply wrel_wrap. rewrite !u64_add_eqm.
    repeat apply eqm_add; auto using S0_sigma, S1_sigma.
Qed.

(** ** The rounds *)

Lemma sha256_schedule_length data n : length (Fips256.schedule data n) = n.
Proof. induction n as [|n IH]; simpl; [done|]. rewrite length_app, IH. simpl. lia. Qed.

Lemma sha256_schedule_prefix data i n : (i <= n)%nat ->
  Fips256.schedule data i `prefix_of` Fips256.schedule data n.
Proof. induction 1 as [|n _ IH]; [done|]. simpl. by apply prefix_app_r. Qed.

Lemma sha256_schedule_at data i n : (i < n)%nat ->
  word_at (Fips256.schedule data n) i = Fips256.word data (Fips256.schedule data i) i.
Proof.
  intros Hi. unfold word_at. destruct (sha256_schedule_prefix data (S i) n Hi) as [k ->].
  cbn [Fips256.schedule].
  rewrite <- app_assoc, lookup_app_r by (rewrite sha256_schedule_length; done).
  by rewrite sha256_schedule_length, Nat.sub_diag.
Qed.

(** The registers, in the order of their roles at round [t]. *)
Definition view (t : nat) (regs : list Z) : list Z :=
  (fun k => word_at regs (role8 t k)) <$> seq 0 8.

Lemma role8_shift t k : role8 (S t) (S k) = role8 t k.
Proof. unfold role8. apply nat_mod_eq; [lia|]. exists 1%nat. lia. Qed.

Lemma role8_wrap t : role8 (S t) 0 = role8 t 7.
Proof. unfold role8. f_equal. lia. Qed.

Lemma role8_lt t k : (role8 t k < 8)%nat.
Proof. apply Nat.mod_upper_bound. lia. Qed.

Lemma role8_ne t j k : (j < 8)%nat -> (k < 8)%nat -> j <> k -> role8 t j <> role8 t k.
Proof.
  intros Hj Hk Hne E. unfold role8 in E.
  pose proof (Nat.div_mod (j + 7 * t) 8). pose proof (Nat.div_mod (k + 7 * t) 8). lia.
Qed.

(** The in-place round on the view. *)
Lemma sha256_round_view data t regs W : length regs = 8%nat ->
  let r k := word_at regs (role8 t k) in
  let x := sha256_word data W t in
  let temp1 := u64_add (u64_add (u64_add (u64_add (r 7%nat) (S3 (r 4%nat)))
                 (F1 (r 4%nat) (r 5%nat) (r 6%nat))) (word_at sha256_K t)) x in
  let temp2 := u64_add (S2 (r 0%nat)) (F0 (r 0%nat) (r 1%nat) (r 2%nat)) in
  length (sha256_round data t (regs, W)).1 = 8%nat /\
  view (S t) (sha256_round data t (regs, W)).1 =
  [u64_add temp1 temp2; r 0%nat; r 1%nat; r 2%nat; u64_add (r 3%nat) temp1;
   r 4%nat; r 5%nat; r 6%nat].
Proof.
  intros Hl r x temp1 temp2. cbn [sha256_round fst].
  split; [by rewrite !length_insert|].
  pose proof (role8_lt t 7). pose proof (role8_lt t 3).
  unfold view. cbn [seq fmap list_fmap]. rewrite role8_wrap, !role8_shift.
  rewrite word_at_eq by (rewrite length_insert; lia).
  rewrite !(word_at_ne _ (role8 t 7)) by (apply role8_ne; lia).
  rewrite word_at_eq by lia.
  rewrite !(word_at_ne _ (role8 t 3)) by (apply role8_ne; lia). done.
Qed.

Lemma round_rel data t regs W v ws : Forall is_byte data -> length regs = 8%nat ->
  Forall2 wrel W ws -> Forall2 wrel (view t regs) v ->
  Forall2 wrel (view (S t) (sha256_round data t (regs, W)).1)
    (Fips256.round (Fips256.word data ws t) t v).
Proof.
  intros Hd Hl HW Hv. destruct (sha256_round_view data t regs W Hl) as [_ ->].
  unfold view in Hv. cbn [seq fmap list_fmap] in Hv.
  repeat match goal with
  | H : Forall2 wrel (_ :: _) _ |- _ => apply Forall2_cons_inv_l in H as (? & ? & ? & ? & ->)
  | H : Forall2 wrel [] _ |- _ => apply Forall2_nil_inv_l in H as ->
  | H : wrel _ _ |- _ => destruct H
  end.
  destruct (word_rel data W ws t Hd HW) as [Hw _]. cbn [Fips256.round].
  repeat apply List.Forall2_cons; try (apply List.Forall2_nil); try (split; assumption);
    apply wrel_wrap; rewrite !u64_add_eqm, F1_Ch, ?F0_Maj;
    repeat first [apply eqm_add | apply eqm_Ch | apply eqm_Maj | assumption | reflexivity
                 | apply S3_Sigma | apply S2_Sigma].
Qed.

Lemma rounds_rel data n regs v : Forall is_byte data -> (n <= 64)%nat -> length regs = 8%nat ->
  Forall2 wrel (view 0 regs) v ->
  let '(regs', W') := sha256_rounds data n (regs, []) in
  length regs' = 8%nat /\ Forall2 wrel W' (Fips256.schedule data n) /\
  Forall2 wrel (view n regs') (Fips256.rounds (Fips256.schedule data 64) n v).
Proof.
  intros Hd Hn Hl Hv. induction n as [|n IH].
  { cbn. split_and!; [done|apply List.Forall2_nil|done]. }
  specialize (IH ltac:(lia)). unfold sha256_rounds, Fips256.rounds in *.
  rewrite seq_S, !foldl_app. cbn [foldl Nat.add].
  destruct (foldl _ (regs, _) _) as [regs' W'] eqn:E. destruct IH as (Hl' & HW & Hv').
  destruct (sha256_round_view data n regs' W' Hl') as [Hlen _].
  pose proof (round_rel data n regs' W' _ _ Hd Hl' HW Hv') as Hr.
  pose proof (word_rel data W' _ n Hd HW) as Hw.
  rewrite <- (sha256_schedule_at data n 64) in Hr by lia.
  destruct (sha256_round data n (regs', W')) as [regs2 W2] eqn:ER.
  assert (W2 = W' ++ [sha256_word data W' n]) as -> by (by injection ER).
  split_and!; [done| |done]. cbn [Fips256.schedule].
  apply Forall2_app; [done|]. by apply List.Forall2_cons.
Qed.

Lemma length8 {A} (l : list A) : length l = 8%nat ->
  exists a b c d e f g h, l = [a; b; c; d; e; f; g; h].
Proof. destruct l as [|? [|? [|? [|? [|? [|? [|? [|? [|]]]]]]]]]; try discriminate. eauto 10. Qed.

Lemma view_id n regs : length regs = 8%nat -> (n mod 8 = 0)%nat -> view n regs = regs.
Proof.
  intros Hl Hn. destruct (length8 regs Hl) as (? & ? & ? & ? & ? & ? & ? & ? & ->).
  unfold view. assert (forall k, (k < 8)%nat -> role8 n k = k) as Hr.
  { intros k Hk. unfold role8. pose proof (Nat.div_mod n 8).
    replace (k + 7 * n)%nat with (k + (7 * (n / 8)) * 8)%nat by lia.
    rewrite Nat.Div0.mod_add. by apply Nat.mod_small. }
  cbn [seq fmap list_fmap]. by rewrite !Hr by lia.
Qed.

(** One block, on related hash values. *)
Lemma process_rel h h' data : Forall is_byte data -> length h = 8%nat -> Forall2 wrel h h' ->
  length (sha256_process h data) = 8%nat /\
  Forall2 wrel (sha256_process h data) (Fips256.compress h' data).
Proof.
  intros Hd Hl Hh. unfold sha256_process, Fips256.compress.
  pose proof (rounds_rel data 64 h h' Hd ltac:(lia) Hl) as HR.
  rewrite (view_id 0) in HR by done. specialize (HR Hh).
  destruct (sha256_rounds data 64 _) as [regs W]. destruct HR as (Hr & _ & Hv).
  rewrite view_id in Hv by done. split; [by rewrite length_zip_with, Hl, Hr|].
  clear -Hh Hv. revert Hv. generalize (Fips256.rounds (Fips256.schedule data 64) 64 h').
  revert regs. induction Hh as [|x y l l' [Hx Hy] _ IH]; intros regs v Hv; [apply List.Forall2_nil|].
  destruct Hv as [|r r' rs rs' [Hr Hr'] Hv]; [apply List.Forall2_nil|]. cbn [zip_with].
  apply List.Forall2_cons; [|by apply IH]. apply wrel_wrap. rewrite u64_add_eqm.
  by apply eqm_add.
Qed.

(** ** The incremental interface *)

Record ctx_ok (ctx : sha256_context) (msg : list Z) : Prop := {
  ok_total0 : total0 ctx = Z.of_nat (length msg) mod 2 ^ 32;
  ok_total1 : total1 ctx = Z.of_nat (length msg) / 2 ^ 32;
  ok_absorbed : absorbed sha256_process sha256_H0 (state ctx) (buffer ctx) msg;
}.

Lemma left_of msg ctx : ctx_ok ctx msg ->
  Z.to_nat (Z.land (total0 ctx) 0x3F) = (length msg mod 64)%nat.
Proof.
  intros [-> _ _]. change 0x3F with (2 ^ 6 - 1). rewrite land_ones_mod by lia.
  apply Nat2Z.inj. rewrite Z2Nat.id, Nat2Z.inj_mod by (apply Z.mod_pos_bound; lia).
  change (2 ^ 32) with 4294967296. change (2 ^ 6) with 64. change (Z.of_nat 64) with 64. lia_div.
Qed.

(** The two counters are the 64-bit count of bytes. *)
Lemma totals_step n len : 0 <= n -> 0 <= len < 2 ^ 32 -> n + len < 2 ^ 64 ->
  let t0 := Z.land (u64_add (n mod 2 ^ 32) len) 0xFFFFFFFF in
  t0 = (n + len) mod 2 ^ 32 /\
  (if t0 <? len then u64_add (n / 2 ^ 32) 1 else n / 2 ^ 32) = (n + len) / 2 ^ 32.
Proof.
  intros Hn Hl Hs. change 0xFFFFFFFF with (2 ^ 32 - 1). rewrite land_ones_mod by lia.
  unfold u64_add. change (2 ^ 32) with 4294967296 in *. change (2 ^ 64) with 18446744073709551616 in *.
  assert (0 <= n mod 4294967296 < 4294967296) by (apply Z.mod_pos_bound; lia).
  rewrite (wrap_small 64 (n mod 4294967296 + len)) by (change (2 ^ 64) with 18446744073709551616; lia).
  rewrite (wrap_small 64 (n / 4294967296 + 1))
    by (change (2 ^ 64) with 18446744073709551616; lia_div).
  split; [lia_div|]. dbool; lia_div.
Qed.

Lemma sha256_update_blocks st buf msg input : absorbed sha256_process sha256_H0 st buf msg ->
  (length msg mod 64 = 0)%nat ->
  let '(st', rest) := process_blocks sha256_process (length input) st input in
  absorbed sha256_process sha256_H0 st'
    (if (0 <? length rest)%nat then memcpy_at buf 0 rest else buf) (msg ++ input).
Proof.
  intros Ha Hm. rewrite process_blocks_run by (apply Nat.Div0.div_le_upper_bound; lia).
  pose proof (absorb_blocks _ _ _ _ _ input Ha Hm) as Hab.
  destruct (Nat.ltb_spec 0 (length (drop (64 * (length input / 64)) input))) as [_|Hz]; [done|].
  apply Nat.le_0_r, nil_length_inv in Hz. rewrite Hz in Hab. done.
Qed.

Lemma sha256_update_ok ctx msg input : ctx_ok ctx msg -> Z.of_nat (length input) < 2 ^ 32 ->
  Z.of_nat (length (msg ++ input)) < 2 ^ 64 ->
  ctx_ok (sha256_update ctx input) (msg ++ input).
Proof.
  intros Hok Hin Hlt. unfold sha256_update.
  destruct (Z.eqb_spec (Z.of_nat (length input)) 0) as [Hz|Hnz].
  { destruct input; [by rewrite app_nil_r|simpl in Hz; lia]. }
  rewrite (left_of msg ctx Hok). destruct Hok as [H0 H1 Ha].
  destruct (totals_step (Z.of_nat (length msg)) (Z.of_nat (length input))) as [Ht0 Ht1];
    [lia|lia|rewrite length_app in Hlt; lia|].
  rewrite <- H0 in Ht0, Ht1. rewrite <- H1 in Ht1.
  assert (Hlen : Z.of_nat (length msg) + Z.of_nat (length input) = Z.of_nat (length (msg ++ input)))
    by (rewrite length_app; lia). rewrite Hlen in Ht0, Ht1.
  destruct (div_mod_64 (length msg)) as [Hd Hm64].
  destruct (Nat.ltb_spec 0 (length msg mod 64)) as [Hpos|Hzero]; cbn [andb].
  - destruct (Nat.leb_spec (64 - length msg mod 64) (length input)) as [Hfull|Hshort].
    + set (k := (64 - length msg mod 64)%nat) in *.
      assert (Hfill : (length msg mod 64 + length (take k input) = 64)%nat)
        by (rewrite length_take; unfold k in *; lia).
      pose proof (absorb_fill _ _ _ _ _ (take k input) Ha Hfill) as Hf.
      assert (Hm0 : (length (msg ++ take k input) mod 64 = 0)%nat).
      { rewrite length_app. symmetry. apply (Nat.mod_unique _ _ (length msg / 64 + 1)); lia. }
      pose proof (sha256_update_blocks _ _ _ (drop k input) Hf Hm0) as Hu.
      destruct (process_blocks _ _ _ _) as [st rest].
      rewrite <- app_assoc, take_drop in Hu. split; cbn [total0 total1 state buffer]; done.
    + rewrite process_blocks_run by (apply Nat.Div0.div_le_upper_bound; lia).
      rewrite Nat.div_small by lia. rewrite Nat.mul_0_r, drop_0. cbn [run_blocks].
      destruct (Nat.ltb_spec 0 (length input)); [|lia].
      split; cbn [total0 total1 state buffer]; [done|done|]. apply absorb_short; [done|lia].
  - pose proof (sha256_update_blocks _ _ _ input Ha ltac:(lia)) as Hu.
    replace (length msg mod 64)%nat with 0%nat by lia.
    destruct (process_blocks _ _ _ _) as [st rest].
    split; cbn [total0 total1 state buffer]; done.
Qed.

Lemma sha256_pad_take k : (k <= 63)%nat -> take (S k) sha256_padding = 128 :: replicate k 0.
Proof. intros Hk. unfold sha256_padding. rewrite firstn_cons, take_replicate. do 2 f_equal. lia. Qed.

(** The padding written by [sha256_finish] is the one of FIPS 180. *)
Lemma finish_padding n : 0 <= n < 2 ^ 61 ->
  let t0 := n mod 2 ^ 32 in let t1 := n / 2 ^ 32 in
  let last := Z.land t0 0x3F in
  take (Z.to_nat (if last <? 56 then 56 - last else 120 - last)) sha256_padding ++
  put_be32 (Z.lor (Z.shiftr t0 29) (wrap 64 (Z.shiftl t1 3))) ++ put_be32 (wrap 64 (Z.shiftl t0 3))
  = md_pad n.
Proof.
  intros Hn t0 t1 last. assert (Ht0 : 0 <= t0 < 2 ^ 32) by (apply Z.mod_pos_bound; lia).
  assert (Hlast : last = n mod 64).
  { unfold last. change 0x3F with (2 ^ 6 - 1). rewrite land_ones_mod by lia.
    unfold t0. change (2 ^ 32) with 4294967296. change (2 ^ 6) with 64. lia_div. }
  assert (Hr : 0 <= (55 - n) mod 64 < 64) by (apply Z.mod_pos_bound; lia).
  replace (Z.to_nat (if last <? 56 then 56 - last else 120 - last))
    with (S (Z.to_nat ((55 - n) mod 64))) by (rewrite Hlast; dbool; lia_div).
  rewrite sha256_pad_take by lia. unfold md_pad. rewrite <- app_comm_cons. do 2 f_equal.
  rewrite (wrap_small 64 (8 * n)) by lia. rewrite Z.shiftr_div_pow2, Z.shiftl_mul_pow2 by lia.
  assert (0 <= t1 < 2 ^ 29) by (unfold t1; split; [apply Z.div_pos; lia|apply Z.div_lt_upper_bound; lia]).
  rewrite (wrap_small 64 (t1 * _)), (wrap_small 64 (Z.shiftl t0 3)) by (rewrite ?Z.shiftl_mul_pow2; lia).
  f_equal.
  - f_equal. rewrite Z.lor_comm, <- Z.shiftl_mul_pow2, lor_shiftl_add by (lia || lia_div).
    unfold t0, t1. change (2 ^ 32) with 4294967296. change (2 ^ 29) with 536870912.
    change (2 ^ 3) with 8. lia_div.
  - rewrite <- (put_be32_wrap (Z.shiftl t0 3)). f_equal. unfold wrap.
    rewrite Z.shiftl_mul_pow2 by lia. unfold t0. change (2 ^ 32) with 4294967296.
    change (2 ^ 3) with 8. lia_div.
Qed.

Lemma put_state_rel st st' : Forall2 wrel st st' ->
  concat (put_be32 <$> st) = concat (put_be32 <$> st').
Proof.
  induction 1 as [|x y l l' [Hx Hy] _ IH]; [done|].
  change (put_be32 x ++ concat (put_be32 <$> l) = put_be32 y ++ concat (put_be32 <$> l')).
  rewrite IH. f_equal. by rewrite <- (put_be32_wrap x), <- (put_be32_wrap y), Hx.
Qed.

Lemma sha256_finish_ok ctx msg : ctx_ok ctx msg -> Forall is_byte msg -> Z.of_nat (length msg) < 2 ^ 61 ->
  sha256_finish ctx = Fips256.sha256 msg.
Proof.
  intros Hok Hb Hlt. pose proof Hok as [H0 H1 _]. unfold sha256_finish, Fips256.sha256.
  rewrite H0, H1. set (n := Z.of_nat (length msg)) in *.
  pose proof (finish_padding n ltac:(lia)) as Hpad. cbv zeta in Hpad.
  set (p1 := take _ sha256_padding) in *. set (p2 := put_be32 _ ++ put_be32 _) in *.
  pose proof (length_md_pad n) as Hplen. rewrite <- Hpad, length_app in Hplen.
  assert (0 <= (55 - n) mod 64 < 64) by (apply Z.mod_pos_bound; lia).
  assert (Hfin : ctx_ok (sha256_update (sha256_update ctx p1) p2) (msg ++ md_pad n)).
  { rewrite <- Hpad, app_assoc. apply sha256_update_ok; [apply sha256_update_ok|..]; try done;
      rewrite ?length_app; lia. }
  destruct Hfin as [_ _ Hfin]. apply absorbed_final in Hfin. rewrite Hfin.
  apply put_state_rel. unfold md_hash.
  apply (run_blocks_rel _ _ (fun h h' => length h = 8%nat /\ Forall2 wrel h h')).
  - intros h h' data Hd [Hl Hh]. by apply process_rel.
  - apply Forall_app; split; [done|apply md_pad_bytes].
  - split; [done|]. repeat apply List.Forall2_cons; try (apply List.Forall2_nil); by split.
Qed.

(** ** Properties *)

(** C32. Although its words are 64 bits wide, the package computes SHA-256: the
    digest of a message fed in any pieces of less than 4 GiB is the one of
    FIPS 180-4, whatever the buffer held before. *)
Theorem sha256_incremental buf chunks :
  length buf = 64%nat -> Forall (Forall is_byte) chunks ->
  Forall (fun c => Z.of_nat (length c) < 2 ^ 32) chunks ->
  Z.of_nat (length (concat chunks)) < 2 ^ 61 ->
  sha256_finish (foldl sha256_update (sha256_starts buf) chunks) = Fips256.sha256 (concat chunks).
Proof.
  intros Hbuf Hb Hc Hl. apply sha256_finish_ok; [| |done].
  - assert (Hgen : forall chunks ctx msg, ctx_ok ctx msg ->
      Forall (fun c => Z.of_nat (length c) < 2 ^ 32) chunks ->
      Z.of_nat (length (msg ++ concat chunks)) < 2 ^ 64 ->
      ctx_ok (foldl sha256_update ctx chunks) (msg ++ concat chunks)).
    { clear. intros chunks; induction chunks as [|c chunks IH]; intros ctx msg Hok Hc Hlt; simpl.
      - by rewrite app_nil_r.
      - apply Forall_cons in Hc as [Hc Hcs]. simpl in Hlt. rewrite app_assoc in Hlt |- *.
        apply IH; [|done|done]. apply sha256_update_ok; [done|done|]. rewrite length_app in Hlt. lia. }
    apply (Hgen chunks _ []); [|done|simpl; lia]. split; [done|done|by apply absorbed_init].
  - clear -Hb. induction Hb as [|c cs Hc _ IH]; [apply Forall_nil_2|]. simpl.
    by apply Forall_app.
Qed.

Lemma sha256_incremental_witness :
  sha256_finish (foldl sha256_update (sha256_starts (replicate 64 255)) [cs "a"; []; cs "bc"])
  = [0xba; 0x78; 0x16; 0xbf; 0x8f; 0x01; 0xcf; 0xea; 0x41; 0x41; 0x40; 0xde; 0x5d; 0xae; 0x22; 0x23;
     0xb0; 0x03; 0x61; 0xa3; 0x96; 0x17; 0x7a; 0x9c; 0xb4; 0x10; 0xff; 0x61; 0xf2; 0x00; 0x15; 0xad].
Proof.
  etransitivity; [apply (sha256_incremental (replicate 64 255) [cs "a"; []; cs "bc"])
                 |vm_compute; reflexivity];
    try reflexivity; apply (bool_decide_unpack _); vm_compute; exact I.
Defined.
