(* ===== verification/Websocket.v ===== *)
(** * WebSocket (packages/websocket)

    Frames, the list of connections of a worker, callbacks, handshake and
    broadcast.  Callbacks of the service are identified by a number; what a handler
    does besides changing the list (callbacks invoked, frames sent) is its list of
    actions.  The results of the socket calls are arguments. *)

From S2P Require Import Prelude CString Base64 MerkleDamgard Sha1 BodyBuffer Queue Http.

Definition WS_OPCODE_CONTINUE : Z := 0.
Definition WS_OPCODE_TEXT : Z := 1.
Definition WS_OPCODE_BINARY : Z := 2.
Definition WS_OPCODE_CLOSE : Z := 8.
Definition WS_FRAME_MASK_LEN : nat := 4.
Definition WS_GUID : list Z := cs "258EAFA5-E914-47DA-95CA-C5AB0DC85B11".

Record ws_callbacks_t := mk_ws_callbacks {
  on_open : option Z; on_message : option Z; on_error : option Z;
  on_close : option Z; on_timeout : option Z }.

Record ws_request := mk_ws_request {
  wr_socket : Z; wr_channel : Z; wr_callbacks : ws_callbacks_t;
  wr_opcode : Z; wr_payload : option (list Z); wr_payload_len : Z }.

Inductive ws_callback_type : Set := WS_ON_OPEN | WS_ON_MESSAGE | WS_ON_ERROR | WS_ON_CLOSE | WS_ON_TIMEOUT.

(** [None] is a type outside the switch. *)
Definition ws_set_callback (type : option ws_callback_type) (callback : option Z)
    (c : ws_callbacks_t) : Z * ws_callbacks_t :=
  match type with
  | Some WS_ON_OPEN =>
      (0, mk_ws_callbacks callback (on_message c) (on_error c) (on_close c) (on_timeout c))
  | Some WS_ON_MESSAGE =>
      (0, mk_ws_callbacks (on_open c) callback (on_error c) (on_close c) (on_timeout c))
  | Some WS_ON_ERROR =>
      (0, mk_ws_callbacks (on_open c) (on_message c) callback (on_close c) (on_timeout c))
  | Some WS_ON_CLOSE =>
      (0, mk_ws_callbacks (on_open c) (on_message c) (on_error c) callback (on_timeout c))
  | Some WS_ON_TIMEOUT =>
      (0, mk_ws_callbacks (on_open c) (on_message c) (on_error c) (on_close c) callback)
  | None => (-1, c)
  end.

(** ** The connections of a worker *)

Definition ws_request_create (socket channel : Z) (cbs : ws_callbacks_t) : ws_request :=
  mk_ws_request socket channel cbs 0 None 0.

Definition ws_request_add (wr : ws_request) (l : list ws_request) : list ws_request := l ++ [wr].

Fixpoint ws_request_get (socket : Z) (l : list ws_request) : option ws_request :=
  match l with
  | [] => None
  | wr :: l' => if wr_socket wr =? socket then Some wr else ws_request_get socket l'
  end.

Fixpoint ws_request_delete (socket : Z) (l : list ws_request) : Z * list ws_request :=
  match l with
  | [] => (-1, [])
  | wr :: l' =>
      if wr_socket wr =? socket then (0, l')
      else let '(r, l'') := ws_request_delete socket l' in (r, wr :: l'')
  end.

(** The node found by [ws_request_get] is changed in place. *)
Fixpoint ws_request_store (wr : ws_request) (l : list ws_request) : list ws_request :=
  match l with
  | [] => []
  | x :: l' => if wr_socket x =? wr_socket wr then wr :: l' else x :: ws_request_store wr l'
  end.

Inductive ws_action : Type :=
  | Callback (cb : Z) (wr : ws_request)
  | Sent (socket : Z) (frame : list Z).

(** ** Sending a frame *)

Definition buf_size : Z := 256.

(** The frame left in [buf]: header, then the payload; the stack buffer has 256
    bytes. *)
Definition ws_frame (fin rsv1 rsv2 rsv3 opcode : Z) (payload : list Z) : res (list Z) :=
  let payload_len := Z.of_nat (length payload) in
  let b0 := wrap 8 (Z.lor (Z.lor (Z.lor (Z.lor (Z.shiftl fin 7) (Z.shiftl rsv1 6))
              (Z.shiftl rsv2 5)) (Z.shiftl rsv3 4)) opcode) in
  let frame_mask := 0 in
  let header :=
    if payload_len <? 126 then
      [b0; wrap 8 (Z.lor (Z.shiftl frame_mask 7) payload_len)]
    else if (126 <=? payload_len) && (payload_len <=? 0xFFFF) then
      [b0; wrap 8 (Z.lor (Z.shiftl frame_mask 7) 126);
       wrap 8 (Z.shiftr payload_len 8); wrap 8 (Z.land payload_len 0x0F)]
    else
      (* memcpy of the 64-bit length: the bytes of a little-endian machine *)
      [b0; wrap 8 (Z.lor (Z.shiftl frame_mask 7) 127)] ++
      ((fun k => wrap 8 (Z.shiftr payload_len (8 * Z.of_nat k))) <$> seq 0 8) in
  let offset := Z.of_nat (length header) in
  if buf_size <? offset + payload_len then Fault OutOfBounds
  else Ret (header ++ payload).

(** [n] is the result of [socket_send]. *)
Definition ws_send_data (n sockfd fin rsv1 rsv2 rsv3 opcode : Z) (payload : list Z) :
    res (Z * list ws_action) :=
  frame ← ws_frame fin rsv1 rsv2 rsv3 opcode payload;
  Ret (if n <=? 0 then -1 else n, [Sent sockfd frame]).

Definition ws_write (n : Z) (wr : ws_request) (code : Z) (payload : list Z) :
    res (Z * list ws_action) :=
  ws_send_data n (wr_socket wr) 1 0 0 0 code payload.

(** ** Reading a frame *)

Definition nth_byte (b : list Z) (i : nat) : Z := default 0 (b !! i).

(** Payload length and offset of the masking key. *)
Definition frame_length (buf : list Z) : Z * nat :=
  let payload_length := Z.land (nth_byte buf 1) 0x7f in
  if payload_length =? 126 then (nth_byte buf 2 * 256 + nth_byte buf 3, 4%nat)
  else if payload_length =? 127 then
    (foldr (fun k acc => nth_byte buf (2 + k) + 256 * acc) 0 (seq 0 8), 10%nat)
  else (payload_length, 2%nat).

(** The unmasking loop: [i] from the current index, [n] turns left. *)
Fixpoint unmask (src key : list Z) (i n : nat) : list Z :=
  match n with
  | O => []
  | S n' => Z.lxor (nth_byte src i) (nth_byte key (i mod 4)) :: unmask src key (S i) n'
  end.

Definition paysize : Z := 256.

(** The payload buffer after the frame in [buf] (256 bytes) was decoded. *)
Definition decode_payload (buf : list Z) : res (Z * Z * list Z) :=
  let opcode := Z.land (nth_byte buf 0) 0x0f in
  let '(payload_length, off) := frame_length buf in
  let masked := negb (Z.land (nth_byte buf 1) (Z.shiftl 1 7) =? 0) in
  let start := if masked then (off + WS_FRAME_MASK_LEN)%nat else off in
  if buf_size <? Z.of_nat start + payload_length then Fault OutOfBounds
  else if paysize <? payload_length then Fault OutOfBounds
  else
    let n := Z.to_nat payload_length in
    let src := drop start buf in
    let key := take 4 (drop off buf) in
    let bytes := if masked then unmask src key 0 n else take n src in
    Ret (opcode, payload_length, bytes ++ replicate (256 - n) 0).

Inductive event_ret : Set := EV_OWNED | EV_CLOSE.

Definition call (cb : option Z) (wr : ws_request) : list ws_action :=
  match cb with Some f => [Callback f wr] | None => [] end.

(** [received] is what [socket_read] returned, empty on end of file or error; the
    return value of the close frame is not used. *)
Definition cb_ws_read (received : list Z) (sent : Z) (sockfd : Z) (l : list ws_request) :
    res (event_ret * list ws_request * list ws_action) :=
  match ws_request_get sockfd l with
  | None => Ret (EV_CLOSE, l, [])
  | Some wr =>
      let buf := resize 256 0 (take 256 received) in
      if Z.of_nat (length received) <=? 0 then Ret (EV_CLOSE, l, [])
      else
        '(opcode, payload_length, payload) ← decode_payload buf;
        let wr := mk_ws_request (wr_socket wr) (wr_channel wr) (wr_callbacks wr) opcode
                    (Some payload) payload_length in
        let l := ws_request_store wr l in
        if (opcode =? WS_OPCODE_CONTINUE) || (opcode =? WS_OPCODE_TEXT) || (opcode =? WS_OPCODE_BINARY)
        then Ret (EV_OWNED, l, call (on_message (wr_callbacks wr)) wr)
        else if opcode =? WS_OPCODE_CLOSE then
          '(_, acts) ← ws_send_data sent sockfd 1 0 0 0 WS_OPCODE_CLOSE [];
          Ret (EV_CLOSE, l, call (on_close (wr_callbacks wr)) wr ++ acts)
        else Ret (EV_OWNED, l, [])
  end.

Definition cb_ws_error (sockfd : Z) (l : list ws_request) : event_ret * list ws_request * list ws_action :=
  match ws_request_get sockfd l with
  | None => (EV_CLOSE, l, [])
  | Some wr => (EV_OWNED, l, call (on_error (wr_callbacks wr)) wr)
  end.

Definition cb_ws_close (sockfd : Z) (l : list ws_request) : event_ret * list ws_request * list ws_action :=
  match ws_request_get sockfd l with
  | None => (EV_CLOSE, l, [])
  | Some wr => (EV_CLOSE, (ws_request_delete sockfd l).2, call (on_close (wr_callbacks wr)) wr)
  end.

Definition cb_ws_timeout (sockfd : Z) (l : list ws_request) : event_ret * list ws_request * list ws_action :=
  match ws_request_get sockfd l with
  | None => (EV_CLOSE, l, [])
  | Some wr => (EV_OWNED, l, call (on_timeout (wr_callbacks wr)) wr)
  end.

(** ** Broadcast *)

Definition BROADCAST_BUFFER : Z := 1024.

Record ws_broadcast_frame := mk_bframe {
  br_source : Z; br_len : Z; br_type : Z; br_channel : Z; br_data : list Z }.

(** The frame written to the pipe of each worker; [None] for no origin. *)
Definition ws_broadcast (wr : option ws_request) (payload : list Z) (msg_type channel : Z) :
    res ws_broadcast_frame :=
  let len := Z.of_nat (length payload) in
  if BROADCAST_BUFFER <? len then Fault OutOfBounds
  else Ret (mk_bframe (match wr with Some w => wr_socket w | None => 0 end) len msg_type channel
              (payload ++ replicate (1024 - length payload) 0)).

Definition ws_broadcast_all (payload : list Z) (msg_type channel : Z) : res ws_broadcast_frame :=
  ws_broadcast None payload msg_type channel.

(** The inner loop of [ws_broadcast_worker], for one frame read from the pipe;
    [send_result] is the answer of each socket. *)
Fixpoint ws_broadcast_deliver (send_result : Z -> Z) (brf : ws_broadcast_frame)
    (conn_list : list ws_request) : res (list ws_action) :=
  match conn_list with
  | [] => Ret []
  | wr :: l =>
      if (0 <=? br_channel brf) && negb (wr_channel wr =? br_channel brf)
      then ws_broadcast_deliver send_result brf l
      else if br_source brf =? wr_socket wr then ws_broadcast_deliver send_result brf l
      else
        '(_, acts) ← ws_write (send_result (wr_socket wr)) wr (br_type brf)
                       (take (Z.to_nat (br_len brf)) (br_data brf));
        rest ← ws_broadcast_deliver send_result brf l;
        Ret (acts ++ rest)
  end.

(** ** Handshake *)

(** What the handshake asks of the request object. *)
Class HeaderAccess := {
  header_contains : http_dr -> Z -> option (list Z) -> Z -> list Z -> Z;
  header_get : http_dr -> Z -> option (list Z) -> Z -> option (list Z);
}.

(** The request object of the library. *)
#[export] Instance duda_headers `{MkHttp} : HeaderAccess := {|
  header_contains := duda_request_header_contains;
  header_get := duda_request_header_get |}.

Section handshake.
Context `{MkHttp} {HA : HeaderAccess}.
(** Monkey's constants. *)
Variables (MK_HEADER_UPGRADE MK_HEADER_OTHER MK_CUSTOM_STATUS : Z).

(** Return value, context, connections, what reached Monkey, actions. *)
Definition ws_result : Type := Z * http_dr * list ws_request * list http_event * list ws_action.

(** The macro [ws_invalid_upgrade]; [finalize] is a macro for [_end]. *)
Definition ws_invalid_upgrade (dr : http_dr) (l : list ws_request) : res ws_result :=
  '(_, dr) ← duda_response_http_status dr 400;
  '(_, dr, ev) ← duda_response_end dr None;
  Ret (-1, dr, l, ev, []).

Definition set_status (rq : mk_http_request) (s : Z) : mk_http_request :=
  mk_rq (rq_method rq) (rq_content_length rq) (rq_content_type rq) (rq_data rq) (rq_connection rq)
    s (rs_content_length rq) (rs_rows rq).

(** [Sec-WebSocket-Accept] from the key, in the 256 byte buffer; [W] is what
    the SHA-1 context held. *)
Definition ws_accept_token (W ws_key : list Z) : res (list Z) :=
  let key_len := Z.of_nat (strlen ws_key) in
  if 256 <=? key_len + Z.of_nat (length WS_GUID) then Fault OutOfBounds
  else
    let buffer := take (strlen ws_key) ws_key ++ WS_GUID in
    let digest := blk_SHA1_Final (blk_SHA1_Update (blk_SHA1_Init W) (take (strlen buffer) buffer)) in
    r ← base64_encode true true digest;
    match r with
    | None => Fault NullDeref
    | Some (encoded, out_len) =>
        let prefix := cs "Sec-WebSocket-Accept: " in
        let token := prefix ++ take (strlen encoded) (take (Z.to_nat out_len) encoded) in
        Ret (take (Z.to_nat (Z.of_nat (length prefix) + out_len - 1)) token)
    end.

Definition ws_handshake (W : list Z) (cbs : ws_callbacks_t) (dr : http_dr) (channel : Z)
    (l : list ws_request) : res ws_result :=
  let l := match ws_request_get (h_socket dr) l with
           | Some _ => (ws_request_delete (h_socket dr) l).2 | None => l end in
  with_request dr (fun rq =>
    match rq_connection rq with
    | None => ws_invalid_upgrade dr l
    | Some conn =>
        if str_search_n (data conn) (cs "Upgrade") (len conn) <? 0 then ws_invalid_upgrade dr l
        else if header_contains dr MK_HEADER_UPGRADE None 0 (cs "websocket") <=? 0
        then ws_invalid_upgrade dr l
        else match header_get dr MK_HEADER_OTHER (Some (cs "Sec-WebSocket-Key:")) 18 with
        | None => ws_invalid_upgrade dr l
        | Some ws_key =>
            token ← ws_accept_token W ws_key;
            let rq := set_status rq MK_CUSTOM_STATUS in
            let rq := (header_add rq (cs "Upgrade: websocket") 18).2 in
            let rq := (header_add rq (cs "Connection: Upgrade") 19).2 in
            let rq := (header_add rq token (Z.of_nat (length token))).2 in
            '(_, dr, ev) ← duda_response_send_headers (set_rq dr rq);
            let wr := ws_request_create (h_socket dr) channel cbs in
            Ret (0, dr, ws_request_add wr l, ev, call (on_open cbs) wr)
        end
    end).
End handshake.

(** ** Reference: RFC 6455 frames *)

(** A final frame of a server, without mask, of at most 125 bytes. *)
Definition rfc6455_short (opcode : Z) (payload : list Z) : list Z :=
  [128 + opcode; Z.of_nat (length payload)] ++ payload.

Fixpoint mask_from (key : list Z) (i : nat) (p : list Z) : list Z :=
  match p with
  | [] => []
  | b :: p' => Z.lxor b (nth_byte key (i mod 4)) :: mask_from key (S i) p'
  end.

(** A final masked frame of a client; lengths of 126 and more on 16 bits. *)
Definition rfc6455_masked (opcode : Z) (key payload : list Z) : list Z :=
  let n := Z.of_nat (length payload) in
  [128 + opcode] ++
  (if n <? 126 then [128 + n] else [128 + 126; n / 256; n mod 256]) ++
  key ++ mask_from key 0 payload.

(** ** Frames *)

Lemma frame_short opcode payload : 0 <= opcode < 16 -> (length payload <= 125)%nat ->
  ws_frame 1 0 0 0 opcode payload = Ret (rfc6455_short opcode payload).
Proof.
  intros Ho Hl. unfold ws_frame. destruct (Z.ltb_spec (Z.of_nat (length payload)) 126); [|lia].
  cbn [length]. destruct (Z.ltb_spec buf_size (Z.of_nat 2 + Z.of_nat (length payload)));
    [unfold buf_size in *; lia|].
  do 2 f_equal. change (Z.shiftl 0 7) with 0. rewrite Z.lor_0_l.
  change (Z.lor (Z.lor (Z.lor (Z.shiftl 1 7) (Z.shiftl 0 6)) (Z.shiftl 0 5)) (Z.shiftl 0 4))
    with (Z.shiftl 8 4).
  rewrite lor_shiftl_add by lia. rewrite !wrap_small by lia. done.
Qed.

Lemma nth_byte_mid pre x r i : length pre = i -> nth_byte (pre ++ x :: r) i = x.
Proof. intros Hi. unfold nth_byte. by rewrite list_lookup_middle. Qed.

Lemma unmask_mask key tail p : forall i pre, length pre = i ->
  unmask (pre ++ mask_from key i p ++ tail) key i (length p) = p.
Proof.
  induction p as [|b p IH]; intros i pre Hi; cbn [unmask mask_from length]; [done|].
  f_equal.
  - rewrite <- app_comm_cons, nth_byte_mid by done.
    by rewrite Z.lxor_assoc, Z.lxor_nilpotent, Z.lxor_0_r.
  - specialize (IH (S i) (pre ++ [Z.lxor b (nth_byte key (i mod 4))])).
    rewrite <- app_assoc in IH. apply IH. rewrite length_app. simpl. lia.
Qed.

Lemma mask_from_length key i p : length (mask_from key i p) = length p.
Proof. revert i; induction p; intros; simpl; auto. Qed.

(** Header of a masked frame, as the reader sees it in its zeroed buffer. *)
Lemma masked_header opcode key p tail : 0 <= opcode < 16 -> length key = 4%nat ->
  (length p <= 248)%nat ->
  let buf := rfc6455_masked opcode key p ++ tail in
  let off := if Z.of_nat (length p) <? 126 then 2%nat else 4%nat in
  Z.land (nth_byte buf 0) 0x0f = opcode /\
  frame_length buf = (Z.of_nat (length p), off) /\
  (Z.land (nth_byte buf 1) (Z.shiftl 1 7) =? 0) = false /\
  drop off buf = key ++ mask_from key 0 p ++ tail.
Proof.
  intros Ho Hk Hp buf off.
  assert (Hop : Z.land (128 + opcode) 15 = opcode).
  { change 15 with (2 ^ 4 - 1). rewrite land_ones_mod by lia. change (2 ^ 4) with 16. lia_div. }
  assert (Hlow : forall x, 0 <= x < 128 ->
    Z.land (128 + x) 127 = x /\ (Z.land (128 + x) (Z.shiftl 1 7) =? 0) = false).
  { intros x Hx. change 127 with (2 ^ 7 - 1). rewrite land_ones_mod by lia.
    split; [change (2 ^ 7) with 128; lia_div|].
    change 128 with (1 * 2 ^ 7) at 1. rewrite <- lor_shiftl_add, Z.land_comm by lia.
    rewrite Z.land_lor_distr_r, Z.land_diag. apply Z.eqb_neq. intros E.
    apply Z.lor_eq_0_iff in E as [E _]. discriminate E. }
  unfold buf, rfc6455_masked, frame_length, off.
  destruct (Z.ltb_spec (Z.of_nat (length p)) 126) as [Hs|Hm].
  - cbn [app nth_byte lookup list_lookup]. unfold nth_byte. cbn.
    destruct (Hlow (Z.of_nat (length p)) ltac:(lia)) as [-> ->].
    split_and!; [done| |done|by rewrite <- app_assoc].
    destruct (Z.eqb_spec (Z.of_nat (length p)) 126); [lia|].
    destruct (Z.eqb_spec (Z.of_nat (length p)) 127); [lia|]. done.
  - unfold nth_byte. cbn. split_and!; [done| |done|by rewrite <- app_assoc].
    f_equal. lia_div.
Qed.

Lemma decode_masked opcode key p tail : 0 <= opcode < 16 -> length key = 4%nat ->
  (length (rfc6455_masked opcode key p) <= 256)%nat ->
  decode_payload (rfc6455_masked opcode key p ++ tail)
    = Ret (opcode, Z.of_nat (length p), p ++ replicate (256 - length p) 0).
Proof.
  intros Ho Hk Hl. unfold rfc6455_masked in Hl. rewrite !length_app, mask_from_length in Hl.
  assert (Hp : (length p <= 248)%nat /\
    (Z.of_nat (if Z.of_nat (length p) <? 126 then 2 else 4) + 4 + Z.of_nat (length p) <= 256)).
  { destruct (Z.of_nat (length p) <? 126) eqn:E; cbn [length] in Hl;
      [apply Z.ltb_lt in E|]; split; lia. }
  destruct Hp as [Hp Hfit].
  destruct (masked_header opcode key p tail Ho Hk Hp) as (H0 & H1 & H2 & H3).
  unfold decode_payload. rewrite H0, H1, H2. cbn [negb].
  set (off := if Z.of_nat (length p) <? 126 then 2%nat else 4%nat) in *.
  destruct (Z.ltb_spec buf_size (Z.of_nat (off + WS_FRAME_MASK_LEN) + Z.of_nat (length p)));
    [unfold buf_size, WS_FRAME_MASK_LEN in *; lia|].
  destruct (Z.ltb_spec paysize (Z.of_nat (length p))); [unfold paysize in *; lia|].
  rewrite Nat2Z.id, <- drop_drop, H3. do 3 f_equal.
  rewrite (drop_app_length' key) by done. rewrite (take_app_length' key) by done.
  apply (unmask_mask key tail p 0 []). done.
Qed.

(** ** The list of connections *)

Definition sockets (l : list ws_request) : list Z := wr_socket <$> l.

Lemma delete_spec socket l : NoDup (sockets l) ->
  let '(r, l') := ws_request_delete socket l in
  l' = filter (fun w => wr_socket w <> socket) l /\
  r = (if decide (socket ∈ sockets l) then 0 else -1).
Proof.
  induction l as [|w l IH]; cbn [ws_request_delete].
  { intros _. split; [done|]. rewrite decide_False; [done|]. apply not_elem_of_nil. }
  intros [Hw Hnd]%NoDup_cons. rewrite filter_cons. destruct (Z.eqb_spec (wr_socket w) socket) as [E|E].
  - rewrite decide_False by (intros ?; done). split.
    + symmetry. assert (Ha : Forall (fun x => wr_socket x <> socket) l).
      { apply Forall_forall. intros x Hx E'. apply Hw. rewrite E, <- E'. by apply list_elem_of_fmap_2. }
      clear -Ha. induction Ha as [|x l Hx _ IH]; [done|]. by rewrite filter_cons_True, IH.
    + rewrite decide_True; [done|]. rewrite <- E. left.
  - rewrite decide_True by done. specialize (IH Hnd).
    destruct (ws_request_delete socket l) as [r l']. destruct IH as [-> ->]. split; [done|].
    apply decide_ext. unfold sockets. rewrite fmap_cons, elem_of_cons.
    split; [by right|]. intros [->|?]; done.
Qed.

Lemma get_spec socket l :
  match ws_request_get socket l with
  | Some w => w ∈ l /\ wr_socket w = socket
  | None => socket ∉ sockets l
  end.
Proof.
  induction l as [|w l IH]; cbn [ws_request_get]; [apply not_elem_of_nil|].
  destruct (Z.eqb_spec (wr_socket w) socket) as [E|E]; [split; [left|done]|].
  destruct (ws_request_get socket l).
  - destruct IH. split; [by right|done].
  - unfold sockets. rewrite fmap_cons, not_elem_of_cons. split; [congruence|done].
Qed.

Lemma get_app_fresh socket l w : socket ∉ sockets l -> wr_socket w = socket ->
  ws_request_get socket (l ++ [w]) = Some w.
Proof.
  intros Hn Hw. induction l as [|x l IH]; cbn [ws_request_get app].
  - by rewrite Hw, Z.eqb_refl.
  - unfold sockets in Hn. rewrite fmap_cons, not_elem_of_cons in Hn. destruct Hn as [Hx Hn].
    destruct (Z.eqb_spec (wr_socket x) socket); [congruence|]. by apply IH.
Qed.

Lemma sockets_filter socket l : NoDup (sockets l) ->
  NoDup (sockets (filter (fun w => wr_socket w <> socket) l)) /\
  socket ∉ sockets (filter (fun w => wr_socket w <> socket) l).
Proof.
  intros Hnd. split.
  - unfold sockets in *. induction l as [|w l IH]; [done|]. rewrite fmap_cons in Hnd.
    apply NoDup_cons in Hnd as [Hw Hnd]. rewrite filter_cons. destruct (decide _); [|by apply IH].
    rewrite fmap_cons. apply NoDup_cons. split; [|by apply IH].
    intros (x & Hwx & Hx)%list_elem_of_fmap. apply list_elem_of_filter in Hx as [_ Hx]. apply Hw.
    rewrite Hwx. by apply list_elem_of_fmap_2.
  - unfold sockets. intros (x & Hx & Hin)%list_elem_of_fmap.
    apply list_elem_of_filter in Hin as [Hne _]. congruence.
Qed.

(** ** The handshake *)

Lemma strlen_nul s t : cstr s -> strlen (s ++ 0 :: t) = length s.
Proof.
  induction 1 as [|c s Hc _ IH]; cbn; [done|]. destruct (Z.eqb_spec c 0); [lia|]. by rewrite IH.
Qed.

Definition accept_value (key : list Z) : list Z :=
  cs "Sec-WebSocket-Accept: " ++ rfc4648 (Fips.sha1 (key ++ WS_GUID)).

Lemma accept_token_ok W key : length W = 64%nat -> cstr key -> (length key + 36 < 256)%nat ->
  ws_accept_token W key = Ret (accept_value key).
Proof.
  intros HW Hk Hl. unfold ws_accept_token. rewrite (strlen_cstr key) by done.
  assert (HG : length WS_GUID = 36%nat) by done.
  destruct (Z.leb_spec 256 (Z.of_nat (length key) + Z.of_nat (length WS_GUID))); [lia|].
  rewrite (take_ge key) by lia.
  assert (Hb : cstr (key ++ WS_GUID)).
  { apply cstr_app. split; [done|]. apply (bool_decide_unpack _). vm_compute. exact I. }
  rewrite strlen_cstr, take_ge by done. rewrite sha1_one_piece by (rewrite ?length_app; done || lia).
  destruct (sha1_digest (key ++ WS_GUID)) as [H20 Hbytes].
  rewrite encode_value; [|by intros E; rewrite E in H20|done|lia]. cbn [mbind res_bind].
  pose proof (rfc4648_length (Fips.sha1 (key ++ WS_GUID))) as H28. rewrite H20 in H28.
  change (4 * ((Z.of_nat 20 + 2) / 3)) with 28 in H28.
  rewrite strlen_nul by apply rfc4648_cstr. unfold accept_value. do 2 f_equal.
  set (enc := rfc4648 _) in *. rewrite take_take.
  replace (length enc `min` Z.to_nat (Z.of_nat (length enc) + 1))%nat with (length enc) by lia.
  rewrite take_app_length. apply take_ge. rewrite length_app. lia.
Qed.

Section handshake_correct.
Context `{HM : MkHttpSpec} {HA : HeaderAccess}.
Variables (MK_HEADER_UPGRADE MK_HEADER_OTHER MK_CUSTOM_STATUS : Z).

Lemma invalid_upgrade_ok dr rq l : h_request dr = Some rq ->
  exists dr' ev, ws_invalid_upgrade dr l = Ret (-1, dr', l, ev, []).
Proof.
  intros Hrq. unfold ws_invalid_upgrade, duda_response_http_status, with_request. rewrite Hrq.
  cbn [mbind res_bind]. unfold duda_response_end, with_request. cbn [h_request set_rq].
  rewrite http_status_sets. cbn [Z.eqb andb]. unfold duda_response_send_headers, with_request.
  cbn. destruct (st_http_headers_off dr); [cbn; eauto|].
  destruct (st_http_headers_sent dr); [cbn; eauto|].
  destruct (0 <? st_body_writes dr); [cbn; eauto|].
  set (rq' := if st_http_content_length dr =? -2 then _ else _).
  assert (rs_status rq' = 400) as -> by (unfold rq'; dbool; cbn; by rewrite http_status_sets).
  cbn. destruct (header_prepare rq' =? 0); cbn; eauto.
Qed.
End handshake_correct.

(** ** Properties *)

(** A message of at most 125 bytes is sent as one final unmasked RFC 6455
    frame carrying exactly these bytes. *)
Theorem ws_write_short n wr code payload :
  0 <= code < 16 -> (length payload <= 125)%nat ->
  ws_write n wr code payload =
  Ret (if n <=? 0 then -1 else n, [Sent (wr_socket wr) (rfc6455_short code payload)]).
Proof. intros Hc Hl. unfold ws_write, ws_send_data. by rewrite frame_short. Qed.

Definition sample_cbs : ws_callbacks_t := mk_ws_callbacks (Some 1) (Some 2) None (Some 4) None.
Definition sample_conn : ws_request := ws_request_create 7 3 sample_cbs.

Lemma ws_write_short_witness :
  ws_write 7 sample_conn 1 (cs "Hello") =
  Ret (7, [Sent 7 [0x81; 0x05; 0x48; 0x65; 0x6c; 0x6c; 0x6f]]).
Proof.
  etransitivity; [apply (ws_write_short 7 sample_conn 1 (cs "Hello"))|reflexivity];
    [split; [vm_compute; congruence|reflexivity]|apply Nat.leb_le; reflexivity].
Defined.

(** A message of 126 to 252 bytes is sent with a wrong length: the mask 0x0F
    on the low byte leaves fewer than 16, so that the announced length is never the
    length of the message.  A longer one overflows the 256 byte buffer. *)
Theorem ws_write_medium_length n wr code payload :
  (126 <= length payload)%nat ->
  if (length payload <=? 252)%nat then
    exists frame, ws_write n wr code payload =
        Ret (if n <=? 0 then -1 else n, [Sent (wr_socket wr) frame]) /\
      frame_length frame = (Z.of_nat (length payload) mod 16, 4%nat) /\
      (frame_length frame).1 <> Z.of_nat (length payload)
  else ws_write n wr code payload = Fault OutOfBounds.
Proof.
  intros Hl. unfold ws_write, ws_send_data, ws_frame.
  destruct (Z.ltb_spec (Z.of_nat (length payload)) 126); [lia|].
  destruct (Z.leb_spec 126 (Z.of_nat (length payload))); [|lia]. cbn [andb].
  destruct (Nat.leb_spec (length payload) 252) as [Hle|Hgt].
  - destruct (Z.leb_spec (Z.of_nat (length payload)) 0xFFFF); [|lia]. cbn [length].
    destruct (Z.ltb_spec buf_size (Z.of_nat 4 + Z.of_nat (length payload)));
      [unfold buf_size in *; lia|]. cbn [mbind res_bind].
    eexists. split; [done|]. change 15 with (2 ^ 4 - 1). rewrite land_ones_mod by lia.
    assert (Hf : forall b0 b2 b3 rest, frame_length ([b0; 126; b2; b3] ++ rest) = (b2 * 256 + b3, 4%nat))
      by done.
    change (wrap 8 (Z.lor (Z.shiftl 0 7) 126)) with 126. rewrite Hf.
    rewrite Z.shiftr_div_pow2 by lia. change (2 ^ 8) with 256. change (2 ^ 4) with 16.
    rewrite Z.div_small by lia. rewrite wrap_small by lia.
    rewrite (wrap_small 8) by (change (2 ^ 8) with 256; lia_div).
    split; [done|]. cbn [fst]. lia_div.
  - destruct (Z.leb_spec (Z.of_nat (length payload)) 0xFFFF); rewrite ?length_app, ?length_fmap;
      cbn [length seq].
    + destruct (Z.ltb_spec buf_size (Z.of_nat 4 + Z.of_nat (length payload)));
        [done|unfold buf_size in *; lia].
    + destruct (Z.ltb_spec buf_size (Z.of_nat (2 + 8) + Z.of_nat (length payload)));
        [done|unfold buf_size in *; lia].
Qed.

Lemma ws_write_medium_length_witness :
  (exists frame, ws_write 204 sample_conn 1 (replicate 200 97) = Ret (204, [Sent 7 frame]) /\
     frame_length frame = (8, 4%nat) /\ (frame_length frame).1 <> 200) /\
  ws_write 1 sample_conn 1 (replicate 300 97) = Fault OutOfBounds.
Proof.
  split.
  - apply (ws_write_medium_length 204 sample_conn 1 (replicate 200 97)).
    apply Nat.leb_le; reflexivity.
  - apply (ws_write_medium_length 1 sample_conn 1 (replicate 300 97)). apply Nat.leb_le; reflexivity.
Defined.

(** C38. A masked client frame that fits the 256 byte read buffer is delivered
    unmasked: for a data frame the message callback of the connection is called
    with exactly the payload (zero padded) and its length; for a close frame the
    close callback is called, a close frame is answered and the connection is
    closed. *)
Theorem ws_read_delivers wr sent key payload opcode l :
  ws_request_get (wr_socket wr) l = Some wr -> 0 <= opcode < 16 -> length key = 4%nat ->
  (length (rfc6455_masked opcode key payload) <= 256)%nat ->
  let wr' := mk_ws_request (wr_socket wr) (wr_channel wr) (wr_callbacks wr) opcode
               (Some (payload ++ replicate (256 - length payload) 0)) (Z.of_nat (length payload)) in
  cb_ws_read (rfc6455_masked opcode key payload) sent (wr_socket wr) l =
  Ret (if opcode <=? 2 then
         (EV_OWNED, ws_request_store wr' l, call (on_message (wr_callbacks wr)) wr')
       else if opcode =? 8 then
         (EV_CLOSE, ws_request_store wr' l,
          call (on_close (wr_callbacks wr)) wr' ++ [Sent (wr_socket wr) [0x88; 0]])
       else (EV_OWNED, ws_request_store wr' l, [])).
Proof.
  intros Hget Ho Hk Hl wr'. unfold cb_ws_read. rewrite Hget.
  destruct (Z.leb_spec (Z.of_nat (length (rfc6455_masked opcode key payload))) 0) as [Hz|_].
  { unfold rfc6455_masked in Hz. simpl in Hz. lia. }
  rewrite (take_ge (rfc6455_masked _ _ _)) by lia. rewrite resize_ge by lia.
  rewrite decode_masked by done. cbn [mbind res_bind]. fold wr'.
  unfold WS_OPCODE_CONTINUE, WS_OPCODE_TEXT, WS_OPCODE_BINARY, WS_OPCODE_CLOSE.
  destruct (Z.leb_spec opcode 2).
  - assert ((opcode =? 0) || (opcode =? 1) || (opcode =? 2) = true) as -> by (dbool; done). done.
  - assert ((opcode =? 0) || (opcode =? 1) || (opcode =? 2) = false) as -> by (dbool; done).
    destruct (opcode =? 8); [|done]. unfold ws_send_data.
    rewrite frame_short; [done|lia|simpl; lia].
Qed.

Lemma ws_read_delivers_witness :
  exists l', cb_ws_read [0x81; 0x85; 0x37; 0xfa; 0x21; 0x3d; 0x7f; 0x9f; 0x4d; 0x51; 0x58] 0 7 [sample_conn]
    = Ret (EV_OWNED, l',
        [Callback 2 (mk_ws_request 7 3 sample_cbs 1 (Some (cs "Hello" ++ replicate 251 0)) 5)]).
Proof.
  eexists. etransitivity.
  - apply (ws_read_delivers sample_conn 0 [0x37; 0xfa; 0x21; 0x3d] (cs "Hello") 1 [sample_conn]);
      [reflexivity|split; [vm_compute; congruence|reflexivity]|reflexivity|apply Nat.leb_le; reflexivity].
  - vm_compute. reflexivity.
Defined.

(** The length announced by the client is trusted: a masked frame that
    announces more than the buffer can hold makes the reader leave it. *)
Theorem ws_read_overflow wr sent received l n off :
  ws_request_get (wr_socket wr) l = Some wr -> received <> [] ->
  frame_length (resize 256 0 (take 256 received)) = (n, off) ->
  Z.land (nth_byte received 1) 128 <> 0 -> 256 < Z.of_nat off + 4 + n ->
  cb_ws_read received sent (wr_socket wr) l = Fault OutOfBounds.
Proof.
  intros Hget Hne Hf Hm Hn. unfold cb_ws_read. rewrite Hget.
  destruct (Z.leb_spec (Z.of_nat (length received)) 0) as [Hz|_].
  { destruct received; [done|simpl in Hz; lia]. }
  unfold decode_payload. rewrite Hf.
  assert (Hb1 : nth_byte (resize 256 0 (take 256 received)) 1 = nth_byte received 1).
  { unfold nth_byte. rewrite resize_spec, lookup_app, lookup_take_lt by lia.
    rewrite lookup_take_lt by lia. destruct (received !! 1%nat) as [b|] eqn:E; [done|].
    by destruct (replicate _ 0 !! _) as [x|] eqn:Er; [apply lookup_replicate in Er as [-> _]|]. }
  rewrite Hb1. destruct (Z.eqb_spec (Z.land (nth_byte received 1) (Z.shiftl 1 7)) 0); [done|].
  cbn [negb]. destruct (Z.ltb_spec buf_size (Z.of_nat (off + WS_FRAME_MASK_LEN) + n)); [done|].
  unfold buf_size, WS_FRAME_MASK_LEN in *. lia.
Qed.

Lemma ws_read_overflow_witness :
  cb_ws_read [0x81; 0xfe; 0xff; 0xff] 0 7 [sample_conn] = Fault OutOfBounds.
Proof.
  apply (ws_read_overflow sample_conn 0 [0x81; 0xfe; 0xff; 0xff] [sample_conn] 65535 4);
    [reflexivity|discriminate|vm_compute; reflexivity|vm_compute; discriminate|reflexivity].
Defined.

(** With a request object that finds the headers, the handshake answers
    [Sec-WebSocket-Accept] with the base64 of the SHA-1 of the key and the protocol
    GUID, next to the [Upgrade] and [Connection] rows, sends the headers, and
    leaves exactly one connection for the socket, the new one, calling the open
    callback on it. *)
Theorem handshake_accepts `{HM : MkHttpSpec} {HA : HeaderAccess} UP OTHER STATUS
    W cbs dr rq conn channel l key :
  h_request dr = Some rq -> rq_connection rq = Some conn ->
  0 <= str_search_n (data conn) (cs "Upgrade") (len conn) ->
  0 < header_contains dr UP None 0 (cs "websocket") ->
  header_get dr OTHER (Some (cs "Sec-WebSocket-Key:")) 18 = Some key ->
  length W = 64%nat -> cstr key -> (length key + 36 < 256)%nat -> 0 < STATUS ->
  st_http_headers_off dr = false -> st_http_headers_sent dr = false -> st_body_writes dr = 0 ->
  (forall rq', header_prepare rq' = 0) -> NoDup (sockets l) ->
  let wr := ws_request_create (h_socket dr) channel cbs in
  exists dr' rq' n,
    ws_handshake UP OTHER STATUS W cbs dr channel l =
      Ret (0, dr', filter (fun w => wr_socket w <> h_socket dr) l ++ [wr],
           [HeadersSent STATUS n], call (on_open cbs) wr) /\
    h_request dr' = Some rq' /\
    rs_rows rq' = rs_rows rq ++ [cs "Upgrade: websocket"; cs "Connection: Upgrade"; accept_value key] /\
    NoDup (sockets (filter (fun w => wr_socket w <> h_socket dr) l ++ [wr])) /\
    ws_request_get (h_socket dr) (filter (fun w => wr_socket w <> h_socket dr) l ++ [wr]) = Some wr.
Proof.
  intros Hrq Hconn Hsearch Hcont Hget HW Hk Hkl HS Hoff Hsent Hbw Hprep Hnd wr.
  unfold ws_handshake, with_request. rewrite Hrq, Hconn.
  assert (Hl : match ws_request_get (h_socket dr) l with
    | Some _ => (ws_request_delete (h_socket dr) l).2 | None => l end
    = filter (fun w => wr_socket w <> h_socket dr) l).
  { pose proof (get_spec (h_socket dr) l) as Hg. pose proof (delete_spec (h_socket dr) l Hnd) as Hd.
    destruct (ws_request_get _ _).
    - destruct (ws_request_delete _ _). by destruct Hd as [-> _].
    - symmetry. clear -Hg. induction l as [|x l IH]; [done|]. unfold sockets in Hg.
      rewrite fmap_cons, not_elem_of_cons in Hg. destruct Hg as [Hx Hg].
      rewrite filter_cons_True by congruence. f_equal. by apply IH. }
  rewrite Hl. destruct (Z.ltb_spec (str_search_n (data conn) (cs "Upgrade") (len conn)) 0); [lia|].
  destruct (Z.leb_spec (header_contains dr UP None 0 (cs "websocket")) 0); [lia|].
  rewrite Hget, accept_token_ok by done. cbn [mbind res_bind].
  set (rq3 := (header_add _ _ (Z.of_nat (length (accept_value key)))).2).
  assert (Hst : rs_status rq3 = STATUS) by (unfold rq3; by rewrite !header_add_keeps).
  assert (Hrows : rs_rows rq3 = rs_rows rq ++
    [cs "Upgrade: websocket"; cs "Connection: Upgrade"; accept_value key]).
  { unfold rq3. rewrite !header_add_row, Nat2Z.id, (take_ge (accept_value key)) by lia.
    by rewrite <- !app_assoc. }
  unfold duda_response_send_headers, with_request. cbn. rewrite Hoff, Hsent, Hbw. cbn.
  set (rq4 := if st_http_content_length dr =? -2 then _ else _).
  assert (Hst4 : rs_status rq4 = STATUS) by (unfold rq4; dbool; done).
  assert (Hrows4 : rs_rows rq4 = rs_rows rq3) by (unfold rq4; dbool; done).
  rewrite Hst4. destruct (Z.leb_spec STATUS 0); [lia|]. rewrite Hprep. cbn.
  destruct (sockets_filter (h_socket dr) l Hnd) as [Hnd' Hfresh].
  eexists _, rq4, _. split_and!; [done|done|by rewrite Hrows4| |by apply get_app_fresh].
  unfold sockets. rewrite fmap_app. apply NoDup_app. split_and!; [done| |by apply NoDup_singleton].
  intros x Hx Hx'. apply list_elem_of_singleton in Hx' as ->. done.
Qed.

(** The example of RFC 6455, with an oracle for the headers. *)
Definition sample_headers : HeaderAccess := {|
  header_contains _ _ _ _ _ := 1;
  header_get _ _ _ _ := Some (cs "dGhlIHNhbXBsZSBub25jZQ==") |}.
Definition upgrade_dr : http_dr :=
  set_rq RefHttp.new_dr (mk_rq METHOD_GET 0 (mk_ptr [] 0) None (Some (mk_ptr (cs "Upgrade") 7)) 0 (-1) []).

Lemma handshake_accepts_witness :
  exists dr' rq' n,
    @ws_handshake RefHttp.ops sample_headers 1 2 101 (replicate 64 0) sample_cbs upgrade_dr 0 [] =
      Ret (0, dr', [ws_request_create 4 0 sample_cbs], [HeadersSent 101 n],
           [Callback 1 (ws_request_create 4 0 sample_cbs)]) /\
    h_request dr' = Some rq' /\
    rs_rows rq' = [cs "Upgrade: websocket"; cs "Connection: Upgrade";
                   cs "Sec-WebSocket-Accept: s3pPLMBiTxaQ9kYGzzhZRbK+xOo="].
Proof.
  destruct (@handshake_accepts _ RefHttp.http_spec sample_headers 1 2 101 (replicate 64 0) sample_cbs upgrade_dr
    (mk_rq METHOD_GET 0 (mk_ptr [] 0) None (Some (mk_ptr (cs "Upgrade") 7)) 0 (-1) [])
    (mk_ptr (cs "Upgrade") 7) 0 [] (cs "dGhlIHNhbXBsZSBub25jZQ=="))
    as (dr' & rq' & n & Hh & Hr & Hrows & _);
    try reflexivity; try (vm_compute; congruence); try (vm_compute; lia);
    try (apply (bool_decide_unpack _); vm_compute; exact I).
  exists dr', rq', n. split; [exact Hh|]. split; [exact Hr|].
  rewrite Hrows. vm_compute. reflexivity.
Defined.

(** With the request object of the library no handshake succeeds: its
    [header_contains] refuses the missing key the handshake passes, so that every
    request ends with -1 and no connection is added. *)
Theorem handshake_always_rejected `{HM : MkHttpSpec} UP OTHER STATUS W cbs dr rq channel l :
  h_request dr = Some rq -> NoDup (sockets l) ->
  exists dr' l' ev,
    ws_handshake (HA := duda_headers) UP OTHER STATUS W cbs dr channel l = Ret (-1, dr', l', ev, []) /\
    l' ⊆ l.
Proof.
  intros Hrq Hnd. unfold ws_handshake, with_request. rewrite Hrq.
  set (l1 := match ws_request_get (h_socket dr) l with
    | Some _ => (ws_request_delete (h_socket dr) l).2 | None => l end).
  assert (Hsub : l1 ⊆ l).
  { unfold l1. pose proof (delete_spec (h_socket dr) l Hnd) as Hd.
    destruct (ws_request_get _ _); [|done]. destruct (ws_request_delete _ _) as [r l2].
    destruct Hd as [-> _]. intros x Hx. by apply list_elem_of_filter in Hx as [_ Hx]. }
  destruct (invalid_upgrade_ok dr rq l1 Hrq) as (dr' & ev & Hinv).
  exists dr', l1, ev. split; [|done].
  destruct (rq_connection rq) as [conn|]; [|done].
  destruct (_ <? 0); [done|].
  assert (Hc : duda_request_header_contains dr UP None 0 (cs "websocket") = -1)
    by (unfold duda_request_header_contains; destruct (h_has_session dr), (h_request dr); done).
  cbn [header_contains duda_headers]. rewrite Hc. done.
Qed.

Lemma handshake_always_rejected_witness : exists dr' l' ev,
  @ws_handshake RefHttp.ops (@duda_headers RefHttp.ops) 1 2 101 (replicate 64 0) sample_cbs upgrade_dr 0
    [sample_conn] = Ret (-1, dr', l', ev, []) /\ l' ⊆ [sample_conn].
Proof.
  apply (@handshake_always_rejected _ RefHttp.http_spec 1 2 101 (replicate 64 0) sample_cbs upgrade_dr
    (mk_rq METHOD_GET 0 (mk_ptr [] 0) None (Some (mk_ptr (cs "Upgrade") 7)) 0 (-1) []));
    [reflexivity|apply (bool_decide_unpack _); vm_compute; exact I].
Defined.

(** A broadcast of at most 125 bytes reaches, in the order of the list,
    exactly the connections of the worker that are on the channel (all of them for
    a negative channel) other than its origin, each receiving one frame with the
    whole message. *)
Theorem broadcast_delivers origin payload type channel frame send l :
  (length payload <= 125)%nat -> 0 <= type < 16 ->
  ws_broadcast origin payload type channel = Ret frame ->
  let src := match origin with Some w => wr_socket w | None => 0 end in
  ws_broadcast_deliver send frame l =
  Ret ((fun w => Sent (wr_socket w) (rfc6455_short type payload)) <$>
       filter (fun w => (channel < 0 \/ wr_channel w = channel) /\ wr_socket w <> src) l).
Proof.
  intros Hl Ht Hb src. unfold ws_broadcast in Hb.
  destruct (Z.ltb_spec BROADCAST_BUFFER (Z.of_nat (length payload))); [done|].
  injection Hb as <-. induction l as [|w l IH]; [done|]. cbn [ws_broadcast_deliver br_channel br_source].
  rewrite filter_cons. cbn [br_type br_len br_data]. fold src in IH |- *.
  destruct (Z.leb_spec 0 channel) as [Hpos|Hneg]; cbn [andb].
  - destruct (Z.eqb_spec (wr_channel w) channel) as [Hch|Hch]; cbn [negb].
    + destruct (Z.eqb_spec src (wr_socket w)) as [Hs|Hs].
      * rewrite decide_False by (intros [_ ?]; congruence). apply IH.
      * rewrite decide_True by (split; [by right|congruence]).
        unfold ws_write, ws_send_data. rewrite Nat2Z.id, take_app_length, frame_short by done.
        cbn [mbind res_bind]. rewrite IH. done.
    + rewrite decide_False by (intros [[?|?] _]; [lia|done]). apply IH.
  - destruct (Z.eqb_spec src (wr_socket w)) as [Hs|Hs].
    + rewrite decide_False by (intros [_ ?]; congruence). apply IH.
    + rewrite decide_True by (split; [by left|congruence]).
      unfold ws_write, ws_send_data. rewrite Nat2Z.id, take_app_length, frame_short by done.
      cbn [mbind res_bind]. rewrite IH. done.
Qed.

Lemma broadcast_delivers_witness : exists frame,
  ws_broadcast (Some sample_conn) (cs "hi") 1 3 = Ret frame /\
  ws_broadcast_deliver (fun _ => 4) frame
    [sample_conn; ws_request_create 8 3 sample_cbs; ws_request_create 9 5 sample_cbs]
  = Ret [Sent 8 [0x81; 2; 0x68; 0x69]].
Proof.
  eexists. split; [reflexivity|]. etransitivity;
    [apply (broadcast_delivers (Some sample_conn) (cs "hi") 1 3);
       [vm_compute; lia|split; [vm_compute; congruence|reflexivity]|reflexivity]
    |vm_compute; reflexivity].
Defined.
