(* ===== verification/Dthread.v ===== *)
(** * Cooperative threads and their channels

    lib/objects/duda_dthread.c, lib/objects/duda_dthread_channel.c and the inline
    functions of duda_dthread_channel.h.  [swapcontext] gives control to the
    thread of [running_id] (to the main context when it is [-1]); a call of the
    channel object that switches in the middle of its work leaves a pending
    second half, which runs when control comes back. *)

From stdpp Require Import gmap.
From S2P Require Import Prelude.

(** ** Data *)

Inductive dthread_status : Set := DTHREAD_DEAD | DTHREAD_READY | DTHREAD_RUNNING | DTHREAD_SUSPEND.

#[export] Instance dthread_status_eq_dec : EqDecision dthread_status.
Proof. solve_decision. Defined.

(** [chan_list] holds the addresses of the linked channels. *)
Record duda_dthread_t := mk_dt {
  dt_func : Z; dt_data : Z; dt_status : dthread_status; dt_parent : Z; chan_list : list Z }.

Record duda_dthread_scheduler_t := mk_sch {
  n_dthread : Z; cap : Z; running_id : Z; dt : list (option duda_dthread_t) }.

Record duda_dthread_channel_t := mk_chan {
  ch_size : Z; ch_used : Z; bufs : list Z; sender : Z; receiver : Z; ended : Z; done : Z }.

#[export] Instance dt_eq_dec : EqDecision duda_dthread_t.
Proof. solve_decision. Defined.
#[export] Instance sch_eq_dec : EqDecision duda_dthread_scheduler_t.
Proof. solve_decision. Defined.

Definition DEFAULT_DTHREAD_NUM : Z := 16.

(** ** The scheduler *)

Definition slot_at (l : list (option duda_dthread_t)) (id : Z) : option duda_dthread_t :=
  if 0 <=? id then mjoin (l !! Z.to_nat id) else None.

Definition slot (s : duda_dthread_scheduler_t) (id : Z) : option duda_dthread_t := slot_at (dt s) id.

Definition set_slot (l : list (option duda_dthread_t)) (id : Z) (t : duda_dthread_t) :
    list (option duda_dthread_t) := <[Z.to_nat id := Some t]> l.

Definition set_status (st : dthread_status) (t : duda_dthread_t) : duda_dthread_t :=
  mk_dt (dt_func t) (dt_data t) st (dt_parent t) (chan_list t).

Definition set_parent (p : Z) (t : duda_dthread_t) : duda_dthread_t :=
  mk_dt (dt_func t) (dt_data t) (dt_status t) p (chan_list t).

Definition free_slot (o : option duda_dthread_t) : bool :=
  match o with None => true | Some t => bool_decide (dt_status t = DTHREAD_DEAD) end.

Definition duda_dthread_open : duda_dthread_scheduler_t :=
  mk_sch 0 DEFAULT_DTHREAD_NUM (-1) (replicate (Z.to_nat DEFAULT_DTHREAD_NUM) None).

(** The [for] loop of [duda_dthread_create]: the first slot that is [NULL] or
    dead, and the last one when there is none. *)
Fixpoint first_free (l : list (option duda_dthread_t)) (i : Z) : Z :=
  match l with
  | [] => i - 1
  | o :: l' => if free_slot o then i else first_free l' (i + 1)
  end.

(** A thread without a scheduler opens one. *)
Definition duda_dthread_create (func data : Z) (sch : option duda_dthread_scheduler_t) :
    res (Z * duda_dthread_scheduler_t) :=
  let s := default duda_dthread_open sch in
  let '(id, c, l) :=
    if cap s <=? n_dthread s
    then (cap s, cap s * 2, dt s ++ replicate (Z.to_nat (cap s)) None)
    else (first_free (dt s) 0, cap s, dt s) in
  if (0 <=? id) && (id <? c)
  then Ret (id, mk_sch (n_dthread s + 1) c (running_id s)
                  (set_slot l id (mk_dt func data DTHREAD_READY (-1) [])))
  else Fault OutOfBounds.

Definition duda_dthread_status (s : duda_dthread_scheduler_t) (id : Z) : res dthread_status :=
  if (0 <=? id) && (id <? cap s)
  then Ret (match slot s id with None => DTHREAD_DEAD | Some t => dt_status t end)
  else Fault AssertFail.

Definition duda_dthread_running (s : duda_dthread_scheduler_t) : Z := running_id s.

Definition duda_dthread_yield (s : duda_dthread_scheduler_t) : res duda_dthread_scheduler_t :=
  let id := running_id s in
  if 0 <=? id then
    match slot s id with
    | None => Fault NullDeref
    | Some t => Ret (mk_sch (n_dthread s) (cap s) (-1) (set_slot (dt s) id (set_status DTHREAD_SUSPEND t)))
    end
  else Fault AssertFail.

(** In the second case the running thread is marked last, so that a thread that
    resumes itself ends suspended. *)
Definition duda_dthread_resume (id : Z) (s : duda_dthread_scheduler_t) : res duda_dthread_scheduler_t :=
  if (0 <=? id) && (id <? cap s) then
    let running_dt := if running_id s =? -1 then None else slot s (running_id s) in
    match slot s id with
    | None => Ret s
    | Some t =>
        match dt_status t with
        | DTHREAD_READY =>
            match running_dt with
            | Some r =>
                let l := set_slot (dt s) (running_id s) (set_status DTHREAD_SUSPEND r) in
                Ret (mk_sch (n_dthread s) (cap s) id
                       (set_slot l id (set_status DTHREAD_RUNNING (set_parent (running_id s) t))))
            | None => Ret (mk_sch (n_dthread s) (cap s) id (set_slot (dt s) id (set_status DTHREAD_RUNNING t)))
            end
        | DTHREAD_SUSPEND =>
            let l := set_slot (dt s) id (set_status DTHREAD_RUNNING t) in
            match running_dt with
            | Some r =>
                let r := if running_id s =? id then set_status DTHREAD_RUNNING t else r in
                Ret (mk_sch (n_dthread s) (cap s) id (set_slot l (running_id s) (set_status DTHREAD_SUSPEND r)))
            | None => Ret (mk_sch (n_dthread s) (cap s) id l)
            end
        | _ => Fault AssertFail
        end
    end
  else Fault AssertFail.

(** The end of [_duda_dthread_entry_point], after the function of the thread
    returned; the second component lists the channels whose receiver is
    cleared. *)
Definition _duda_dthread_entry_point (s : duda_dthread_scheduler_t) :
    res (duda_dthread_scheduler_t * list Z) :=
  match slot s (running_id s) with
  | None => Fault NullDeref
  | Some t =>
      Ret (mk_sch (n_dthread s - 1) (cap s) (dt_parent t)
             (set_slot (dt s) (running_id s) (set_status DTHREAD_DEAD t)), chan_list t)
  end.

Definition duda_dthread_add_channel (id a : Z) (s : duda_dthread_scheduler_t) :
    res duda_dthread_scheduler_t :=
  if (0 <=? id) && (id <? cap s) then
    match slot s id with
    | None => Fault NullDeref
    | Some t =>
        Ret (mk_sch (n_dthread s) (cap s) (running_id s)
               (set_slot (dt s) id
                  (mk_dt (dt_func t) (dt_data t) (dt_status t) (dt_parent t) (chan_list t ++ [a]))))
    end
  else Fault AssertFail.

(** ** Channels *)

Definition duda_dthread_channel_create (size : Z) : duda_dthread_channel_t :=
  mk_chan (size + 1) 0 [] (-1) (-1) 0 0.

Definition duda_dthread_channel_set_sender (c : duda_dthread_channel_t) (id : Z) : duda_dthread_channel_t :=
  mk_chan (ch_size c) (ch_used c) (bufs c) id (receiver c) (ended c) (done c).

Definition chan_receiver (c : duda_dthread_channel_t) (id : Z) : duda_dthread_channel_t :=
  mk_chan (ch_size c) (ch_used c) (bufs c) (sender c) id (ended c) (done c).

Definition duda_dthread_channel_end (c : duda_dthread_channel_t) : duda_dthread_channel_t :=
  mk_chan (ch_size c) (ch_used c) (bufs c) (sender c) (receiver c) 1 (done c).

Definition duda_dthread_channel_done (c : duda_dthread_channel_t) : Z := done c.

(** The parts of [chan_send] and [chan_recv] after the possible switch. *)
Definition channel_push (c : duda_dthread_channel_t) (data : Z) : duda_dthread_channel_t :=
  mk_chan (ch_size c) (ch_used c + 1) (bufs c ++ [data]) (sender c) (receiver c) (ended c) (done c).

(** The first element of an empty list is not an element. *)
Definition channel_pop (c : duda_dthread_channel_t) : res (Z * duda_dthread_channel_t) :=
  match bufs c with
  | [] => Fault OutOfBounds
  | data :: l =>
      let used := ch_used c - 1 in
      Ret (data, mk_chan (ch_size c) used l (sender c) (receiver c) (ended c)
                   (if (used =? 0) && negb (ended c =? 0) then 1 else done c))
  end.

(** ** The system: one scheduler, its channels and the pending second halves *)

Inductive pending : Set :=
  | PendSend (a data : Z)
  | PendRecv (a : Z).

Record system := mk_system {
  sched : duda_dthread_scheduler_t;
  chans : gmap Z duda_dthread_channel_t;
  pend : gmap Z pending;
}.

(** What the running code does next.  [Continue] is the second half of a call
    that switched. *)
Inductive action : Set :=
  | Create (func data : Z)
  | Yield
  | Resume (id : Z)
  | Return
  | ChanCreate (a size : Z)
  | SetSender (a id : Z)
  | SetReceiver (a id : Z)
  | EndChan (a : Z)
  | Send (a data : Z)
  | Recv (a : Z)
  | Continue.

Inductive observed : Set :=
  | Pushed (a data : Z)
  | Popped (a data : Z)
  | Broken (a : Z).

Definition DTHREAD_CHANNEL_OK : Z := 0.

Definition with_sched (s : system) (sch : duda_dthread_scheduler_t) : system :=
  mk_system sch (chans s) (pend s).
Definition with_chan (s : system) (a : Z) (c : duda_dthread_channel_t) : system :=
  mk_system (sched s) (<[a := c]> (chans s)) (pend s).
Definition with_pend (s : system) (p : gmap Z pending) : system :=
  mk_system (sched s) (chans s) p.

Definition get_chan (s : system) (a : Z) : res duda_dthread_channel_t :=
  match chans s !! a with Some c => Ret c | None => Fault NullDeref end.

(** [chan->receiver = -1] for the channels of a thread that ended. *)
Definition clear_receivers (l : list Z) (m : gmap Z duda_dthread_channel_t) :
    gmap Z duda_dthread_channel_t :=
  foldr (fun a m => alter (fun c => chan_receiver c (-1)) a m) m l.

Definition send_tail (s : system) (a data : Z) : res (system * list observed) :=
  c ← get_chan s a; Ret (with_chan s a (channel_push c data), [Pushed a data]).

Definition recv_tail (s : system) (a : Z) : res (system * list observed) :=
  c ← get_chan s a;
  '(data, c) ← channel_pop c;
  Ret (with_chan s a c, [Popped a data]).

(** The call up to the switch: with a full (an empty) channel the other side is
    resumed, and the rest waits until control is back. *)
Definition duda_dthread_channel_send (s : system) (a data : Z) : res (system * list observed) :=
  c ← get_chan s a;
  if receiver c =? -1 then Ret (s, [Broken a])
  else if ch_used c =? ch_size c then
    sch ← duda_dthread_resume (receiver c) (sched s);
    Ret (with_pend (with_sched s sch) (<[running_id (sched s) := PendSend a data]> (pend s)), [])
  else send_tail s a data.

Definition duda_dthread_channel_recv (s : system) (a : Z) : res (system * list observed) :=
  c ← get_chan s a;
  if negb (done c =? 0) then Fault AssertFail
  else if ch_used c =? 0 then
    sch ← duda_dthread_resume (sender c) (sched s);
    Ret (with_pend (with_sched s sch) (<[running_id (sched s) := PendRecv a]> (pend s)), [])
  else recv_tail s a.

Definition duda_dthread_channel_set_receiver (s : system) (a id : Z) : res system :=
  c ← get_chan s a;
  sch ← duda_dthread_add_channel id a (sched s);
  Ret (with_chan (with_sched s sch) a (chan_receiver c id)).

Definition chan_update (s : system) (a : Z) (f : duda_dthread_channel_t -> duda_dthread_channel_t) :
    res (system * list observed) :=
  c ← get_chan s a; Ret (with_chan s a (f c), []).

Definition sys_step (act : action) (s : system) : res (system * list observed) :=
  match act with
  | Create func data =>
      '(_, sch) ← duda_dthread_create func data (Some (sched s)); Ret (with_sched s sch, [])
  | Yield => sch ← duda_dthread_yield (sched s); Ret (with_sched s sch, [])
  | Resume id => sch ← duda_dthread_resume id (sched s); Ret (with_sched s sch, [])
  | Return =>
      '(sch, l) ← _duda_dthread_entry_point (sched s);
      Ret (mk_system sch (clear_receivers l (chans s)) (pend s), [])
  | ChanCreate a size => Ret (with_chan s a (duda_dthread_channel_create size), [])
  | SetSender a id => chan_update s a (fun c => duda_dthread_channel_set_sender c id)
  | SetReceiver a id => s ← duda_dthread_channel_set_receiver s a id; Ret (s, [])
  | EndChan a => chan_update s a duda_dthread_channel_end
  | Send a data => duda_dthread_channel_send s a data
  | Recv a => duda_dthread_channel_recv s a
  | Continue =>
      let s' := with_pend s (delete (running_id (sched s)) (pend s)) in
      match pend s !! running_id (sched s) with
      | Some (PendSend a data) => send_tail s' a data
      | Some (PendRecv a) => recv_tail s' a
      | None => Ret (s, [])
      end
  end.

(** A thread inside a call first completes it; a channel is created at a free
    address and gets its receiver while it has none (it is then on no list of a
    live thread). *)
Definition enabled (s : system) (act : action) : bool :=
  match act with
  | Continue => bool_decide (is_Some (pend s !! running_id (sched s)))
  | _ => bool_decide (pend s !! running_id (sched s) = None)
         && match act with
            | ChanCreate a _ => bool_decide (chans s !! a = None)
            | SetReceiver a _ => match chans s !! a with Some c => receiver c =? -1 | None => true end
            | Return => 0 <=? running_id (sched s)
            | _ => true
            end
  end.

Definition init : system := mk_system duda_dthread_open ∅ ∅.

(** Control is in the main context or in a thread that was started and has not
    ended. *)
Definition live (s : system) : bool :=
  if running_id (sched s) =? -1 then true
  else match slot (sched s) (running_id (sched s)) with
       | Some t => match dt_status t with DTHREAD_RUNNING | DTHREAD_SUSPEND => true | _ => false end
       | None => false
       end.

Inductive runs : list observed -> system -> Prop :=
  | runs_init : runs [] init
  | runs_step tr s act s' o :
      runs tr s -> live s = true -> enabled s act = true -> sys_step act s = Ret (s', o) ->
      runs (tr ++ o) s'.

Fixpoint run (acts : list action) (s : system) (tr : list observed) : res (list observed * system) :=
  match acts with
  | [] => Ret (tr, s)
  | a :: acts' =>
      if live s && enabled s a then '(s, o) ← sys_step a s; run acts' s (tr ++ o) else Fault AssertFail
  end.

Lemma run_runs acts : forall s tr tr' s', runs tr s -> run acts s tr = Ret (tr', s') -> runs tr' s'.
Proof.
  induction acts as [|a acts IH]; intros s tr tr' s' Hr; cbn; [congruence|].
  destruct (live s) eqn:Hl, (enabled s a) eqn:He; try done. cbn.
  destruct (sys_step a s) as [[s1 o]|] eqn:Hs; [|done]. cbn. apply IH. by eapply runs_step.
Qed.

(** ** The invariant of the scheduler *)

Definition alive (l : list (option duda_dthread_t)) : nat :=
  length (List.filter (fun o => negb (free_slot o)) l).

Record sched_ok (s : duda_dthread_scheduler_t) : Prop := {
  ok_cap : 0 < cap s;
  ok_len : Z.of_nat (length (dt s)) = cap s;
  ok_count : n_dthread s = Z.of_nat (alive (dt s));
  ok_running : running_id s = -1 \/ is_Some (slot s (running_id s));
  ok_one : forall id t, slot s id = Some t -> dt_status t = DTHREAD_RUNNING -> id = running_id s;
  ok_parent : forall id t, slot s id = Some t -> dt_parent t = -1 \/ is_Some (slot s (dt_parent t));
}.

Lemma slot_range l id t : slot_at l id = Some t -> 0 <= id < Z.of_nat (length l).
Proof.
  unfold slot_at. dbool; [|done]. destruct (l !! Z.to_nat id) eqn:E; [|done].
  apply lookup_lt_Some in E. lia.
Qed.

Lemma slot_set l id t id' : 0 <= id < Z.of_nat (length l) ->
  slot_at (set_slot l id t) id' = if id' =? id then Some t else slot_at l id'.
Proof.
  intros Hr. unfold slot_at, set_slot. dbool; subst.
  - rewrite list_lookup_insert_eq by lia. done.
  - rewrite list_lookup_insert_ne by lia. done.
  - done.
Qed.

Lemma slot_set_some l id t id' : 0 <= id < Z.of_nat (length l) ->
  is_Some (slot_at l id') -> is_Some (slot_at (set_slot l id t) id').
Proof. intros Hr Hs. rewrite slot_set by done. by destruct (id' =? id). Qed.

Lemma alive_set l id t : 0 <= id < Z.of_nat (length l) ->
  (alive (set_slot l id t) + Nat.b2n (negb (free_slot (slot_at l id)))
   = alive l + Nat.b2n (negb (free_slot (Some t))))%nat.
Proof.
  intros Hr. unfold slot_at, set_slot. destruct (Z.leb_spec 0 id); [|lia].
  assert (Hn : (Z.to_nat id < length l)%nat) by lia. revert Hn. generalize (Z.to_nat id) as n.
  clear. unfold alive. induction l as [|o l IH]; intros n Hn; [cbn in Hn; lia|].
  destruct n as [|n]; cbn [insert list_insert lookup list_lookup List.filter].
  - change (mjoin (Some o)) with o. destruct (negb (free_slot o)), (negb (free_slot (Some t))); cbn; lia.
  - specialize (IH n ltac:(cbn in Hn; lia)).
    destruct (negb (free_slot o)); cbn [length Nat.add]; [f_equal|]; exact IH.
Qed.

(** One write to a slot. *)
Lemma sched_ok_put s id t n r :
  sched_ok s -> 0 <= id < cap s ->
  n + Z.b2z (negb (free_slot (slot s id))) = n_dthread s + Z.b2z (negb (free_slot (Some t))) ->
  (r = -1 \/ is_Some (slot s r)) ->
  (dt_status t = DTHREAD_RUNNING -> id = r) ->
  (forall id' t', id' <> id -> slot s id' = Some t' -> dt_status t' = DTHREAD_RUNNING -> id' = r) ->
  (dt_parent t = -1 \/ is_Some (slot s (dt_parent t))) ->
  sched_ok (mk_sch n (cap s) r (set_slot (dt s) id t)).
Proof.
  intros [Hc Hl Hn Hr Ho Hp] Hid Hcount Hr' Hone Hothers Hpar. unfold slot in *.
  rewrite <- Hl in Hid. split; unfold slot; cbn [cap dt n_dthread running_id].
  - done.
  - unfold set_slot. by rewrite length_insert.
  - pose proof (alive_set (dt s) id t Hid) as Ha.
    destruct (negb (free_slot (slot_at (dt s) id))), (negb (free_slot (Some t))); cbn [Nat.b2n Z.b2z] in *; lia.
  - destruct Hr' as [|?]; [by left|right]. by apply slot_set_some.
  - intros id' t'. rewrite slot_set by done. dbool; [intros [= <-]; naive_solver|]. by apply Hothers.
  - intros id' t'. rewrite slot_set by done. dbool.
    + intros [= <-]. destruct Hpar as [|?]; [by left|right]. by apply slot_set_some.
    + intros Ht'. destruct (Hp _ _ Ht') as [|?]; [by left|right]. by apply slot_set_some.
Qed.

Lemma sched_ok_write s id t0 t n r :
  sched_ok s -> slot s id = Some t0 ->
  n + Z.b2z (negb (free_slot (Some t0))) = n_dthread s + Z.b2z (negb (free_slot (Some t))) ->
  (r = -1 \/ is_Some (slot s r)) ->
  (dt_status t = DTHREAD_RUNNING -> id = r) ->
  (forall id' t', id' <> id -> slot s id' = Some t' -> dt_status t' = DTHREAD_RUNNING -> id' = r) ->
  (dt_parent t = -1 \/ is_Some (slot s (dt_parent t))) ->
  sched_ok (mk_sch n (cap s) r (set_slot (dt s) id t)).
Proof.
  intros Hok Hs Hcount. apply sched_ok_put; [done| |by rewrite Hs].
  rewrite <- (ok_len s Hok). by eapply slot_range.
Qed.

(** A thread that is not dead counts as one. *)
Lemma not_free st f d p l : st <> DTHREAD_DEAD -> free_slot (Some (mk_dt f d st p l)) = false.
Proof. intros Hst. cbn. by rewrite bool_decide_false. Qed.

Lemma not_free_status t : dt_status t <> DTHREAD_DEAD -> free_slot (Some t) = false.
Proof. destruct t. apply not_free. Qed.

Lemma dead_free t : free_slot (Some (set_status DTHREAD_DEAD t)) = true.
Proof. reflexivity. Qed.

Lemma open_ok : sched_ok duda_dthread_open.
Proof.
  assert (Hnone : forall id, slot duda_dthread_open id = None).
  { intros id. unfold slot, slot_at. dbool; [|done].
    destruct (dt duda_dthread_open !! Z.to_nat id) as [o|] eqn:E; [|done].
    by apply lookup_replicate in E as [-> _]. }
  split; [done|done|done|by left|..]; intros id t Ht; by rewrite Hnone in Ht.
Qed.

(** Control is in the main context or in a thread that has not ended. *)
Definition running_alive (s : duda_dthread_scheduler_t) : Prop :=
  running_id s = -1 \/ exists t, slot s (running_id s) = Some t /\ dt_status t <> DTHREAD_DEAD.

(** The running thread gives up control. *)
Lemma suspend_ok s t : sched_ok s -> slot s (running_id s) = Some t -> dt_status t <> DTHREAD_DEAD ->
  sched_ok (mk_sch (n_dthread s) (cap s) (-1)
              (set_slot (dt s) (running_id s) (set_status DTHREAD_SUSPEND t))).
Proof.
  intros Hok Ht Hd. apply (sched_ok_write s _ t); [done|done| |by left|done| |].
  - rewrite !not_free_status; [lia|done|done].
  - intros id' t' Hne Ht' Hr. destruct (Hne (ok_one s Hok _ _ Ht' Hr)).
  - apply (ok_parent s Hok _ _ Ht).
Qed.

Lemma yield_ok s s' : sched_ok s -> running_alive s ->
  duda_dthread_yield s = Ret s' -> sched_ok s'.
Proof.
  intros Hok Hl. unfold duda_dthread_yield. destruct (Z.leb_spec 0 (running_id s)); [|done].
  destruct Hl as [|(t & Ht & Hd)]; [lia|]. rewrite Ht. intros [= <-]. by apply suspend_ok.
Qed.

Lemma entry_point_ok s s' l t : sched_ok s -> slot s (running_id s) = Some t -> dt_status t <> DTHREAD_DEAD ->
  _duda_dthread_entry_point s = Ret (s', l) -> sched_ok s'.
Proof.
  intros Hok Ht Hd. unfold _duda_dthread_entry_point. rewrite Ht. intros [= <- _].
  apply (sched_ok_write s _ t); [done|done| |exact (ok_parent s Hok _ _ Ht)|done| |].
  - rewrite not_free_status, dead_free by done. cbn. lia.
  - intros id' t' Hne Ht' Hr. destruct (Hne (ok_one s Hok _ _ Ht' Hr)).
  - apply (ok_parent s Hok _ _ Ht).
Qed.

Lemma add_channel_ok id a s s' : sched_ok s -> duda_dthread_add_channel id a s = Ret s' -> sched_ok s'.
Proof.
  intros Hok. unfold duda_dthread_add_channel. destruct (_ && _); [|done].
  destruct (slot s id) as [t|] eqn:Ht; [|done]. intros [= <-].
  apply (sched_ok_write s _ t); [done|done|by destruct t|apply (ok_running s Hok)| | |].
  - apply (ok_one s Hok _ _ Ht).
  - intros id' t' _. apply (ok_one s Hok).
  - apply (ok_parent s Hok _ _ Ht).
Qed.

(** The main context starts or continues a thread. *)
Lemma start_ok s id t t' : sched_ok s -> running_id s = -1 -> slot s id = Some t ->
  dt_status t <> DTHREAD_DEAD -> dt_status t' = DTHREAD_RUNNING ->
  (dt_parent t' = -1 \/ is_Some (slot s (dt_parent t'))) ->
  sched_ok (mk_sch (n_dthread s) (cap s) id (set_slot (dt s) id t')).
Proof.
  intros Hok Hr Ht Hd Hrun Hp. apply (sched_ok_write s _ t); [done|done| | |done| |done].
  - rewrite !not_free_status; [lia|by rewrite Hrun|done].
  - right. by rewrite Ht.
  - intros id' t1 _ Ht1 Hr1. pose proof (ok_one s Hok _ _ Ht1 Hr1) as ->.
    unfold slot in Ht1. apply slot_range in Ht1. lia.
Qed.

(** A switch between two threads is a suspension followed by a start. *)
Lemma switch_ok s id t r t' : sched_ok s -> slot s (running_id s) = Some r -> dt_status r <> DTHREAD_DEAD ->
  slot s id = Some t -> id <> running_id s -> dt_status t <> DTHREAD_DEAD ->
  dt_status t' = DTHREAD_RUNNING -> (dt_parent t' = -1 \/ is_Some (slot s (dt_parent t'))) ->
  sched_ok (mk_sch (n_dthread s) (cap s) id
              (set_slot (set_slot (dt s) (running_id s) (set_status DTHREAD_SUSPEND r)) id t')).
Proof.
  intros Hok Hr Hrd Ht Hne Hd Hrun Hp. pose proof (slot_range _ _ _ Hr) as Hrange.
  apply (start_ok (mk_sch (n_dthread s) (cap s) (-1)
    (set_slot (dt s) (running_id s) (set_status DTHREAD_SUSPEND r))) id t).
  - by apply suspend_ok.
  - done.
  - unfold slot. cbn [dt]. rewrite slot_set by done. by dbool.
  - done.
  - done.
  - destruct Hp as [|Hp]; [by left|right]. by apply slot_set_some.
Qed.

Lemma resume_ok id s s' : sched_ok s -> running_alive s ->
  duda_dthread_resume id s = Ret s' -> sched_ok s'.
Proof.
  intros Hok Hl. unfold duda_dthread_resume. destruct (_ && _); [|done].
  destruct (slot s id) as [t|] eqn:Ht; [|by intros [= <-]].
  pose proof (ok_parent s Hok _ _ Ht) as Hp.
  destruct Hl as [Hm|(r & Hr & Hrd)].
  - rewrite Hm. destruct (dt_status t) eqn:Hst; [done| |done|]; intros [= <-];
      apply (start_ok s id t); rewrite ?Hst; done.
  - pose proof (slot_range _ _ _ Hr) as Hrange. rewrite Hr.
    destruct (Z.eqb_spec (running_id s) (-1)) as [|_]; [lia|].
    destruct (Z.eq_dec id (running_id s)) as [->|Hne].
    + rewrite Hr in Ht. injection Ht as <-. rewrite Z.eqb_refl. unfold set_slot. rewrite !list_insert_insert_eq.
      destruct (dt_status r) eqn:Hst; [done| |done|]; intros [= <-].
      * apply (sched_ok_write s _ r); [done|done| | |done| |].
        -- rewrite !not_free_status; [lia|done|by rewrite Hst].
        -- right. by rewrite Hr.
        -- intros id' t1 _. apply (ok_one s Hok).
        -- right. cbn. by rewrite Hr.
      * apply (sched_ok_write s _ r); [done|done| | |done| |done].
        -- rewrite !not_free_status; [lia|done|by rewrite Hst].
        -- right. by rewrite Hr.
        -- intros id' t1 _. apply (ok_one s Hok).
    + destruct (Z.eqb_spec (running_id s) id) as [|_]; [congruence|].
      destruct (dt_status t) eqn:Hst; [done| |done|]; intros [= <-].
      * apply (switch_ok s id t r); rewrite ?Hst; try done. right. cbn. by rewrite Hr.
      * unfold set_slot at 1 2. rewrite list_insert_insert_ne by (apply slot_range in Ht; lia).
        apply (switch_ok s id t r); rewrite ?Hst; done.
Qed.

(** Creation. *)
Lemma alive_le l : (alive l <= length l)%nat.
Proof. apply List.filter_length_le. Qed.

Lemma first_free_ok l i : (alive l < length l)%nat ->
  exists o, 0 <= first_free l i - i < Z.of_nat (length l)
  /\ l !! Z.to_nat (first_free l i - i) = Some o /\ free_slot o = true.
Proof.
  revert i. induction l as [|o l IH]; intros i; [cbn; lia|]. unfold alive. cbn [List.filter first_free].
  destruct (free_slot o) eqn:Ho; cbn [negb].
  - intros _. exists o. rewrite Z.sub_diag. cbn. split; [lia|done].
  - intros Hl. destruct (IH (i + 1)) as (o' & Hr & Hlk & Hf); [unfold alive; cbn in Hl; lia|].
    exists o'. split; [cbn; lia|]. split; [|done].
    by replace (Z.to_nat (first_free l (i + 1) - i)) with (S (Z.to_nat (first_free l (i + 1) - (i + 1)))) by lia.
Qed.

Lemma slot_grow l k id : slot_at (l ++ replicate k None) id = slot_at l id.
Proof.
  unfold slot_at. dbool; [|done]. destruct (decide (Z.to_nat id < length l)%nat) as [Hlt|Hge].
  - by rewrite lookup_app_l.
  - rewrite lookup_app_r by lia. rewrite (lookup_ge_None_2 l) by lia.
    destruct (_ !! _) eqn:E; [|done]. by apply lookup_replicate in E as [-> _].
Qed.

Lemma alive_grow l k : alive (l ++ replicate k None) = alive l.
Proof.
  unfold alive. rewrite List.filter_app, length_app.
  replace (List.filter _ (replicate k None)) with (@nil (option duda_dthread_t)); [cbn; lia|].
  by induction k.
Qed.

Lemma grow_ok s : sched_ok s ->
  sched_ok (mk_sch (n_dthread s) (cap s * 2) (running_id s) (dt s ++ replicate (Z.to_nat (cap s)) None)).
Proof.
  intros [Hc Hl Hn Hr Ho Hp]. unfold slot in *. split; unfold slot; cbn [cap dt n_dthread running_id].
  - lia.
  - rewrite length_app, length_replicate. lia.
  - by rewrite alive_grow.
  - by rewrite slot_grow.
  - intros id t. rewrite slot_grow. apply Ho.
  - intros id t. rewrite !slot_grow. apply Hp.
Qed.

(** A new thread in a free slot of [s0], which has the threads of [s]. *)
Lemma create_put s s0 id t : sched_ok s0 -> n_dthread s0 = n_dthread s -> running_id s0 = running_id s ->
  (forall id', slot s0 id' = slot s id') -> 0 <= id < cap s0 -> free_slot (slot s id) = true ->
  dt_status t = DTHREAD_READY -> dt_parent t = -1 ->
  exists s', s' = mk_sch (n_dthread s + 1) (cap s0) (running_id s) (set_slot (dt s0) id t) /\ sched_ok s'
  /\ slot s' id = Some t /\ (forall id', id' <> id -> slot s' id' = slot s id').
Proof.
  intros Hok Hn Hr Hs0 Hid Hfree Hst Hp. eexists. split; [done|].
  assert (Hid' : 0 <= id < Z.of_nat (length (dt s0))) by (rewrite (ok_len s0 Hok); lia).
  split_and!; unfold slot; cbn [dt].
  - rewrite <- Hn, <- Hr. apply sched_ok_put; [done|done| |apply (ok_running s0 Hok)|by rewrite Hst| |by left].
    + rewrite Hs0, Hfree, (not_free_status t); [cbn; lia|by rewrite Hst].
    + intros id' t' _. apply (ok_one s0 Hok).
  - rewrite slot_set by done. by dbool.
  - intros id1 Hne. rewrite slot_set by done. dbool. apply Hs0.
Qed.

Lemma create_spec f d s : sched_ok s ->
  exists id s', duda_dthread_create f d (Some s) = Ret (id, s') /\ sched_ok s'
  /\ free_slot (slot s id) = true /\ slot s' id = Some (mk_dt f d DTHREAD_READY (-1) [])
  /\ (forall id', id' <> id -> slot s' id' = slot s id')
  /\ n_dthread s' = n_dthread s + 1 /\ running_id s' = running_id s.
Proof.
  intros Hok. pose proof (ok_cap s Hok). pose proof (ok_len s Hok). pose proof (ok_count s Hok).
  unfold duda_dthread_create. change (default duda_dthread_open (Some s)) with s. destruct (Z.leb_spec (cap s) (n_dthread s)).
  - assert (Hfree : free_slot (slot s (cap s)) = true).
    { unfold slot, slot_at. dbool. by rewrite (lookup_ge_None_2 (dt s)) by lia. }
    destruct (create_put s _ (cap s) (mk_dt f d DTHREAD_READY (-1) []) (grow_ok s Hok))
      as (s' & Es & Hok' & Hs & Ho); try done; [intros ?; apply slot_grow|cbn; lia|].
    exists (cap s), s'. split_and!; try done; subst s'; [|done|done]. dbool. done.
  - destruct (first_free_ok (dt s) 0) as (o & Hid & Hlk & Hf); [lia|]. rewrite Z.sub_0_r in *.
    assert (Hfree : free_slot (slot s (first_free (dt s) 0)) = true).
    { unfold slot, slot_at. dbool. by rewrite Hlk. }
    destruct (create_put s s (first_free (dt s) 0) (mk_dt f d DTHREAD_READY (-1) []) Hok)
      as (s' & Es & Hok' & Hs & Ho); try done; [lia|].
    exists (first_free (dt s) 0), s'. split_and!; try done; subst s'; [|done|done]. dbool. done.
Qed.

Lemma live_running s : live s = true -> running_alive (sched s).
Proof.
  unfold live, running_alive. dbool. destruct (slot _ _) as [t|]; [|done].
  intros Hst. right. exists t. split; [done|]. by destruct (dt_status t).
Qed.

(** The scheduler changes by its own operations only. *)
Lemma sys_step_sched act s s' o : sys_step act s = Ret (s', o) ->
  sched s' = sched s
  \/ (exists f d id, duda_dthread_create f d (Some (sched s)) = Ret (id, sched s'))
  \/ duda_dthread_yield (sched s) = Ret (sched s')
  \/ (exists id, duda_dthread_resume id (sched s) = Ret (sched s'))
  \/ (act = Return /\ exists l, _duda_dthread_entry_point (sched s) = Ret (sched s', l))
  \/ (exists id a, duda_dthread_add_channel id a (sched s) = Ret (sched s')).
Proof.
  destruct act; cbn [sys_step]; unfold duda_dthread_channel_send, duda_dthread_channel_recv,
    duda_dthread_channel_set_receiver, chan_update, send_tail, recv_tail; intros E;
    try (destruct (pend s !! _) as [[]|]); inv_res E; injection E as <- <-; cbn [sched with_sched with_chan with_pend];
    try (by left); eauto 8.
  inv_res H. injection H as <-. cbn. eauto 8.
Qed.

Lemma sys_step_ok act s s' o : sched_ok (sched s) -> live s = true -> enabled s act = true ->
  sys_step act s = Ret (s', o) -> sched_ok (sched s').
Proof.
  intros Hok Hl He Hs. pose proof (live_running s Hl) as Ha.
  destruct (sys_step_sched act s s' o Hs) as
    [->|[(f & d & id & E)|[E|[(id & E)|[(-> & l & E)|(id & a & E)]]]]].
  - done.
  - destruct (create_spec f d (sched s) Hok) as (id' & s1 & E' & Hok' & _).
    rewrite E' in E. by injection E as _ <-.
  - by eapply yield_ok.
  - by eapply resume_ok.
  - destruct Ha as [Hr|(t & Ht & Hd)]; [|by eapply entry_point_ok].
    unfold enabled in He. rewrite Hr, andb_false_r in He. done.
  - by eapply add_channel_ok.
Qed.

Lemma runs_sched_ok tr s : runs tr s -> sched_ok (sched s).
Proof. induction 1; [apply open_ok|by eapply sys_step_ok]. Qed.

(** ** The traffic of a channel *)

Definition pushed (a : Z) (tr : list observed) : list Z :=
  omap (fun o => match o with Pushed b d => if b =? a then Some d else None | _ => None end) tr.
Definition popped (a : Z) (tr : list observed) : list Z :=
  omap (fun o => match o with Popped b d => if b =? a then Some d else None | _ => None end) tr.

Lemma pushed_app a t1 t2 : pushed a (t1 ++ t2) = pushed a t1 ++ pushed a t2.
Proof. apply omap_app. Qed.
Lemma popped_app a t1 t2 : popped a (t1 ++ t2) = popped a t1 ++ popped a t2.
Proof. apply omap_app. Qed.

Record chan_ok (tr : list observed) (a : Z) (c : duda_dthread_channel_t) : Prop := {
  ok_fifo : pushed a tr = popped a tr ++ bufs c;
  ok_used : ch_used c = Z.of_nat (length (bufs c));
  ok_done : done c <> 0 -> ended c <> 0;
}.

(** A channel that does not exist has no traffic. *)
Definition chans_ok (tr : list observed) (m : gmap Z duda_dthread_channel_t) : Prop :=
  forall a, match m !! a with
            | Some c => chan_ok tr a c
            | None => pushed a tr = [] /\ popped a tr = []
            end.

(** Updates that leave the content alone. *)
Definition same_content (c c' : duda_dthread_channel_t) : Prop :=
  bufs c' = bufs c /\ ch_used c' = ch_used c /\ done c' = done c /\ (ended c <> 0 -> ended c' <> 0).

Lemma chan_ok_same tr a c c' : chan_ok tr a c -> same_content c c' -> chan_ok tr a c'.
Proof.
  intros [Hf Hu Hd] (Hb & Hus & Hdn & He). split; rewrite ?Hb, ?Hus, ?Hdn; auto.
Qed.

Lemma chans_ok_update tr m a c c' : chans_ok tr m -> m !! a = Some c -> same_content c c' ->
  chans_ok tr (<[a := c']> m).
Proof.
  intros Hm Ha Hs b. specialize (Hm b). destruct (decide (b = a)) as [->|Hne].
  - rewrite lookup_insert_eq. rewrite Ha in Hm. by eapply chan_ok_same.
  - by rewrite lookup_insert_ne.
Qed.

Lemma clear_receivers_ok tr l m : chans_ok tr m -> chans_ok tr (clear_receivers l m).
Proof.
  intros Hm. induction l as [|a l IH]; [done|]. cbn. fold (clear_receivers l m).
  intros b. specialize (IH b). destruct (decide (b = a)) as [->|Hne].
  - rewrite lookup_alter_eq. destruct (clear_receivers l m !! a); [by eapply chan_ok_same|done].
  - by rewrite lookup_alter_ne.
Qed.

(** Traffic of one channel does not touch the others. *)
Lemma chans_ok_traffic tr m a c c' o : chans_ok tr m -> m !! a = Some c ->
  (forall b, b <> a -> pushed b o = [] /\ popped b o = []) -> chan_ok (tr ++ o) a c' ->
  chans_ok (tr ++ o) (<[a := c']> m).
Proof.
  intros Hm Ha Ho Hc b. specialize (Hm b). destruct (decide (b = a)) as [->|Hne].
  - by rewrite lookup_insert_eq.
  - rewrite lookup_insert_ne by done. destruct (Ho b Hne) as [Hp Hq].
    destruct (m !! b); [|by rewrite pushed_app, popped_app, Hp, Hq, !app_nil_r].
    destruct Hm as [Hf Hu Hd]. split; [by rewrite pushed_app, popped_app, Hp, Hq, !app_nil_r|done|done].
Qed.

Lemma get_chan_lookup s a c : get_chan s a = Ret c -> chans s !! a = Some c.
Proof. unfold get_chan. destruct (chans s !! a); [by intros [= ->]|done]. Qed.

Lemma other_channel (a b d : Z) : b <> a ->
  (pushed b [Pushed a d] = [] /\ popped b [Pushed a d] = [])
  /\ (pushed b [Popped a d] = [] /\ popped b [Popped a d] = []).
Proof. intros Hne. unfold pushed, popped. cbn. by dbool. Qed.

Lemma send_tail_ok tr s a d s' o : chans_ok tr (chans s) -> send_tail s a d = Ret (s', o) ->
  chans_ok (tr ++ o) (chans s').
Proof.
  unfold send_tail. intros Hm E. inv_res E. injection E as <- <-. cbn [chans with_chan].
  pose proof (get_chan_lookup _ _ _ H) as Hc. pose proof (Hm a) as Ha. rewrite Hc in Ha.
  eapply chans_ok_traffic; [done|done|intros b Hne; by apply other_channel|].
  destruct Ha as [Hf Hu Hd]. split; cbn [bufs channel_push ch_used done ended]; [|rewrite length_app; cbn; lia|done].
  rewrite pushed_app, popped_app, Hf. unfold pushed, popped. cbn. rewrite Z.eqb_refl.
  by rewrite app_nil_r, app_assoc.
Qed.

Lemma recv_tail_ok tr s a s' o : chans_ok tr (chans s) -> recv_tail s a = Ret (s', o) ->
  chans_ok (tr ++ o) (chans s').
Proof.
  unfold recv_tail. intros Hm E. inv_res E. injection E as <- <-. cbn [chans with_chan].
  pose proof (get_chan_lookup _ _ _ H) as Hc. pose proof (Hm a) as Ha. rewrite Hc in Ha.
  eapply chans_ok_traffic; [done|done|intros b Hne; by apply other_channel|].
  destruct Ha as [Hf Hu Hd]. unfold channel_pop in H0. destruct (bufs x) as [|e l] eqn:Eb; [done|].
  injection H0 as <- <-. split; cbn [bufs ch_used done ended].
  - rewrite pushed_app, popped_app, Hf. unfold pushed, popped. cbn. rewrite Z.eqb_refl.
    by rewrite app_nil_r, <- app_assoc.
  - rewrite Hu. cbn [length]. lia.
  - destruct (_ && _) eqn:Ec; [|done]. apply andb_true_iff in Ec as [_ Ec]. lia.
Qed.

Lemma sys_step_chans_ok tr act s s' o : chans_ok tr (chans s) -> enabled s act = true ->
  sys_step act s = Ret (s', o) -> chans_ok (tr ++ o) (chans s').
Proof.
  intros Hm He E.
  assert (Hquiet : chans s' = chans s -> o = [] \/ (exists a, o = [Broken a]) -> chans_ok (tr ++ o) (chans s')).
  { intros -> Ho a. specialize (Hm a). destruct Ho as [->|[b ->]]; [by rewrite app_nil_r|].
    destruct (chans s !! a); [destruct Hm; split|]; rewrite ?pushed_app, ?popped_app; cbn; rewrite ?app_nil_r; done. }
  destruct act; cbn [sys_step] in E.
  - inv_res E. injection E as <- <-. by apply Hquiet; [|left].
  - inv_res E. injection E as <- <-. by apply Hquiet; [|left].
  - inv_res E. injection E as <- <-. by apply Hquiet; [|left].
  - inv_res E. injection E as <- <-. rewrite app_nil_r. by apply clear_receivers_ok.
  - injection E as <- <-. cbn in He. apply andb_true_iff in He as [_ He%bool_decide_eq_true].
    rewrite app_nil_r. intros b. cbn. specialize (Hm b). destruct (decide (b = a)) as [->|Hne].
    + rewrite lookup_insert_eq. rewrite He in Hm. destruct Hm as [Hp Hq]. split; cbn; [by rewrite Hp, Hq|done|done].
    + by rewrite lookup_insert_ne.
  - unfold chan_update in E. inv_res E. injection E as <- <-. rewrite app_nil_r.
    eapply chans_ok_update; [done|by apply get_chan_lookup|done].
  - unfold duda_dthread_channel_set_receiver in E. inv_res E. injection E as <- <-.
    inv_res H. injection H as <-. rewrite app_nil_r.
    eapply chans_ok_update; [done|by apply get_chan_lookup|done].
  - unfold chan_update in E. inv_res E. injection E as <- <-. rewrite app_nil_r.
    eapply chans_ok_update; [done|by apply get_chan_lookup|done].
  - unfold duda_dthread_channel_send in E. inv_res E; [| |by eapply send_tail_ok];
      injection E as <- <-; apply Hquiet; eauto.
  - unfold duda_dthread_channel_recv in E. inv_res E; [|by eapply recv_tail_ok].
    injection E as <- <-; apply Hquiet; eauto.
  - destruct (pend s !! _) as [[]|]; [by eapply send_tail_ok in E|by eapply recv_tail_ok in E|].
    injection E as <- <-. by apply Hquiet; [|left].
Qed.

(** ** Properties *)

(** C25. Whatever sequence of operations the threads perform, the scheduler
    counts exactly the threads that are not dead, at most one thread is marked
    running and it is the one that has control, and the running thread and the
    parent of every thread are existing threads. *)
Theorem scheduler_invariant tr s :
  runs tr s ->
  n_dthread (sched s) = Z.of_nat (alive (dt (sched s)))
  /\ Z.of_nat (length (dt (sched s))) = cap (sched s)
  /\ (running_id (sched s) = -1 \/ is_Some (slot (sched s) (running_id (sched s))))
  /\ (forall id t, slot (sched s) id = Some t -> dt_status t = DTHREAD_RUNNING ->
        id = running_id (sched s))
  /\ (forall id t, slot (sched s) id = Some t ->
        dt_parent t = -1 \/ is_Some (slot (sched s) (dt_parent t))).
Proof. intros Hr. destruct (runs_sched_ok tr s Hr). done. Qed.

(** In every reachable state, [create] returns an identifier that no live
    thread has (doubling the table when it is full), the new thread is ready
    and no other thread changes. *)
Theorem create_is_fresh tr s f d :
  runs tr s ->
  exists id sch, duda_dthread_create f d (Some (sched s)) = Ret (id, sch)
  /\ free_slot (slot (sched s) id) = true
  /\ slot sch id = Some (mk_dt f d DTHREAD_READY (-1) [])
  /\ (forall id', id' <> id -> slot sch id' = slot (sched s) id')
  /\ n_dthread sch = n_dthread (sched s) + 1.
Proof.
  intros Hr. destruct (create_spec f d (sched s) (runs_sched_ok tr s Hr))
    as (id & sch & Hc & _ & Hf & Hs & Ho & Hn & _). by exists id, sch.
Qed.

(** C24. Channels are lossless queues: in every reachable state, whatever the
    interleaving of senders and receivers and of the switches inside their
    calls, what was sent on a channel is what was received from it followed by
    its buffer, and [used] is the length of the buffer. *)
Theorem channel_fifo tr s a c :
  runs tr s -> chans s !! a = Some c ->
  pushed a tr = popped a tr ++ bufs c /\ ch_used c = Z.of_nat (length (bufs c))
  /\ (duda_dthread_channel_done c <> 0 -> ended c <> 0).
Proof.
  intros Hr Hc.
  assert (Hok : chans_ok tr (chans s)).
  { clear Hc. induction Hr; [done|by eapply sys_step_chans_ok]. }
  specialize (Hok a). rewrite Hc in Hok. by destruct Hok.
Qed.

(** A receiver (thread 0) starts and waits on an empty channel for a sender
    (thread 1); the channel has room for two elements. *)
Definition ping : list action :=
  [Create 10 0; Create 11 0; ChanCreate 100 1; SetReceiver 100 0; SetSender 100 1;
   Resume 0; Recv 100; Send 100 7; Send 100 8; Send 100 9; Continue; Yield].

(** The trace and the state at the end of a script. *)
Definition end_of (acts : list action) : list observed * system :=
  match run acts init [] with Ret r => r | Fault _ => ([], init) end.

Lemma end_runs acts : runs (end_of acts).1 (end_of acts).2.
Proof.
  unfold end_of. destruct (run acts init []) as [[tr s]|] eqn:E; [|constructor].
  by apply (run_runs acts init []); [constructor|].
Qed.

Definition ping_end := end_of ping.

Lemma scheduler_invariant_witness :
  n_dthread (sched ping_end.2) = 2 /\ running_id (sched ping_end.2) = -1
  /\ n_dthread (sched ping_end.2) = Z.of_nat (alive (dt (sched ping_end.2))).
Proof.
  split; [vm_compute; reflexivity|]. split; [vm_compute; reflexivity|].
  apply (scheduler_invariant ping_end.1 ping_end.2 (end_runs ping)).
Defined.

Lemma create_is_fresh_witness :
  exists id sch, duda_dthread_create 12 0 (Some (sched ping_end.2)) = Ret (id, sch)
  /\ free_slot (slot (sched ping_end.2) id) = true.
Proof.
  destruct (create_is_fresh ping_end.1 ping_end.2 12 0 (end_runs ping)) as (id & sch & Hc & Hf & _).
  exists id, sch. exact (conj Hc Hf).
Defined.

Lemma channel_fifo_witness :
  exists c, chans ping_end.2 !! 100 = Some c /\ pushed 100 ping_end.1 = popped 100 ping_end.1 ++ bufs c
  /\ popped 100 ping_end.1 = [7].
Proof.
  eexists. split; [vm_compute; reflexivity|]. split; [|vm_compute; reflexivity].
  apply (channel_fifo ping_end.1 ping_end.2 100); [exact (end_runs ping)|vm_compute; reflexivity].
Defined.

(** A thread returns to the thread that first resumed it even when that one has
    ended: control is then in a dead thread. *)
Lemma return_to_dead_parent :
  exists tr s t, runs tr s /\ slot (sched s) (running_id (sched s)) = Some t
  /\ dt_status t = DTHREAD_DEAD.
Proof.
  pose (r := end_of [Create 10 0; Create 11 0; Resume 0; Resume 1; Yield; Resume 0; Return; Resume 1; Return]).
  exists r.1, r.2. eexists. split; [apply end_runs|]. split; vm_compute; reflexivity.
Qed.

(** A receiver that waits for a sender which ends without sending takes an
    element from an empty list. *)
Lemma recv_from_ended_sender :
  run [Create 10 0; Create 11 0; ChanCreate 100 1; SetReceiver 100 0; SetSender 100 1;
       Resume 0; Recv 100; EndChan 100; Return; Continue] init [] = Fault OutOfBounds.
Proof. vm_compute. reflexivity. Qed.

(** A sender that finds the channel full and is resumed by a receiver that took
    nothing stores one element too many. *)
Lemma send_overfills :
  exists tr s c, runs tr s /\ chans s !! 100 = Some c /\ ch_size c < ch_used c.
Proof.
  pose (r := end_of [Create 10 0; Create 11 0; ChanCreate 100 0; SetReceiver 100 0; SetSender 100 1;
    Resume 1; Send 100 7; Send 100 8; Resume 1; Continue]).
  exists r.1, r.2. eexists. split; [apply end_runs|]. split; vm_compute; reflexivity.
Qed.
