(* ===== verification/MysqlClient.v ===== *)
(** * The client library of packages/mariadb

    The non-blocking calls of the MariaDB client the package uses:
    deps/libmariadbclient/sql-common/mysql_async.c (the [_start] and [_cont] wrappers),
    sql-common/client.c and libmysql/libmysql.c (the calls themselves), at the level of the
    packets of the protocol.  The server is the class [Server]: the reply it sends to
    the n-th query.  A packet carries the number of times a read finds that it has
    not come yet, which is when the library suspends the call.  The loss of the
    connection and the reads of LOAD DATA are not modelled. *)

From S2P Require Import Prelude.

(** ** Protocol *)

Definition row := list (option string).

Inductive packet : Type :=
  | PErr (errno : Z)
  | POk (more : bool)
  | PFields (names : list string)
  | PRow (r : row)
  | PEof (more : bool).

(** The answer to one statement: an error, success without a result set, or a
    result set, whose rows end with the end-of-data packet ([None]) or with an error.
    The numbers are the delays of the packets: one for the first, one per row, one
    for the last. *)
Inductive reply : Type :=
  | RError (d : nat) (errno : Z)
  | ROk (d : nat)
  | RSet (d : nat) (names : list string) (rows : list (nat * row)) (d_end : nat) (fin : option Z).

Definition end_packet (more : bool) (fin : option Z) : packet :=
  match fin with None => PEof more | Some e => PErr e end.

Definition row_packets (rows : list (nat * row)) : list (nat * packet) :=
  (fun r => (r.1, PRow r.2)) <$> rows.

Definition reply_packets (more : bool) (r : reply) : list (nat * packet) :=
  match r with
  | RError d e => [(d, PErr e)]
  | ROk d => [(d, POk more)]
  | RSet d names rows d' fin =>
      (d, PFields names) :: row_packets rows ++ [(d', end_packet more fin)]
  end.

(** The replies to the statements of one query; all but the last announce that
    more results follow. *)
Fixpoint packets (rs : list reply) : list (nat * packet) :=
  match rs with
  | [] => []
  | r :: rs' => reply_packets (match rs' with [] => false | _ => true end) r ++ packets rs'
  end.

Class Server := { respond : nat -> string -> list reply }.

(** ** The client *)

Inductive mysql_status := MYSQL_STATUS_READY | MYSQL_STATUS_GET_RESULT | MYSQL_STATUS_USE_RESULT.

Inductive async_op := OpConnect | OpQuery | OpFetch | OpFree | OpNext.

#[export] Instance mysql_status_eq_dec : EqDecision mysql_status.
Proof. solve_decision. Defined.
#[export] Instance async_op_eq_dec : EqDecision async_op.
Proof. solve_decision. Defined.

Definition CR_UNKNOWN_ERROR : Z := 2000.
Definition CR_COMMANDS_OUT_OF_SYNC : Z := 2014.
Definition CR_MALFORMED_PACKET : Z := 2027.

(** [my_more] is the bit SERVER_MORE_RESULTS_EXISTS of [server_status], [my_suspended]
    the call that waits in the asynchronous context, [my_in] what the server has
    sent or will send, [my_sent] the number of queries sent, [my_greeting] the delay
    and the error (0 for none) of the connection attempt. *)
Record MYSQL := mk_mysql {
  my_status : mysql_status;
  my_errno : Z;
  my_more : bool;
  my_fields : option (list string);
  my_in : list (nat * packet);
  my_sent : nat;
  my_suspended : option async_op;
  my_greeting : nat * Z
}.

(** [MYSQL_RES]: whether [handle] is set, and [eof]; [names] are the column names. *)
Record MYSQL_RES := mk_res { rs_handle : bool; rs_eof : bool; rs_names : list string }.

Definition mysql_init (greeting : nat * Z) : MYSQL :=
  mk_mysql MYSQL_STATUS_READY 0 false None [] 0 None greeting.

Definition set_errno e m :=
  mk_mysql (my_status m) e (my_more m) (my_fields m) (my_in m) (my_sent m) (my_suspended m) (my_greeting m).
Definition set_status s m :=
  mk_mysql s (my_errno m) (my_more m) (my_fields m) (my_in m) (my_sent m) (my_suspended m) (my_greeting m).
Definition set_more b m :=
  mk_mysql (my_status m) (my_errno m) b (my_fields m) (my_in m) (my_sent m) (my_suspended m) (my_greeting m).
Definition set_fields f m :=
  mk_mysql (my_status m) (my_errno m) (my_more m) f (my_in m) (my_sent m) (my_suspended m) (my_greeting m).
Definition set_in i m :=
  mk_mysql (my_status m) (my_errno m) (my_more m) (my_fields m) i (my_sent m) (my_suspended m) (my_greeting m).
Definition set_suspended o m :=
  mk_mysql (my_status m) (my_errno m) (my_more m) (my_fields m) (my_in m) (my_sent m) o (my_greeting m).
Definition set_greeting g m :=
  mk_mysql (my_status m) (my_errno m) (my_more m) (my_fields m) (my_in m) (my_sent m) (my_suspended m) g.

(** The outcome of a call that may wait: suspended (the C function returns the
    events to wait for, not 0), or finished with a value. *)
Inductive call (A : Type) : Type :=
  | Suspended (m : MYSQL)
  | Finished (a : A) (m : MYSQL).
Arguments Suspended {A} m.
Arguments Finished {A} a m.

(** A packet, or [None] for an error packet, which sets the error and clears the
    announcement of more results. *)
Definition cli_safe_read (m : MYSQL) : call (option packet) :=
  match my_in m with
  | [] => Suspended m
  | (S d, p) :: rest => Suspended (set_in ((d, p) :: rest) m)
  | (O, PErr e) :: rest => Finished None (set_more false (set_errno e (set_in rest m)))
  | (O, p) :: rest => Finished (Some p) (set_in rest m)
  end.

(** A row or an end-of-data packet does not start a reply. *)
Definition cli_read_query_result (m : MYSQL) : call Z :=
  match cli_safe_read m with
  | Suspended m => Suspended m
  | Finished None m => Finished 1 m
  | Finished (Some p) m =>
      let m := set_fields None m in
      match p with
      | POk more => Finished 0 (set_more more m)
      | PFields names => Finished 0 (set_status MYSQL_STATUS_GET_RESULT (set_fields (Some names) m))
      | _ => Finished 1 (set_errno CR_MALFORMED_PACKET m)
      end
  end.

Section server.
Context `{Server}.

Definition send_query (s : string) (m : MYSQL) : MYSQL :=
  mk_mysql (my_status m) 0 (my_more m) (my_fields m)
    (my_in m ++ packets (respond (my_sent m) s)) (S (my_sent m)) (my_suspended m) (my_greeting m).

Definition mysql_real_query (m : MYSQL) (s : string) : call Z :=
  if bool_decide (my_status m <> MYSQL_STATUS_READY) || my_more m
  then Finished 1 (set_errno CR_COMMANDS_OUT_OF_SYNC m)
  else cli_read_query_result (send_query s m).
End server.

Definition mysql_use_result (m : MYSQL) : option MYSQL_RES * MYSQL :=
  match my_fields m with
  | None => (None, m)
  | Some names =>
      if bool_decide (my_status m <> MYSQL_STATUS_GET_RESULT)
      then (None, set_errno CR_COMMANDS_OUT_OF_SYNC m)
      else (Some (mk_res true false names),
            set_status MYSQL_STATUS_USE_RESULT (set_fields None m))
  end.

(** 0: a row; 1: the end of the data; -1: an error. *)
Definition read_one_row (m : MYSQL) : call (Z * row) :=
  match cli_safe_read m with
  | Suspended m => Suspended m
  | Finished None m => Finished (-1, []) m
  | Finished (Some (PEof more)) m => Finished (1, []) (set_more more m)
  | Finished (Some (PRow r)) m => Finished (0, r) m
  | Finished (Some _) m => Finished (-1, []) (set_errno CR_UNKNOWN_ERROR m)
  end.

Definition fetch_end (res : MYSQL_RES) (m : MYSQL) : call (option row * MYSQL_RES) :=
  Finished (None, mk_res false true (rs_names res)) (set_status MYSQL_STATUS_READY m).

Definition mysql_fetch_row (res : MYSQL_RES) (m : MYSQL) : call (option row * MYSQL_RES) :=
  if rs_eof res then Finished (None, res) m
  else if bool_decide (my_status m <> MYSQL_STATUS_USE_RESULT)
  then fetch_end res (set_errno CR_COMMANDS_OUT_OF_SYNC m)
  else match read_one_row m with
       | Suspended m => Suspended m
       | Finished (rc, r) m => if rc =? 0 then Finished (Some r, res) m else fetch_end res m
       end.

(** [cli_flush_use_result] with [flush_all_results] false. *)
Fixpoint flush_one_result (l : list (nat * packet)) (m : MYSQL) : call unit :=
  match l with
  | [] => Suspended (set_in [] m)
  | (S d, p) :: rest => Suspended (set_in ((d, p) :: rest) m)
  | (O, PErr e) :: rest => Finished tt (set_more false (set_errno e (set_in rest m)))
  | (O, PEof more) :: rest => Finished tt (set_more more (set_in rest m))
  | (O, _) :: rest => flush_one_result rest m
  end.

Definition mysql_free_result (res : MYSQL_RES) (m : MYSQL) : call unit :=
  if rs_handle res && bool_decide (my_status m = MYSQL_STATUS_USE_RESULT)
  then match flush_one_result (my_in m) m with
       | Suspended m => Suspended m
       | Finished _ m => Finished tt (set_status MYSQL_STATUS_READY m)
       end
  else Finished tt m.

(** 0: a further result; -1: no more results; positive: an error. *)
Definition mysql_next_result (m : MYSQL) : call Z :=
  if bool_decide (my_status m <> MYSQL_STATUS_READY)
  then Finished 1 (set_errno CR_COMMANDS_OUT_OF_SYNC m)
  else let m := set_errno 0 m in
       if my_more m then cli_read_query_result m else Finished (-1) m.

Definition mysql_real_connect (m : MYSQL) : call bool :=
  match my_greeting m with
  | (S d, e) => Suspended (set_greeting (d, e) m)
  | (O, e) => if e =? 0 then Finished true m else Finished false (set_errno e m)
  end.

(** ** The asynchronous wrappers *)

(** MK_ASYNC_START_BODY: the outcome of the call decides whether the context is left
    suspended. *)
Definition async_start {A} (op : async_op) (c : call A) : call A :=
  match c with
  | Suspended m => Suspended (set_suspended (Some op) m)
  | Finished a m => Finished a (set_suspended None m)
  end.

(** MK_ASYNC_CONT_BODY: [k] is the rest of the suspended call; without a suspended call the
    answer is the error value, and the status is 0. *)
Definition async_cont {A} (op : async_op) (err : A) (k : MYSQL -> call A) (m : MYSQL) : call A :=
  match my_suspended m with
  | None => Finished err (set_errno CR_COMMANDS_OUT_OF_SYNC m)
  | Some _ => async_start op (k m)
  end.

Definition mysql_real_connect_start (m : MYSQL) : call bool := async_start OpConnect (mysql_real_connect m).
Definition mysql_real_connect_cont (m : MYSQL) : call bool :=
  async_cont OpConnect false mysql_real_connect m.

Definition mysql_real_query_start `{Server} (m : MYSQL) (s : string) : call Z :=
  async_start OpQuery (mysql_real_query m s).
(** The query has been sent: what is left is the reading of the reply. *)
Definition mysql_real_query_cont (m : MYSQL) : call Z :=
  async_cont OpQuery 1 cli_read_query_result m.

Definition mysql_fetch_row_start (res : MYSQL_RES) (m : MYSQL) : call (option row * MYSQL_RES) :=
  if rs_handle res then async_start OpFetch (mysql_fetch_row res m) else mysql_fetch_row res m.
Definition mysql_fetch_row_cont (res : MYSQL_RES) (m : MYSQL) : call (option row * MYSQL_RES) :=
  async_cont OpFetch (None, res) (mysql_fetch_row res) m.

Definition mysql_free_result_start (res : MYSQL_RES) (m : MYSQL) : call unit :=
  if rs_handle res then async_start OpFree (mysql_free_result res m) else mysql_free_result res m.
Definition mysql_free_result_cont (res : MYSQL_RES) (m : MYSQL) : call unit :=
  async_cont OpFree tt (mysql_free_result res) m.

Definition mysql_next_result_start (m : MYSQL) : call Z := async_start OpNext (mysql_next_result m).
(** The wait is always inside the reading of the next reply. *)
Definition mysql_next_result_cont (m : MYSQL) : call Z :=
  async_cont OpNext 1 cli_read_query_result m.

(** ** The calls on the packets of a reply *)

Definition head_delay (r : reply) : nat :=
  match r with RError d _ => d | ROk d => d | RSet d _ _ _ _ => d end.

(** A reply after a read found its first packet missing. *)
Definition tick (r : reply) : reply :=
  match r with
  | RError d e => RError (pred d) e
  | ROk d => ROk (pred d)
  | RSet d names rows d' fin => RSet (pred d) names rows d' fin
  end.

Definition more_of (rs : list reply) : bool := match rs with [] => false | _ => true end.

Definition end_error (fin : option Z) (e : Z) : Z := match fin with None => e | Some e' => e' end.
Definition end_more (fin : option Z) (more : bool) : bool := match fin with None => more | Some _ => false end.

Section calls.
Context (g : nat * Z).
Implicit Types (st : mysql_status) (su : option async_op) (b : bool) (e : Z) (f : option (list string)).

(** What the client holds once the first packet of a reply that is not an error is read. *)
Definition header_mysql (r : reply) (rs : list reply) e b n su : MYSQL :=
  match r with
  | RSet _ names rows d fin =>
      mk_mysql MYSQL_STATUS_GET_RESULT e b (Some names)
        (row_packets rows ++ (d, end_packet (more_of rs) fin) :: packets rs) n su g
  | _ => mk_mysql MYSQL_STATUS_READY e (more_of rs) None (packets rs) n su g
  end.

Lemma read_delayed r rs st e b f n su d : head_delay r = S d ->
  cli_read_query_result (mk_mysql st e b f (packets (r :: rs)) n su g)
  = Suspended (mk_mysql st e b f (packets (tick r :: rs)) n su g).
Proof. by destruct r; cbn; intros ->. Qed.

Lemma read_header r rs e b f n su : head_delay r = 0%nat -> (forall d e', r <> RError d e') ->
  cli_read_query_result (mk_mysql MYSQL_STATUS_READY e b f (packets (r :: rs)) n su g)
  = Finished 0 (header_mysql r rs e b n su).
Proof.
  destruct r as [d e'|d|d names rows d' fin]; cbn; intros -> Hr; [by destruct (Hr 0%nat e')|done|].
  unfold set_in, set_fields, set_status. cbn. rewrite <- app_assoc. done.
Qed.

Lemma header_suspended r rs e b n su su' :
  set_suspended su' (header_mysql r rs e b n su) = header_mysql r rs e b n su'.
Proof. by destruct r. Qed.

Lemma read_error rs st e e' b f n su :
  cli_read_query_result (mk_mysql st e b f (packets (RError 0 e' :: rs)) n su g)
  = Finished 1 (mk_mysql st e' false f (packets rs) n su g).
Proof. done. Qed.

Lemma use_result_set d names rows d' fin rs e b n su :
  mysql_use_result (header_mysql (RSet d names rows d' fin) rs e b n su)
  = (Some (mk_res true false names),
     mk_mysql MYSQL_STATUS_USE_RESULT e b None
       (row_packets rows ++ (d', end_packet (more_of rs) fin) :: packets rs) n su g).
Proof. done. Qed.

Lemma fetch_delayed names st e b f d p l n su : st = MYSQL_STATUS_USE_RESULT ->
  mysql_fetch_row (mk_res true false names) (mk_mysql st e b f ((S d, p) :: l) n su g)
  = Suspended (mk_mysql st e b f ((d, p) :: l) n su g).
Proof. by intros ->. Qed.

Lemma fetch_row names e b f rw l n su :
  mysql_fetch_row (mk_res true false names)
    (mk_mysql MYSQL_STATUS_USE_RESULT e b f ((0%nat, PRow rw) :: l) n su g)
  = Finished (Some rw, mk_res true false names) (mk_mysql MYSQL_STATUS_USE_RESULT e b f l n su g).
Proof. done. Qed.

Lemma fetch_last names e b f fin more l n su :
  mysql_fetch_row (mk_res true false names)
    (mk_mysql MYSQL_STATUS_USE_RESULT e b f ((0%nat, end_packet more fin) :: l) n su g)
  = Finished (None, mk_res false true names)
      (mk_mysql MYSQL_STATUS_READY (end_error fin e) (end_more fin more) f l n su g).
Proof. by destruct fin. Qed.

Lemma next_none e f l n su :
  mysql_next_result_start (mk_mysql MYSQL_STATUS_READY e false f l n su g)
  = Finished (-1) (mk_mysql MYSQL_STATUS_READY 0 false f l n None g).
Proof. done. Qed.

Lemma next_more e f l n su :
  mysql_next_result_start (mk_mysql MYSQL_STATUS_READY e true f l n su g)
  = async_start OpNext (cli_read_query_result (mk_mysql MYSQL_STATUS_READY 0 true f l n su g)).
Proof. done. Qed.
End calls.

Lemma real_query_ready `{Server} g e f n su s :
  mysql_real_query_start (mk_mysql MYSQL_STATUS_READY e false f [] n su g) s
  = async_start OpQuery
      (cli_read_query_result (mk_mysql MYSQL_STATUS_READY 0 false f (packets (respond n s)) (S n) su g)).
Proof. done. Qed.

(** A continuation of a suspended call goes on with it. *)
Lemma async_cont_suspended {A} op op' (err : A) k m :
  my_suspended m = Some op' -> async_cont op err k m = async_start op (k m).
Proof. intros E. unfold async_cont. by rewrite E. Qed.

Lemma connect_cont d st e b f l n :
  mysql_real_connect_cont (mk_mysql st e b f l n (Some OpConnect) (d, 0)) =
  match d with
  | O => Finished true (mk_mysql st e b f l n None (0%nat, 0))
  | S d => Suspended (mk_mysql st e b f l n (Some OpConnect) (d, 0))
  end.
Proof. by destruct d. Qed.

(** Releasing a result reads the rows that are left. *)
Lemma flush_rows rows l m : Forall (fun r => r.1 = 0%nat) rows ->
  flush_one_result (row_packets rows ++ l) m = flush_one_result l m.
Proof. induction 1 as [|[d r] rows Hd _ IH]; [done|]. cbn in Hd. subst d. apply IH. Qed.
