(* ===== verification/MariadbAsync.v ===== *)
(** * Asynchronous queries of packages/mariadb

    One connection as the state machine of packages/mariadb/async.c, the event
    handlers of mariadb.c, and the records of connection.c and query.c, over the
    client of MysqlClient.v.  A query is named by its position of creation; a pointer to a
    query is its name, and following the name of a query that is no longer queued is a
    [UseAfterFree].  Callbacks are recorded in [c_out] and do not call back
    into the package; [c_event] is the registration of the descriptor.  The mutual
    recursion of the handlers takes fuel; [NoFuel] is a run that has not ended.

    MariadbSpec.v shows that for every interleaving of queries and read events the
    callbacks are those of the replies in order, and that as many read events as the
    replies have delays leave the connection idle, provided the rows of a reply are not
    delayed, and that the condition is needed. *)

From S2P Require Import Prelude MysqlClient.

(** ** Data *)

Inductive mariadb_conn_state_t :=
  | CONN_STATE_CLOSED
  | CONN_STATE_CONNECTING | CONN_STATE_CONNECTED
  | CONN_STATE_QUERYING | CONN_STATE_QUERIED
  | CONN_STATE_ROW_FETCHING | CONN_STATE_ROW_FETCHED
  | CONN_STATE_NEXT_RESULTING | CONN_STATE_NEXT_RESULTED
  | CONN_STATE_RESULT_FREEING | CONN_STATE_RESULT_FREED
  | CONN_STATE_ERROR.

#[export] Instance conn_state_eq_dec : EqDecision mariadb_conn_state_t.
Proof. solve_decision. Defined.

(** [conn->state >= CONN_STATE_CONNECTED]. *)
Definition state_ge_connected (s : mariadb_conn_state_t) : bool :=
  match s with CONN_STATE_CLOSED | CONN_STATE_CONNECTING => false | _ => true end.

(** The member [result] of a query: [NULL], a result, or a pointer to a freed one. *)
Inductive res_ptr := ResNull | ResLive (r : MYSQL_RES) | ResFreed.

Record mariadb_query := mk_query {
  q_id : nat;
  q_str : option string;
  q_result : res_ptr;
  q_fields : list string;
  q_error : Z;
  q_abort : bool;
  q_result_cb : bool;
  q_row_cb : bool;
  q_end_cb : bool
}.

Inductive log_message := LogConnect | LogQuery | LogMissing | LogRow | LogStatement | LogFree.

Inductive event :=
  | EvConnect (ok : bool)
  | EvDisconnect (ok : bool)
  | EvResult (id : nat) (fields : list string)
  | EvRow (id : nat) (r : row)
  | EvEnd (id : nat)
  | EvLog (l : log_message).

Inductive event_mode := EventRead | EventSleep | EventWakeup | EventNone.

(** Whether the connection is in use, freed, or back in its pool. *)
Inductive fate := Live | Freed | Reclaimed.

Record mariadb_conn := mk_conn {
  c_fd : Z;
  c_client_flag : Z;
  c_mysql : MYSQL;
  c_state : mariadb_conn_state_t;
  c_connect_cb : bool;
  c_disconnect_cb : bool;
  c_current : option nat;
  c_disconnect_on_finish : bool;
  c_is_pooled : bool;
  c_queries : list mariadb_query;
  c_event : event_mode;
  c_fate : fate;
  c_out : list event
}.

Definition CLIENT_MULTI_STATEMENTS : Z := 65536.

Definition with_mysql m c := mk_conn (c_fd c) (c_client_flag c) m (c_state c) (c_connect_cb c)
  (c_disconnect_cb c) (c_current c) (c_disconnect_on_finish c) (c_is_pooled c) (c_queries c) (c_event c) (c_fate c) (c_out c).
Definition with_state s c := mk_conn (c_fd c) (c_client_flag c) (c_mysql c) s (c_connect_cb c)
  (c_disconnect_cb c) (c_current c) (c_disconnect_on_finish c) (c_is_pooled c) (c_queries c) (c_event c) (c_fate c) (c_out c).
Definition with_connect_cb b c := mk_conn (c_fd c) (c_client_flag c) (c_mysql c) (c_state c) b
  (c_disconnect_cb c) (c_current c) (c_disconnect_on_finish c) (c_is_pooled c) (c_queries c) (c_event c) (c_fate c) (c_out c).
Definition with_disconnect_cb b c := mk_conn (c_fd c) (c_client_flag c) (c_mysql c) (c_state c) (c_connect_cb c)
  b (c_current c) (c_disconnect_on_finish c) (c_is_pooled c) (c_queries c) (c_event c) (c_fate c) (c_out c).
Definition with_current q c := mk_conn (c_fd c) (c_client_flag c) (c_mysql c) (c_state c) (c_connect_cb c)
  (c_disconnect_cb c) q (c_disconnect_on_finish c) (c_is_pooled c) (c_queries c) (c_event c) (c_fate c) (c_out c).
Definition with_finish b c := mk_conn (c_fd c) (c_client_flag c) (c_mysql c) (c_state c) (c_connect_cb c)
  (c_disconnect_cb c) (c_current c) b (c_is_pooled c) (c_queries c) (c_event c) (c_fate c) (c_out c).
Definition with_pooled b c := mk_conn (c_fd c) (c_client_flag c) (c_mysql c) (c_state c) (c_connect_cb c)
  (c_disconnect_cb c) (c_current c) (c_disconnect_on_finish c) b (c_queries c) (c_event c) (c_fate c) (c_out c).
Definition with_queries l c := mk_conn (c_fd c) (c_client_flag c) (c_mysql c) (c_state c) (c_connect_cb c)
  (c_disconnect_cb c) (c_current c) (c_disconnect_on_finish c) (c_is_pooled c) l (c_event c) (c_fate c) (c_out c).
Definition with_event e c := mk_conn (c_fd c) (c_client_flag c) (c_mysql c) (c_state c) (c_connect_cb c)
  (c_disconnect_cb c) (c_current c) (c_disconnect_on_finish c) (c_is_pooled c) (c_queries c) e (c_fate c) (c_out c).
Definition with_fate f c := mk_conn (c_fd c) (c_client_flag c) (c_mysql c) (c_state c) (c_connect_cb c)
  (c_disconnect_cb c) (c_current c) (c_disconnect_on_finish c) (c_is_pooled c) (c_queries c) (c_event c) f (c_out c).
Definition emit (l : list event) c := mk_conn (c_fd c) (c_client_flag c) (c_mysql c) (c_state c) (c_connect_cb c)
  (c_disconnect_cb c) (c_current c) (c_disconnect_on_finish c) (c_is_pooled c) (c_queries c) (c_event c) (c_fate c) (c_out c ++ l).

(** A callback that may be [NULL]. *)
Definition callback (set : bool) (e : event) (c : mariadb_conn) : mariadb_conn :=
  if set then emit [e] c else c.

(** ** query.c *)

Definition mariadb_query_init (id : nat) (query_str : option string)
    (result_cb row_cb end_cb : bool) : mariadb_query :=
  mk_query id query_str ResNull [] 0 false result_cb row_cb end_cb.

Fixpoint remove_query (id : nat) (l : list mariadb_query) : list mariadb_query :=
  match l with
  | [] => []
  | q :: l' => if decide (q_id q = id) then l' else q :: remove_query id l'
  end.

Fixpoint find_query (id : nat) (l : list mariadb_query) : option mariadb_query :=
  match l with
  | [] => None
  | q :: l' => if decide (q_id q = id) then Some q else find_query id l'
  end.

Fixpoint update_query (q : mariadb_query) (l : list mariadb_query) : list mariadb_query :=
  match l with
  | [] => []
  | q' :: l' => if decide (q_id q' = q_id q) then q :: l' else q' :: update_query q l'
  end.

(** A member of the query behind a pointer is read. *)
Definition deref (p : option nat) (c : mariadb_conn) : outcome mariadb_query :=
  match p with
  | None => Crash NullDeref
  | Some id => match find_query id (c_queries c) with
               | None => Crash UseAfterFree
               | Some q => Done q
               end
  end.

Definition mariadb_query_free (p : option nat) (c : mariadb_conn) : outcome mariadb_conn :=
  q ← deref p c;
  Done (with_queries (remove_query (q_id q) (c_queries c)) c).

Definition put_query (q : mariadb_query) (c : mariadb_conn) : mariadb_conn :=
  with_queries (update_query q (c_queries c)) c.

Definition q_set_error e q := mk_query (q_id q) (q_str q) (q_result q) (q_fields q) e (q_abort q)
  (q_result_cb q) (q_row_cb q) (q_end_cb q).
Definition q_set_result r q := mk_query (q_id q) (q_str q) r (q_fields q) (q_error q) (q_abort q)
  (q_result_cb q) (q_row_cb q) (q_end_cb q).
Definition q_set_fields f q := mk_query (q_id q) (q_str q) (q_result q) f (q_error q) (q_abort q)
  (q_result_cb q) (q_row_cb q) (q_end_cb q).

Definition mariadb_query_abort (q : mariadb_query) : mariadb_query :=
  mk_query (q_id q) (q_str q) (q_result q) (q_fields q) (q_error q) true
    (q_result_cb q) (q_row_cb q) (q_end_cb q).

(** A result pointer given to the client library. *)
Definition live_result (q : mariadb_query) : outcome MYSQL_RES :=
  match q_result q with
  | ResNull => Crash NullDeref
  | ResLive r => Done r
  | ResFreed => Crash UseAfterFree
  end.

(** ** connection.c *)

Definition mariadb_conn_create (greeting : nat * Z) (client_flag : Z) : mariadb_conn :=
  mk_conn 0 client_flag (mysql_init greeting) CONN_STATE_CLOSED false false None false false []
    EventNone Live [].

(** The queries go with the connection. *)
Definition mariadb_conn_free (c : mariadb_conn) : mariadb_conn :=
  with_fate Freed (with_queries [] c).

(** ** async.c *)

Definition mariadb_async_handle_release (c : mariadb_conn) (ok : bool) : mariadb_conn :=
  let c := with_event (if c_is_pooled c then EventSleep else EventNone) c in
  let c := callback (state_ge_connected (c_state c) && c_disconnect_cb c) (EvDisconnect ok) c in
  if c_is_pooled c then with_fate Reclaimed c
  else mariadb_conn_free (with_state CONN_STATE_CLOSED c).

Definition multi_statements (c : mariadb_conn) : bool :=
  negb (Z.land (c_client_flag c) CLIENT_MULTI_STATEMENTS =? 0).

(** The end of the rows: an error is logged, otherwise [end_cb] is called. *)
Definition rows_ended (q : mariadb_query) (c : mariadb_conn) : mariadb_conn :=
  if 0 <? my_errno (c_mysql c) then emit [EvLog LogRow] c
  else callback (q_end_cb q) (EvEnd (q_id q)) c.

(** The four handlers that call each other: the result of the current query, its rows, the
    release of the result, and the next result of a query with several statements. *)
Fixpoint mariadb_async_handle_result (n : nat) (c : mariadb_conn) : outcome mariadb_conn :=
  match n with
  | O => NoFuel
  | S n =>
      let p := c_current c in
      let '(r, m) := mysql_use_result (c_mysql c) in
      let c := with_mysql m c in
      q ← deref p c;
      match r with
      | None => c ← mariadb_query_free p (put_query (q_set_result ResNull q) c);
                Done (with_state CONN_STATE_CONNECTED c)
      | Some r =>
          let q := q_set_result (ResLive r) q in
          if q_abort q then mariadb_async_handle_result_free n (put_query q c)
          else let q := q_set_fields (rs_names r) q in
               let c := callback (q_result_cb q) (EvResult (q_id q) (rs_names r)) (put_query q c) in
               mariadb_async_handle_row n c
      end
  end
with mariadb_async_handle_row (n : nat) (c : mariadb_conn) : outcome mariadb_conn :=
  match n with
  | O => NoFuel
  | S n =>
      q ← deref (c_current c) c;
      r ← live_result q;
      match mysql_fetch_row_start r (c_mysql c) with
      | Suspended m => Done (with_state CONN_STATE_ROW_FETCHING (with_mysql m c))
      | Finished (rw, r) m =>
          let c := with_state CONN_STATE_ROW_FETCHED
                     (put_query (q_set_result (ResLive r) q) (with_mysql m c)) in
          match rw with
          | None => mariadb_async_handle_result_free n (rows_ended q c)
          | Some rw => mariadb_async_handle_row n (callback (q_row_cb q) (EvRow (q_id q) rw) c)
          end
      end
  end
with mariadb_async_handle_result_free (n : nat) (c : mariadb_conn) : outcome mariadb_conn :=
  match n with
  | O => NoFuel
  | S n =>
      let p := c_current c in
      q ← deref p c;
      r ← live_result q;
      match mysql_free_result_start r (c_mysql c) with
      | Suspended m => Done (with_state CONN_STATE_RESULT_FREEING (with_mysql m c))
      | Finished _ m =>
          let c := with_state CONN_STATE_RESULT_FREED
                     (put_query (q_set_result ResFreed q) (with_mysql m c)) in
          if multi_statements c then mariadb_async_handle_next_result n c
          else c ← mariadb_query_free p (with_current None c);
               Done (with_state CONN_STATE_CONNECTED c)
      end
  end
with mariadb_async_handle_next_result (n : nat) (c : mariadb_conn) : outcome mariadb_conn :=
  match n with
  | O => NoFuel
  | S n =>
      let p := c_current c in
      q ← deref p c;
      match mysql_next_result_start (c_mysql c) with
      | Suspended m => Done (with_state CONN_STATE_NEXT_RESULTING (with_mysql m c))
      | Finished e m =>
          let c := with_state CONN_STATE_NEXT_RESULTED (put_query (q_set_error e q) (with_mysql m c)) in
          if e =? -1 then
            c ← mariadb_query_free p (with_current None c);
            Done (with_state CONN_STATE_CONNECTED c)
          else if e =? 0 then
            c ← mariadb_async_handle_result n c;
            if decide (c_state c = CONN_STATE_RESULT_FREED)
            then mariadb_async_handle_next_result n c else Done c
          else mariadb_async_handle_next_result n (emit [EvLog LogStatement] c)
      end
  end.

Section server.
Context `{Server}.

(** The loop over the queued queries. *)
Fixpoint mariadb_async_handle_query (n : nat) (c : mariadb_conn) : outcome mariadb_conn :=
  match n with
  | O => NoFuel
  | S n =>
      match c_queries c with
      | [] =>
          let c := with_event EventSleep (with_state CONN_STATE_CONNECTED (with_current None c)) in
          if c_disconnect_on_finish c then Done (mariadb_async_handle_release c true) else Done c
      | q :: _ =>
          let p := Some (q_id q) in
          let c := with_current p c in
          if q_abort q then
            c ← mariadb_query_free p c;
            mariadb_async_handle_query n (with_state CONN_STATE_CONNECTED c)
          else match q_str q with
          | None => c ← mariadb_query_free p (emit [EvLog LogMissing] c);
                    mariadb_async_handle_query n c
          | Some s =>
              match mysql_real_query_start (c_mysql c) s with
              | Suspended m => Done (with_state CONN_STATE_QUERYING (with_mysql m c))
              | Finished e m =>
                  let c := put_query (q_set_error e q) (with_mysql m c) in
                  if e =? 0 then
                    c ← mariadb_async_handle_result n (with_state CONN_STATE_QUERIED c);
                    if decide (c_state c = CONN_STATE_CONNECTED)
                    then mariadb_async_handle_query n c else Done c
                  else c ← mariadb_query_free p (emit [EvLog LogQuery] c);
                       mariadb_async_handle_query n c
              end
          end
      end
  end.

(** [None]: the allocation of the query failed. *)
Definition mariadb_async_handle_add_query (n : nat) (q : option mariadb_query) (c : mariadb_conn)
    : outcome (Z * mariadb_conn) :=
  match q with
  | None => Done (-1, c)
  | Some q =>
      let c := with_queries (c_queries c ++ [q]) c in
      if decide (c_state c = CONN_STATE_CONNECTED)
      then c ← mariadb_async_handle_query n (with_event EventWakeup c); Done (0, c)
      else Done (0, c)
  end.

Definition mariadb_async_handle_disconnect (cb : bool) (c : mariadb_conn) : mariadb_conn :=
  let c := if c_disconnect_cb c then c else with_disconnect_cb cb c in
  if decide (c_state c = CONN_STATE_CONNECTED)
  then mariadb_async_handle_release c true else with_finish true c.

(** The socket the library opened is [fd]; [list_ok] tells whether the list of
    connections of the worker exists or could be allocated.  [MARIADB_OK] is 0,
    [MARIADB_ERR] -1. *)
Definition mariadb_async_handle_connect (n : nat) (fd : Z) (list_ok cb : bool) (c : mariadb_conn)
    : outcome (Z * mariadb_conn) :=
  let c := if c_connect_cb c then c else with_connect_cb cb c in
  let failed c :=
    Done (-1, mariadb_conn_free (callback (c_connect_cb c) (EvConnect false) (emit [EvLog LogConnect] c))) in
  let registered c :=
    let c := with_event EventRead c in
    if list_ok then
      if decide (c_state c = CONN_STATE_CONNECTED)
      then c ← mariadb_async_handle_query n c; Done (0, c) else Done (0, c)
    else Done (-1, mariadb_conn_free c) in
  if decide (c_state c = CONN_STATE_CLOSED) then
    let set_fd c := mk_conn fd (c_client_flag c) (c_mysql c) (c_state c) (c_connect_cb c)
      (c_disconnect_cb c) (c_current c) (c_disconnect_on_finish c) (c_is_pooled c) (c_queries c)
      (c_event c) (c_fate c) (c_out c) in
    match mysql_real_connect_start (c_mysql c) with
    | Suspended m =>
        let c := with_mysql m c in
        if 0 <? my_errno m then failed c
        else registered (with_state CONN_STATE_CONNECTING (set_fd c))
    | Finished false m =>
        let c := with_mysql m c in
        if 0 <? my_errno m then failed c else failed (set_fd c)
    | Finished true m =>
        let c := with_state CONN_STATE_CONNECTED (set_fd (with_mysql m c)) in
        registered (callback (c_connect_cb c) (EvConnect true) c)
    end
  else Done (0, c).

(** ** mariadb.c *)

Inductive event_ret := DUDA_EVENT_OWNED | DUDA_EVENT_CLOSE.

(** [if (conn->state == CONN_STATE_CONNECTED) mariadb_async_handle_query(conn);] *)
Definition query_if_connected (n : nat) (c : mariadb_conn) : outcome mariadb_conn :=
  if decide (c_state c = CONN_STATE_CONNECTED) then mariadb_async_handle_query n c else Done c.

(** The loop of the state ROW_FETCHING. *)
Fixpoint on_read_rows (n : nat) (c : mariadb_conn) : outcome mariadb_conn :=
  match n with
  | O => NoFuel
  | S n =>
      q ← deref (c_current c) c;
      r ← live_result q;
      match mysql_fetch_row_cont r (c_mysql c) with
      | Suspended m => Done (with_mysql m c)
      | Finished (rw, r) m =>
          let c := with_state CONN_STATE_ROW_FETCHED
                     (put_query (q_set_result (ResLive r) q) (with_mysql m c)) in
          match rw with
          | None => c ← mariadb_async_handle_result_free n (rows_ended q c);
                    query_if_connected n c
          | Some rw => on_read_rows n (callback (q_row_cb q) (EvRow (q_id q) rw) c)
          end
      end
  end.

(** The loop of the state NEXT_RESULTING. *)
Fixpoint on_read_next (n : nat) (c : mariadb_conn) : outcome mariadb_conn :=
  match n with
  | O => NoFuel
  | S n =>
      q ← deref (c_current c) c;
      match mysql_next_result_cont (c_mysql c) with
      | Suspended m => Done (with_mysql m c)
      | Finished e m =>
          let c := with_state CONN_STATE_NEXT_RESULTED (put_query (q_set_error e q) (with_mysql m c)) in
          if e =? -1 then
            (* conn->current_query = NULL; mariadb_query_free(conn->current_query); *)
            let c := with_current None c in
            c ← mariadb_query_free (c_current c) c;
            Done (with_state CONN_STATE_CONNECTED c)
          else if e =? 0 then
            c ← mariadb_async_handle_result n c;
            if decide (c_state c = CONN_STATE_RESULT_FREED) then on_read_next n c else Done c
          else on_read_next n (emit [EvLog LogStatement] c)
      end
  end.

(** [mariadb_on_read] for the connection of the descriptor. *)
Definition conn_on_read (n : nat) (c : mariadb_conn) : outcome (event_ret * mariadb_conn) :=
  let owned c := Done (DUDA_EVENT_OWNED, c) in
  match c_state c with
  | CONN_STATE_CONNECTING =>
      match mysql_real_connect_cont (c_mysql c) with
      | Suspended m => owned (with_mysql m c)
      | Finished false m =>
          let c := emit [EvLog LogConnect] (with_mysql m c) in
          Done (DUDA_EVENT_CLOSE, callback (c_connect_cb c) (EvConnect false) c)
      | Finished true m =>
          let c := with_state CONN_STATE_CONNECTED (with_mysql m c) in
          c ← mariadb_async_handle_query n (callback (c_connect_cb c) (EvConnect true) c);
          owned c
      end
  | CONN_STATE_QUERYING =>
      q ← deref (c_current c) c;
      match mysql_real_query_cont (c_mysql c) with
      | Suspended m => owned (with_mysql m c)
      | Finished e m =>
          let c := put_query (q_set_error e q) (with_mysql m c) in
          if e =? 0 then
            c ← mariadb_async_handle_result n (with_state CONN_STATE_QUERIED c);
            c ← query_if_connected n c;
            owned c
          else
            c ← mariadb_query_free (c_current c) (emit [EvLog LogQuery] c);
            c ← mariadb_async_handle_query n (with_state CONN_STATE_CONNECTED c);
            owned c
      end
  | CONN_STATE_ROW_FETCHING => c ← on_read_rows n c; owned c
  | CONN_STATE_RESULT_FREEING =>
      q ← deref (c_current c) c;
      r ← live_result q;
      match mysql_free_result_cont r (c_mysql c) with
      | Suspended m => owned (with_mysql m c)
      | Finished _ m =>
          let c := with_state CONN_STATE_RESULT_FREED
                     (put_query (q_set_result ResFreed q) (with_mysql m c)) in
          if multi_statements c then c ← mariadb_async_handle_next_result n c; owned c
          else
            (* conn->current_query = NULL; mariadb_query_free(conn->current_query); *)
            let c := with_current None c in
            c ← mariadb_query_free (c_current c) c;
            c ← mariadb_async_handle_query n (with_state CONN_STATE_CONNECTED c);
            owned c
      end
  | CONN_STATE_NEXT_RESULTING =>
      c ← on_read_next n c;
      c ← query_if_connected n c;
      owned c
  | _ => owned c
  end.

(** [mariadb_on_error]: the result of the current query is released with the blocking call, and
    the connection is closed even if it is pooled. *)
Definition conn_on_error (c : mariadb_conn) : outcome mariadb_conn :=
  let finish c := Done (mariadb_async_handle_release (with_pooled false c) false) in
  match c_current c with
  | None => finish c
  | Some id =>
      q ← deref (Some id) c;
      match q_result q with
      | ResNull => finish c
      | ResLive _ => finish c
      | ResFreed => Crash UseAfterFree
      end
  end.

(** [mariadb_on_close]. *)
Definition conn_on_close (c : mariadb_conn) : mariadb_conn :=
  mariadb_conn_free (callback (c_disconnect_cb c) (EvDisconnect false) (with_event EventNone c)).
End server.

(** The search stops at the descriptor, and leaves the last connection visited when no
    connection has it. *)
Fixpoint get_conn_from (fd : Z) (i : nat) (conn : option nat) (l : list mariadb_conn) : option nat :=
  match l with
  | [] => conn
  | c :: l' => if c_fd c =? fd then Some i else get_conn_from fd (S i) (Some i) l'
  end.

Definition mariadb_get_conn (fd : Z) (l : list mariadb_conn) : option nat := get_conn_from fd 0 None l.

(** The list of connections after a handler ran on one of them. *)
Definition store_conn (i : nat) (c : mariadb_conn) (l : list mariadb_conn) : list mariadb_conn :=
  match c_fate c with Freed => delete i l | _ => <[i := c]> l end.

Definition mariadb_on_read `{Server} (n : nat) (fd : Z) (l : list mariadb_conn)
    : outcome (event_ret * list mariadb_conn) :=
  match mariadb_get_conn fd l with
  | None => Done (DUDA_EVENT_CLOSE, l)
  | Some i => match l !! i with
              | None => Crash UseAfterFree
              | Some c => '(r, c) ← conn_on_read n c; Done (r, store_conn i c l)
              end
  end.

Definition mariadb_on_error (fd : Z) (l : list mariadb_conn) : outcome (event_ret * list mariadb_conn) :=
  match mariadb_get_conn fd l with
  | None => Done (DUDA_EVENT_CLOSE, l)
  | Some i => match l !! i with
              | None => Crash UseAfterFree
              | Some c => c ← conn_on_error c; Done (DUDA_EVENT_OWNED, store_conn i c l)
              end
  end.

Definition mariadb_on_close (fd : Z) (l : list mariadb_conn) : event_ret * list mariadb_conn :=
  match mariadb_get_conn fd l with
  | None => (DUDA_EVENT_CLOSE, l)
  | Some i => match l !! i with
              | None => (DUDA_EVENT_CLOSE, l)
              | Some c => (DUDA_EVENT_CLOSE, store_conn i (conn_on_close c) l)
              end
  end.

(** ** The search by descriptor *)

Lemma get_conn_from_found fd l : forall i j c conn,
  l !! i = Some c -> c_fd c = fd -> (forall k c', (k < i)%nat -> l !! k = Some c' -> c_fd c' <> fd) ->
  get_conn_from fd j conn l = Some (j + i)%nat.
Proof.
  induction l as [|c0 l IH]; intros i j c conn Hi Hc Hlt; [done|]. cbn. destruct i as [|i].
  - injection Hi as ->. rewrite Hc, Z.eqb_refl. by rewrite Nat.add_0_r.
  - rewrite (proj2 (Z.eqb_neq (c_fd c0) fd)); [|by apply (Hlt 0%nat); [lia|]].
    rewrite (IH i (S j) c); [f_equal; lia|done|done|].
    intros k c' Hk. apply (Hlt (S k)). lia.
Qed.

(** When no connection has the descriptor the answer is the last one visited, not [NULL]. *)
Lemma get_conn_from_missing fd l : forall j conn, l <> [] -> Forall (fun c => c_fd c <> fd) l ->
  get_conn_from fd j conn l = Some (j + (length l - 1))%nat.
Proof.
  induction l as [|c l IH]; intros j conn Hne Hl; [done|]. inversion Hl as [|? ? Hc Hl']; subst. cbn.
  rewrite (proj2 (Z.eqb_neq _ _) Hc). destruct l as [|c' l]; [cbn; f_equal; lia|].
  rewrite IH by done. cbn. f_equal. lia.
Qed.

(** The connection that is found: the first with the descriptor, else the last one. *)
Lemma mariadb_get_conn_spec fd l :
  match list_find (fun c => c_fd c = fd) l with
  | Some (i, c) => mariadb_get_conn fd l = Some i /\ l !! i = Some c
  | None => match last l with
            | Some c => mariadb_get_conn fd l = Some (length l - 1)%nat /\ l !! (length l - 1)%nat = Some c
            | None => mariadb_get_conn fd l = None
            end
  end.
Proof.
  unfold mariadb_get_conn. destruct (list_find _ l) as [[i c]|] eqn:Ef.
  - apply list_find_Some in Ef as (Hi & Hc & Hlt). split; [|done]. by rewrite (get_conn_from_found fd l i 0 c) by eauto.
  - apply list_find_None in Ef. destruct (last l) as [c|] eqn:El; [|by apply last_None in El as ->].
    assert (l <> []) by (by intros ->). rewrite last_lookup in El. split; [by rewrite get_conn_from_missing|].
    by replace (length l - 1)%nat with (pred (length l)) by lia.
Qed.
