(* ===== verification/MariadbSpec.v ===== *)
(** * What the asynchronous queries of packages/mariadb promise

    The callbacks a list of queries should see, computed from the replies of the server
    alone, and the proof that the state machine of MariadbAsync.v produces them
    for every pattern of delays in which the rows of a result come with its header.  The
    invariant [waiting] carries, for a connection between two events, the complete sequence of
    callbacks it will have produced and the number of read events it still needs. *)

From S2P Require Import Prelude MysqlClient MariadbAsync.

(** ** Specification *)

Definition call_if (b : bool) (e : event) : list event := if b then [e] else [].

Definition end_events (q : mariadb_query) (fin : option Z) : list event :=
  match fin with
  | None => call_if (q_end_cb q) (EvEnd (q_id q))
  | Some _ => [EvLog LogRow]
  end.

Definition row_events (q : mariadb_query) (rows : list (nat * row)) : list event :=
  if q_row_cb q then (fun r => EvRow (q_id q) r.2) <$> rows else [].

Definition reply_events (q : mariadb_query) (first : bool) (r : reply) : list event :=
  match r with
  | RError _ _ => [EvLog (if first then LogQuery else LogStatement)]
  | ROk _ => []
  | RSet _ names rows _ fin =>
      call_if (q_result_cb q) (EvResult (q_id q) names) ++ row_events q rows ++ end_events q fin
  end.

Fixpoint response_events (q : mariadb_query) (first : bool) (rs : list reply) : list event :=
  match rs with
  | [] => []
  | r :: rs' => reply_events q first r ++ response_events q false rs'
  end.

(** The callbacks of the queued queries, the next query sent being number [n]. *)
Fixpoint queue_events `{Server} (n : nat) (qs : list mariadb_query) : list event :=
  match qs with
  | [] => []
  | q :: qs' =>
      if q_abort q then queue_events n qs'
      else match q_str q with
           | None => EvLog LogMissing :: queue_events n qs'
           | Some s => response_events q true (respond n s) ++ queue_events (S n) qs'
           end
  end.

(** The number of queries a queue sends. *)
Fixpoint sends (qs : list mariadb_query) : nat :=
  match qs with
  | [] => 0
  | q :: qs' => (if q_abort q then 0 else match q_str q with None => 0 | Some _ => 1 end) + sends qs'
  end.

Definition reply_delay (r : reply) : nat :=
  match r with RError d _ => d | ROk d => d | RSet d _ _ d' _ => d + d' end.

Fixpoint response_delay (rs : list reply) : nat :=
  match rs with [] => 0 | r :: rs' => reply_delay r + response_delay rs' end.

Fixpoint queue_delay `{Server} (n : nat) (qs : list mariadb_query) : nat :=
  match qs with
  | [] => 0
  | q :: qs' =>
      if q_abort q then queue_delay n qs'
      else match q_str q with
           | None => queue_delay n qs'
           | Some s => response_delay (respond n s) + queue_delay (S n) qs'
           end
  end.

(** Turns of the loops: a bound on the fuel. *)
Definition reply_cost (r : reply) : nat :=
  match r with RSet _ _ rows _ _ => length rows + 6 | _ => 6 end.

Fixpoint response_cost (rs : list reply) : nat :=
  match rs with [] => 3 | r :: rs' => reply_cost r + response_cost rs' end.

Fixpoint queue_cost `{Server} (n : nat) (qs : list mariadb_query) : nat :=
  match qs with
  | [] => 1
  | q :: qs' =>
      S (if q_abort q then queue_cost n qs'
         else match q_str q with
              | None => queue_cost n qs'
              | Some s => response_cost (respond n s) + queue_cost (S n) qs'
              end)
  end.

(** Rows that come with the header of their result, and replies the handlers treat: every
    statement but the last one has a complete result, and an error in a later statement is not
    delayed. *)
Definition prompt (rows : list (nat * row)) : Prop := Forall (fun r => r.1 = 0%nat) rows.

Definition complete (r : reply) : Prop :=
  match r with RSet _ _ rows _ fin => prompt rows /\ fin = None | _ => False end.

Definition good_last (first : bool) (r : reply) : Prop :=
  match r with
  | RError d _ => first = true \/ d = 0%nat
  | ROk _ => True
  | RSet _ _ rows _ fin => prompt rows /\ (forall e, fin = Some e -> 0 < e)
  end.

Fixpoint good (first : bool) (rs : list reply) : Prop :=
  match rs with
  | [] => False
  | r :: rs' => match rs' with [] => good_last first r | _ => complete r /\ good false rs' end
  end.

(** A server whose replies are good, with several statements only if the connection
    allows them. *)
Definition good_server `{Server} (client_flag : Z) : Prop :=
  forall n s, good true (respond n s) /\
    (Z.land client_flag CLIENT_MULTI_STATEMENTS = 0 -> length (respond n s) = 1%nat).

(** ** The invariant between events *)

Section invariant.
Context `{Server} (fd flag : Z) (ccb dcb pooled : bool).

Local Abbreviation greet := (0%nat, 0).

Local Abbreviation K st m cur qs ev out := (mk_conn fd flag m st ccb dcb cur false pooled qs ev Live out).
Local Abbreviation MM st e more f i n su := (mk_mysql st e more f i n su greet).

(** Replies that follow within the query: none, or good ones if allowed. *)
Definition rest_ok (rs : list reply) : Prop :=
  rs = [] \/ (good false rs /\ Z.land flag CLIENT_MULTI_STATEMENTS <> 0).

Definition one_ok (rs : list reply) : Prop :=
  Z.land flag CLIENT_MULTI_STATEMENTS = 0 -> length rs = 1%nat.

Definition not_error (rs : list reply) : Prop :=
  match rs with RError _ _ :: _ => False | _ => True end.

(** [waiting c F k w]: between two events [c] waits for the network, or has nothing to
    do; its callbacks will be [F] in all, after [k] more read events, each within fuel
    [w]. *)
Inductive waiting : mariadb_conn -> list event * nat -> nat -> nat -> Prop :=
  | W_idle e f n out :
      waiting (K CONN_STATE_CONNECTED (MM MYSQL_STATUS_READY e false f [] n None) None [] EventSleep out)
        (out, n) 0 1
  | W_connect d e f qs n cur ev out :
      waiting (K CONN_STATE_CONNECTING (mk_mysql MYSQL_STATUS_READY e false f [] n (Some OpConnect) (d, 0))
                 cur qs ev out)
        (out ++ call_if ccb (EvConnect true) ++ queue_events n qs, (n + sends qs)%nat)
        (S d + queue_delay n qs) (queue_cost n qs)
  | W_query q qs rs f n ev out :
      q_abort q = false -> good true rs -> one_ok rs ->
      waiting (K CONN_STATE_QUERYING
                 (MM MYSQL_STATUS_READY 0 false f (packets rs) n (Some OpQuery))
                 (Some (q_id q)) (q :: qs) ev out)
        (out ++ response_events q true rs ++ queue_events n qs, (n + sends qs)%nat)
        (S (response_delay rs) + queue_delay n qs) (response_cost rs + queue_cost n qs)
  | W_rows q qs names b d fin rs n ev out :
      q_abort q = false -> q_result q = ResLive (mk_res true false names) ->
      (forall e, fin = Some e -> 0 < e) -> rest_ok rs -> (rs <> [] -> fin = None) ->
      waiting (K CONN_STATE_ROW_FETCHING
                 (MM MYSQL_STATUS_USE_RESULT 0 b None
                    ((d, end_packet (more_of rs) fin) :: packets rs) n (Some OpFetch))
                 (Some (q_id q)) (q :: qs) ev out)
        (out ++ end_events q fin ++ response_events q false rs ++ queue_events n qs, (n + sends qs)%nat)
        (S d + response_delay rs + queue_delay n qs) (S (S (response_cost rs)) + queue_cost n qs)
  | W_next q qs rs b f n ev out :
      q_abort q = false -> good false rs -> Z.land flag CLIENT_MULTI_STATEMENTS <> 0 -> not_error rs ->
      waiting (K CONN_STATE_NEXT_RESULTING
                 (MM MYSQL_STATUS_READY 0 b f (packets rs) n (Some OpNext))
                 (Some (q_id q)) (q :: qs) ev out)
        (out ++ response_events q false rs ++ queue_events n qs, (n + sends qs)%nat)
        (S (response_delay rs) + queue_delay n qs) (S (response_cost rs) + queue_cost n qs).

(** What the handlers of one query leave: a wait, or a free connection whose loop over the
    queue goes on. *)
Inductive settled : mariadb_conn -> list event * nat -> nat -> nat -> Prop :=
  | S_conn e f n cur qs ev out :
      settled (K CONN_STATE_CONNECTED (MM MYSQL_STATUS_READY e false f [] n None) cur qs ev out)
        (out ++ queue_events n qs, (n + sends qs)%nat) (queue_delay n qs) (queue_cost n qs)
  | S_wait c F k w : c_state c <> CONN_STATE_CONNECTED -> waiting c F k w -> settled c F k w.

Definition settles (o : outcome mariadb_conn) (F : list event * nat) (k w : nat) : Prop :=
  exists c' w', o = Done c' /\ settled c' F k w' /\ (w' <= w)%nat.

#[local] Arguments mariadb_async_handle_result : simpl never.
#[local] Arguments mariadb_async_handle_row : simpl never.
#[local] Arguments mariadb_async_handle_result_free : simpl never.
#[local] Arguments mariadb_async_handle_next_result : simpl never.
#[local] Arguments mariadb_async_handle_query : simpl never.
#[local] Arguments on_read_rows : simpl never.
#[local] Arguments on_read_next : simpl never.

(** *** The current query is the head of the queue *)

Lemma find_head i q qs : q_id q = i -> find_query i (q :: qs) = Some q.
Proof. intros E. simpl. by rewrite decide_True. Qed.

Lemma update_head q q' qs : q_id q = q_id q' -> update_query q' (q :: qs) = q' :: qs.
Proof. intros E. simpl. by rewrite decide_True. Qed.

Lemma callback_out b e m st cur qs ev out :
  callback b e (K st m cur qs ev out) = K st m cur qs ev (out ++ call_if b e).
Proof. destruct b; simpl; [done|]. by rewrite app_nil_r. Qed.

(** *** The handlers on a connection whose current query is the head of its queue *)

Lemma deref_head i q qs m st cur ev out : q_id q = i ->
  deref (Some i) (K st m cur (q :: qs) ev out) = Done q.
Proof. intros E. unfold deref. cbn [c_queries]. by rewrite find_head. Qed.

Lemma free_head i q qs m st cur ev out : q_id q = i ->
  mariadb_query_free (Some i) (K st m cur (q :: qs) ev out) = Done (K st m cur qs ev out).
Proof. intros E. unfold mariadb_query_free. rewrite deref_head by done. cbn. by rewrite decide_True. Qed.

Lemma put_head q q' qs m st cur ev out : q_id q = q_id q' ->
  put_query q' (K st m cur (q :: qs) ev out) = K st m cur (q' :: qs) ev out.
Proof. intros E. unfold put_query. cbn [c_queries]. by rewrite update_head. Qed.

Lemma multi_K st m cur qs ev out :
  multi_statements (K st m cur qs ev out) = negb (Z.land flag CLIENT_MULTI_STATEMENTS =? 0).
Proof. done. Qed.

Ltac fields :=
  cbv beta iota zeta delta [with_mysql with_state with_connect_cb with_disconnect_cb with_current with_finish
    with_pooled with_queries with_event with_fate emit c_fd c_client_flag c_mysql c_state
    c_connect_cb c_disconnect_cb c_current c_disconnect_on_finish c_is_pooled c_queries c_event c_fate
    c_out mbind outcome_bind].

(** The outcome of a client call on a concrete state of the client. *)
Ltac client :=
  cbv beta iota zeta delta [async_start async_cont set_errno set_status set_more set_fields set_in set_suspended
    my_status my_errno my_more my_fields my_in my_sent my_suspended my_greeting].

(** Reads and writes through the current query, which is the head. *)
Ltac head_step := repeat first
  [ progress fields | rewrite deref_head by done | rewrite put_head by done | rewrite callback_out ].

Lemma handle_result_head fuel i q qs m st ev out : q_id q = i ->
  mariadb_async_handle_result (S fuel) (K st m (Some i) (q :: qs) ev out) =
  match mysql_use_result m with
  | (None, m) => Done (K CONN_STATE_CONNECTED m (Some i) qs ev out)
  | (Some r, m) =>
      if q_abort q
      then mariadb_async_handle_result_free fuel
             (K st m (Some i) (q_set_result (ResLive r) q :: qs) ev out)
      else mariadb_async_handle_row fuel
             (K st m (Some i) (q_set_fields (rs_names r) (q_set_result (ResLive r) q) :: qs) ev
                (out ++ call_if (q_result_cb q) (EvResult i (rs_names r))))
  end.
Proof.
  intros <-. unfold mariadb_async_handle_result at 1; fold mariadb_async_handle_result mariadb_async_handle_row mariadb_async_handle_result_free mariadb_async_handle_next_result. head_step.
  destruct (mysql_use_result m) as [[r|] m']; head_step.
  - cbn [q_abort q_set_result]. destruct (q_abort q); [done|]. by head_step.
  - by rewrite free_head.
Qed.

Lemma handle_row_head fuel i q qs r m st ev out : q_id q = i -> q_result q = ResLive r ->
  mariadb_async_handle_row (S fuel) (K st m (Some i) (q :: qs) ev out) =
  match mysql_fetch_row_start r m with
  | Suspended m => Done (K CONN_STATE_ROW_FETCHING m (Some i) (q :: qs) ev out)
  | Finished (None, r) m =>
      mariadb_async_handle_result_free fuel
        (rows_ended q (K CONN_STATE_ROW_FETCHED m (Some i) (q_set_result (ResLive r) q :: qs) ev out))
  | Finished (Some rw, r) m =>
      mariadb_async_handle_row fuel
        (K CONN_STATE_ROW_FETCHED m (Some i) (q_set_result (ResLive r) q :: qs) ev
           (out ++ call_if (q_row_cb q) (EvRow i rw)))
  end.
Proof.
  intros <- Hr. unfold mariadb_async_handle_row at 1; fold mariadb_async_handle_result mariadb_async_handle_row mariadb_async_handle_result_free mariadb_async_handle_next_result. head_step. unfold live_result. rewrite Hr. cbn [mbind outcome_bind].
  destruct (mysql_fetch_row_start r m) as [m'|[[rw|] r'] m']; by head_step.
Qed.

Lemma handle_result_free_head fuel i q qs r m st ev out : q_id q = i -> q_result q = ResLive r ->
  mariadb_async_handle_result_free (S fuel) (K st m (Some i) (q :: qs) ev out) =
  match mysql_free_result_start r m with
  | Suspended m => Done (K CONN_STATE_RESULT_FREEING m (Some i) (q :: qs) ev out)
  | Finished _ m =>
      if Z.land flag CLIENT_MULTI_STATEMENTS =? 0
      then Done (K CONN_STATE_CONNECTED m None qs ev out)
      else mariadb_async_handle_next_result fuel
             (K CONN_STATE_RESULT_FREED m (Some i) (q_set_result ResFreed q :: qs) ev out)
  end.
Proof.
  intros <- Hr. unfold mariadb_async_handle_result_free at 1; fold mariadb_async_handle_result mariadb_async_handle_row mariadb_async_handle_result_free mariadb_async_handle_next_result. head_step. unfold live_result. rewrite Hr. cbn [mbind outcome_bind].
  destruct (mysql_free_result_start r m) as [m'|[] m']; [done|]. head_step. rewrite multi_K.
  destruct (_ =? 0); [|done]. cbn [negb].
  by rewrite free_head.
Qed.

Lemma handle_next_result_head fuel i q qs m st ev out : q_id q = i ->
  mariadb_async_handle_next_result (S fuel) (K st m (Some i) (q :: qs) ev out) =
  match mysql_next_result_start m with
  | Suspended m => Done (K CONN_STATE_NEXT_RESULTING m (Some i) (q :: qs) ev out)
  | Finished e m =>
      let q' := q_set_error e q in
      if e =? -1 then Done (K CONN_STATE_CONNECTED m None qs ev out)
      else if e =? 0 then
        c ← mariadb_async_handle_result fuel
              (K CONN_STATE_NEXT_RESULTED m (Some i) (q' :: qs) ev out);
        if decide (c_state c = CONN_STATE_RESULT_FREED)
        then mariadb_async_handle_next_result fuel c else Done c
      else mariadb_async_handle_next_result fuel
             (K CONN_STATE_NEXT_RESULTED m (Some i) (q' :: qs) ev (out ++ [EvLog LogStatement]))
  end.
Proof.
  intros <-. unfold mariadb_async_handle_next_result at 1; fold mariadb_async_handle_result mariadb_async_handle_row mariadb_async_handle_result_free mariadb_async_handle_next_result. head_step.
  destruct (mysql_next_result_start m) as [m'|e m']; head_step; [done|].
  destruct (e =? -1); [|done]. by rewrite free_head.
Qed.

(** *** The release of a result whose rows have ended, and what follows *)

Definition frees (rs : list reply) : Prop := forall fuel q qs names st e f n ev out,
  (response_cost rs <= fuel)%nat -> q_abort q = false ->
  q_result q = ResLive (mk_res false true names) ->
  settles (mariadb_async_handle_result_free fuel
             (K st (MM MYSQL_STATUS_READY e (more_of rs) f (packets rs) n None) (Some (q_id q)) (q :: qs) ev out))
    (out ++ response_events q false rs ++ queue_events n qs, (n + sends qs)%nat)
    (response_delay rs + queue_delay n qs) (S (response_cost rs) + queue_cost n qs).

Lemma settles_conn e f n cur qs ev out k w : 
  (queue_delay n qs = k)%nat -> (queue_cost n qs <= w)%nat ->
  settles (Done (K CONN_STATE_CONNECTED (MM MYSQL_STATUS_READY e false f [] n None) cur qs ev out))
    (out ++ queue_events n qs, (n + sends qs)%nat) k w.
Proof. intros <- Hw. eexists _, _. split; [done|]. split; [constructor|done]. Qed.

Lemma frees_nil : frees [].
Proof.
  intros fuel q qs names st e f n ev out Hf Ha Hr. cbn in Hf.
  destruct fuel as [|[|fuel]]; [lia|lia|]. rewrite (handle_result_free_head _ _ _ _ _ _ _ _ _ eq_refl Hr). cbn.
  destruct (_ =? 0); [apply settles_conn; lia|].
  rewrite handle_next_result_head by done. cbn. apply settles_conn; lia.
Qed.

Lemma settles_wait c F k w w' :
  c_state c <> CONN_STATE_CONNECTED -> waiting c F k w -> (w <= w')%nat -> settles (Done c) F k w'.
Proof. intros Hs Hw Hle. exists c, w. split; [done|]. split; [by constructor|done]. Qed.

Lemma settled_not_freed c F k w : settled c F k w -> c_state c <> CONN_STATE_RESULT_FREED.
Proof. intros [|c' F' k' w' _ Hw]; [done|]. by destruct Hw. Qed.

Lemma settles_eq o F F' k k' w w' :
  settles o F k w -> F = F' -> k = k' -> (w <= w')%nat -> settles o F' k' w'.
Proof. intros (c' & v & E & Hs & Hv) <- <- Hle. exists c', v. split_and!; [done..|lia]. Qed.

(** The callbacks depend on the identity of the query and on which callbacks it has. *)
Lemma response_events_same q q' first rs :
  (q_id q, q_result_cb q, q_row_cb q, q_end_cb q) = (q_id q', q_result_cb q', q_row_cb q', q_end_cb q') ->
  response_events q first rs = response_events q' first rs.
Proof.
  intros [= E1 E2 E3 E4]. revert first.
  induction rs as [|[d e|d|d names rows d' fin] rs IH]; intros first; cbn; [done|by rewrite IH..|].
  unfold row_events, end_events. by rewrite E1, E2, E3, E4, IH.
Qed.

(** *** The rows of a result *)

Lemma rows_ended_K q fin m st cur qs ev out :
  my_errno m = end_error fin 0 -> (forall e, fin = Some e -> 0 < e) ->
  rows_ended q (K st m cur qs ev out) = K st m cur qs ev (out ++ end_events q fin).
Proof.
  intros E He. unfold rows_ended. cbn [c_mysql]. rewrite E, callback_out. destruct fin as [e|]; cbn.
  - by rewrite (proj2 (Z.ltb_lt 0 e)) by auto.
  - done.
Qed.

Lemma handle_rows_settles rs rows : frees rs -> rest_ok rs -> prompt rows ->
  forall fuel q qs names b d fin st n ev out,
  (length rows + S (response_cost rs) <= fuel)%nat -> q_abort q = false ->
  q_result q = ResLive (mk_res true false names) ->
  (forall e, fin = Some e -> 0 < e) -> (rs <> [] -> fin = None) ->
  settles (mariadb_async_handle_row fuel
             (K st (MM MYSQL_STATUS_USE_RESULT 0 b None
                      (row_packets rows ++ (d, end_packet (more_of rs) fin) :: packets rs) n None)
                (Some (q_id q)) (q :: qs) ev out))
    (out ++ row_events q rows ++ end_events q fin ++ response_events q false rs ++ queue_events n qs, (n + sends qs)%nat)
    (d + response_delay rs + queue_delay n qs) (S (S (response_cost rs)) + queue_cost n qs).
Proof.
  intros Hfree Hok Hp. induction Hp as [|[d0 rw] rows Hd Hp IH];
    intros fuel q qs names b d fin st n ev out Hf Ha Hr He Hfin; (destruct fuel as [|fuel]; [cbn in Hf; lia|]);
    rewrite (handle_row_head _ _ _ _ _ _ _ _ _ eq_refl Hr); cbn [row_packets fmap list_fmap app];
    cbn [mysql_fetch_row_start rs_handle].
  - replace (row_events q []) with ([] : list event) by (unfold row_events; by destruct (q_row_cb q)).
    destruct d as [|d].
    + rewrite fetch_last. client. rewrite (rows_ended_K q fin) by done.
      replace (end_more fin (more_of rs)) with (more_of rs)
        by (destruct rs; [by destruct fin|by rewrite Hfin]).
      eapply settles_eq; [eapply (Hfree fuel (q_set_result (ResLive (mk_res false true names)) q)); try done|..].
      * cbn in Hf. lia.
      * rewrite (response_events_same _ q) by done. by rewrite <- app_assoc.
      * done.
      * lia.
    + rewrite fetch_delayed by done. client. eapply settles_wait; [done| |reflexivity]. by apply (W_rows q qs names).
  - cbn in Hd. subst d0. cbn [fst snd]. rewrite fetch_row. client.
    eapply settles_eq; [eapply (IH fuel (q_set_result (ResLive (mk_res true false names)) q)); try done|..].
    + cbn in Hf. lia.
    + rewrite (response_events_same _ q) by done. unfold row_events. cbn.
      destruct (q_row_cb q); cbn; by rewrite <- ?app_assoc.
    + done.
    + lia.
Qed.

(** *** A reply whose first packet has been read *)

(** The delays that are left once the first packet is read. *)
Definition tail_delay (r : reply) : nat := match r with RSet _ _ _ d' _ => d' | _ => 0 end.

Lemma reply_delay_split r : reply_delay r = (head_delay r + tail_delay r)%nat.
Proof. destruct r; cbn; lia. Qed.

(** A good reply before others is a complete result, or nothing follows it. *)
Lemma good_cons first r rs : good first (r :: rs) ->
  (rs = [] /\ good_last first r) \/ (rs <> [] /\ complete r /\ good false rs).
Proof. destruct rs; cbn; [by left|]. intros [? ?]. by right. Qed.

Lemma handle_result_settles first r rs fuel q qs b st n ev out :
  good first (r :: rs) -> frees rs -> rest_ok rs -> (forall d e, r <> RError d e) ->
  (S (reply_cost r - 5 + response_cost rs) <= fuel)%nat -> q_abort q = false ->
  settles (mariadb_async_handle_result fuel
             (K st (header_mysql greet r rs 0 b n None) (Some (q_id q)) (q :: qs) ev out))
    (out ++ reply_events q first r ++ response_events q false rs ++ queue_events n qs, (n + sends qs)%nat)
    (tail_delay r + response_delay rs + queue_delay n qs) (S (S (response_cost rs)) + queue_cost n qs).
Proof.
  intros Hg Hfree Hok Hr Hf Ha. destruct fuel as [|fuel]; [lia|].
  rewrite handle_result_head by done.
  destruct r as [d e|d|d names rows d' fin]; [by destruct (Hr d e)| |].
  - apply good_cons in Hg as [[-> _]|(_ & [] & _)]. cbn. apply settles_conn; lia.
  - rewrite use_result_set, Ha. client. cbn [rs_names tail_delay reply_events].
    eapply settles_eq.
    + assert (prompt rows /\ (forall e, fin = Some e -> 0 < e) /\ (rs <> [] -> fin = None)) as (Hp & He & Hfin).
      { apply good_cons in Hg as [[-> [? ?]]|(? & [? ->] & _)]; split_and!; done. }
      eapply (handle_rows_settles rs rows Hfree Hok Hp fuel
                (q_set_fields names (q_set_result (ResLive (mk_res true false names)) q))); try done.
      cbn in Hf. lia.
    + rewrite (response_events_same _ q) by done. by rewrite <- !app_assoc.
    + done.
    + done.
Qed.

Lemma good_tick first r rs d : head_delay r = S d -> good first (r :: rs) -> good first (tick r :: rs).
Proof.
  intros Hd. destruct rs as [|r' rs]; destruct r; cbn in *; subst; naive_solver.
Qed.

Lemma response_tick q first r rs : response_events q first (tick r :: rs) = response_events q first (r :: rs).
Proof. by destruct r. Qed.

Lemma cost_tick r rs : response_cost (tick r :: rs) = response_cost (r :: rs).
Proof. by destruct r. Qed.

Lemma delay_tick r rs d : head_delay r = S d -> S (response_delay (tick r :: rs)) = response_delay (r :: rs).
Proof. by destruct r; cbn; intros ->. Qed.

Lemma cost_pos r : (6 <= reply_cost r)%nat.
Proof. destruct r; cbn; lia. Qed.

Lemma error_or_not r : (exists d e, r = RError d e) \/ (forall d e, r <> RError d e).
Proof. destruct r; [left; eauto|by right..]. Qed.

(** *** The next statement of the query *)

Lemma handle_next_settles r rs fuel q qs st e f n ev out :
  frees rs -> rest_ok rs -> good false (r :: rs) -> Z.land flag CLIENT_MULTI_STATEMENTS <> 0 ->
  (reply_cost r - 2 + response_cost rs <= fuel)%nat -> q_abort q = false ->
  settles (mariadb_async_handle_next_result fuel
             (K st (MM MYSQL_STATUS_READY e true f (packets (r :: rs)) n None) (Some (q_id q)) (q :: qs) ev out))
    (out ++ response_events q false (r :: rs) ++ queue_events n qs, (n + sends qs)%nat)
    (response_delay (r :: rs) + queue_delay n qs) (S (response_cost (r :: rs)) + queue_cost n qs).
Proof.
  intros Hfree Hok Hg Hm Hf Ha. pose proof (cost_pos r). destruct fuel as [|fuel]; [lia|].
  rewrite handle_next_result_head by done. rewrite next_more.
  destruct (head_delay r) as [|d] eqn:Hd.
  - destruct (error_or_not r) as [(d' & e' & ->)|Hne].
    + cbn in Hd. subst d'. apply good_cons in Hg as [[-> _]|(_ & [] & _)].
      rewrite read_error. client. destruct fuel as [|fuel]; [cbn in Hf; lia|].
      cbn [Z.eqb]. change (1 =? -1) with false. change (1 =? 0) with false. cbv iota.
      rewrite handle_next_result_head by done. rewrite next_none. client.
      change (-1 =? -1) with true. cbv iota.
      eapply settles_eq; [apply settles_conn; reflexivity|by rewrite <- app_assoc|done|cbn; lia].
    + rewrite read_header by naive_solver. cbn [async_start]. rewrite header_suspended.
      change (0 =? -1) with false. change (0 =? 0) with true. cbv iota.
      edestruct (handle_result_settles false r rs fuel (q_set_error 0 q)) as (c' & w' & E & Hs & Hw);
        [done|done|done|done| |done|].
      { lia. }
      rewrite E. cbn [mbind outcome_bind]. rewrite decide_False by by eapply settled_not_freed.
      eapply settles_eq; [by exists c', w'| | |].
      * rewrite (response_events_same _ q) by done. cbn. rewrite <- app_assoc. by destruct r.
      * cbn [response_delay]. rewrite reply_delay_split. lia.
      * cbn [response_cost]. lia.
  - rewrite (read_delayed _ _ _ _ _ _ _ _ _ d) by done. client.
    eapply settles_wait; [done| |reflexivity].
    rewrite <- (response_tick q), <- (delay_tick r rs d), <- (cost_tick r) by done.
    apply W_next; [done|by eapply good_tick|done|].
    destruct r; try done. apply good_cons in Hg as [[-> Hg]|(_ & [] & _)]. by destruct Hg; simplify_eq/=.
Qed.

Lemma frees_all rs : rest_ok rs -> frees rs.
Proof.
  induction rs as [|r rs IH]; intros Hok; [apply frees_nil|].
  destruct Hok as [?|[Hg Hm]]; [done|].
  assert (rest_ok rs) as Hok'.
  { apply good_cons in Hg as [[-> _]|(_ & _ & Hg')]; [by left|by right]. }
  intros fuel q qs names st e f n ev out Hf Ha Hr. pose proof (cost_pos r).
  destruct fuel as [|fuel]; [cbn in Hf; lia|].
  rewrite (handle_result_free_head _ _ _ _ _ _ _ _ _ eq_refl Hr). cbn [mysql_free_result_start rs_handle].
  rewrite (proj2 (Z.eqb_neq _ 0) Hm). 
  eapply settles_eq.
  - eapply (handle_next_settles r rs fuel (q_set_result ResFreed q)); try done; [auto|cbn in Hf; lia].
  - by rewrite (response_events_same _ q).
  - done.
  - lia.
Qed.

(** *** The loop over the queue *)

Lemma handle_query_nil fuel st m cur ev out :
  mariadb_async_handle_query (S fuel) (K st m cur [] ev out) = Done (K CONN_STATE_CONNECTED m None [] EventSleep out).
Proof. done. Qed.

Lemma handle_query_cons fuel q qs m st cur ev out :
  mariadb_async_handle_query (S fuel) (K st m cur (q :: qs) ev out) =
  if q_abort q then mariadb_async_handle_query fuel (K CONN_STATE_CONNECTED m (Some (q_id q)) qs ev out)
  else match q_str q with
  | None => mariadb_async_handle_query fuel (K st m (Some (q_id q)) qs ev (out ++ [EvLog LogMissing]))
  | Some s =>
      match mysql_real_query_start m s with
      | Suspended m => Done (K CONN_STATE_QUERYING m (Some (q_id q)) (q :: qs) ev out)
      | Finished e m =>
          if e =? 0 then
            c ← mariadb_async_handle_result fuel
                  (K CONN_STATE_QUERIED m (Some (q_id q)) (q_set_error e q :: qs) ev out);
            query_if_connected fuel c
          else mariadb_async_handle_query fuel (K st m (Some (q_id q)) qs ev (out ++ [EvLog LogQuery]))
      end
  end.
Proof.
  unfold mariadb_async_handle_query at 1; fold (@mariadb_async_handle_query H).
  head_step. destruct (q_abort q); [by rewrite free_head|].
  destruct (q_str q) as [s|]; [|by rewrite free_head].
  destruct (mysql_real_query_start m s) as [m'|e m']; head_step; [done|].
  destruct (e =? 0); [done|]. by rewrite free_head.
Qed.

Definition waits (o : outcome mariadb_conn) (F : list event * nat) (k w : nat) : Prop :=
  exists c' w', o = Done c' /\ waiting c' F k w' /\ (w' <= w)%nat.

Lemma waits_eq o F F' k k' w w' :
  waits o F k w -> F = F' -> k = k' -> (w <= w')%nat -> waits o F' k' w'.
Proof. intros (c' & v & E & Hs & Hv) <- <- Hle. exists c', v. split_and!; [done..|lia]. Qed.

Hypothesis Hserver : good_server flag.

Lemma rest_ok_tail first r rs : good first (r :: rs) -> one_ok (r :: rs) -> rest_ok rs.
Proof.
  intros Hg H1. apply good_cons in Hg as [[-> _]|(Hne & _ & Hg')]; [by left|right]. split; [done|].
  intros Hm. specialize (H1 Hm). by destruct rs.
Qed.

Lemma good_nonempty first rs : good first rs -> exists r rs', rs = r :: rs'.
Proof. destruct rs; [done|eauto]. Qed.

(** What the loop does from a connection that is free, by the fuel it is given. *)
Definition query_waits (fuel : nat) : Prop := forall qs e f n cur st ev out,
  (queue_cost n qs <= fuel)%nat ->
  waits (mariadb_async_handle_query fuel
           (K st (MM MYSQL_STATUS_READY e false f [] n None) cur qs ev out))
    (out ++ queue_events n qs, (n + sends qs)%nat) (queue_delay n qs) (queue_cost n qs).

(** A settled connection goes on with its queue. *)
Lemma settled_waits fuel c F k w :
  query_waits fuel -> settled c F k w -> (w <= fuel)%nat -> waits (query_if_connected fuel c) F k w.
Proof.
  intros IH Hs Hw. unfold query_if_connected. destruct Hs as [e f n cur qs ev out|c F k w Hne Hwait].
  - cbn [c_state]. rewrite decide_True by done. by apply IH.
  - rewrite decide_False by done. by exists c, w.
Qed.

(** The first packet of the reply to the current query has been read. *)
Lemma first_reply_waits fuel q qs r rs n st ev out :
  query_waits fuel -> good true (r :: rs) -> one_ok (r :: rs) -> (forall d e, r <> RError d e) ->
  q_abort q = false -> (reply_cost r - 4 + response_cost rs + queue_cost n qs <= fuel)%nat ->
  waits (c ← mariadb_async_handle_result fuel
               (K st (header_mysql greet r rs 0 false n None) (Some (q_id q)) (q :: qs) ev out);
         query_if_connected fuel c)
    (out ++ response_events q true (r :: rs) ++ queue_events n qs, (n + sends qs)%nat)
    (tail_delay r + response_delay rs + queue_delay n qs) (S (S (response_cost rs)) + queue_cost n qs).
Proof.
  intros IH Hg H1 Hne Ha Hf. pose proof (cost_pos r).
  destruct (handle_result_settles true r rs fuel q qs false st n ev out) as (c' & w' & E & Hs & Hw);
    [done|by eapply frees_all, rest_ok_tail|by eapply rest_ok_tail|done|lia|done|].
  rewrite E. cbn [mbind outcome_bind]. eapply waits_eq; [eapply settled_waits; [done|exact Hs|lia]|..].
  - cbn [response_events]. by rewrite <- app_assoc.
  - done.
  - done.
Qed.

Lemma handle_query_waits fuel : query_waits fuel.
Proof.
  induction fuel as [|fuel IH]; intros [|q qs] e f n cur st ev out Hf; [cbn in Hf; lia..| |].
  - rewrite handle_query_nil. cbn [queue_events sends]. rewrite app_nil_r, Nat.add_0_r. eexists _, _. split; [done|].
    split; [constructor|done].
  - rewrite handle_query_cons. cbn [queue_events queue_delay queue_cost sends] in *.
    destruct (q_abort q) eqn:Ha; [eapply waits_eq; [apply IH| | |]; lia || done|].
    cbn [Nat.add].
    destruct (q_str q) as [s|]; [|eapply waits_eq; [apply IH| | |]; [lia|by rewrite <- app_assoc|done|lia]].
    rewrite Nat.add_succ_r, <- Nat.add_succ_l.
    rewrite real_query_ready. destruct (Hserver n s) as [Hg H1].
    destruct (good_nonempty _ _ Hg) as (r & rs & Er). rewrite Er in *. pose proof (cost_pos r) as Hpos.
    destruct (head_delay r) as [|d] eqn:Hd.
    + destruct (error_or_not r) as [(d' & e' & ->)|Hne].
      * cbn in Hd. subst d'. apply good_cons in Hg as [[-> _]|(_ & [] & _)].
        rewrite read_error. client. change (1 =? 0) with false. cbv iota.
        eapply waits_eq; [apply IH|by rewrite <- app_assoc|done|]; cbn in *; lia.
      * rewrite read_header by naive_solver. cbn [async_start]. rewrite header_suspended.
        change (0 =? 0) with true. cbv iota.
        eapply waits_eq; [eapply (first_reply_waits fuel (q_set_error 0 q)); try done|..].
        -- cbn in Hf. lia.
        -- by rewrite (response_events_same _ q).
        -- cbn [response_delay]. rewrite reply_delay_split. lia.
        -- cbn [response_cost]. lia.
    + rewrite (read_delayed _ _ _ _ _ _ _ _ _ d) by done. client.
      eexists _, _. split; [done|]. rewrite <- (response_tick q), <- (delay_tick r rs d) by done. split.
      * apply W_query; [done|by eapply good_tick|]. intros Hm. by specialize (H1 Hm).
      * rewrite cost_tick. lia.
Qed.

(** *** Read events *)

(** One read event: the callbacks still lead to [F], with one event less to go. *)
Definition reads (fuel : nat) (c : mariadb_conn) (F : list event * nat) (k w : nat) : Prop :=
  exists c' w', conn_on_read fuel c = Done (DUDA_EVENT_OWNED, c') /\ waiting c' F k w' /\ (w' <= w)%nat.

Lemma reads_of fuel c o F k w w' :
  conn_on_read fuel c = (c ← o; Done (DUDA_EVENT_OWNED, c)) -> waits o F k w -> (w <= w')%nat -> reads fuel c F k w'.
Proof.
  intros E (c' & v & Eo & Hw & Hle) Hle'. exists c', v. rewrite E, Eo. split_and!; [done..|lia].
Qed.

Lemma read_query fuel q qs rs f n ev out :
  q_abort q = false -> good true rs -> one_ok rs -> (response_cost rs + queue_cost n qs <= fuel)%nat ->
  reads fuel (K CONN_STATE_QUERYING (MM MYSQL_STATUS_READY 0 false f (packets rs) n (Some OpQuery))
                (Some (q_id q)) (q :: qs) ev out)
    (out ++ response_events q true rs ++ queue_events n qs, (n + sends qs)%nat)
    (response_delay rs + queue_delay n qs) (response_cost rs + queue_cost n qs).
Proof.
  intros Ha Hg H1 Hf. destruct (good_nonempty _ _ Hg) as (r & rs' & ->). pose proof (cost_pos r) as Hpos.
  cbn [response_cost] in Hf. destruct (head_delay r) as [|d] eqn:Hd.
  - destruct (error_or_not r) as [(d' & e' & ->)|Hne].
    + cbn in Hd. subst d'. apply good_cons in Hg as [[-> _]|(_ & [] & _)].
      eapply reads_of; [|eapply waits_eq; [apply (handle_query_waits fuel)|..]|].
      * unfold conn_on_read. head_step. unfold mysql_real_query_cont.
        rewrite (async_cont_suspended _ OpQuery), read_error by done. client.
        head_step. change (1 =? 0) with false. cbv iota. rewrite free_head by done. by head_step.
      * cbn in *; lia.
      * by rewrite <- app_assoc.
      * done.
      * reflexivity.
      * cbn. lia.
    + eapply reads_of; [|eapply waits_eq; [apply (first_reply_waits fuel (q_set_error 0 q) qs r rs' n CONN_STATE_QUERIED ev out); try done|..]|].
      * unfold conn_on_read. head_step. unfold mysql_real_query_cont.
        rewrite (async_cont_suspended _ OpQuery), read_header by naive_solver.
        cbn [async_start]. rewrite header_suspended. head_step.
        change (0 =? 0) with true. cbv iota. destruct (mariadb_async_handle_result _ _); done.
      * apply handle_query_waits.
      * lia.
      * by rewrite (response_events_same _ q).
      * cbn [response_delay]. rewrite reply_delay_split. lia.
      * reflexivity.
      * cbn [response_cost]. lia.
  - eexists _, _. split_and!.
    + unfold conn_on_read. head_step. unfold mysql_real_query_cont.
      by rewrite (async_cont_suspended _ OpQuery), (read_delayed _ _ _ _ _ _ _ _ _ d) by done.
    + rewrite <- (response_tick q), <- (delay_tick r rs' d) by done.
      apply W_query; [done|by eapply good_tick|done].
    + by rewrite cost_tick.
Qed.

Lemma on_read_rows_head fuel i q qs r m st ev out : q_id q = i -> q_result q = ResLive r ->
  on_read_rows (S fuel) (K st m (Some i) (q :: qs) ev out) =
  match mysql_fetch_row_cont r m with
  | Suspended m => Done (K st m (Some i) (q :: qs) ev out)
  | Finished (None, r) m =>
      c ← mariadb_async_handle_result_free fuel
            (rows_ended q (K CONN_STATE_ROW_FETCHED m (Some i) (q_set_result (ResLive r) q :: qs) ev out));
      query_if_connected fuel c
  | Finished (Some rw, r) m =>
      on_read_rows fuel
        (K CONN_STATE_ROW_FETCHED m (Some i) (q_set_result (ResLive r) q :: qs) ev
           (out ++ call_if (q_row_cb q) (EvRow i rw)))
  end.
Proof.
  intros <- Hr. unfold on_read_rows at 1; fold (@on_read_rows H). head_step. unfold live_result. rewrite Hr.
  cbv iota. destruct (mysql_fetch_row_cont r m) as [m'|[[rw|] r'] m']; by head_step.
Qed.

(** The rest of a query whose rows have ended. *)
Lemma free_waits fuel q qs names rs st e n ev out :
  rest_ok rs -> q_abort q = false -> q_result q = ResLive (mk_res false true names) ->
  (S (response_cost rs) + queue_cost n qs <= fuel)%nat ->
  waits (c ← mariadb_async_handle_result_free fuel
               (K st (MM MYSQL_STATUS_READY e (more_of rs) None (packets rs) n None) (Some (q_id q)) (q :: qs) ev out);
         query_if_connected fuel c)
    (out ++ response_events q false rs ++ queue_events n qs, (n + sends qs)%nat)
    (response_delay rs + queue_delay n qs) (S (response_cost rs) + queue_cost n qs).
Proof.
  intros Hok Ha Hr Hf.
  destruct (frees_all rs Hok fuel q qs names st e None n ev out ltac:(lia) Ha Hr) as (c' & w' & E & Hs & Hw).
  rewrite E. cbn [mbind outcome_bind].
  eapply waits_eq; [eapply settled_waits; [apply handle_query_waits|exact Hs|lia]|done..].
Qed.

Lemma read_rows fuel q qs names b d fin rs n ev out :
  q_abort q = false -> q_result q = ResLive (mk_res true false names) ->
  (forall e, fin = Some e -> 0 < e) -> rest_ok rs -> (rs <> [] -> fin = None) ->
  (S (S (response_cost rs)) + queue_cost n qs <= fuel)%nat ->
  reads fuel (K CONN_STATE_ROW_FETCHING
                (MM MYSQL_STATUS_USE_RESULT 0 b None
                   ((d, end_packet (more_of rs) fin) :: packets rs) n (Some OpFetch))
                (Some (q_id q)) (q :: qs) ev out)
    (out ++ end_events q fin ++ response_events q false rs ++ queue_events n qs, (n + sends qs)%nat)
    (d + response_delay rs + queue_delay n qs) (S (S (response_cost rs)) + queue_cost n qs).
Proof.
  intros Ha Hr He Hok Hfin Hf. destruct fuel as [|fuel]; [lia|]. destruct d as [|d].
  - eapply reads_of; [|eapply waits_eq; [eapply (free_waits fuel
        (q_set_result (ResLive (mk_res false true names)) q) qs names rs CONN_STATE_ROW_FETCHED); try done|..]|].
    + unfold conn_on_read. fields. rewrite (on_read_rows_head _ _ _ _ _ _ _ _ _ eq_refl Hr).
      unfold mysql_fetch_row_cont. rewrite (async_cont_suspended _ OpFetch), fetch_last by done. client.
      rewrite (rows_ended_K q fin) by done.
      by replace (end_more fin (more_of rs)) with (more_of rs)
        by (destruct rs; [by destruct fin|by rewrite Hfin]).
    + lia.
    + by rewrite (response_events_same _ q), <- app_assoc by done.
    + done.
    + reflexivity.
    + lia.
  - eexists _, _. split_and!.
    + unfold conn_on_read. fields. rewrite (on_read_rows_head _ _ _ _ _ _ _ _ _ eq_refl Hr).
      unfold mysql_fetch_row_cont. by rewrite (async_cont_suspended _ OpFetch), fetch_delayed by done.
    + by apply (W_rows q qs names).
    + done.
Qed.

Lemma on_read_next_head fuel i q qs m st ev out : q_id q = i ->
  on_read_next (S fuel) (K st m (Some i) (q :: qs) ev out) =
  match mysql_next_result_cont m with
  | Suspended m => Done (K st m (Some i) (q :: qs) ev out)
  | Finished e m =>
      let c := K CONN_STATE_NEXT_RESULTED m (Some i) (q_set_error e q :: qs) ev out in
      if e =? -1 then Crash NullDeref
      else if e =? 0 then
        c ← mariadb_async_handle_result fuel c;
        if decide (c_state c = CONN_STATE_RESULT_FREED) then on_read_next fuel c else Done c
      else on_read_next fuel (emit [EvLog LogStatement] c)
  end.
Proof.
  intros <-. unfold on_read_next at 1; fold on_read_next. head_step.
  destruct (mysql_next_result_cont m) as [m'|e m']; head_step; [done|]. by destruct (e =? -1).
Qed.

Lemma read_next fuel q qs rs b f n ev out :
  q_abort q = false -> good false rs -> Z.land flag CLIENT_MULTI_STATEMENTS <> 0 -> not_error rs ->
  (S (response_cost rs) + queue_cost n qs <= fuel)%nat ->
  reads fuel (K CONN_STATE_NEXT_RESULTING (MM MYSQL_STATUS_READY 0 b f (packets rs) n (Some OpNext))
                (Some (q_id q)) (q :: qs) ev out)
    (out ++ response_events q false rs ++ queue_events n qs, (n + sends qs)%nat)
    (response_delay rs + queue_delay n qs) (S (response_cost rs) + queue_cost n qs).
Proof.
  intros Ha Hg Hm Hn Hf. destruct (good_nonempty _ _ Hg) as (r & rs' & ->). pose proof (cost_pos r) as Hpos.
  cbn [response_cost] in Hf.
  assert (rest_ok rs') as Hok.
  { apply good_cons in Hg as [[-> _]|(_ & _ & Hg')]; [by left|by right]. }
  assert (forall d e, r <> RError d e) as Hne by by (destruct r).
  destruct fuel as [|fuel]; [lia|]. destruct (head_delay r) as [|d] eqn:Hd.
  - destruct (handle_result_settles false r rs' fuel (q_set_error 0 q) qs b CONN_STATE_NEXT_RESULTED n ev out)
      as (c' & w' & E & Hs & Hw); [done|by apply frees_all|done|done|lia|done|].
    eapply reads_of; [|eapply waits_eq; [eapply settled_waits; [apply (handle_query_waits (S fuel))|exact Hs|lia]|..]|].
    + unfold conn_on_read. fields. rewrite on_read_next_head by done. unfold mysql_next_result_cont.
      rewrite (async_cont_suspended _ OpNext), read_header by done. cbn [async_start]. rewrite header_suspended.
      change (0 =? -1) with false. change (0 =? 0) with true. cbv iota zeta.
      cbn [q_id q_set_error] in E. rewrite E. fields. by rewrite decide_False by by eapply settled_not_freed.
    + rewrite (response_events_same _ q) by done. cbn. rewrite <- app_assoc. by destruct r.
    + cbn [response_delay]. rewrite reply_delay_split. lia.
    + reflexivity.
    + cbn [response_cost]. lia.
  - eexists _, _. split_and!.
    + unfold conn_on_read. fields. rewrite on_read_next_head by done. unfold mysql_next_result_cont.
      by rewrite (async_cont_suspended _ OpNext), (read_delayed _ _ _ _ _ _ _ _ _ d) by done.
    + rewrite <- (response_tick q), <- (delay_tick r rs' d) by done.
      apply W_next; [done|by eapply good_tick|done|]. by destruct r.
    + by rewrite cost_tick.
Qed.

Lemma read_connect fuel d e f qs n cur ev out :
  (queue_cost n qs <= fuel)%nat ->
  reads fuel (K CONN_STATE_CONNECTING (mk_mysql MYSQL_STATUS_READY e false f [] n (Some OpConnect) (d, 0))
                cur qs ev out)
    (out ++ call_if ccb (EvConnect true) ++ queue_events n qs, (n + sends qs)%nat)
    (d + queue_delay n qs) (queue_cost n qs).
Proof.
  intros Hf. destruct d as [|d].
  - eapply reads_of; [|eapply waits_eq; [apply (handle_query_waits fuel qs e f n cur CONN_STATE_CONNECTED ev
      (out ++ call_if ccb (EvConnect true))); lia|by rewrite <- app_assoc|done|reflexivity]|done].
    unfold conn_on_read. fields. rewrite connect_cont. fields. by rewrite callback_out.
  - eexists _, _. split_and!; [|apply W_connect|done]. unfold conn_on_read. fields. by rewrite connect_cont.
Qed.

(** *** A row that comes late

    The loop of the state ROW_FETCHING calls the continuation of the fetch again after a row,
    when no fetch is suspended. *)

Lemma late_row fuel q qs names b rw l n ev out : Z.land flag CLIENT_MULTI_STATEMENTS = 0 ->
  q_result q = ResLive (mk_res true false names) ->
  conn_on_read (S (S (S fuel)))
    (K CONN_STATE_ROW_FETCHING (MM MYSQL_STATUS_USE_RESULT 0 b None ((0%nat, PRow rw) :: l) n (Some OpFetch))
       (Some (q_id q)) (q :: qs) ev out)
  = let out' := (out ++ call_if (q_row_cb q) (EvRow (q_id q) rw)) ++ [EvLog LogRow] in
    let q' := q_set_result (ResLive (mk_res true false names)) q in
    c ← match flush_one_result l (MM MYSQL_STATUS_USE_RESULT CR_COMMANDS_OUT_OF_SYNC b None l n None) with
        | Suspended m => Done (K CONN_STATE_RESULT_FREEING (set_suspended (Some OpFree) m) (Some (q_id q)) (q' :: qs) ev out')
        | Finished _ m => Done (K CONN_STATE_CONNECTED (set_suspended None (set_status MYSQL_STATUS_READY m)) None qs ev out')
        end;
    c ← query_if_connected (S fuel) c;
    Done (DUDA_EVENT_OWNED, c).
Proof.
  intros Hm Hr. unfold conn_on_read. fields. rewrite (on_read_rows_head _ _ _ _ _ _ _ _ _ eq_refl Hr).
  unfold mysql_fetch_row_cont. rewrite (async_cont_suspended _ OpFetch), fetch_row by done. client.
  rewrite (on_read_rows_head _ _ _ _ (mk_res true false names)) by done. unfold mysql_fetch_row_cont. client.
  unfold rows_ended. fields. client. change (0 <? CR_COMMANDS_OUT_OF_SYNC) with true. cbv iota.
  rewrite (handle_result_free_head _ _ _ _ (mk_res true false names)) by done.
  cbn [mysql_free_result_start rs_handle]. unfold mysql_free_result. client. cbn [rs_handle andb].
  rewrite bool_decide_true by done. 
  destruct (flush_one_result l _) as [m|[] m]; cbn [async_start]; [done|]. by rewrite Hm.
Qed.

Lemma freeing_crash fuel q qs names m ev out d b l :
  Z.land flag CLIENT_MULTI_STATEMENTS = 0 -> q_result q = ResLive (mk_res true false names) ->
  my_status m = MYSQL_STATUS_USE_RESULT -> my_suspended m = Some OpFree -> my_in m = (d, PEof b) :: l ->
  conn_on_read fuel (K CONN_STATE_RESULT_FREEING m (Some (q_id q)) (q :: qs) ev out) =
  match d with
  | O => Crash NullDeref
  | S d => Done (DUDA_EVENT_OWNED,
                 K CONN_STATE_RESULT_FREEING (set_suspended (Some OpFree) (set_in ((d, PEof b) :: l) m))
                   (Some (q_id q)) (q :: qs) ev out)
  end.
Proof.
  intros Hm Hr Hst Hsu Hin. unfold conn_on_read. head_step. unfold live_result. rewrite Hr. cbv iota.
  unfold mysql_free_result_cont. rewrite (async_cont_suspended _ OpFree) by done.
  unfold mysql_free_result. rewrite Hst, Hin. cbn [rs_handle andb]. rewrite bool_decide_true by done.
  destruct d as [|d]; cbn [flush_one_result async_start]; [|done].
  rewrite put_head by done. rewrite multi_K, Hm. done.
Qed.

(** Every read event of a connection that waits brings it one event closer to the end. *)
Lemma waiting_read fuel c F k w :
  waiting c F (S k) w -> (w <= fuel)%nat -> reads fuel c F k w.
Proof.
  remember (S k) as k' eqn:Ek. intros Hw Hf.
  destruct Hw as [|d e f qs n cur ev out|q qs rs f n ev out|q qs names b d fin rs n ev out|q qs rs b f n ev out];
    [done|..]; injection Ek as Ek; subst k;
    [by apply read_connect|by apply read_query|by eapply read_rows|by apply read_next].
Qed.

Lemma waiting_done c F w : waiting c F 0 w -> F.1 = c_out c /\ c_state c = CONN_STATE_CONNECTED /\
  c_queries c = [] /\ c_current c = None /\ c_event c = EventSleep /\ forall fuel, conn_on_read fuel c = Done (DUDA_EVENT_OWNED, c).
Proof. remember 0%nat as k eqn:Ek. intros Hw. destruct Hw; (discriminate Ek || by split_and!). Qed.

Lemma waiting_prefix c F k w : waiting c F k w -> c_out c `prefix_of` F.1.
Proof. intros []; cbn; try done; by apply prefix_app_r. Qed.

(** *** New queries *)

Lemma queue_events_app n qs qs' :
  queue_events n (qs ++ qs') = queue_events n qs ++ queue_events (n + sends qs) qs'.
Proof.
  revert n; induction qs as [|q qs IH]; intros n; cbn; [by rewrite Nat.add_0_r|].
  destruct (q_abort q); [apply IH|]. destruct (q_str q); cbn.
  - by rewrite IH, <- app_assoc, Nat.add_succ_r.
  - by rewrite IH.
Qed.

Lemma queue_delay_app n qs qs' :
  queue_delay n (qs ++ qs') = (queue_delay n qs + queue_delay (n + sends qs) qs')%nat.
Proof.
  revert n; induction qs as [|q qs IH]; intros n; cbn; [by rewrite Nat.add_0_r|].
  destruct (q_abort q); [apply IH|]. destruct (q_str q); cbn; rewrite IH; [|done].
  rewrite Nat.add_succ_r. cbn. lia.
Qed.

Lemma queue_cost_app n qs qs' :
  (queue_cost n (qs ++ qs') <= queue_cost n qs + queue_cost (n + sends qs) qs')%nat.
Proof.
  revert n; induction qs as [|q qs IH]; intros n; cbn; [rewrite Nat.add_0_r; lia|].
  destruct (q_abort q); [specialize (IH n); cbn; lia|]. destruct (q_str q) as [str|]; cbn.
  - specialize (IH (S n)). rewrite Nat.add_succ_r. cbn in *. lia.
  - specialize (IH n). lia.
Qed.

Lemma sends_app qs qs' : sends (qs ++ qs') = (sends qs + sends qs')%nat.
Proof. induction qs as [|q qs IH]; cbn; [done|]. rewrite IH. lia. Qed.

(** A connection that waits only gets the query at the end of its queue. *)
Ltac append qs n q :=
  pose proof (queue_cost_app n qs [q]);
  eexists _, _; split; [done|]; split;
  [rewrite <- !app_assoc, <- !Nat.add_assoc, <- sends_app, <- queue_events_app, <- queue_delay_app|].

Lemma waiting_add fuel c F N k w q :
  waiting c (F, N) k w -> (queue_cost N [q] <= fuel)%nat ->
  exists c' w', mariadb_async_handle_add_query fuel (Some q) c = Done (0, c') /\
    waiting c' (F ++ queue_events N [q], (N + sends [q])%nat) (k + queue_delay N [q]) w' /\
    (w' <= w + queue_cost N [q])%nat.
Proof.
  remember (F, N) as FN eqn:EF. intros Hw Hf. 
  destruct Hw as [e f n out|d e f qs n cur ev out|q' qs rs f n ev out|q' qs names b d fin rs n ev out|q' qs rs b f n ev out];
    injection EF as <- <-.
  - destruct (handle_query_waits fuel [q] e f n None CONN_STATE_CONNECTED EventWakeup out Hf)
      as (c' & w' & E & Hw & Hle).
    exists c', w'. split_and!; [|exact Hw|lia].
    unfold mariadb_async_handle_add_query. fields. rewrite decide_True by done. cbn [app]. by rewrite E.
  - append qs n q; [apply W_connect|lia].
  - append qs n q; [by apply W_query|lia].
  - append qs n q; [rewrite (Nat.add_assoc (S d)); by eapply (W_rows q')|lia].
  - append qs n q; [by apply W_next|lia].
Qed.
End invariant.

(** ** Sessions

    A connection is created and connected, then queries are added and read events come in
    any order. *)

Inductive action := AddQuery (q : mariadb_query) | ReadEvent.

Definition do_action `{Server} (fuel : nat) (a : action) (c : mariadb_conn) : outcome mariadb_conn :=
  match a with
  | AddQuery q => r ← mariadb_async_handle_add_query fuel (Some q) c; Done r.2
  | ReadEvent => r ← conn_on_read fuel c; Done r.2
  end.

Fixpoint run_actions `{Server} (fuel : nat) (acts : list action) (c : mariadb_conn) : outcome mariadb_conn :=
  match acts with
  | [] => Done c
  | a :: acts' => c ← do_action fuel a c; run_actions fuel acts' c
  end.

Fixpoint added (acts : list action) : list mariadb_query :=
  match acts with
  | [] => []
  | AddQuery q :: acts' => q :: added acts'
  | ReadEvent :: acts' => added acts'
  end.

(** [d] is the delay of the server's answer to the connection attempt. *)
Definition session `{Server} (fuel : nat) (fd flag : Z) (cb : bool) (d : nat) (acts : list action)
    : outcome mariadb_conn :=
  r ← mariadb_async_handle_connect fuel fd true cb (mariadb_conn_create (d, 0) flag);
  run_actions fuel acts r.2.

Section session.
Context `{Server} (fd flag : Z) (cb : bool).
Hypothesis Hserver : good_server flag.

Local Abbreviation waiting := (waiting fd flag cb false false).

Lemma connect_waiting fuel d : (0 < fuel)%nat -> exists c w,
  mariadb_async_handle_connect fuel fd true cb (mariadb_conn_create (d, 0) flag) = Done (0, c) /\
  waiting c (call_if cb (EvConnect true), 0%nat) d w /\ (w <= 1)%nat.
Proof.
  intros Hf. destruct fuel as [|fuel]; [lia|]. destruct d as [|d].
  - exists (mk_conn fd flag (mysql_init (0%nat, 0)) CONN_STATE_CONNECTED cb false None false false []
              EventSleep Live (call_if cb (EvConnect true))), 1%nat.
    split; [by destruct cb|]. split; [apply W_idle|lia].
  - pose proof (W_connect fd flag cb false false d 0 None [] 0 None EventRead []) as Hw.
    cbn [queue_events queue_delay app] in Hw. rewrite app_nil_r, !Nat.add_0_r in Hw.
    eexists _, _. split; [|split; [exact Hw|done]]. by destruct cb.
Qed.

Lemma queue_cost_cons N q qs :
  (queue_cost N [q] + queue_cost (N + sends [q]) qs = S (queue_cost N (q :: qs)))%nat.
Proof.
  cbn. destruct (q_abort q); cbn; [rewrite !Nat.add_0_r; lia|].
  destruct (q_str q); cbn; [|rewrite !Nat.add_0_r; lia]. rewrite (Nat.add_1_r N). lia.
Qed.

Lemma run_waiting fuel acts : forall c F N k w, waiting c (F, N) k w ->
  (w + queue_cost N (added acts) + length (added acts) <= fuel)%nat ->
  exists c' k' w', run_actions fuel acts c = Done c' /\
    waiting c' (F ++ queue_events N (added acts), (N + sends (added acts))%nat) k' w' /\
    (k' <= k + queue_delay N (added acts))%nat /\
    (w' <= w + queue_cost N (added acts) + length (added acts))%nat.
Proof.
  induction acts as [|[q|] acts IH]; intros c F N k w Hw Hf; cbn [run_actions added do_action] in *.
  - exists c, k, w. cbn. rewrite app_nil_r, Nat.add_0_r. split_and!; [done..|lia|lia].
  - pose proof (queue_cost_cons N q (added acts)) as Hc. cbn [length] in Hf.
    destruct (waiting_add fd flag cb false false Hserver fuel c F N k w q Hw) as (c1 & w1 & E1 & Hw1 & Hle1); [lia|].
    rewrite E1. cbn [mbind outcome_bind snd].
    destruct (IH _ _ _ _ _ Hw1) as (c' & k' & w' & E & Hw' & Hk & Hle); [lia|].
    exists c', k', w'. split; [done|].
    change (q :: added acts) with ([q] ++ added acts). rewrite queue_events_app, queue_delay_app, app_assoc.
    rewrite <- Nat.add_assoc, <- sends_app in Hw'. split; [done|]. cbn [app length]. split; lia.
  - destruct k as [|k].
    + destruct (waiting_done _ _ _ _ _ _ _ _ Hw) as (_ & _ & _ & _ & _ & E). rewrite E. by apply (IH c F N 0%nat w).
    + destruct (waiting_read _ _ _ _ _ Hserver fuel c _ k w Hw) as (c1 & w1 & E1 & Hw1 & Hle1); [lia|].
      rewrite E1. cbn [mbind outcome_bind snd].
      destruct (IH _ _ _ _ _ Hw1) as (c' & k' & w' & E & Hw' & Hk & Hle); [lia|].
      exists c', k', w'. split_and!; [done..|lia|lia].
Qed.

Lemma run_reads fuel j : forall c F k w, waiting c F k w -> (w <= fuel)%nat ->
  exists c' w', run_actions fuel (replicate j ReadEvent) c = Done c' /\ waiting c' F (k - j) w'.
Proof.
  induction j as [|j IH]; intros c F k w Hw Hf; cbn [replicate run_actions do_action].
  - exists c, w. by rewrite Nat.sub_0_r.
  - destruct k as [|k].
    + destruct (waiting_done _ _ _ _ _ _ _ _ Hw) as (_ & _ & _ & _ & _ & E). rewrite E. by apply (IH c F 0%nat w).
    + destruct (waiting_read _ _ _ _ _ Hserver fuel c _ k w Hw) as (c1 & w1 & E1 & Hw1 & Hle1); [lia|].
      rewrite E1. cbn [mbind outcome_bind snd]. apply (IH _ _ _ _ Hw1). lia.
Qed.

Lemma run_app fuel acts acts' c :
  run_actions fuel (acts ++ acts') c = (c ← run_actions fuel acts c; run_actions fuel acts' c).
Proof.
  revert c; induction acts as [|a acts IH]; intros c; cbn; [done|].
  destruct (do_action fuel a c); cbn; [apply IH|done|done].
Qed.

(** The state of a session after its actions. *)
Lemma session_waiting fuel d acts :
  (queue_cost 0 (added acts) + length (added acts) + 1 <= fuel)%nat ->
  exists c k w, session fuel fd flag cb d acts = Done c /\
    waiting c (call_if cb (EvConnect true) ++ queue_events 0 (added acts), sends (added acts)) k w /\
    (k <= d + queue_delay 0 (added acts))%nat /\ (w <= fuel)%nat.
Proof.
  intros Hf. destruct (connect_waiting fuel d) as (c & w & E & Hw & Hle); [lia|].
  destruct (run_waiting fuel acts _ _ _ _ _ Hw) as (c' & k' & w' & E' & Hw' & Hk & Hle'); [lia|].
  exists c', k', w'. unfold session. rewrite E. cbn [mbind outcome_bind snd]. split_and!; [done..|lia].
Qed.
End session.

(** A server that answers every query with two rows, the header and the end coming late. *)
Definition two_rows : Server :=
  {| respond := fun _ _ => [RSet 1 ["id"%string] [(0%nat, [Some "1"%string]); (0%nat, [Some "2"%string])] 2 None] |}.

Lemma two_rows_good flag : @good_server two_rows flag.
Proof. intros n s. split; [|done]. split; [by repeat constructor|done]. Qed.

Definition demo_query (id : nat) : mariadb_query := mariadb_query_init id (Some "select"%string) true true true.

(** C19. The callbacks of asynchronous queries come in order.  For every interleaving of new queries and read events, and however late the headers and the
    ends of the results come, the session does not crash and the callbacks made so far are a prefix of those the replies call for: the result, the rows in
    order and the end of each query, query after query.  The condition on the server ([good_server]): the rows of a result come with its
    header ([late_row_loses_rest] shows the others); a query of several statements is only answered on a connection that allows them, all its
    statements but the last give a complete result set ([statement_without_rows_ends_query]), and an error of a statement after the first comes without delay
    ([late_statement_error_loops]). *)
Theorem queries_in_order `{Server} fuel fd flag cb d acts :
  good_server flag -> (queue_cost 0 (added acts) + length (added acts) + 1 <= fuel)%nat ->
  exists c, session fuel fd flag cb d acts = Done c /\
    c_out c `prefix_of` call_if cb (EvConnect true) ++ queue_events 0 (added acts).
Proof.
  intros Hs Hf. destruct (session_waiting fd flag cb Hs fuel d acts Hf) as (c & k & w & E & Hw & _ & _).
  exists c. split; [done|]. apply (waiting_prefix _ _ _ _ _ _ _ _ _ Hw).
Qed.

Lemma queries_in_order_witness :
  exists c, @session two_rows 60 7 0 true 1 [AddQuery (demo_query 0); ReadEvent; ReadEvent; AddQuery (demo_query 1)] = Done c /\
    c_out c = [EvConnect true; EvResult 0 ["id"%string]; EvRow 0 [Some "1"%string]; EvRow 0 [Some "2"%string]] /\
    c_out c `prefix_of` [EvConnect true] ++ @queue_events two_rows 0 [demo_query 0; demo_query 1].
Proof.
  destruct (@queries_in_order two_rows 60 7 0 true 1
    [AddQuery (demo_query 0); ReadEvent; ReadEvent; AddQuery (demo_query 1)] (two_rows_good 0) ltac:(cbn; lia))
    as (c & E & Hp).
  exists c. split; [exact E|]. split; [|exact Hp]. vm_compute in E. injection E as <-. reflexivity.
Defined.

(** C20. Progress of asynchronous queries: for a server that is good in the same sense (rows with their header, complete result sets but for the last statement,
    no delayed error after the first statement), once as many read events have come as the packets have
    delays, every query has had all its callbacks, the queue is empty, and the connection is idle with its descriptor asleep. *)
Theorem queries_complete `{Server} fuel fd flag cb d acts j :
  good_server flag -> (queue_cost 0 (added acts) + length (added acts) + 1 <= fuel)%nat ->
  (d + queue_delay 0 (added acts) <= j)%nat ->
  exists c, session fuel fd flag cb d (acts ++ replicate j ReadEvent) = Done c /\
    c_out c = call_if cb (EvConnect true) ++ queue_events 0 (added acts) /\
    c_queries c = [] /\ c_state c = CONN_STATE_CONNECTED /\ c_event c = EventSleep.
Proof.
  intros Hs Hf Hj. destruct (session_waiting fd flag cb Hs fuel d acts Hf) as (c & k & w & E & Hw & Hk & Hle).
  destruct (run_reads fd flag cb Hs fuel j _ _ _ _ Hw Hle) as (c' & w' & E' & Hw').
  replace (k - j)%nat with 0%nat in Hw' by lia.
  destruct (waiting_done _ _ _ _ _ _ _ _ Hw') as (Ho & Hst & Hq & _ & Hev & _).
  exists c'. split; [|split_and!; done]. unfold session in *.
  destruct (mariadb_async_handle_connect _ _ _ _ _) as [r| |]; [|done..]. cbn [mbind outcome_bind] in *.
  rewrite run_app, E. exact E'.
Qed.

Lemma queries_complete_witness :
  exists c, @session two_rows 60 7 0 true 1 ([AddQuery (demo_query 0); AddQuery (demo_query 1)] ++ replicate 7 ReadEvent) = Done c /\
    c_out c = [EvConnect true; EvResult 0 ["id"%string]; EvRow 0 [Some "1"%string]; EvRow 0 [Some "2"%string]; EvEnd 0;
               EvResult 1 ["id"%string]; EvRow 1 [Some "1"%string]; EvRow 1 [Some "2"%string]; EvEnd 1] /\
    c_queries c = [] /\ c_state c = CONN_STATE_CONNECTED /\ c_event c = EventSleep.
Proof.
  exact (@queries_complete two_rows 60 7 0 true 1 [AddQuery (demo_query 0); AddQuery (demo_query 1)] 7
    (two_rows_good 0) ltac:(cbn; lia) ltac:(cbn; lia)).
Defined.

Lemma freeing_reads `{Server} fuel fd flag ccb dcb pooled q qs names b l ev out d : forall m,
  Z.land flag CLIENT_MULTI_STATEMENTS = 0 -> q_result q = ResLive (mk_res true false names) ->
  my_status m = MYSQL_STATUS_USE_RESULT -> my_suspended m = Some OpFree -> my_in m = (d, PEof b) :: l ->
  run_actions fuel (replicate (S d) ReadEvent)
    (mk_conn fd flag m CONN_STATE_RESULT_FREEING ccb dcb (Some (q_id q)) false pooled (q :: qs) ev Live out)
  = Crash NullDeref.
Proof.
  induction d as [|d IH]; intros m Hm Hr Hst Hsu Hin.
  - cbn [replicate run_actions do_action]. by rewrite (freeing_crash _ _ _ _ _ _ _ _ names _ _ _ 0 b l).
  - change (replicate (S (S d)) ReadEvent) with (ReadEvent :: replicate (S d) ReadEvent).
    cbn [run_actions do_action]. rewrite (freeing_crash _ _ _ _ _ _ _ _ names _ _ _ (S d) b l) by done.
    cbn [mbind outcome_bind snd]. by apply IH.
Qed.

(** C27. A row whose packet was not there when it was fetched is delivered, but the rows after it are
    lost: the next fetch is continued instead of started, which the client library answers
    with an error.  Without several statements per query, [end_cb] is not called; if the rest of the result is there the
    query is dropped, and if its last packet is late the read event that completes the
    release dereferences the current query after setting it to [NULL]. *)
Theorem late_row_loses_rest `{Server} fuel fd flag ccb dcb pooled q names b rw rows d n ev out :
  Z.land flag CLIENT_MULTI_STATEMENTS = 0 -> q_result q = ResLive (mk_res true false names) -> prompt rows ->
  let c := mk_conn fd flag
             (mk_mysql MYSQL_STATUS_USE_RESULT 0 b None
                ((0%nat, PRow rw) :: row_packets rows ++ [(d, PEof false)]) n (Some OpFetch) (0%nat, 0))
             CONN_STATE_ROW_FETCHING ccb dcb (Some (q_id q)) false pooled [q] ev Live out in
  match d with
  | O => exists c', conn_on_read (S (S (S fuel))) c = Done (DUDA_EVENT_OWNED, c') /\
           c_state c' = CONN_STATE_CONNECTED /\ c_queries c' = [] /\ my_in (c_mysql c') = [] /\
           c_out c' = (out ++ call_if (q_row_cb q) (EvRow (q_id q) rw)) ++ [EvLog LogRow]
  | S d' => run_actions (S (S (S fuel))) (replicate (S (S d')) ReadEvent) c = Crash NullDeref
  end.
Proof.
  intros Hm Hr Hp c. destruct d as [|d].
  - subst c. rewrite (late_row _ _ _ _ _ _ _ _ names) by done. rewrite flush_rows by done. eexists. split; [done|]. done.
  - subst c. change (replicate (S (S d)) ReadEvent) with (ReadEvent :: replicate (S d) ReadEvent).
    cbn [run_actions do_action]. rewrite (late_row _ _ _ _ _ _ _ _ names), flush_rows by done.
    cbn [flush_one_result mbind outcome_bind]. unfold query_if_connected. cbn [c_state].
    rewrite decide_False by done. cbn [mbind outcome_bind snd].
    by apply (freeing_reads _ _ _ _ _ _ (q_set_result (ResLive (mk_res true false names)) q) _ names false []).
Qed.

Lemma late_row_loses_rest_witness :
  let q := q_set_result (ResLive (mk_res true false ["id"%string])) (demo_query 0) in
  @run_actions two_rows 3 [ReadEvent; ReadEvent]
    (mk_conn 7 0 (mk_mysql MYSQL_STATUS_USE_RESULT 0 false None
        ([(0%nat, PRow [Some "1"%string]); (0%nat, PRow [Some "2"%string]); (1%nat, PEof false)]) 1 (Some OpFetch) (0%nat, 0))
       CONN_STATE_ROW_FETCHING false false (Some 0%nat) false false [q] EventRead Live []) = Crash NullDeref.
Proof.
  exact (@late_row_loses_rest two_rows 0 7 0 false false false
    (q_set_result (ResLive (mk_res true false ["id"%string])) (demo_query 0)) ["id"%string] false
    [Some "1"%string] [(0%nat, [Some "2"%string])] 1 1 EventRead [] eq_refl eq_refl ltac:(by repeat constructor)).
Defined.

(** A server that answers with a statement without rows and a result set. *)
Definition ok_then_rows : Server := {| respond := fun _ _ => [ROk 0; RSet 0 ["id"%string] [(0%nat, [Some "1"%string])] 0 None] |}.

(** Of several statements the first without a result set ends the query: the results of the later ones are never read, and
    every later query of the connection fails, since the client library is out of step. *)
Lemma statement_without_rows_ends_query :
  exists c, @session ok_then_rows 60 7 CLIENT_MULTI_STATEMENTS true 0 [AddQuery (demo_query 0); AddQuery (demo_query 1)] = Done c /\
    c_out c = [EvConnect true; EvLog LogQuery] /\
    [EvConnect true] ++ @queue_events ok_then_rows 0 [demo_query 0; demo_query 1] =
      [EvConnect true; EvResult 0 ["id"%string]; EvRow 0 [Some "1"%string]; EvEnd 0; EvResult 1 ["id"%string]; EvRow 1 [Some "1"%string]; EvEnd 1].
Proof. eexists. split; [vm_compute; reflexivity|]. split; vm_compute; reflexivity. Qed.

(** After an error of a later statement that had to be waited for the handler never returns: the loop continues a call that is finished, which the client
    library answers with an error again and again. *)
Lemma next_loops fuel : forall i q m m' fd flag st ccb dcb fin pooled qs ev f out, mysql_next_result_cont m = Finished 1 m' -> my_suspended m' = None -> q_id q = i ->
  on_read_next fuel (mk_conn fd flag m st ccb dcb (Some i) fin pooled (q :: qs) ev f out) = NoFuel.
Proof.
  induction fuel as [|fuel IH]; intros i q m m' fd flag st ccb dcb fin pooled qs ev f out Hm Hs Hi; [done|]. cbn [on_read_next c_current c_mysql].
  unfold deref. cbn [c_queries]. rewrite find_head by done. cbn [mbind outcome_bind]. rewrite Hm. change (1 =? -1) with false. change (1 =? 0) with false. cbv iota.
  unfold put_query. cbn [c_queries with_mysql]. rewrite update_head by done.
  eapply (IH i (q_set_error 1 q) m'); [unfold mysql_next_result_cont, async_cont; by rewrite Hs|done|done].
Qed.

Definition rows_then_error : Server := {| respond := fun _ _ => [RSet 0 ["id"%string] [] 0 None; RError 1 5] |}.

Lemma late_statement_error_loops : exists c,
  @session rows_then_error 60 7 CLIENT_MULTI_STATEMENTS true 0 [AddQuery (demo_query 0)] = Done c /\
  forall n, @run_actions rows_then_error n [ReadEvent] c = NoFuel.
Proof.
  eexists. split; [vm_compute; reflexivity|]. intros [|n]; [reflexivity|]. cbn [run_actions do_action]. unfold conn_on_read. cbn [c_state].
  match goal with |- context [on_read_next (S n) ?c] => set (c0 := c) end.
  assert (Hl : on_read_next (S n) c0 = NoFuel); [|by rewrite Hl]. eapply (next_loops (S n)); [vm_compute; reflexivity|done|done].
Qed.
