(* ===== verification/MariadbState.v ===== *)
(** * Which call a connection of packages/mariadb waits for

    For any server, any delays and any queries, errors and aborted queries included: between
    two events the call suspended in the client library is the one the state of the
    connection names, so that an event handler always continues the call that was
    suspended.  Also the search of a connection by its descriptor, and the two loops
    of the read handler that go on without a suspended call. *)

From S2P Require Import Prelude MysqlClient MariadbAsync.

(** The call a state waits for. *)
Definition state_op (s : mariadb_conn_state_t) : option async_op :=
  match s with
  | CONN_STATE_CONNECTING => Some OpConnect
  | CONN_STATE_QUERYING => Some OpQuery
  | CONN_STATE_ROW_FETCHING => Some OpFetch
  | CONN_STATE_RESULT_FREEING => Some OpFree
  | CONN_STATE_NEXT_RESULTING => Some OpNext
  | _ => None
  end.

Definition agrees (c : mariadb_conn) : Prop := my_suspended (c_mysql c) = state_op (c_state c).

(** ** The client *)

Lemma async_start_suspended {A} op (k : call A) m : async_start op k = Suspended m -> my_suspended m = Some op.
Proof. destruct k; [|done]. by intros [= <-]. Qed.

Lemma async_start_finished {A} op (k : call A) a m : async_start op k = Finished a m -> my_suspended m = None.
Proof. destruct k; [done|]. by intros [= <- <-]. Qed.

Lemma async_cont_op {A} op (err : A) k m m' : async_cont op err k m = Suspended m' -> my_suspended m' = Some op.
Proof. unfold async_cont. destruct (my_suspended m); [apply async_start_suspended|done]. Qed.

Lemma async_cont_done {A} op (err : A) k m a m' : async_cont op err k m = Finished a m' -> my_suspended m' = None.
Proof.
  unfold async_cont. destruct (my_suspended m) eqn:E; [apply async_start_finished|]. by intros [= <- <-].
Qed.

Lemma use_result_suspended m : my_suspended (mysql_use_result m).2 = my_suspended m.
Proof. unfold mysql_use_result. destruct (my_fields m); [|done]. by case_bool_decide. Qed.

Lemma free_start_op r m m' : mysql_free_result_start r m = Suspended m' -> my_suspended m' = Some OpFree.
Proof.
  unfold mysql_free_result_start. destruct (rs_handle r) eqn:E; [apply async_start_suspended|].
  unfold mysql_free_result. by rewrite E.
Qed.

Lemma free_start_done r m a m' : my_suspended m = None ->
  mysql_free_result_start r m = Finished a m' -> my_suspended m' = None.
Proof.
  intros Hm. unfold mysql_free_result_start. destruct (rs_handle r) eqn:E; [apply async_start_finished|].
  unfold mysql_free_result. rewrite E. by intros [= <- <-].
Qed.

(** A result without a handle is at its end. *)
Definition res_ok (r : MYSQL_RES) : Prop := rs_handle r = negb (rs_eof r).

Lemma fetch_row_res r m rw r' m' : res_ok r -> mysql_fetch_row r m = Finished (rw, r') m' -> res_ok r'.
Proof.
  unfold mysql_fetch_row, fetch_end, res_ok. intros Hr. destruct (rs_eof r) eqn:E; [by intros [= <- <- <-]; rewrite E|].
  case_bool_decide; [by intros [= <- <- <-]|].
  destruct (read_one_row m) as [|[rc rw'] m1]; [done|]. destruct (rc =? 0); intros [= <- <- <-]; [by rewrite E|done].
Qed.

Lemma async_start_inv {A} op (k : call A) a m : async_start op k = Finished a m ->
  exists m', k = Finished a m' /\ my_suspended m = None.
Proof. destruct k as [|a' m']; [done|]. intros [= <- <-]. eauto. Qed.

Lemma fetch_start_op r m m' : res_ok r ->
  mysql_fetch_row_start r m = Suspended m' -> my_suspended m' = Some OpFetch.
Proof.
  unfold mysql_fetch_row_start, res_ok. intros Hr. destruct (rs_handle r) eqn:E; [apply async_start_suspended|].
  unfold mysql_fetch_row. by rewrite (negb_sym _ _ Hr).
Qed.

Lemma fetch_start_done r m rw r' m' : res_ok r -> my_suspended m = None ->
  mysql_fetch_row_start r m = Finished (rw, r') m' -> my_suspended m' = None /\ res_ok r'.
Proof.
  unfold mysql_fetch_row_start. intros Hr Hm. destruct (rs_handle r) eqn:E.
  - intros (m1 & E1 & Hn)%async_start_inv. split; [done|]. by eapply fetch_row_res.
  - intros E1. split; [|by eapply fetch_row_res]. revert E1. unfold mysql_fetch_row.
    unfold res_ok in Hr. rewrite E in Hr. rewrite (negb_sym _ _ Hr). by intros [= <- <- <-].
Qed.

Lemma fetch_cont_done r m rw r' m' : res_ok r ->
  mysql_fetch_row_cont r m = Finished (rw, r') m' -> my_suspended m' = None /\ res_ok r'.
Proof.
  intros Hr E. split; [by eapply async_cont_done|]. revert E. unfold mysql_fetch_row_cont, async_cont.
  destruct (my_suspended m); [|by intros [= <- <- <-]].
  intros (m1 & E1 & _)%async_start_inv. by eapply fetch_row_res.
Qed.

(** ** The queries of a connection *)

Definition query_ok (q : mariadb_query) : Prop := forall r, q_result q = ResLive r -> res_ok r.
Definition queries_ok (c : mariadb_conn) : Prop := Forall query_ok (c_queries c).

Lemma find_query_ok id l q : Forall query_ok l -> find_query id l = Some q -> query_ok q.
Proof.
  induction 1 as [|q' l Hq _ IH]; cbn; [done|]. case_decide; [by intros [= <-]|done].
Qed.

Lemma remove_query_ok id l : Forall query_ok l -> Forall query_ok (remove_query id l).
Proof. induction 1 as [|q l Hq Hl IH]; cbn; [done|]. case_decide; [done|by constructor]. Qed.

Lemma update_query_ok q l : query_ok q -> Forall query_ok l -> Forall query_ok (update_query q l).
Proof. intros Hq. induction 1 as [|q' l Hq' Hl IH]; cbn; [done|]. case_decide; by constructor. Qed.

(** The property the handlers establish. *)
Definition good_conn (c : mariadb_conn) : Prop := agrees c /\ queries_ok c.

(** What they start from: no suspended call. *)
Definition clear_conn (c : mariadb_conn) : Prop := my_suspended (c_mysql c) = None /\ queries_ok c.

Lemma deref_ok p c q : queries_ok c -> deref p c = Done q -> query_ok q.
Proof.
  unfold deref, queries_ok. intros Hc. destruct p as [id|]; [|done].
  destruct (find_query id (c_queries c)) eqn:E; [|done]. intros [= <-]. by eapply find_query_ok.
Qed.

Lemma live_result_ok q r : query_ok q -> live_result q = Done r -> res_ok r.
Proof. unfold query_ok, live_result. destruct (q_result q); [done| |done]. intros Hq [= <-]. by apply Hq. Qed.

Lemma put_query_ok q c : query_ok q -> queries_ok c -> queries_ok (put_query q c).
Proof. apply update_query_ok. Qed.

Lemma set_result_ok r q : res_ok r -> query_ok (q_set_result (ResLive r) q).
Proof. intros Hr r'. cbn. by intros [= <-]. Qed.

Lemma query_free_clear p c c' : clear_conn c -> mariadb_query_free p c = Done c' -> clear_conn c'.
Proof.
  intros [Hm Hq]. unfold mariadb_query_free. destruct (deref p c) eqn:E; [|done|done]. intros [= <-].
  split; [done|]. apply remove_query_ok, Hq.
Qed.

Lemma query_free_state p c c' : mariadb_query_free p c = Done c' -> c_state c' = c_state c.
Proof. unfold mariadb_query_free. destruct (deref p c); [|done|done]. by intros [= <-]. Qed.

Lemma callback_clear b e c : clear_conn c -> clear_conn (callback b e c).
Proof. by destruct b. Qed.

Lemma rows_ended_clear q c : clear_conn c -> clear_conn (rows_ended q c).
Proof. unfold rows_ended. intros Hc. destruct (0 <? _); [done|]. by apply callback_clear. Qed.

Lemma clear_connected c : clear_conn c -> good_conn (with_state CONN_STATE_CONNECTED c).
Proof. by intros [Hm Hq]. Qed.

Lemma clear_put q st m c : query_ok q -> queries_ok c -> my_suspended m = None ->
  clear_conn (with_state st (put_query q (with_mysql m c))).
Proof. intros Hq Hc Hm. split; [done|]. by apply put_query_ok. Qed.

Ltac inv_out H := repeat
  match type of H with
  | (_ ≫= _) = Done _ => apply outcome_bind_inv in H as (? & ? & H)
  | Crash _ = Done _ => discriminate H
  | NoFuel = Done _ => discriminate H
  end.

Create HintDb mariadb.
#[local] Hint Resolve deref_ok live_result_ok put_query_ok set_result_ok query_free_clear callback_clear
  rows_ended_clear clear_connected clear_put async_start_suspended async_start_finished async_cont_op async_cont_done : mariadb.

(** ** The handlers *)

Definition establishes (f : mariadb_conn -> outcome mariadb_conn) : Prop :=
  forall c c', clear_conn c -> f c = Done c' -> good_conn c'.

Lemma free_connected p c c' : clear_conn c ->
  (c ← mariadb_query_free p c; Done (with_state CONN_STATE_CONNECTED c)) = Done c' -> good_conn c'.
Proof. intros Hc E. inv_out E. injection E as <-. eauto with mariadb. Qed.

Lemma result_step n : establishes (mariadb_async_handle_row n) ->
  establishes (mariadb_async_handle_result_free n) -> establishes (mariadb_async_handle_result (S n)).
Proof.
  intros Hrow Hfree c c' [Hm Hq] E. cbn in E. pose proof (use_result_suspended (c_mysql c)) as Hu.
  assert (forall r, (mysql_use_result (c_mysql c)).1 = Some r -> res_ok r) as Hr.
  { unfold mysql_use_result. destruct (my_fields _); [|done]. case_bool_decide; [done|]. by intros r [= <-]. }
  destruct (mysql_use_result (c_mysql c)) as [r m]. cbn in Hu, Hr. inv_out E.
  destruct r as [r|].
  - specialize (Hr r eq_refl). cbn [q_abort q_set_result] in E. destruct (q_abort x).
    + eapply Hfree; [|exact E]. split; [cbn; congruence|]. eauto with mariadb.
    + eapply Hrow; [|exact E]. apply callback_clear. split; [cbn; congruence|].
      apply put_query_ok; [|done]. intros r'. cbn. by intros [= <-].
  - eapply free_connected; [|exact E]. split; [cbn; congruence|]. apply put_query_ok; [done|done].
Qed.

Lemma row_step n : establishes (mariadb_async_handle_row n) ->
  establishes (mariadb_async_handle_result_free n) -> establishes (mariadb_async_handle_row (S n)).
Proof.
  intros Hrow Hfree c c' [Hm Hq] E. cbn in E. apply outcome_bind_inv in E as (q & Eq & E).
  apply outcome_bind_inv in E as (r & Er & E). assert (res_ok r) as Hr by exact (live_result_ok _ _ (deref_ok _ _ _ Hq Eq) Er).
  destruct (mysql_fetch_row_start r (c_mysql c)) as [m|[rw r'] m] eqn:Ef.
  - injection E as <-. split; [|done]. unfold agrees. cbn. by eapply fetch_start_op.
  - apply fetch_start_done in Ef as [Hn Hr']; [|done..].
    destruct rw; [eapply Hrow; [|exact E]|eapply Hfree; [|exact E]]; auto with mariadb.
Qed.

Lemma free_step n : establishes (mariadb_async_handle_next_result n) ->
  establishes (mariadb_async_handle_result_free (S n)).
Proof.
  intros Hnext c c' [Hm Hq] E. cbn in E. apply outcome_bind_inv in E as (q & Eq & E).
  apply outcome_bind_inv in E as (r & Er & E).
  destruct (mysql_free_result_start r (c_mysql c)) as [m|a m] eqn:Ef.
  - injection E as <-. split; [|done]. unfold agrees. cbn. by eapply free_start_op.
  - apply free_start_done in Ef; [|done].
    assert (query_ok (q_set_result ResFreed q)) as Hok by done.
    destruct (multi_statements _).
    + eapply Hnext; [|exact E]. eauto with mariadb.
    + eapply free_connected; [|exact E]. split; [done|]. by apply put_query_ok.
Qed.

Lemma next_step n : establishes (mariadb_async_handle_next_result n) ->
  establishes (mariadb_async_handle_result n) -> establishes (mariadb_async_handle_next_result (S n)).
Proof.
  intros Hnext Hres c c' [Hm Hq] E. cbn in E. apply outcome_bind_inv in E as (q & Eq & E).
  destruct (mysql_next_result_start (c_mysql c)) as [m|e m] eqn:Ef.
  - injection E as <-. split; [|done]. by eapply async_start_suspended.
  - apply async_start_finished in Ef.
    assert (query_ok (q_set_error e q)) as Hok by exact (deref_ok _ _ _ Hq Eq).
    destruct (e =? -1); [eapply free_connected; [|exact E]; split; [done|by apply put_query_ok]|].
    destruct (e =? 0); [|eapply Hnext; [|exact E]; split; [done|by apply put_query_ok]].
    apply outcome_bind_inv in E as (c1 & E1 & E).
    assert (good_conn c1) as Hc1 by (eapply Hres; [|exact E1]; eauto with mariadb).
    case_decide as Hst; [|by injection E as <-].
    eapply Hnext; [|exact E]. destruct Hc1 as [Ha ?]. split; [|done]. unfold agrees in Ha. by rewrite Hst in Ha.
Qed.

Lemma handlers_establish n :
  establishes (mariadb_async_handle_result n) /\ establishes (mariadb_async_handle_row n) /\
  establishes (mariadb_async_handle_result_free n) /\ establishes (mariadb_async_handle_next_result n).
Proof.
  induction n as [|n (H1 & H2 & H3 & H4)]; [by split_and!|].
  split_and!; [by apply result_step|by apply row_step|by apply free_step|by apply next_step].
Qed.

Section server.
Context `{Server}.

Lemma release_good ok c : c_state c = CONN_STATE_CONNECTED -> good_conn c -> good_conn (mariadb_async_handle_release c ok).
Proof.
  intros Hs [Ha Hq]. unfold mariadb_async_handle_release. unfold agrees in Ha. rewrite Hs in Ha.
  destruct (state_ge_connected _ && _); cbn; destruct (c_is_pooled c);
    (split; [unfold agrees; cbn; by rewrite Ha, ?Hs|first [exact Hq|constructor]]).
Qed.

Lemma handle_query_establishes n : establishes (mariadb_async_handle_query n).
Proof.
  induction n as [|n IH]; intros c c' [Hm Hq] E; [done|]. cbn [mariadb_async_handle_query] in E.
  destruct (c_queries c) as [|q qs] eqn:Eqs.
  - assert (queries_ok c) by done. cbn in E. destruct (c_disconnect_on_finish c); injection E as <-; [|done].
    by apply release_good.
  - assert (query_ok q) as Hok by (unfold queries_ok in Hq; rewrite Eqs in Hq; by inversion Hq).
    destruct (q_abort q); [|destruct (q_str q) as [s|]].
    + apply outcome_bind_inv in E as (c1 & E1 & E). eapply IH; [|exact E].
      assert (clear_conn c1) as [? ?]; [|done]. by eapply query_free_clear; [|exact E1].
    + destruct (mysql_real_query_start _ s) as [m|e m] eqn:Ef.
      * injection E as <-. split; [|done]. by eapply async_start_suspended.
      * apply async_start_finished in Ef.
        assert (clear_conn (put_query (q_set_error e q) (with_mysql m (with_current (Some (q_id q)) c)))) as Hc
          by (split; [done|by apply put_query_ok]).
        destruct (e =? 0); apply outcome_bind_inv in E as (c1 & E1 & E).
        -- destruct (handlers_establish n) as (Hres & _).
           assert (good_conn c1) as Hc1 by (eapply Hres; [|exact E1]; done).
           case_decide as Hst; [|by injection E as <-]. eapply IH; [|exact E].
           destruct Hc1 as [Ha ?]. split; [|done]. unfold agrees in Ha. by rewrite Hst in Ha.
        -- eapply IH; [|exact E].
      assert (clear_conn c1) as [? ?]; [|done]. by eapply query_free_clear; [|exact E1].
    + apply outcome_bind_inv in E as (c1 & E1 & E). eapply IH; [|exact E].
      assert (clear_conn c1) as [? ?]; [|done]. by eapply query_free_clear; [|exact E1].
Qed.

Lemma good_clear c : good_conn c -> c_state c = CONN_STATE_CONNECTED -> clear_conn c.
Proof. intros [Ha Hq] Hs. split; [|done]. unfold agrees in Ha. by rewrite Hs in Ha. Qed.

Lemma query_if_connected_good n c c' : good_conn c -> query_if_connected n c = Done c' -> good_conn c'.
Proof.
  unfold query_if_connected. intros Hc E. case_decide as Hs; [|by injection E as <-].
  eapply handle_query_establishes; [|exact E]. by apply good_clear.
Qed.

Lemma on_read_rows_good n : forall c c', queries_ok c ->
  my_suspended (c_mysql c) = None \/ c_state c = CONN_STATE_ROW_FETCHING -> on_read_rows n c = Done c' -> good_conn c'.
Proof.
  induction n as [|n IH]; intros c c' Hq Hs E; [done|]. cbn [on_read_rows] in E.
  apply outcome_bind_inv in E as (q & Eq & E). apply outcome_bind_inv in E as (r & Er & E).
  pose proof (live_result_ok _ _ (deref_ok _ _ _ Hq Eq) Er) as Hr.
  destruct (mysql_fetch_row_cont r (c_mysql c)) as [m|[rw r'] m] eqn:Ef.
  - injection E as <-. split; [|done]. unfold agrees. cbn [c_mysql c_state with_mysql].
    destruct Hs as [Hs| ->]; [|by eapply async_cont_op].
    unfold mysql_fetch_row_cont, async_cont in Ef. by rewrite Hs in Ef.
  - apply fetch_cont_done in Ef as [Hn Hr']; [|done].
    assert (clear_conn (with_state CONN_STATE_ROW_FETCHED (put_query (q_set_result (ResLive r') q) (with_mysql m c))))
      as Hc by auto with mariadb.
    destruct rw as [rw|].
    + eapply IH; [| |exact E]; [by destruct (callback_clear (q_row_cb q) (EvRow (q_id q) rw) _ Hc)|].
      left. by destruct (callback_clear (q_row_cb q) (EvRow (q_id q) rw) _ Hc).
    + apply outcome_bind_inv in E as (c1 & E1 & E). eapply query_if_connected_good; [|exact E].
      destruct (handlers_establish n) as (_ & _ & Hfree & _). eapply Hfree; [|exact E1]. auto with mariadb.
Qed.

Lemma on_read_next_good n : forall c c', queries_ok c ->
  my_suspended (c_mysql c) = None \/ c_state c = CONN_STATE_NEXT_RESULTING -> on_read_next n c = Done c' -> good_conn c'.
Proof.
  induction n as [|n IH]; intros c c' Hq Hs E; [done|]. cbn [on_read_next] in E.
  apply outcome_bind_inv in E as (q & Eq & E).
  destruct (mysql_next_result_cont (c_mysql c)) as [m|e m] eqn:Ef.
  - injection E as <-. split; [|done]. unfold agrees. cbn [c_mysql c_state with_mysql].
    destruct Hs as [Hs| ->]; [|by eapply async_cont_op].
    unfold mysql_next_result_cont, async_cont in Ef. by rewrite Hs in Ef.
  - apply async_cont_done in Ef.
    assert (query_ok (q_set_error e q)) as Hok by exact (deref_ok _ _ _ Hq Eq).
    assert (clear_conn (with_state CONN_STATE_NEXT_RESULTED (put_query (q_set_error e q) (with_mysql m c))))
      as Hc by auto with mariadb.
    destruct (e =? -1); [discriminate E|]. destruct (e =? 0).
    + apply outcome_bind_inv in E as (c1 & E1 & E).
      destruct (handlers_establish n) as (Hres & _). assert (good_conn c1) as Hc1 by (eapply Hres; [|exact E1]; done).
      case_decide as Hst; [|by injection E as <-]. destruct Hc1 as [Ha ?].
      eapply IH; [| |exact E]; [done|]. left. unfold agrees in Ha. by rewrite Hst in Ha.
    + eapply IH; [| |exact E]; [by destruct Hc|left; by destruct Hc].
Qed.

Lemma on_read_good n c c' : good_conn c -> conn_on_read n c = Done (DUDA_EVENT_OWNED, c') -> good_conn c'.
Proof.
  intros [Ha Hq] E. unfold agrees in Ha. unfold conn_on_read in E. destruct (c_state c) eqn:Hst;
    try (injection E as <-; split; [unfold agrees; by rewrite Hst, Ha|done]).
  - destruct (mysql_real_connect_cont (c_mysql c)) as [m|[|] m] eqn:Ef.
    + injection E as <-. split; [|done]. unfold agrees. cbn. rewrite Hst. by eapply async_cont_op.
    + apply async_cont_done in Ef. apply outcome_bind_inv in E as (c1 & E1 & E). injection E as <-.
      eapply handle_query_establishes; [|exact E1]. by apply callback_clear.
    + discriminate E.
  - apply outcome_bind_inv in E as (q & Eq & E).
    destruct (mysql_real_query_cont (c_mysql c)) as [m|e m] eqn:Ef.
    + injection E as <-. split; [|done]. unfold agrees. cbn. rewrite Hst. by eapply async_cont_op.
    + apply async_cont_done in Ef.
      assert (query_ok (q_set_error e q)) as Hok by exact (deref_ok _ _ _ Hq Eq).
      assert (clear_conn (put_query (q_set_error e q) (with_mysql m c))) as Hc by (split; [done|by apply put_query_ok]).
      destruct (e =? 0); apply outcome_bind_inv in E as (c1 & E1 & E);
        apply outcome_bind_inv in E as (c2 & E2 & E); injection E as <-.
      * destruct (handlers_establish n) as (Hres & _). eapply query_if_connected_good; [|exact E2].
        eapply Hres; [|exact E1]. done.
      * eapply handle_query_establishes; [|exact E2].
        assert (clear_conn c1) as [? ?]; [|done]. by eapply query_free_clear; [|exact E1].
  - apply outcome_bind_inv in E as (c1 & E1 & E). injection E as <-.
    eapply on_read_rows_good; [done| |exact E1]. by right.
  - apply outcome_bind_inv in E as (c1 & E1 & E). apply outcome_bind_inv in E as (c2 & E2 & E). injection E as <-.
    eapply query_if_connected_good; [|exact E2]. eapply on_read_next_good; [done| |exact E1]. by right.
  - apply outcome_bind_inv in E as (q & Eq & E). apply outcome_bind_inv in E as (r & Er & E).
    destruct (mysql_free_result_cont r (c_mysql c)) as [m|a m] eqn:Ef.
    + injection E as <-. split; [|done]. unfold agrees. cbn. rewrite Hst. by eapply async_cont_op.
    + apply async_cont_done in Ef. destruct (multi_statements _); [|discriminate E].
      apply outcome_bind_inv in E as (c1 & E1 & E). injection E as <-.
      destruct (handlers_establish n) as (_ & _ & _ & Hnext). eapply Hnext; [|exact E1].
      apply clear_put; done.
Qed.
End server.

(** ** Reachable connections *)

(** What a service and the event loop do to a connection in use: connect it, add a query, abort a
    query, ask for its end, and handle a read event that leaves it open. *)
Inductive conn_step `{Server} (c : mariadb_conn) : mariadb_conn -> Prop :=
  | step_connect n fd list_ok cb c' :
      mariadb_async_handle_connect n fd list_ok cb c = Done (0, c') -> conn_step c c'
  | step_query n id str rcb wcb ecb c' :
      mariadb_async_handle_add_query n (Some (mariadb_query_init id str rcb wcb ecb)) c = Done (0, c') ->
      conn_step c c'
  | step_abort i q :
      c_queries c !! i = Some q ->
      conn_step c (with_queries (<[i := mariadb_query_abort q]> (c_queries c)) c)
  | step_disconnect cb : conn_step c (mariadb_async_handle_disconnect cb c)
  | step_read n c' : conn_on_read n c = Done (DUDA_EVENT_OWNED, c') -> conn_step c c'.

Lemma add_query_good `{Server} n q c c' : query_ok q -> good_conn c ->
  mariadb_async_handle_add_query n (Some q) c = Done (0, c') -> good_conn c'.
Proof.
  intros Hq [Ha Hqs] E. unfold mariadb_async_handle_add_query in E.
  assert (queries_ok (with_queries (c_queries c ++ [q]) c)) as Hc by (apply Forall_app; by repeat constructor).
  case_decide as Hs; [|injection E as <-; by split].
  apply outcome_bind_inv in E as (c1 & E1 & E). injection E as <-.
  eapply handle_query_establishes; [|exact E1]. split; [|done]. unfold agrees in Ha. cbn in Hs |- *. by rewrite Ha, Hs.
Qed.

Lemma connect_good `{Server} n fd list_ok cb c c' : good_conn c ->
  mariadb_async_handle_connect n fd list_ok cb c = Done (0, c') -> good_conn c'.
Proof.
  intros [Ha Hq] E. unfold mariadb_async_handle_connect in E.
  assert (forall d, c_mysql (if c_connect_cb c then c else with_connect_cb d c) = c_mysql c /\
    c_state (if c_connect_cb c then c else with_connect_cb d c) = c_state c /\
    c_queries (if c_connect_cb c then c else with_connect_cb d c) = c_queries c) as Hsame by by destruct (c_connect_cb c).
  destruct (Hsame cb) as (Em & Es & Eq). revert E Em Es Eq.
  generalize (if c_connect_cb c then c else with_connect_cb cb c) as c1. intros c1 E Em Es Eq.
  assert (queries_ok c1) as Hq1 by (unfold queries_ok; by rewrite Eq).
  case_decide as Hst; [|injection E as <-; split; [unfold agrees; by rewrite Em, Es|done]].
  destruct (mysql_real_connect_start (c_mysql c1)) as [m|[|] m] eqn:Ef.
  - apply async_start_suspended in Ef. destruct (0 <? my_errno m); [done|]. destruct list_ok; [|done].
    rewrite decide_False in E by done. injection E as <-. by split.
  - apply async_start_finished in Ef. destruct list_ok; [|done]. cbn [c_connect_cb with_state] in E.
    match type of E with (if decide (c_state ?x = _) then _ else _) = _ => set (c2 := x) in E end.
    assert (clear_conn c2 /\ c_state c2 = CONN_STATE_CONNECTED) as [Hc2 Hs2]
      by (clear E; subst c2; cbn [c_connect_cb with_mysql]; unfold callback; destruct (c_connect_cb c1); repeat split; done).
    rewrite decide_True in E by done. apply outcome_bind_inv in E as (c3 & E1 & E). injection E as <-.
    by eapply handle_query_establishes; [|exact E1].
  - by destruct (0 <? my_errno m).
Qed.

Lemma conn_step_good `{Server} c c' : good_conn c -> conn_step c c' -> good_conn c'.
Proof.
  intros Hc Hstep. destruct Hstep as [n fd lo cb c' E|n id str rcb wcb ecb c' E|i q Hi|cb|n c' E].
  - by eapply connect_good.
  - by eapply add_query_good; [| |exact E].
  - destruct Hc as [Ha Hq]. split; [done|]. apply Forall_insert; [done|].
    exact (Forall_lookup_1 _ _ _ _ Hq Hi).
  - unfold mariadb_async_handle_disconnect.
    assert (good_conn (if c_disconnect_cb c then c else with_disconnect_cb cb c)) as Hc1 by by destruct (c_disconnect_cb c).
    case_decide; [by apply release_good|done].
  - by eapply on_read_good.
Qed.

(** C26. The state of a connection names the call that is suspended in the client library, in every
    connection reachable from a new one by connecting, adding and aborting queries, asking for its
    end and read events, whatever the server sends and however late: the read handler always
    continues the call that was suspended, and a connection that is not waiting has none. *)
Theorem conn_state_names_call `{Server} greeting flag c :
  rtc conn_step (mariadb_conn_create greeting flag) c -> my_suspended (c_mysql c) = state_op (c_state c).
Proof.
  intros Hr. assert (good_conn c) as [Ha _]; [|done].
  remember (mariadb_conn_create greeting flag) as c0 eqn:E0.
  assert (good_conn c0) as H0 by (subst c0; split; [done|constructor]). clear E0.
  induction Hr as [c0|c0 c1 c2 Hstep _ IH]; [done|]. by eapply IH, conn_step_good.
Qed.

Lemma conn_state_names_call_witness :
  exists c, @mariadb_async_handle_connect {| respond := fun _ _ => [] |} 5 7 true true (mariadb_conn_create (2%nat, 0) 0) = Done (0, c) /\
    c_state c = CONN_STATE_CONNECTING /\ my_suspended (c_mysql c) = Some OpConnect.
Proof.
  eexists. split; [reflexivity|]. split; [reflexivity|].
  apply (@conn_state_names_call {| respond := fun _ _ => [] |} (2%nat, 0) 0).
  eapply rtc_l; [|apply rtc_refl]. by apply (step_connect _ 5 7 true true).
Defined.

(** ** Loops that continue without a suspended call *)

(** An error in a later statement of a query that had to be waited for: the handler calls the
    continuation again, which answers with an error each time, for ever. *)
Lemma next_error_diverges fuel c : my_suspended (c_mysql c) = None ->
  (exists q, deref (c_current c) c = Done q) -> on_read_next fuel c = NoFuel.
Proof.
  revert c; induction fuel as [|fuel IH]; intros c Hs [q Eq]; [done|]. cbn [on_read_next]. rewrite Eq.
  cbn [mbind outcome_bind]. unfold mysql_next_result_cont, async_cont. rewrite Hs.
  change (1 =? -1) with false. change (1 =? 0) with false. cbv iota. apply IH; [done|].
  unfold deref in *. cbn. destruct (c_current c) as [id|]; [|done].
  destruct (find_query id (c_queries c)) as [q'|] eqn:Ef; [|done]. injection Eq as ->.
  assert (q_id q = id) as Hid.
  { clear -Ef. induction (c_queries c) as [|q' l IHl]; cbn in Ef; [done|]. case_decide; [congruence|auto]. }
  exists (q_set_error 1 q). assert (find_query id (update_query (q_set_error 1 q) (c_queries c)) = Some (q_set_error 1 q)) as ->; [|done].
  clear -Ef Hid. induction (c_queries c) as [|q' l IHl]; cbn in *; [done|].
  case_decide as Hd; [|]; cbn.
  - rewrite decide_True by congruence. cbn. by rewrite decide_True.
  - rewrite decide_False by congruence. cbn. rewrite decide_False by done. by apply IHl.
Qed.

(** A read event for a descriptor runs the handler of the first connection that has it; for a descriptor no
    connection has it runs the handler of the last connection of the list, and only an empty list
    is answered with a close. *)
Theorem on_read_dispatch `{Server} n fd l :
  match list_find (fun c => c_fd c = fd) l with
  | Some (i, c) => mariadb_on_read n fd l = ('(r, c') ← conn_on_read n c; Done (r, store_conn i c' l))
  | None => match last l with
            | Some c => mariadb_on_read n fd l =
                        ('(r, c') ← conn_on_read n c; Done (r, store_conn (length l - 1) c' l))
            | None => mariadb_on_read n fd l = Done (DUDA_EVENT_CLOSE, l)
            end
  end.
Proof.
  pose proof (mariadb_get_conn_spec fd l) as Hg. unfold mariadb_on_read.
  destruct (list_find _ l) as [[i c]|]; [destruct Hg as [-> Hi]; by rewrite Hi|].
  destruct (last l) as [c|]; [destruct Hg as [-> Hi]; by rewrite Hi|by rewrite Hg].
Qed.
