(* ===== verification/MariadbDthread.v ===== *)
(** * Queries of packages/mariadb inside a cooperative thread

    packages/mariadb/dthread.c: the same connection, used from a thread that gives up control when a
    call is suspended and is resumed by the event handlers.  The resumptions of the thread are
    a list of [wake]s, data on the socket or an error; a function whose list is exhausted is
    [Blocked] in its [yield].

    Here every wait continues the call that was started, so that the rows of a result
    arrive complete and in order however late their packets are ([rows_delivered]). *)

From S2P Require Import Prelude MysqlClient MariadbAsync.

(** ** Threads *)

(** [mariadb_dthread_on_read] and [_on_write] resume the thread; [_on_error], [_on_close] and
    [_on_timeout] set the state to CONN_STATE_ERROR first. *)
Inductive wake := WakeData | WakeError.

Definition wake_conn (w : wake) (c : mariadb_conn) : mariadb_conn :=
  match w with WakeData => c | WakeError => with_state CONN_STATE_ERROR c end.

Inductive thread (A : Type) : Type :=
  | Blocked (c : mariadb_conn)
  | Returns (a : A) (c : mariadb_conn) (ws : list wake)
  | Faulted (f : fault).
Arguments Blocked {A} c.
Arguments Returns {A} a c ws.
Arguments Faulted {A} f.

(** The [while (1)] that follows a suspended call: it starts in [dthread->yield()], and at each
    resumption looks for an error and continues the call. *)
Fixpoint wait_loop {A B} (st : mariadb_conn_state_t) (cont : MYSQL -> call A)
    (on_error : mariadb_conn -> list wake -> thread B) (on_done : A -> mariadb_conn -> list wake -> thread B)
    (ws : list wake) (c : mariadb_conn) : thread B :=
  match ws with
  | [] => Blocked c
  | w :: ws' =>
      let c := wake_conn w c in
      if decide (c_state c = CONN_STATE_ERROR) then on_error c ws'
      else match cont (c_mysql c) with
           | Suspended m => wait_loop st cont on_error on_done ws' (with_state st (with_mysql m c))
           | Finished a m => on_done a (with_mysql m c) ws'
           end
  end.

(** ** dthread.c *)

Record mariadb_result := mk_result { dr_fields : list string; dr_result : MYSQL_RES }.

Definition mariadb_dthread_disconnect (c : mariadb_conn) : mariadb_conn :=
  if c_is_pooled c then with_fate Reclaimed (with_state CONN_STATE_CONNECTED c)
  else mariadb_conn_free c.

(** An error seen in a wait: the message, and the connection is closed even if it is pooled. *)
Definition fail_conn (l : log_message) (c : mariadb_conn) : mariadb_conn :=
  mariadb_dthread_disconnect (with_pooled false (emit [EvLog l] c)).

Definition mariadb_dthread_connect (fd : Z) (list_ok : bool) (ws : list wake) (c : mariadb_conn) : thread Z :=
  if decide (c_state c = CONN_STATE_CLOSED) then
    let set_fd c := mk_conn fd (c_client_flag c) (c_mysql c) (c_state c) (c_connect_cb c)
      (c_disconnect_cb c) (c_current c) (c_disconnect_on_finish c) (c_is_pooled c) (c_queries c)
      (c_event c) (c_fate c) (c_out c) in
    match mysql_real_connect_start (c_mysql c) with
    | Suspended m =>
        let c := with_mysql m c in
        if 0 <? my_errno m then Returns (-1) (mariadb_conn_free (emit [EvLog LogConnect] c)) ws
        else if list_ok then
          wait_loop CONN_STATE_CONNECTING mysql_real_connect_cont
            (fun c ws => Returns (-1) (fail_conn LogConnect c) ws)
            (fun (ret : bool) c ws =>
               if ret then Returns 0 (with_state CONN_STATE_CONNECTED c) ws
               else Returns (-1) (fail_conn LogConnect c) ws)
            ws (with_event EventRead (with_state CONN_STATE_CONNECTING (set_fd c)))
        else Returns (-1) (mariadb_conn_free (set_fd c)) ws
    | Finished false m => Returns (-1) (mariadb_conn_free (emit [EvLog LogConnect] (with_mysql m c))) ws
    | Finished true m =>
        let c := with_state CONN_STATE_CONNECTED (set_fd (with_mysql m c)) in
        if list_ok then Returns 0 (with_event EventRead c) ws
        else Returns (-1) (mariadb_conn_free c) ws
    end
  else Returns 0 c ws.

Definition mariadb_dthread_result_free (r : mariadb_result) (ws : list wake) (c : mariadb_conn) : thread unit :=
  match mysql_free_result_start (dr_result r) (c_mysql c) with
  | Suspended m =>
      wait_loop CONN_STATE_RESULT_FREEING (mysql_free_result_cont (dr_result r))
        (fun c ws => Returns tt (fail_conn LogFree c) ws)
        (fun _ c ws => Returns tt (with_state CONN_STATE_RESULT_FREED c) ws)
        ws (with_state CONN_STATE_RESULT_FREEING (with_mysql m c))
  | Finished _ m => Returns tt (with_state CONN_STATE_RESULT_FREED (with_mysql m c)) ws
  end.

(** [mariadb_dthread_handle_result], and the release of the record when there is no result. *)
Definition mariadb_dthread_handle_result (c : mariadb_conn) : option mariadb_result * mariadb_conn :=
  let '(r, m) := mysql_use_result (c_mysql c) in
  ((fun r => mk_result (rs_names r) r) <$> r, with_mysql m c).

(** The end of a query: an error, or its result. *)
Definition query_done (error : Z) (c : mariadb_conn) (ws : list wake) : thread (option mariadb_result) :=
  if error =? 0 then
    let '(r, c) := mariadb_dthread_handle_result (with_state CONN_STATE_QUERIED c) in Returns r c ws
  else Returns None (emit [EvLog LogQuery] c) ws.

Definition mariadb_dthread_query `{Server} (query_str : string) (ws : list wake) (c : mariadb_conn)
    : thread (option mariadb_result) :=
  match mysql_real_query_start (c_mysql c) query_str with
  | Suspended m =>
      wait_loop CONN_STATE_QUERYING mysql_real_query_cont
        (fun c ws => Returns None (fail_conn LogQuery c) ws) query_done
        ws (with_state CONN_STATE_QUERYING (with_mysql m c))
  | Finished error m => query_done error (with_mysql m c) ws
  end.

(** A fetch that is finished: the row, or [NULL] with [*error], after the release of the
    result. *)
Definition fetch_done (r : mariadb_result) (f : option row * MYSQL_RES) (c : mariadb_conn) (ws : list wake)
    : thread (option row * Z * mariadb_result) :=
  let c := with_state CONN_STATE_ROW_FETCHED c in
  let r := mk_result (dr_fields r) f.2 in
  match f.1 with
  | Some rw => Returns (Some rw, 0, r) c ws
  | None =>
      let '(error, c) := if 0 <? my_errno (c_mysql c) then (1, emit [EvLog LogRow] c) else (0, c) in
      match mariadb_dthread_result_free r ws c with
      | Blocked c => Blocked c
      | Faulted f => Faulted f
      | Returns _ c ws => Returns (None, error, r) c ws
      end
  end.

(** The row, [*error] (written only when there is no row) and the result. *)
Definition mariadb_dthread_get_row (r : mariadb_result) (ws : list wake) (c : mariadb_conn)
    : thread (option row * Z * mariadb_result) :=
  match mysql_fetch_row_start (dr_result r) (c_mysql c) with
  | Suspended m =>
      wait_loop CONN_STATE_ROW_FETCHING (mysql_fetch_row_cont (dr_result r))
        (fun c ws =>
           match mariadb_dthread_result_free r ws (emit [EvLog LogQuery] c) with
           | Blocked c => Blocked c
           | Faulted f => Faulted f
           | Returns _ c ws =>
               (* the release may have closed the connection *)
               match c_fate c with
               | Freed => Faulted UseAfterFree
               | _ => Returns (None, 1, r) (mariadb_dthread_disconnect (with_pooled false c)) ws
               end
           end)
        (fetch_done r)
        ws (with_state CONN_STATE_ROW_FETCHING (with_mysql m c))
  | Finished f m => fetch_done r f (with_mysql m c) ws
  end.

(** How a service reads a result: [get_row] until there is no row. *)
Fixpoint get_rows (n : nat) (r : mariadb_result) (ws : list wake) (c : mariadb_conn) : thread (list row * Z) :=
  match n with
  | O => Returns ([], 0) c ws
  | S n =>
      match mariadb_dthread_get_row r ws c with
      | Blocked c => Blocked c
      | Faulted f => Faulted f
      | Returns (None, error, _) c ws => Returns ([], error) c ws
      | Returns (Some rw, _, r) c ws =>
          match get_rows n r ws c with
          | Blocked c => Blocked c
          | Faulted f => Faulted f
          | Returns (rws, error) c ws => Returns (rw :: rws, error) c ws
          end
      end
  end.

Definition query_rows `{Server} (n : nat) (s : string) (ws : list wake) (c : mariadb_conn)
    : thread (option (list string * list row * Z)) :=
  match mariadb_dthread_query s ws c with
  | Blocked c => Blocked c
  | Faulted f => Faulted f
  | Returns None c ws => Returns None c ws
  | Returns (Some r) c ws =>
      match get_rows n r ws c with
      | Blocked c => Blocked c
      | Faulted f => Faulted f
      | Returns (rws, error) c ws => Returns (Some (dr_fields r, rws, error)) c ws
      end
  end.

(** ** Properties *)

Lemma with_same_state c st : c_state c = st -> with_state st c = c.
Proof. intros <-. by destruct c. Qed.

(** A call that is suspended [d] more times is continued by [d + 1] resumptions. *)
Lemma wait_loop_data {A B} st cont on_error (on_done : A -> mariadb_conn -> list wake -> thread B) (f : nat -> MYSQL) a m :
  st <> CONN_STATE_ERROR -> (forall d, cont (f (S d)) = Suspended (f d)) -> cont (f 0%nat) = Finished a m ->
  forall d ws c, c_state c = st ->
  wait_loop st cont on_error on_done (replicate (S d) WakeData ++ ws) (with_mysql (f d) c) = on_done a (with_mysql m c) ws.
Proof.
  intros Hst HS H0. induction d as [|d IH]; intros ws c Hc; cbn [replicate app wait_loop wake_conn];
    cbn [c_state with_mysql c_mysql]; rewrite decide_False by congruence.
  - by rewrite H0.
  - rewrite HS. rewrite (with_same_state (with_mysql _ (with_mysql _ c))) by done. by apply (IH ws c).
Qed.

Section rows.
Context (g : nat * Z) (names : list string).
Local Abbreviation res := (mk_res true false names).
Local Abbreviation fetching e b f l n su := (mk_mysql MYSQL_STATUS_USE_RESULT e b f l n su g).

(** A fetch finishes after as many resumptions as its packet has delays. *)
Lemma get_row_done fs e b f p l n a m : forall d ws c, 
  (forall su, mysql_fetch_row res (fetching e b f ((0%nat, p) :: l) n su) = Finished a (m su)) ->
  (forall su, set_suspended None (m su) = m None) ->
  c_mysql c = fetching e b f ((d, p) :: l) n None ->
  exists st, mariadb_dthread_get_row (mk_result fs res) (replicate d WakeData ++ ws) c
    = fetch_done (mk_result fs res) a (with_mysql (m None) (with_state st c)) ws.
Proof.
  intros d ws c Hfin Hm Hc. unfold mariadb_dthread_get_row. rewrite Hc. cbn [mysql_fetch_row_start dr_result rs_handle].
  destruct d as [|d].
  - exists (c_state c). rewrite Hfin. cbn [async_start]. rewrite Hm. by rewrite with_same_state.
  - exists CONN_STATE_ROW_FETCHING. rewrite fetch_delayed by done. cbn [async_start].
    change (with_state CONN_STATE_ROW_FETCHING (with_mysql (set_suspended (Some OpFetch) (fetching e b f ((d, p) :: l) n None)) c))
      with (with_mysql (fetching e b f ((d, p) :: l) n (Some OpFetch)) (with_state CONN_STATE_ROW_FETCHING c)).
    apply (wait_loop_data CONN_STATE_ROW_FETCHING _ _ _
      (fun d => fetching e b f ((d, p) :: l) n (Some OpFetch)) a (m None)); [done| | |done].
    + intros d'. unfold mysql_fetch_row_cont. rewrite (async_cont_suspended _ OpFetch) by done.
      by rewrite fetch_delayed.
    + unfold mysql_fetch_row_cont. rewrite (async_cont_suspended _ OpFetch) by done. rewrite Hfin. cbn. by rewrite Hm.
Qed.

Fixpoint rows_delay (rows : list (nat * row)) : nat :=
  match rows with [] => 0 | r :: rows' => r.1 + rows_delay rows' end.

(** The value of [*error] after the last row. *)
Definition end_status (fin : option Z) : Z := match fin with None => 0 | Some _ => 1 end.

Lemma get_rows_done fs b more fin l n d_end ws rows : (forall e, fin = Some e -> 0 < e) ->
  forall k c, (length rows < k)%nat ->
  c_mysql c = fetching 0 b None (row_packets rows ++ (d_end, end_packet more fin) :: l) n None ->
  exists c', get_rows k (mk_result fs res) (replicate (rows_delay rows + d_end) WakeData ++ ws) c
    = Returns (rows.*2, end_status fin) c' ws /\ my_in (c_mysql c') = l /\ c_state c' = CONN_STATE_RESULT_FREED.
Proof.
  intros He. induction rows as [|[d rw] rows IH]; intros k c Hk Hc; (destruct k as [|k]; [cbn in Hk; lia|]).
  - cbn [rows_delay Nat.add]. cbn [get_rows].
    destruct (get_row_done fs 0 b None (end_packet more fin) l n (None, mk_res false true names)
      (fun su => mk_mysql MYSQL_STATUS_READY (end_error fin 0) (end_more fin more) None l n su g) d_end ws c) as [st ->];
      [intros su; apply fetch_last|done|done|].
    unfold fetch_done. cbn [fst snd c_mysql with_mysql with_state my_errno].
    destruct fin as [e|]; cbn [end_error].
    + rewrite (proj2 (Z.ltb_lt 0 e)) by auto. eexists. by split_and!.
    + eexists. by split_and!.
  - cbn [rows_delay fst]. cbn [get_rows]. rewrite <- Nat.add_assoc, replicate_add, <- app_assoc.
    destruct (get_row_done fs 0 b None (PRow rw) (row_packets rows ++ (d_end, end_packet more fin) :: l) n (Some rw, res)
      (fun su => fetching 0 b None (row_packets rows ++ (d_end, end_packet more fin) :: l) n su) d
      (replicate (rows_delay rows + d_end) WakeData ++ ws) c) as [st ->];
      [intros su; apply fetch_row|done|done|].
    cbn [fetch_done fst snd].
    edestruct (IH k) as (c' & E & Hin & Hst); [cbn in Hk; lia| |].
    2: { rewrite E. by exists c'. }
    done.
Qed.
End rows.

(** C28. Inside a cooperative thread a query returns its column names, and reading its result until there is no
    row gives all its rows in order, then the error status of its end, for every delay of every
    packet, once the thread has been resumed as many times as the packets have delays. *)
Theorem rows_delivered `{Server} s ws c d names rows d_end fin k n e f g :
  respond n s = [RSet d names rows d_end fin] -> (forall e, fin = Some e -> 0 < e) -> (length rows < k)%nat ->
  c_mysql c = mk_mysql MYSQL_STATUS_READY e false f [] n None g ->
  exists c', query_rows k s (replicate (d + (rows_delay rows + d_end)) WakeData ++ ws) c
    = Returns (Some (names, rows.*2, end_status fin)) c' ws /\
    my_in (c_mysql c') = [] /\ c_state c' = CONN_STATE_RESULT_FREED.
Proof.
  intros Hr He Hk Hc. set (rest := replicate (rows_delay rows + d_end) WakeData ++ ws).
  assert (exists st, mariadb_dthread_query s (replicate d WakeData ++ rest) c
    = query_done 0 (with_mysql (header_mysql g (RSet d names rows d_end fin) [] 0 false (S n) None) (with_state st c)) rest)
    as [st E].
  { unfold mariadb_dthread_query. rewrite Hc, real_query_ready, Hr. destruct d as [|d].
    - exists (c_state c). rewrite read_header by done. cbn [async_start]. by rewrite header_suspended, with_same_state.
    - exists CONN_STATE_QUERYING. rewrite (read_delayed _ _ _ _ _ _ _ _ _ d) by done. cbn [async_start tick].
      set (wait := fun d => mk_mysql MYSQL_STATUS_READY 0 false f (packets [RSet d names rows d_end fin]) (S n) (Some OpQuery) g).
      change (with_state CONN_STATE_QUERYING (with_mysql _ c)) with (with_mysql (wait d) (with_state CONN_STATE_QUERYING c)).
      apply (wait_loop_data CONN_STATE_QUERYING _ _ _ wait); [done| | |done].
      + intros d'. unfold mysql_real_query_cont, wait. rewrite (async_cont_suspended _ OpQuery) by done.
        by rewrite (read_delayed _ _ _ _ _ _ _ _ _ d').
      + unfold mysql_real_query_cont, wait. rewrite (async_cont_suspended _ OpQuery) by done.
        rewrite read_header by done. cbn [async_start]. by rewrite header_suspended. }
  rewrite replicate_add, <- app_assoc. unfold query_rows. fold rest. rewrite E.
  unfold query_done, mariadb_dthread_handle_result. change (0 =? 0) with true. cbv iota.
  cbn [c_mysql with_state with_mysql]. rewrite use_result_set. cbn [fmap option_fmap option_map rs_names].
  edestruct (get_rows_done g names names false false fin [] (S n) d_end ws rows He k) as (c' & E' & Hin & Hst);
    [done| |]; [|fold rest in E'; rewrite E'; by exists c'].
  done.
Qed.

Lemma rows_delivered_witness :
  let server : Server := {| respond := fun _ _ => [RSet 2 ["id"%string] [(1%nat, [Some "1"%string]); (3%nat, [None])] 1 None] |} in
  exists c', @query_rows server 5 "select" (replicate 7 WakeData)
      (with_state CONN_STATE_CONNECTED (mariadb_conn_create (0%nat, 0) 0))
    = Returns (Some (["id"%string], [[Some "1"%string]; [None]], 0)) c' [] /\ c_state c' = CONN_STATE_RESULT_FREED.
Proof.
  destruct (@rows_delivered {| respond := fun _ _ => [RSet 2 ["id"%string] [(1%nat, [Some "1"%string]); (3%nat, [None])] 1 None] |}
    "select" [] (with_state CONN_STATE_CONNECTED (mariadb_conn_create (0%nat, 0) 0)) 2 ["id"%string]
    [(1%nat, [Some "1"%string]); (3%nat, [None])] 1 None 5 0 0 None (0%nat, 0)) as (c' & E & _ & Hst);
    [reflexivity|done|cbn; lia|reflexivity|].
  exists c'. exact (conj E Hst).
Defined.

(** An error event while a row is awaited, and another while its result is released: the release
    closes the connection, and the fetch goes on to use it. *)
Lemma second_error_uses_freed names r c b l n g rw d :
  c_is_pooled c = false -> dr_result r = mk_res true false names ->
  c_mysql c = mk_mysql MYSQL_STATUS_USE_RESULT 0 b None ((S (S d), PRow rw) :: l) n None g ->
  mariadb_dthread_get_row r [WakeError; WakeError] c = Faulted UseAfterFree.
Proof. intros Hp Hr Hc. unfold mariadb_dthread_get_row. rewrite Hc, Hr. cbn. unfold mariadb_dthread_result_free. by rewrite Hr. Qed.

(** ** Events *)

(** The body the handlers share: the result, the connections, and the position of the one whose thread is resumed. *)
Definition dthread_event (w : wake) (ret : event_ret) (fd : Z) (l : list mariadb_conn) : event_ret * list mariadb_conn * option nat :=
  match mariadb_get_conn fd l with
  | None => (DUDA_EVENT_CLOSE, l, None)
  | Some i => (ret, alter (wake_conn w) i l, Some i)
  end.

Definition mariadb_dthread_on_read := dthread_event WakeData DUDA_EVENT_OWNED.
Definition mariadb_dthread_on_write := dthread_event WakeData DUDA_EVENT_OWNED.
Definition mariadb_dthread_on_error := dthread_event WakeError DUDA_EVENT_OWNED.
Definition mariadb_dthread_on_close := dthread_event WakeError DUDA_EVENT_CLOSE.
Definition mariadb_dthread_on_timeout := dthread_event WakeError DUDA_EVENT_OWNED.

Definition mariadb_dthread_get_fields (r : mariadb_result) : list string := dr_fields r.
Definition mariadb_dthread_get_field_num (r : mariadb_result) : Z := Z.of_nat (length (dr_fields r)).

(** An event of a descriptor wakes the thread of the first connection that has it, and no other connection changes. *)
Lemma dthread_event_own w ret fd l i c : list_find (fun c => c_fd c = fd) l = Some (i, c) ->
  exists l', dthread_event w ret fd l = (ret, l', Some i) /\ l' !! i = Some (wake_conn w c) /\ forall k, k <> i -> l' !! k = l !! k.
Proof.
  intros Ef. pose proof (mariadb_get_conn_spec fd l) as Hg. rewrite Ef in Hg. destruct Hg as [Hg Hi].
  exists (alter (wake_conn w) i l). unfold dthread_event. rewrite Hg. split_and!; [done|by rewrite list_lookup_alter_eq, Hi|].
  intros k Hk. by rewrite list_lookup_alter_ne by congruence.
Qed.

(** The close of a descriptor that no connection has any more fails the last connection of the list. *)
Lemma dthread_event_stranger fd l c : Forall (fun c => c_fd c <> fd) l -> last l = Some c ->
  exists l', mariadb_dthread_on_close fd l = (DUDA_EVENT_CLOSE, l', Some (length l - 1)%nat) /\ last l' = Some (with_state CONN_STATE_ERROR c).
Proof.
  intros Hl Hlast. pose proof (mariadb_get_conn_spec fd l) as Hg. rewrite (proj2 (list_find_None _ l) Hl), Hlast in Hg. destruct Hg as [Hg Hi].
  exists (alter (wake_conn WakeError) (length l - 1)%nat l). unfold mariadb_dthread_on_close, dthread_event. rewrite Hg. split; [done|].
  rewrite last_lookup, length_alter. replace (pred (length l)) with (length l - 1)%nat by lia. by rewrite list_lookup_alter_eq, Hi.
Qed.
