(* ===== verification/MariadbPool.v ===== *)
(** * The connection pool of packages/mariadb

    packages/mariadb/pool.c over the connections of MariadbAsync.v.  The pools of a worker
    are a map from keys (the [duda_global_t] they are stored under) to a record of the two
    counters and the list of free connections; the configurations are the global list.
    [pool_invariant] relates the counters to the connections over every sequence of operations,
    with the connections that were lost counted apart, since the code never gives back their
    place. *)

From stdpp Require Import gmap.
From S2P Require Import Prelude MysqlClient MariadbAsync MariadbDthread.

Definition MARIADB_POOL_DEFAULT_SIZE : nat := 1.
Definition MARIADB_POOL_DEFAULT_MIN_SIZE : Z := 2.
Definition MARIADB_POOL_DEFAULT_MAX_SIZE : Z := 8.

(** The parameters of the connections, without the credentials, which the pool only copies. *)
Record mariadb_pool_config := mk_pool_config {
  pc_key : nat;
  pc_client_flag : Z;
  pc_use_ssl : bool;
  pc_min_size : Z;
  pc_max_size : Z
}.

Record mariadb_pool := mk_pool {
  p_size : Z;
  p_free_size : Z;
  p_config : mariadb_pool_config;
  p_free_conns : list mariadb_conn
}.

(** ** Configurations *)

(** The search stops at the key, and leaves the last configuration visited when none has it. *)
Fixpoint get_config_from (key : nat) (config : option mariadb_pool_config) (l : list mariadb_pool_config)
    : option mariadb_pool_config :=
  match l with
  | [] => config
  | c :: l' => if decide (pc_key c = key) then Some c else get_config_from key (Some c) l'
  end.

Definition mariadb_pool_get_config (key : nat) (l : list mariadb_pool_config) : option mariadb_pool_config :=
  get_config_from key None l.

Definition mariadb_pool_create (alloc_ok : bool) (key : nat) (min_size max_size client_flag : Z)
    (l : list mariadb_pool_config) : Z * list mariadb_pool_config :=
  if alloc_ok then
    (0, l ++ [mk_pool_config key client_flag false
                (if min_size =? 0 then MARIADB_POOL_DEFAULT_MIN_SIZE else min_size)
                (if max_size =? 0 then MARIADB_POOL_DEFAULT_MAX_SIZE else max_size)])
  else (-1, l).

Definition use_ssl (c : mariadb_pool_config) : mariadb_pool_config :=
  mk_pool_config (pc_key c) (pc_client_flag c) true (pc_min_size c) (pc_max_size c).

(** The configuration that is changed is the one the search finds. *)
Fixpoint update_config (key : nat) (l : list mariadb_pool_config) : list mariadb_pool_config :=
  match l with
  | [] => []
  | [c] => [use_ssl c]
  | c :: l' => if decide (pc_key c = key) then use_ssl c :: l' else c :: update_config key l'
  end.

Definition mariadb_pool_set_ssl (key : nat) (l : list mariadb_pool_config) : Z * list mariadb_pool_config :=
  match mariadb_pool_get_config key l with
  | None => (-1, l)
  | Some _ => (0, update_config key l)
  end.

(** ** Connections *)

(** [created] tells for each connection whether [mariadb_conn_create] succeeds, with the answer of the server
    to its connection attempt. *)
Fixpoint mariadb_pool_spawn_conn (created : list (nat * Z)) (size : nat) (p : mariadb_pool) {struct size} : mariadb_pool :=
  match size, created with
  | S size', g :: created' =>
      let conn := with_pooled true (mariadb_conn_create g (pc_client_flag (p_config p))) in
      mariadb_pool_spawn_conn created' size'
        (mk_pool (p_size p + 1) (p_free_size p + 1) (p_config p) (p_free_conns p ++ [conn]))
  | _, _ => p
  end.

(** One turn of the release loop: the first free connection is closed.  [None]: there is
    none, and the macro reads the head of the list as a connection. *)
Definition release_one (is_async : bool) (p : mariadb_pool) : res (mariadb_conn * mariadb_pool) :=
  match p_free_conns p with
  | [] => Fault OutOfBounds
  | c :: l =>
      let c := with_pooled false c in
      let c := if is_async then mariadb_async_handle_release c true else mariadb_dthread_disconnect c in
      Ret (c, mk_pool (p_size p - 1) (p_free_size p - 1) (p_config p) l)
  end.

Fixpoint mariadb_pool_release_conn (is_async : bool) (size : nat) (p : mariadb_pool)
    : res (list mariadb_conn * mariadb_pool) :=
  match size with
  | O => Ret ([], p)
  | S size' =>
      '(c, p) ← release_one is_async p;
      '(cs, p) ← mariadb_pool_release_conn is_async size' p;
      Ret (c :: cs, p)
  end.

Definition must_shrink (p : mariadb_pool) : bool :=
  (p_size p <? p_free_size p * 2) && (MARIADB_POOL_DEFAULT_MIN_SIZE <? p_size p).

(** The shrinking loop; [None] when it does not end within the fuel. *)
Fixpoint shrink (fuel : nat) (is_async : bool) (p : mariadb_pool) : option (res (list mariadb_conn * mariadb_pool)) :=
  match fuel with
  | O => None
  | S fuel =>
      if must_shrink p then
        match mariadb_pool_release_conn is_async MARIADB_POOL_DEFAULT_SIZE p with
        | Fault f => Some (Fault f)
        | Ret (cs, p) =>
            match shrink fuel is_async p with
            | Some (Ret (cs', p)) => Some (Ret (cs ++ cs', p))
            | o => o
            end
        end
      else Some (Ret ([], p))
  end.

(** The loop ends within [p_size] turns: see [shrink_ends]. *)
Definition run_shrink (is_async : bool) (p : mariadb_pool) : option (res (list mariadb_conn * mariadb_pool)) :=
  shrink (S (Z.to_nat (p_size p))) is_async p.

(** [mariadb_pool_reclaim_conn]; the connections closed by the shrinking are in the result. *)
Definition mariadb_pool_reclaim_conn (c : mariadb_conn) (p : mariadb_pool)
    : option (res (list mariadb_conn * mariadb_pool)) :=
  let c := with_finish false (with_disconnect_cb false (with_connect_cb false c)) in
  run_shrink true (mk_pool (p_size p) (p_free_size p + 1) (p_config p) (p_free_conns p ++ [c])).

Definition mariadb_dthread_pool_reclaim_conn (c : mariadb_conn) (p : mariadb_pool)
    : option (res (list mariadb_conn * mariadb_pool)) :=
  run_shrink false (mk_pool (p_size p) (p_free_size p + 1) (p_config p)
                      (p_free_conns p ++ [with_state CONN_STATE_CONNECTED c])).

(** ** Taking a connection *)

(** The pool of the worker, created at its first use. *)
Definition pool_of (alloc_ok : bool) (key : nat) (configs : list mariadb_pool_config)
    (pools : gmap nat mariadb_pool) : option mariadb_pool :=
  match pools !! key with
  | Some p => Some p
  | None =>
      if alloc_ok then
        (fun config => mk_pool 0 0 config []) <$> mariadb_pool_get_config key configs
      else None
  end.

(** What a request for a connection leads to: no connection, one outside of the pool, or
    one of the pool. *)
Inductive pool_conn :=
  | NoConn
  | Unpooled (c : mariadb_conn)
  | Pooled (c : mariadb_conn).

(** The choice of the connection, before it is connected. *)
Definition pool_take (created : list (nat * Z)) (p : mariadb_pool) : pool_conn * mariadb_pool :=
  let take p :=
    match p_free_conns p with
    | [] => (NoConn, p)
    | c :: l => (Pooled c, mk_pool (p_size p) (p_free_size p - 1) (p_config p) l)
    end in
  match p_free_conns p with
  | _ :: _ => take p
  | [] =>
      if p_size p <? pc_max_size (p_config p)
      then let p := mariadb_pool_spawn_conn created MARIADB_POOL_DEFAULT_SIZE p in
           if p_free_size p =? 0 then (NoConn, p) else take p
      else match created with
           | [] => (NoConn, p)
           | g :: _ => (Unpooled (mariadb_conn_create g (pc_client_flag (p_config p))), p)
           end
  end.

(** [mariadb_async_pool_get_conn].  [fd] and [list_ok] are the answers
    [mariadb_async_handle_connect] needs; [cb] tells whether the caller gives a callback. *)
Definition mariadb_async_pool_get_conn `{Server} (n : nat) (alloc_ok : bool) (created : list (nat * Z))
    (fd : Z) (list_ok cb : bool) (key : nat) (configs : list mariadb_pool_config)
    (pools : gmap nat mariadb_pool) : outcome (option mariadb_conn * gmap nat mariadb_pool) :=
  match pool_of alloc_ok key configs pools with
  | None => Done (None, pools)
  | Some p =>
      let '(r, p) := pool_take created p in
      let pools := <[key := p]> pools in
      match r with
      | NoConn => Done (None, pools)
      | Unpooled c =>
          '(ret, c) ← mariadb_async_handle_connect n fd list_ok cb c;
          Done (if ret =? 0 then Some c else None, pools)
      | Pooled c =>
          '(ret, c) ← mariadb_async_handle_connect n fd list_ok false c;
          (* conn->dr = dr; conn->connect_cb = cb; *)
          match c_fate c with
          | Freed => Crash UseAfterFree
          | _ =>
              let c := callback cb (EvConnect (ret =? 0)) (with_connect_cb cb c) in
              Done (if ret =? 0 then Some c else None, pools)
          end
      end
  end.

(** [mariadb_dthread_pool_get_conn]. *)
Definition mariadb_dthread_pool_get_conn (alloc_ok : bool) (created : list (nat * Z)) (fd : Z) (list_ok : bool)
    (key : nat) (configs : list mariadb_pool_config) (pools : gmap nat mariadb_pool) (ws : list wake)
    : gmap nat mariadb_pool * option (thread Z) :=
  match pool_of alloc_ok key configs pools with
  | None => (pools, None)
  | Some p =>
      let '(r, p) := pool_take created p in
      (<[key := p]> pools,
       match r with
       | NoConn => None
       | Unpooled c | Pooled c => Some (mariadb_dthread_connect fd list_ok ws c)
       end)
  end.

(** ** Counters and connections *)

(** [lent] connections of the pool are in use, and [lost] were closed by an error. *)
Record pool_inv (p : mariadb_pool) (lent lost : nat) : Prop := {
  inv_free : p_free_size p = Z.of_nat (length (p_free_conns p));
  inv_size : p_size p = Z.of_nat (length (p_free_conns p) + lent + lost);
  inv_max : p_size p <= Z.max 0 (pc_max_size (p_config p))
}.

(** The operations of a pool: a connection is taken (and comes from the pool or not), is
    given back, or fails while it is in use. *)
Inductive pool_step : mariadb_pool * nat * nat -> mariadb_pool * nat * nat -> Prop :=
  | step_take created p c p' lent lost :
      pool_take created p = (Pooled c, p') -> pool_step (p, lent, lost) (p', S lent, lost)
  | step_other created p r p' lent lost :
      pool_take created p = (r, p') -> (forall c, r <> Pooled c) -> pool_step (p, lent, lost) (p', lent, lost)
  | step_reclaim c cs p p' lent lost :
      mariadb_pool_reclaim_conn c p = Some (Ret (cs, p')) -> pool_step (p, S lent, lost) (p', lent, lost)
  | step_dthread_reclaim c cs p p' lent lost :
      mariadb_dthread_pool_reclaim_conn c p = Some (Ret (cs, p')) -> pool_step (p, S lent, lost) (p', lent, lost)
  | step_lose p lent lost : pool_step (p, S lent, lost) (p, lent, S lost).

(** Both branches of a release close the connection. *)
Lemma release_one_inv is_async p lent lost : pool_inv p lent lost -> p_free_conns p <> [] ->
  exists c p', release_one is_async p = Ret (c, p') /\ c_fate c = Freed /\ pool_inv p' lent lost /\
    p_size p' = p_size p - 1 /\ p_free_size p' = p_free_size p - 1 /\ p_config p' = p_config p.
Proof.
  intros [Hf Hs Hm] Hne. unfold release_one. destruct (p_free_conns p) as [|c l] eqn:El; [done|]. cbn [length] in *.
  eexists _, _. split; [done|]. split; [destruct is_async; [|done]|].
  - unfold mariadb_async_handle_release. cbn. by destruct (_ && _).
  - split; [|done]. constructor; cbn; lia.
Qed.

(** The loop that shrinks a pool ends, never reads an empty list, and leaves a pool at most half free or of the
    default minimum. *)
Lemma shrink_ends is_async fuel : forall p lent lost, pool_inv p lent lost -> (Z.to_nat (p_size p) < fuel)%nat ->
  exists cs p', shrink fuel is_async p = Some (Ret (cs, p')) /\ pool_inv p' lent lost /\
    must_shrink p' = false /\ Forall (fun c => c_fate c = Freed) cs /\
    p_size p' = p_size p - Z.of_nat (length cs) /\ p_config p' = p_config p.
Proof.
  induction fuel as [|fuel IH]; intros p lent lost Hp Hf; [lia|]. cbn [shrink].
  destruct (must_shrink p) eqn:Hm; [|exists [], p; split_and!; [done..|cbn; lia|done]].
  assert (p_free_conns p <> []) as Hne.
  { intros E. destruct Hp as [Hfr Hs _]. rewrite E in *. cbn in *. unfold must_shrink in Hm.
    apply andb_true_iff in Hm as [H1 H2]. apply Z.ltb_lt in H1, H2. unfold MARIADB_POOL_DEFAULT_MIN_SIZE in *. lia. }
  destruct (release_one_inv is_async p lent lost Hp Hne) as (c & p1 & E1 & Hc & Hp1 & Hs1 & _ & Hcfg).
  cbn [mariadb_pool_release_conn MARIADB_POOL_DEFAULT_SIZE]. rewrite E1. cbn [mbind res_bind].
  assert (0 < p_size p) by (unfold must_shrink in Hm; apply andb_true_iff in Hm as [_ H2];
    apply Z.ltb_lt in H2; unfold MARIADB_POOL_DEFAULT_MIN_SIZE in *; lia).
  destruct (IH p1 lent lost Hp1) as (cs & p' & E & Hp' & Hm' & Hcs & Hs' & Hcfg'); [lia|]. rewrite E.
  exists (c :: cs), p'. split_and!; [done..|by constructor|cbn [length]; lia|congruence].
Qed.

Lemma take_conn_inv p lent lost c l : pool_inv p lent lost -> p_free_conns p = c :: l ->
  pool_inv (mk_pool (p_size p) (p_free_size p - 1) (p_config p) l) (S lent) lost.
Proof. intros [Hf Hs Hm] E. rewrite E in *. cbn [length] in *. constructor; cbn; lia. Qed.

Lemma pool_take_inv created p r p' lent lost : pool_inv p lent lost -> pool_take created p = (r, p') ->
  pool_inv p' (match r with Pooled _ => S lent | _ => lent end) lost.
Proof.
  intros Hp E. unfold pool_take in E. destruct (p_free_conns p) as [|c l] eqn:El.
  - destruct (p_size p <? pc_max_size (p_config p)) eqn:Hlt.
    + apply Z.ltb_lt in Hlt. destruct created as [|g created]; cbn in E.
      * rewrite El in E. destruct (p_free_size p =? 0); by injection E as <- <-.
      * destruct Hp as [Hf Hs Hm]. rewrite El in *. cbn [length] in *. cbn [app] in E.
        rewrite (proj2 (Z.eqb_neq (p_free_size p + 1) 0)) in E by lia. injection E as <- <-. constructor; cbn; lia.
    + destruct created as [|g created]; by injection E as <- <-.
  - injection E as <- <-. by eapply take_conn_inv.
Qed.

Lemma reclaim_inv p lent lost c : pool_inv p (S lent) lost ->
  pool_inv (mk_pool (p_size p) (p_free_size p + 1) (p_config p) (p_free_conns p ++ [c])) lent lost.
Proof. intros [Hf Hs Hm]. constructor; cbn; rewrite ?length_app; cbn; lia. Qed.

Lemma run_shrink_inv is_async p lent lost : pool_inv p lent lost ->
  exists cs p', run_shrink is_async p = Some (Ret (cs, p')) /\ pool_inv p' lent lost /\
    must_shrink p' = false /\ Forall (fun c => c_fate c = Freed) cs.
Proof.
  intros Hp. destruct (shrink_ends is_async (S (Z.to_nat (p_size p))) p lent lost Hp) as (cs & p' & E & ? & ? & ? & _); [lia|].
  by exists cs, p'.
Qed.

Lemma pool_step_inv p lent lost p' lent' lost' :
  pool_inv p lent lost -> pool_step (p, lent, lost) (p', lent', lost') -> pool_inv p' lent' lost'.
Proof.
  intros Hp Hs. inversion Hs as [cr ? c ? ? ? E|cr ? r ? ? ? E Hr|c cs ? ? ? ? E|c cs ? ? ? ? E|]; subst; clear Hs.
  - by apply (pool_take_inv _ _ _ _ _ _ Hp E).
  - pose proof (pool_take_inv _ _ _ _ _ _ Hp E) as Hi. destruct r as [| |c]; [done|done|by destruct (Hr c)].
  - destruct (run_shrink_inv true _ _ _ (reclaim_inv p lent' lost'
      (with_finish false (with_disconnect_cb false (with_connect_cb false c))) Hp)) as (cs' & q & E' & Hq & _ & _).
    unfold mariadb_pool_reclaim_conn in E. rewrite E' in E. by injection E as <- <-.
  - destruct (run_shrink_inv false _ _ _ (reclaim_inv p lent' lost' (with_state CONN_STATE_CONNECTED c) Hp))
      as (cs' & q & E' & Hq & _ & _).
    unfold mariadb_dthread_pool_reclaim_conn in E. rewrite E' in E. by injection E as <- <-.
  - destruct Hp as [Hf Hz Hm]. constructor; [done| |done]. lia.
Qed.

(** A pool as [mariadb_pool_get_conn] creates it. *)
Definition new_pool (config : mariadb_pool_config) : mariadb_pool := mk_pool 0 0 config [].

Lemma pool_reach_inv config p lent lost :
  rtc pool_step (new_pool config, 0%nat, 0%nat) (p, lent, lost) -> pool_inv p lent lost.
Proof.
  intros Hr. assert (pool_inv (new_pool config) 0 0) as H0 by (constructor; cbn; lia).
  remember (new_pool config, 0%nat, 0%nat) as s0 eqn:E0. remember (p, lent, lost) as s eqn:Es.
  assert (pool_inv s0.1.1 s0.1.2 s0.2) as Hi by by subst s0.
  assert (pool_inv s.1.1 s.1.2 s.2); [|by subst s].
  clear E0 Es H0. induction Hr as [s|[[p0 l0] k0] [[p1 l1] k1] s2 Hstep _ IH]; [done|].
  apply IH. by eapply pool_step_inv.
Qed.

(** C21. Over every sequence of takes, returns and failures from a new pool, the free counter is the length
    of the list of free connections, and the size is the number of connections that are free, in use or
    lost, never above the configured maximum; giving a connection back always ends, without reading an empty list,
    closes exactly the connections it drops, and leaves at most half of the pool free or a pool
    of at most the default minimum of 2 connections, all of which may be free.  A connection that fails is freed and keeps its place
    in the size, as one more that is lost ([lost_pool_never_lends]). *)
Theorem pool_invariant config p lent lost c :
  rtc pool_step (new_pool config, 0%nat, 0%nat) (p, S lent, lost) ->
  p_free_size p = Z.of_nat (length (p_free_conns p)) /\
  p_size p = Z.of_nat (length (p_free_conns p) + S lent + lost) /\
  p_size p <= Z.max 0 (pc_max_size (p_config p)) /\
  exists closed p', mariadb_pool_reclaim_conn c p = Some (Ret (closed, p')) /\
    Forall (fun c => c_fate c = Freed) closed /\ pool_inv p' lent lost /\
    (p_free_size p' * 2 <= p_size p' \/ p_size p' <= MARIADB_POOL_DEFAULT_MIN_SIZE).
Proof.
  intros Hr. pose proof (pool_reach_inv _ _ _ _ Hr) as Hp.
  destruct (run_shrink_inv true _ _ _ (reclaim_inv p lent lost
    (with_finish false (with_disconnect_cb false (with_connect_cb false c))) Hp)) as (cs & p' & E & Hp' & Hm & Hcs).
  destruct Hp as [Hf Hs Hmax]. split_and!; [done..|]. exists cs, p'. split_and!; [done..|].
  unfold must_shrink in Hm. apply andb_false_iff in Hm as [Hm|Hm]; apply Z.ltb_ge in Hm; [left|right]; lia.
Qed.

Definition demo_config : mariadb_pool_config := mk_pool_config 0 0 false 2 4.

(** Three connections are taken and one is given back: one of three is free, and the pool keeps its size. *)
Lemma pool_invariant_witness :
  exists p closed p', rtc pool_step (new_pool demo_config, 0%nat, 0%nat) (p, 3%nat, 0%nat) /\ p_size p = 3 /\
    mariadb_pool_reclaim_conn (mariadb_conn_create (0%nat, 0) 0) p = Some (Ret (closed, p')) /\ p_size p' = 3.
Proof.
  set (p1 := (pool_take [(0%nat, 0)] (new_pool demo_config)).2).
  set (p2 := (pool_take [(0%nat, 0)] p1).2). set (p3 := (pool_take [(0%nat, 0)] p2).2).
  assert (rtc pool_step (new_pool demo_config, 0%nat, 0%nat) (p3, 3%nat, 0%nat)) as Hr.
  { eapply rtc_l; [by eapply (step_take [(0%nat, 0)])|]. eapply rtc_l; [by eapply (step_take [(0%nat, 0)])|].
    eapply rtc_l; [by eapply (step_take [(0%nat, 0)])|apply rtc_refl]. }
  destruct (pool_invariant demo_config p3 2 0 (mariadb_conn_create (0%nat, 0) 0) Hr) as (_ & _ & _ & closed & p' & E & _ & _ & _).
  exists p3, closed, p'. split_and!; [exact Hr|reflexivity|exact E|].
  vm_compute in E. by injection E as <- <-.
Defined.

(** A connection that was lost keeps its place: once as many were lost as the pool may have, every request is
    served by a connection outside of the pool, or by none. *)
Lemma lost_pool_never_lends config p lent lost created : pc_max_size (p_config p) <= Z.of_nat lost ->
  0 <= pc_max_size (p_config p) ->
  rtc pool_step (new_pool config, 0%nat, 0%nat) (p, lent, lost) ->
  forall c, (pool_take created p).1 <> Pooled c.
Proof.
  intros Hmax H0 Hr c. destruct (pool_reach_inv _ _ _ _ Hr) as [Hf Hs Hm]. unfold pool_take.
  destruct (p_free_conns p) as [|c' l]; [|cbn [length] in *; lia].
  rewrite (proj2 (Z.ltb_ge _ _)) by (cbn [length] in *; lia). by destruct created.
Qed.

(** The minimum a service asks for plays no part: a pool configured for at least [pc_min_size]
    connections is shrunk to two. *)
Lemma configured_minimum_ignored :
  let config := mk_pool_config 0 0 false 6 8 in
  let conns n := replicate n (mariadb_conn_create (0%nat, 0) 0) in
  exists closed p', mariadb_pool_reclaim_conn (mariadb_conn_create (0%nat, 0) 0) (mk_pool 6 5 config (conns 5%nat))
    = Some (Ret (closed, p')) /\ length closed = 4%nat /\ p_size p' = 2.
Proof. eexists _, _. split_and!; vm_compute; reflexivity. Qed.

(** The search for a configuration answers with the last one when the key is unknown. *)
Lemma get_config_missing key l : Forall (fun c => pc_key c <> key) l -> mariadb_pool_get_config key l = last l.
Proof.
  unfold mariadb_pool_get_config.
  assert (forall d, Forall (fun c => pc_key c <> key) l ->
    get_config_from key d l = match last l with Some c => Some c | None => d end) as H.
  { induction l as [|c l IH]; intros d Hl; [done|]. inversion Hl; subst. cbn [get_config_from].
    rewrite decide_False by done. rewrite IH by done. destruct l as [|c' l]; [done|].
    change (last (c :: c' :: l)) with (last (c' :: l)).
    destruct (last (c' :: l)) eqn:E; [done|]. by apply last_None in E. }
  intros Hl. rewrite H by done. by destruct (last l).
Qed.

(** The connection a pool hands out for the first time is still connecting when its callback is told that it is
    established, and is told so again when it is. *)
Lemma pooled_connect_reported_twice :
  let server : Server := {| respond := fun _ _ => [] |} in
  match @mariadb_async_pool_get_conn server 5 true [(1%nat, 0)] 7 true true 0 [demo_config] ∅ with
  | Done (Some c, _) =>
      c_state c = CONN_STATE_CONNECTING /\ c_out c = [EvConnect true] /\
      match @conn_on_read server 5 c with
      | Done (_, c') => c_out c' = [EvConnect true; EvConnect true]
      | _ => False
      end
  | _ => False
  end.
Proof. vm_compute. by split_and!. Qed.

(** A pooled connection whose attempt fails at once is freed, and written to afterwards. *)
Lemma pooled_connect_failure_uses_freed :
  @mariadb_async_pool_get_conn {| respond := fun _ _ => [] |} 5 true [(0%nat, 2003)] 7 true true 0 [demo_config] ∅
  = Crash UseAfterFree.
Proof. vm_compute. reflexivity. Qed.
