(* ===== verification/Conf.v ===== *)
(** * Configuration of web services

    lib/duda_conf.c (the main configuration, the [WEB_SERVICE] sections of the virtual hosts, the
    methods of the [conf] object), lib/duda_fconf.c, and the records of
    include/duda/duda_webservice.h and duda_conf.h.  A web service belongs to two lists, that of its
    virtual host and [services_loaded]; the services live in a heap, the lists hold their
    positions, and [None] is a freed service.  The configuration reader and the file system are the
    class [MkConf] of Monkey's functions. *)

From S2P Require Import Prelude CString.

(** ** Monkey *)

(** [file_info]: the answers a successful [file_get_info] writes. *)
Record file_info := mk_finfo { is_file : bool; is_directory : bool }.

(** [file_get_info] ([None] for a result other than 0), the file that [config_open] and [config_create] read, the sections of a
    file, the keys of a section read as a string or as a boolean ([-1] when the text is
    none), the test [mk_is_bool], and the comparison of names. *)
Class MkConf := {
  section : Type;
  section_name : section -> list Z;
  file_get_info : list Z -> option file_info;
  config_open : list Z -> option (list section);
  config_create : list Z -> option (list section);
  get_key_str : section -> list Z -> option (list Z);
  get_key_bool : section -> list Z -> Z;
  mk_is_bool : Z -> bool;
  strcaseeq : list Z -> list Z -> bool;
  file_to_buffer : list Z -> option (list Z)
}.

(** ** Data *)

(** [ws_registered]: the lists of the library ([global], [pre_loop], [packages], ...) have been set. *)
Record web_service := mk_ws {
  ws_name : mk_ptr_t;
  ws_fixed_name : mk_ptr_t;
  ws_docroot : option mk_ptr_t;
  ws_confdir : option mk_ptr_t;
  ws_datadir : option mk_ptr_t;
  ws_logdir : option mk_ptr_t;
  ws_enabled : Z;
  ws_is_root : bool;
  ws_bind_messages : bool;
  ws_handler : option nat;
  ws_vh_parent : nat;
  ws_registered : bool
}.

Record vhost_services := mk_vs { vs_host : nat; vs_root_service : option nat; vs_services : list nat }.

Record services := mk_services {
  heap : list (option web_service);
  services_list : list vhost_services;
  services_loaded : list nat
}.

Definition ws_set_confdir p w := mk_ws (ws_name w) (ws_fixed_name w) (ws_docroot w) p (ws_datadir w) (ws_logdir w)
  (ws_enabled w) (ws_is_root w) (ws_bind_messages w) (ws_handler w) (ws_vh_parent w) (ws_registered w).
Definition ws_set_datadir p w := mk_ws (ws_name w) (ws_fixed_name w) (ws_docroot w) (ws_confdir w) p (ws_logdir w)
  (ws_enabled w) (ws_is_root w) (ws_bind_messages w) (ws_handler w) (ws_vh_parent w) (ws_registered w).
Definition ws_set_logdir p w := mk_ws (ws_name w) (ws_fixed_name w) (ws_docroot w) (ws_confdir w) (ws_datadir w) p
  (ws_enabled w) (ws_is_root w) (ws_bind_messages w) (ws_handler w) (ws_vh_parent w) (ws_registered w).
Definition ws_set_docroot p w := mk_ws (ws_name w) (ws_fixed_name w) p (ws_confdir w) (ws_datadir w) (ws_logdir w)
  (ws_enabled w) (ws_is_root w) (ws_bind_messages w) (ws_handler w) (ws_vh_parent w) (ws_registered w).
Definition ws_set_root b w := mk_ws (ws_name w) (ws_fixed_name w) (ws_docroot w) (ws_confdir w) (ws_datadir w) (ws_logdir w)
  (ws_enabled w) b (ws_bind_messages w) (ws_handler w) (ws_vh_parent w) (ws_registered w).
Definition ws_set_handler h w := mk_ws (ws_name w) (ws_fixed_name w) (ws_docroot w) (ws_confdir w) (ws_datadir w) (ws_logdir w)
  (ws_enabled w) (ws_is_root w) (ws_bind_messages w) h (ws_vh_parent w) (ws_registered w).

Definition ws_set_registered w := mk_ws (ws_name w) (ws_fixed_name w) (ws_docroot w) (ws_confdir w) (ws_datadir w) (ws_logdir w)
  (ws_enabled w) (ws_is_root w) (ws_bind_messages w) (ws_handler w) (ws_vh_parent w) true.

Definition slash : Z := 47.

Definition ptr_of (s : list Z) : mk_ptr_t := mk_ptr s (Z.of_nat (strlen s)).

(** ** Directories *)

(** A directory with a final slash; [extra] is what the stored length adds to that of the given
    text when the slash is appended. *)
Definition slash_dir (extra : Z) (dir : list Z) : res mk_ptr_t :=
  let l := Z.of_nat (strlen dir) in
  match strlen dir with
  | O => Fault OutOfBounds                              (* dir[-1] *)
  | S k =>
      if char_at dir k =? slash then Ret (mk_ptr (take (strlen dir) dir) l)
      else Ret (mk_ptr (take (strlen dir) dir ++ [slash]) (l + extra))
  end.

Section conf.
Context `{MkConf}.

Definition is_dir (dir : list Z) : bool :=
  match file_get_info dir with Some f => is_directory f | None => false end.

Definition duda_conf_set_confdir (ws : web_service) (dir : list Z) : res (Z * web_service) :=
  if is_dir dir then p ← slash_dir 2 dir; Ret (0, ws_set_confdir (Some p) ws) else Ret (-1, ws).

Definition duda_conf_set_datadir (ws : web_service) (dir : list Z) : res (Z * web_service) :=
  if is_dir dir then p ← slash_dir 2 dir; Ret (0, ws_set_datadir (Some p) ws) else Ret (-1, ws).

Definition duda_conf_set_logdir (ws : web_service) (dir : list Z) : res (Z * web_service) :=
  if is_dir dir then p ← slash_dir 2 dir; Ret (0, ws_set_logdir (Some p) ws) else Ret (-1, ws).

(** A directory of a section, if given, must be one. *)
Definition use_dir (set : web_service -> list Z -> res (Z * web_service)) (dir : option (list Z)) (ws : web_service)
    : res web_service :=
  match dir with
  | None => Ret ws
  | Some dir => '(ret, ws) ← set ws dir; if ret =? 0 then Ret ws else Fault ExitFailure
  end.

Definition set_docroot (ws : web_service) (dir : list Z) : res (Z * web_service) :=
  if is_dir dir then p ← slash_dir 1 dir; Ret (0, ws_set_docroot (Some p) ws) else Ret (-1, ws).

(** ** Main configuration *)

Record main_conf := mk_main {
  services_root : option (list Z);
  packages_root : option (list Z);
  document_root : option mk_ptr_t
}.

(** The check of a path: the process exits unless it is a directory.  A [NULL] path is given to
    [stat], which fails. *)
Definition require_dir (dir : option (list Z)) : res unit :=
  match dir with
  | None => Fault ExitFailure
  | Some d => if is_dir d then Ret tt else Fault ExitFailure
  end.

Fixpoint main_sections (l : list section) (c : main_conf) : res main_conf :=
  match l with
  | [] => Ret c
  | s :: l' =>
      if strcaseeq (section_name s) (cs "DUDA") then
        let sroot := get_key_str s (cs "ServicesRoot") in
        _ ← require_dir sroot;
        let proot := get_key_str s (cs "PackagesRoot") in
        _ ← require_dir proot;
        let droot := ptr_of <$> get_key_str s (cs "DocumentRoot") in
        (* the check of the document root looks at packages_root *)
        _ ← require_dir proot;
        main_sections l' (mk_main sroot proot droot)
      else main_sections l' c
  end.

Definition duda_conf_main_init (confdir : list Z) (c : main_conf) : res (Z * main_conf) :=
  match config_open (confdir ++ cs "/duda.conf") with
  | None => Fault NullDeref
  | Some l => c ← main_sections l c; Ret (0, c)
  end.

(** ** Virtual hosts *)

(** The service of a [WEB_SERVICE] section, [None] for a section that is skipped. *)
Definition section_service (vh : nat) (s : section) : res (option web_service) :=
  let app_name := get_key_str s (cs "Name") in
  let app_enabled := get_key_bool s (cs "Enabled") in
  let app_is_root := get_key_bool s (cs "Root") in
  match app_name with
  | Some name =>
      if mk_is_bool app_enabled then
        let ws := mk_ws (ptr_of name) (ptr_of name) None None None None app_enabled false false None vh false in
        ws ← use_dir set_docroot (get_key_str s (cs "DocumentRoot")) ws;
        ws ← use_dir duda_conf_set_confdir (get_key_str s (cs "ConfDir")) ws;
        ws ← use_dir duda_conf_set_datadir (get_key_str s (cs "DataDir")) ws;
        ws ← use_dir duda_conf_set_logdir (get_key_str s (cs "LogDir")) ws;
        Ret (Some (ws_set_root (app_is_root =? 1) ws))
      else Ret None
  | None => Ret None
  end.

(** The sections of one host: the services go to the list of the host and to [services_loaded]. *)
Fixpoint host_sections (vh : nat) (l : list section) (vs : vhost_services) (h : list (option web_service))
    (loaded : list nat) : res (vhost_services * list (option web_service) * list nat) :=
  match l with
  | [] => Ret (vs, h, loaded)
  | s :: l' =>
      if strcaseeq (section_name s) (cs "WEB_SERVICE") then
        o ← section_service vh s;
        match o with
        | None => host_sections vh l' vs h loaded
        | Some ws =>
            let i := length h in
            host_sections vh l'
              (mk_vs (vs_host vs) (if ws_is_root ws then Some i else vs_root_service vs) (vs_services vs ++ [i]))
              (h ++ [Some ws]) (loaded ++ [i])
        end
      else host_sections vh l' vs h loaded
  end.

(** A host is its number and the sections of its configuration, [None] without one. *)
Fixpoint vhost_hosts (hosts : list (nat * option (list section))) (st : services) : res services :=
  match hosts with
  | [] => Ret st
  | (_, None) :: hosts' => vhost_hosts hosts' st
  | (host, Some l) :: hosts' =>
      '(vs, h, loaded) ← host_sections (length (services_list st)) l (mk_vs host None []) (heap st) (services_loaded st);
      vhost_hosts hosts' (mk_services h (services_list st ++ [vs]) loaded)
  end.

Definition duda_conf_vhost_init (hosts : list (nat * option (list section))) : res (Z * services) :=
  st ← vhost_hosts hosts (mk_services [] [] []); Ret (0, st).

(** ** The [conf] and [fconf] objects *)

Definition deref_ws (i : nat) (st : services) : res web_service :=
  match heap st !! i with
  | Some (Some ws) => Ret ws
  | _ => Fault UseAfterFree
  end.

Definition put_ws (i : nat) (ws : web_service) (st : services) : services :=
  mk_services (<[i := Some ws]> (heap st)) (services_list st) (services_loaded st).

Definition duda_conf_bind_messages (i : nat) (st : services) : res services :=
  w ← deref_ws i st;
  Ret (put_ws i (mk_ws (ws_name w) (ws_fixed_name w) (ws_docroot w) (ws_confdir w) (ws_datadir w) (ws_logdir w)
    (ws_enabled w) (ws_is_root w) true (ws_handler w) (ws_vh_parent w) (ws_registered w)) st).

Definition duda_conf_service_name (i : nat) (name : list Z) (st : services) : res services :=
  w ← deref_ws i st;
  Ret (put_ws i (mk_ws (ptr_of name) (ws_fixed_name w) (ws_docroot w) (ws_confdir w) (ws_datadir w) (ws_logdir w)
    (ws_enabled w) (ws_is_root w) (ws_bind_messages w) (ws_handler w) (ws_vh_parent w) (ws_registered w)) st).

Definition duda_conf_service_root (i : nat) (st : services) : res services :=
  w ← deref_ws i st;
  match services_list st !! ws_vh_parent w with
  | None => Fault UseAfterFree
  | Some vs =>
      let st := put_ws i (ws_set_root true w) st in
      Ret (mk_services (heap st)
             (<[ws_vh_parent w := mk_vs (vs_host vs) (Some i) (vs_services vs)]> (services_list st))
             (services_loaded st))
  end.

Definition duda_fconf_set_path (ws : web_service) (dir : list Z) : res (Z * web_service) :=
  '(ret, ws) ← duda_conf_set_confdir ws dir; Ret (if ret =? -1 then -1 else 0, ws).

Definition duda_fconf_get_path (ws : web_service) : option (list Z) := data <$> ws_confdir ws.

(** The path is composed with ["%s/%s"]; without a directory the first argument is [NULL]. *)
Definition duda_fconf_read_conf (ws : web_service) (path : list Z) : res (option (list section)) :=
  match duda_fconf_get_path ws with
  | None => Fault NullDeref
  | Some dir =>
      let full := dir ++ slash :: take (strlen path) path in
      match file_get_info full with
      | None => Ret None
      | Some f => if is_file f then Ret (config_create full) else Ret None
      end
  end.

(** [garbage] is what [finfo.is_file] holds before the call: a failed [file_get_info] leaves it. *)
Definition duda_fconf_read_file (garbage : bool) (path : list Z) : option (list Z) :=
  let isf := match file_get_info path with Some f => is_file f | None => garbage end in
  if isf then file_to_buffer path else None.
End conf.

(** ** Directories as stored *)

(** A directory that is accepted is stored with exactly one slash more than the given text, or as it is
    if it ends with one; the stored length is the text's only in the second case, or with [extra = 1]. *)
Lemma slash_dir_spec extra dir : cstr dir -> dir <> [] ->
  slash_dir extra dir =
    if bool_decide (last dir = Some slash) then Ret (mk_ptr dir (Z.of_nat (length dir)))
    else Ret (mk_ptr (dir ++ [slash]) (Z.of_nat (length dir) + extra)).
Proof.
  intros Hc Hne. unfold slash_dir. rewrite !strlen_cstr, take_ge by (done || lia).
  destruct (length dir) as [|k] eqn:El; [by apply nil_length_inv in El|].
  rewrite last_lookup, El. cbn [pred]. unfold char_at.
  destruct (dir !! k) as [c|] eqn:Ek; [|apply lookup_ge_None in Ek; lia]. cbn [default]. unfold id.
  destruct (Z.eqb_spec c slash) as [->|Hn]; [by rewrite bool_decide_true|].
  rewrite bool_decide_false by congruence. done.
Qed.

Section conf_spec.
Context `{MkConf}.

(** The configuration directory of a service: set to the given directory with its slash if it is
    one, unchanged otherwise; without a final slash in the argument the stored length counts
    the terminating NUL. *)
Lemma set_confdir_spec ws dir : cstr dir -> dir <> [] ->
  duda_conf_set_confdir ws dir =
    if is_dir dir then
      Ret (0, ws_set_confdir (Some (if bool_decide (last dir = Some slash)
                                    then mk_ptr dir (Z.of_nat (length dir))
                                    else mk_ptr (dir ++ [slash]) (Z.of_nat (length (dir ++ [slash])) + 1))) ws)
    else Ret (-1, ws).
Proof.
  intros Hc Hne. unfold duda_conf_set_confdir. destruct (is_dir dir); [|done].
  rewrite slash_dir_spec by done. case_bool_decide; [done|]. rewrite length_app. cbn [length]. by replace (Z.of_nat (length dir + 1) + 1) with (Z.of_nat (length dir) + 2) by lia.
Qed.

(** The document root is never looked at: any text is accepted where the packages are. *)
Lemma document_root_unchecked s l c sroot proot droot :
  strcaseeq (section_name s) (cs "DUDA") = true ->
  get_key_str s (cs "ServicesRoot") = Some sroot -> is_dir sroot = true ->
  get_key_str s (cs "PackagesRoot") = Some proot -> is_dir proot = true ->
  get_key_str s (cs "DocumentRoot") = Some droot ->
  main_sections (s :: l) c = main_sections l (mk_main (Some sroot) (Some proot) (Some (ptr_of droot))).
Proof. intros Hn Hs Hsd Hp Hpd Hd. cbn [main_sections]. rewrite Hn, Hs, Hp, Hd. unfold require_dir. rewrite Hsd, Hpd. done. Qed.

(** ** The services of a configuration *)

Definition is_service (s : section) : bool := strcaseeq (section_name s) (cs "WEB_SERVICE").

(** The keys of a section that name directories. *)
Definition dir_keys : list (list Z) := [cs "DocumentRoot"; cs "ConfDir"; cs "DataDir"; cs "LogDir"].

(** Texts read from a section are C strings that are not empty. *)
Definition texts_ok (s : section) : Prop :=
  Forall (fun k => match get_key_str s k with Some v => cstr v /\ v <> [] | None => True end) (cs "Name" :: dir_keys).

#[export] Instance texts_ok_dec s : Decision (texts_ok s).
Proof. unfold texts_ok. apply Forall_dec. intros k. destruct (get_key_str s k); apply _. Defined.

(** A section describes a service when it is a [WEB_SERVICE] section with a name and a boolean
    [Enabled], true or false. *)
Definition describes (s : section) : bool :=
  is_service s && bool_decide (is_Some (get_key_str s (cs "Name"))) && mk_is_bool (get_key_bool s (cs "Enabled")).

(** The reader goes on after a section that describes no service or whose directories all exist. *)
Definition section_ok (s : section) : bool :=
  negb (describes s) ||
  forallb (fun k => match get_key_str s k with Some d => is_dir d | None => true end) dir_keys.

(** A directory with its final slash.  The length of the directories other than the document root
    counts the terminating NUL ([nul = 1]) when the slash had to be added. *)
Definition stored (nul : Z) (dir : list Z) : mk_ptr_t :=
  if bool_decide (last dir = Some slash) then mk_ptr dir (Z.of_nat (length dir))
  else mk_ptr (dir ++ [slash]) (Z.of_nat (length (dir ++ [slash])) + nul).

(** The service a section describes, as a member of host [vh]. *)
Definition described (vh : nat) (s : section) : option web_service :=
  if describes s then
    name ← get_key_str s (cs "Name");
    Some {|
      ws_name := mk_ptr name (Z.of_nat (length name));
      ws_fixed_name := mk_ptr name (Z.of_nat (length name));
      ws_docroot := stored 0 <$> get_key_str s (cs "DocumentRoot");
      ws_confdir := stored 1 <$> get_key_str s (cs "ConfDir");
      ws_datadir := stored 1 <$> get_key_str s (cs "DataDir");
      ws_logdir := stored 1 <$> get_key_str s (cs "LogDir");
      ws_enabled := get_key_bool s (cs "Enabled");
      ws_is_root := get_key_bool s (cs "Root") =? 1;
      ws_bind_messages := false;
      ws_handler := None;
      ws_vh_parent := vh;
      ws_registered := false
    |}
  else None.

Lemma slash_dir_stored extra dir : cstr dir -> dir <> [] -> slash_dir extra dir = Ret (stored (extra - 1) dir).
Proof.
  intros Hc Hne. rewrite slash_dir_spec by done. unfold stored. case_bool_decide; [done|].
  rewrite length_app. cbn [length]. do 2 f_equal. lia.
Qed.

(** A directory of a section: kept with its slash, or the end of the process. *)
Lemma use_dir_spec (set : web_service -> list Z -> res (Z * web_service)) upd extra o ws :
  (forall w d, set w d = if is_dir d then p ← slash_dir extra d; Ret (0, upd (Some p) w) else Ret (-1, w)) ->
  match o with Some v => cstr v /\ v <> [] | None => True end ->
  use_dir set o ws =
    if match o with Some d => is_dir d | None => true end
    then Ret (match o with Some d => upd (Some (stored (extra - 1) d)) ws | None => ws end)
    else Fault ExitFailure.
Proof.
  intros Hset Ho. destruct o as [d|]; cbn [use_dir]; [|done]. rewrite Hset. destruct (is_dir d); [|done].
  destruct Ho. by rewrite slash_dir_stored.
Qed.

Lemma section_service_spec vh s : texts_ok s -> is_service s = true ->
  section_service vh s = if section_ok s then Ret (described vh s) else Fault ExitFailure.
Proof.
  unfold texts_ok, dir_keys. intros Ht Hs. rewrite !Forall_cons in Ht. destruct Ht as (Hn & Hd & Hc & Ha & Hl & _).
  unfold section_service, section_ok, described, describes. rewrite Hs. cbn [andb].
  destruct (get_key_str s (cs "Name")) as [name|] eqn:En; [|by rewrite bool_decide_false by by intros [? [=]]].
  rewrite bool_decide_true by eauto. cbn [andb]. destruct (mk_is_bool _); [|done]. cbn [negb orb dir_keys forallb].
  destruct Hn as [Hcn _]. unfold ptr_of. rewrite strlen_cstr by done.
  rewrite (use_dir_spec set_docroot ws_set_docroot 1) by done.
  destruct (get_key_str s (cs "DocumentRoot")) as [d1|]; [destruct (is_dir d1); [|done]|]; cbn [mbind res_bind andb];
  rewrite (use_dir_spec duda_conf_set_confdir ws_set_confdir 2) by done;
  (destruct (get_key_str s (cs "ConfDir")) as [d2|]; [destruct (is_dir d2); [|done]|]); cbn [mbind res_bind andb];
  rewrite (use_dir_spec duda_conf_set_datadir ws_set_datadir 2) by done;
  (destruct (get_key_str s (cs "DataDir")) as [d3|]; [destruct (is_dir d3); [|done]|]); cbn [mbind res_bind andb];
  rewrite (use_dir_spec duda_conf_set_logdir ws_set_logdir 2) by done;
  (destruct (get_key_str s (cs "LogDir")) as [d4|]; [destruct (is_dir d4); [|done]|]); done.
Qed.

(** The services the sections of a host describe. *)
Definition host_list (vh : nat) (l : list section) : list web_service := omap (described vh) l.

(** The hosts with a configuration. *)
Fixpoint configured (hosts : list (nat * option (list section))) : list (nat * list section) :=
  match hosts with
  | [] => []
  | (_, None) :: hosts' => configured hosts'
  | (host, Some l) :: hosts' => (host, l) :: configured hosts'
  end.

(** The last service marked as root, the first having position [k]. *)
Fixpoint root_from (k : nat) (r : option nat) (l : list web_service) : option nat :=
  match l with
  | [] => r
  | w :: l' => root_from (S k) (if ws_is_root w then Some k else r) l'
  end.

(** The hosts from number [vh] on, their services being allocated from position [k]. *)
Fixpoint host_entries (vh k : nat) (hosts : list (nat * list section)) : list vhost_services :=
  match hosts with
  | [] => []
  | (host, l) :: hosts' =>
      let wl := host_list vh l in
      mk_vs host (root_from k None wl) (seq k (length wl)) :: host_entries (S vh) (k + length wl) hosts'
  end.

Fixpoint all_services (vh : nat) (hosts : list (nat * list section)) : list web_service :=
  match hosts with
  | [] => []
  | (_, l) :: hosts' => host_list vh l ++ all_services (S vh) hosts'
  end.

Lemma described_other vh s : is_service s = false -> described vh s = None /\ section_ok s = true.
Proof. intros E. unfold described, section_ok, describes. by rewrite E. Qed.

Lemma host_sections_spec vh l : Forall texts_ok l -> forall host r sv h loaded,
  host_sections vh l (mk_vs host r sv) h loaded =
  if forallb section_ok l then
    Ret (mk_vs host (root_from (length h) r (host_list vh l)) (sv ++ seq (length h) (length (host_list vh l))),
         h ++ (Some <$> host_list vh l), loaded ++ seq (length h) (length (host_list vh l)))
  else Fault ExitFailure.
Proof.
  induction 1 as [|s l Hs _ IH]; intros host r sv h loaded; [cbn; by rewrite !app_nil_r|].
  cbn [host_sections host_list omap list_omap forallb]. fold (is_service s). destruct (is_service s) eqn:Es.
  - rewrite section_service_spec by done. destruct (section_ok s); [|done]. cbn [mbind res_bind andb].
    destruct (described vh s) as [ws|]; [|apply IH]. rewrite IH, length_app, Nat.add_1_r.
    cbn [length seq root_from fmap list_fmap vs_host vs_root_service vs_services]. by rewrite <- !app_assoc.
  - destruct (described_other vh s Es) as [-> ->]. apply IH.
Qed.

(** Every text of the configuration of the hosts is a C string that is not empty. *)
Definition hosts_texts (hosts : list (nat * list section)) : Prop := Forall (fun h => Forall texts_ok h.2) hosts.

#[export] Instance hosts_texts_dec hosts : Decision (hosts_texts hosts).
Proof. unfold hosts_texts. apply _. Defined.

(** The reader comes to the end of every host. *)
Definition hosts_ok (hosts : list (nat * list section)) : bool := forallb (fun h => forallb section_ok h.2) hosts.

Lemma vhost_hosts_spec hosts : hosts_texts (configured hosts) -> forall st,
  services_loaded st = seq 0 (length (heap st)) ->
  vhost_hosts hosts st =
  if hosts_ok (configured hosts) then
    Ret (let wl := all_services (length (services_list st)) (configured hosts) in
         mk_services (heap st ++ (Some <$> wl))
           (services_list st ++ host_entries (length (services_list st)) (length (heap st)) (configured hosts))
           (seq 0 (length (heap st) + length wl)))
  else Fault ExitFailure.
Proof.
  induction hosts as [|[host [l|]] hosts IH]; intros Hok st Hl; cbn [vhost_hosts configured] in *.
  - cbn. rewrite !app_nil_r, Nat.add_0_r, <- Hl. by destruct st.
  - inversion Hok as [|? ? Hl1 Hok']; subst. rewrite host_sections_spec by done.
    unfold hosts_ok. cbn [forallb snd]. destruct (forallb section_ok l); [|done]. cbn [mbind res_bind andb].
    rewrite IH; [|done|].
    + cbn [heap services_list services_loaded all_services host_entries].
      rewrite !length_app, length_fmap, !fmap_app, <- !app_assoc, Nat.add_1_r, Nat.add_assoc. done.
    + cbn. by rewrite Hl, length_app, length_fmap, seq_app.
  - by apply IH.
Qed.

(** The services a configuration is read into, when the process does not exit. *)
Definition read_state (hosts : list (nat * list section)) : services :=
  mk_services (Some <$> all_services 0 hosts) (host_entries 0 0 hosts) (seq 0 (length (all_services 0 hosts))).

Lemma vhost_init_read hosts : hosts_texts (configured hosts) ->
  duda_conf_vhost_init hosts =
    if hosts_ok (configured hosts) then Ret (0, read_state (configured hosts)) else Fault ExitFailure.
Proof. intros Hok. unfold duda_conf_vhost_init. rewrite vhost_hosts_spec by done. by destruct (hosts_ok _). Qed.

(** C29. The reader of the virtual hosts, where the texts of the configuration are C strings that are not empty.
    If every directory named by a section that describes a service exists, it registers exactly the
    services of the [WEB_SERVICE] sections that have a name and a boolean [Enabled] (true or
    false), in the order of the hosts and of the sections.  The service has the name of its section, each of
    the four directories that was given, with its final slash, the root mark when [Root] is true, and the number of its
    host; each host gets the list of its own services and the last of them marked as root, and
    [services_loaded] lists all of them.  If one of these directories is missing, the process exits. *)
Theorem vhost_init_services hosts : hosts_texts (configured hosts) ->
  duda_conf_vhost_init hosts =
  if hosts_ok (configured hosts)
  then Ret (0, mk_services (Some <$> all_services 0 (configured hosts)) (host_entries 0 0 (configured hosts))
                 (seq 0 (length (all_services 0 (configured hosts)))))
  else Fault ExitFailure.
Proof. apply vhost_init_read. Qed.
End conf_spec.

(** ** An instance *)

Module RefConf.
(** Sections as lists of keys; the directories are those that start with a slash. *)
Definition sec := (list Z * list (list Z * list Z))%type.
Definition get (s : sec) (k : list Z) : option (list Z) := snd <$> head (List.filter (fun e => bool_decide (e.1 = k)) s.2).
Definition conf : MkConf := {|
  section := sec;
  section_name := fst;
  file_get_info := fun d => if char_at d 0 =? 47 then Some (mk_finfo false true) else None;
  config_open := fun _ => Some [];
  config_create := fun _ => Some [];
  get_key_str := get;
  get_key_bool := fun s k => match get s k with
    | Some v => if bool_decide (v = cs "on") then 1 else if bool_decide (v = cs "off") then 0 else -1
    | None => 0 end;
  mk_is_bool := fun b => (b =? 0) || (b =? 1);
  strcaseeq := fun a b => bool_decide (a = b);
  file_to_buffer := fun _ => None
|}.

Definition hello : sec := (cs "WEB_SERVICE", [(cs "Name", cs "hello"); (cs "Enabled", cs "on"); (cs "ConfDir", cs "/etc/hello")]).
Definition bad : sec := (cs "WEB_SERVICE", [(cs "Enabled", cs "on")]).
Definition top : sec := (cs "WEB_SERVICE", [(cs "Name", cs "top"); (cs "Enabled", cs "on"); (cs "Root", cs "on")]).
Definition hosts : list (nat * option (list sec)) := [(5%nat, Some [hello; bad]); (6%nat, None); (7%nat, Some [top])].
(** A service whose directory of logs does not exist. *)
Definition lost : sec := (cs "WEB_SERVICE", [(cs "Name", cs "lost"); (cs "Enabled", cs "off"); (cs "LogDir", cs "nowhere")]).
End RefConf.

Lemma vhost_init_services_witness :
  match @duda_conf_vhost_init RefConf.conf RefConf.hosts with
  | Ret (r, st) => r = 0 /\ services_list st = [mk_vs 5 None [0%nat]; mk_vs 7 (Some 1%nat) [1%nat]] /\
      services_loaded st = [0%nat; 1%nat] /\
      (ws_confdir <$> (heap st !! 0%nat ≫= id)) = Some (Some (mk_ptr (cs "/etc/hello/") 12))
  | Fault _ => False
  end /\
  @duda_conf_vhost_init RefConf.conf (RefConf.hosts ++ [(8%nat, Some [RefConf.lost])]) = Fault ExitFailure.
Proof.
  split.
  - rewrite (@vhost_init_services RefConf.conf RefConf.hosts); [vm_compute; auto|]. apply (bool_decide_unpack _). vm_compute. done.
  - rewrite (@vhost_init_services RefConf.conf (RefConf.hosts ++ [(8%nat, Some [RefConf.lost])])); [vm_compute; reflexivity|]. apply (bool_decide_unpack _). vm_compute. done.
Defined.
