(* ===== verification/Launcher.v ===== *)
(** * Loading of web services and start of workers

    From lib/duda_old_launcher.c: the loading of the libraries of the configured services, their
    registration, the initialisation of the server and of each worker; with
    lib/objects/duda_global.c, lib/objects/duda_worker.c, the two inline functions of
    include/duda/duda_objects.h, and lib/duda_package.c.  What the libraries hold is the class
    [Library]: the function [_duda_bootstrap_main], of which the model keeps the configuration calls it
    makes for its own service, and the lists of its symbols. *)

From stdpp Require Import gmap.
From S2P Require Import Prelude CString Conf.

(** ** Libraries *)

(** A call of a service's [duda_main] on the [conf] object. *)
Inductive conf_call := BindMessages | ServiceName (name : list Z) | ServiceRoot.

(** A global variable: its key, and the result of its callback on its data ([None] without a
    callback). *)
Record duda_global_t := mk_global { gl_key : nat; gl_callback : option nat }.

Class Library := {
  duda_load_library : list Z -> option nat;
  has_bootstrap : nat -> bool;
  service_init : nat -> Z * list conf_call;
  lib_global_dist : nat -> list duda_global_t;
  lib_pre_loop : nat -> list nat;
  lib_packages : nat -> list nat;
  lib_workers : nat -> list nat
}.

(** ** Globals and workers *)

(** The values of one thread ([pthread_setspecific]); a key without a value reads as [NULL]. *)
Abbreviation tls := (gmap nat (option nat)).

Definition duda_global_set (g : duda_global_t) (d : option nat) (t : tls) : Z * tls := (0, <[gl_key g := d]> t).
Definition duda_global_get (g : duda_global_t) (t : tls) : option nat := default None (t !! gl_key g).

(** [duda_global_init]: a fresh key is created and the variable registered. *)
Definition duda_global_init (key : nat) (callback : option nat) (dist : list duda_global_t) : list duda_global_t :=
  dist ++ [mk_global key callback].

Definition duda_worker_pre_loop (func : nat) (pre_loop : list nat) : list nat := pre_loop ++ [func].

Definition duda_worker_spawn (routine : nat) (workers : list nat) : Z * list nat := (0, workers ++ [routine]).

(** The threads are created in the order of the list; [create_ok] tells whether [pthread_create] does not
    return a negative number. *)
Fixpoint duda_worker_spawn_all (create_ok : nat -> bool) (l : list nat) : res (list nat) :=
  match l with
  | [] => Ret []
  | w :: l' => if create_ok w then ws ← duda_worker_spawn_all create_ok l'; Ret (w :: ws) else Fault ExitFailure
  end.

Fixpoint thread_globals_init (l : list duda_global_t) (t : tls) : tls :=
  match l with
  | [] => t
  | g :: l' => thread_globals_init l' (<[gl_key g := gl_callback g]> t)
  end.

(** ** Services *)

Section launcher.
Context `{MkConf} `{Library}.
Variable create_ok : nat -> bool.

Definition apply_call (i : nat) (c : conf_call) (st : services) : res services :=
  match c with
  | BindMessages => duda_conf_bind_messages i st
  | ServiceName name => duda_conf_service_name i name st
  | ServiceRoot => duda_conf_service_root i st
  end.

Fixpoint apply_calls (i : nat) (cs : list conf_call) (st : services) : res services :=
  match cs with
  | [] => Ret st
  | c :: cs' => st ← apply_call i c st; apply_calls i cs' st
  end.

(** The result lists the workers that were spawned. *)
Definition duda_service_register (i h : nat) (st : services) : res (list nat * services) :=
  if has_bootstrap h then
    let '(ret, calls) := service_init h in
    st ← apply_calls i calls st;
    if ret =? 0 then
      ws ← deref_ws i st;
      w ← duda_worker_spawn_all create_ok (lib_workers h);
      Ret (w, put_ws i (ws_set_registered ws) st)
    else Ret ([], st)
  else Fault ExitFailure.

Definition service_file (root : list Z) (ws : web_service) : list Z :=
  root ++ slash :: data (ws_name ws) ++ cs ".duda".

(** The library of a service, [None] when the file or the library is missing. *)
Definition open_service (root : list Z) (ws : web_service) : option nat :=
  match file_get_info (service_file root ws) with
  | Some f => if is_file f then duda_load_library (service_file root ws) else None
  | None => None
  end.

(** The service is unlinked from its host and freed; it stays in [services_loaded]. *)
Definition drop_service (vh i : nat) (st : services) : services :=
  mk_services (<[i := None]> (heap st))
    (alter (fun vs => mk_vs (vs_host vs) (vs_root_service vs) (List.filter (fun j => negb (Nat.eqb i j)) (vs_services vs)))
       vh (services_list st))
    (services_loaded st).

Fixpoint load_host (root : list Z) (vh : nat) (ids : list nat) (st : services) : res (list nat * services) :=
  match ids with
  | [] => Ret ([], st)
  | i :: ids' =>
      ws ← deref_ws i st;
      match open_service root ws with
      | None => load_host root vh ids' (drop_service vh i st)
      | Some h =>
          '(w, st) ← duda_service_register i h (put_ws i (ws_set_handler (Some h) ws) st);
          '(w', st) ← load_host root vh ids' st;
          Ret (w ++ w', st)
      end
  end.

(** The hosts from number [vh] on, [n] of them. *)
Fixpoint load_hosts (root : list Z) (vh n : nat) (st : services) : res (list nat * services) :=
  match n with
  | O => Ret ([], st)
  | S n' =>
      match services_list st !! vh with
      | None => Ret ([], st)
      | Some vs =>
          '(w, st) ← load_host root vh (vs_services vs) st;
          '(w', st) ← load_hosts root (S vh) n' st;
          Ret (w ++ w', st)
      end
  end.

Definition duda_load_services (root : list Z) (st : services) : res (list nat * services) :=
  load_hosts root 0 (length (services_list st)) st.

(** The services whose messages are redirected. *)
Fixpoint bound_services (loaded : list nat) (st : services) : res (list nat) :=
  match loaded with
  | [] => Ret []
  | i :: loaded' =>
      ws ← deref_ws i st;
      l ← bound_services loaded' st;
      Ret (if ws_bind_messages ws then i :: l else l)
  end.

(** [duda_master_init]: the services are loaded, then those that asked for it get their messages
    redirected. *)
Definition duda_master_init (root : list Z) (st : services) : res (list nat * services) :=
  '(_, st) ← duda_load_services root st;
  l ← bound_services (services_loaded st) st;
  Ret (l, st).

(** ** Workers *)

(** The part of [duda_worker_init] that goes through the services: the globals and the functions of a library, then those
    of its packages.  The lists of a service whose [duda_main] failed are [NULL]. *)
Definition init_library (h : nat) (s : tls * list nat) : tls * list nat :=
  (thread_globals_init (lib_global_dist h) s.1, s.2 ++ lib_pre_loop h).

Definition init_service (st : services) (i : nat) (s : tls * list nat) : res (tls * list nat) :=
  ws ← deref_ws i st;
  match ws_handler ws, ws_registered ws with
  | None, _ | _, false => Fault NullDeref
  | Some h, true => Ret (fold_left (fun s p => init_library p s) (lib_packages h) (init_library h s))
  end.

Fixpoint init_services (st : services) (ids : list nat) (s : tls * list nat) : res (tls * list nat) :=
  match ids with
  | [] => Ret s
  | i :: ids' => s ← init_service st i s; init_services st ids' s
  end.

Definition duda_worker_init (st : services) : res (tls * list nat) :=
  init_services st (concat (vs_services <$> services_list st)) (∅, []).

(** ** Packages *)

(** The loading of the library is commented out: [package_main] is still [NULL] when it is called. *)
Definition duda_package_load (packages_root pkgname : list Z) : res (option nat) :=
  match file_get_info (packages_root ++ slash :: pkgname ++ cs ".dpkg") with
  | None => Fault ExitFailure
  | Some f => if is_file f then Fault NullDeref else Ret None
  end.

Lemma package_load_never packages_root pkgname p : duda_package_load packages_root pkgname <> Ret (Some p).
Proof. unfold duda_package_load. destruct (file_get_info _) as [[[] ?]|]; done. Qed.
End launcher.

(** ** The services that stay *)

Definition live (st : services) (i : nat) : Prop := exists ws, heap st !! i = Some (Some ws).

(** The parent of every service is a host. *)
Definition parents_ok (st : services) : Prop :=
  forall i ws, heap st !! i = Some (Some ws) -> is_Some (services_list st !! ws_vh_parent ws).

(** The identifiers of the services of host [vh]. *)
Definition ids_of (st : services) (vh : nat) : option (list nat) := vs_services <$> (services_list st !! vh).

(** What an operation on the services [l] leaves alone. *)
Record frame (l : list nat) (st st' : services) : Prop := {
  frame_heap : forall j, j ∉ l -> heap st' !! j = heap st !! j;
  frame_loaded : services_loaded st' = services_loaded st;
  frame_parents : parents_ok st -> parents_ok st'
}.

Lemma frame_refl l st : frame l st st.
Proof. by constructor. Qed.

Lemma frame_trans l1 l2 l st1 st2 st3 : (forall j, j ∉ l -> (j ∉ l1) /\ (j ∉ l2)) ->
  frame l1 st1 st2 -> frame l2 st2 st3 -> frame l st1 st3.
Proof.
  intros Hl [H1 L1 P1] [H2 L2 P2]. constructor; [|congruence|auto].
  intros j Hj. destruct (Hl j Hj). by rewrite H2, H1.
Qed.

Lemma put_frame i ws ws' st : heap st !! i = Some (Some ws) -> ws_vh_parent ws' = ws_vh_parent ws ->
  frame [i] st (put_ws i ws' st).
Proof.
  intros Hi Hp. constructor; [|done|].
  - intros j Hj. cbn. apply list_lookup_insert_ne. set_solver.
  - intros P j w Hw. cbn in Hw. apply list_lookup_insert_Some in Hw as [(<- & [= <-] & _)|[_ Hw]]; cbn.
    + rewrite Hp. by apply (P i).
    + by apply (P j).
Qed.

Lemma put_live i ws st : live st i -> live (put_ws i ws st) i.
Proof.
  intros [w Hw]. exists ws. cbn. apply list_lookup_insert_eq. by eapply lookup_lt_Some.
Qed.

Lemma filter_filter_andb {A} (f g : A -> bool) l :
  List.filter f (List.filter g l) = List.filter (fun x => g x && f x) l.
Proof. induction l as [|x l IH]; cbn; [done|]. destruct (g x); cbn; [|done]. destruct (f x); by rewrite IH. Qed.

Lemma forallb_false {A} (f : A -> bool) l : forallb f l = false -> exists x, x ∈ l /\ f x = false.
Proof.
  induction l as [|x l IH]; cbn; [done|]. intros [Hx|Hl]%andb_false_iff.
  - exists x. split; [left|done].
  - destruct (IH Hl) as (y & Hy & E). exists y. split; [by right|done].
Qed.

(** A test of all positions is a test of all elements. *)
Lemma forallb_seq {A} (f : A -> bool) (g : nat -> bool) (l : list A) k :
  (forall i x, l !! i = Some x -> g (k + i)%nat = f x) -> forallb g (seq k (length l)) = forallb f l.
Proof.
  revert k; induction l as [|x l IH]; intros k Hg; cbn; [done|].
  rewrite <- (Hg 0%nat x), Nat.add_0_r by done. f_equal. apply IH. intros i y Hy.
  rewrite <- (Hg (S i) y) by done. f_equal. lia.
Qed.

Lemma drop_service_frame vh i st : frame [i] st (drop_service vh i st).
Proof.
  constructor; [|done|].
  - intros j Hj. cbn. apply list_lookup_insert_ne. set_solver.
  - intros P j w Hw. cbn in Hw. apply list_lookup_insert_Some in Hw as [(_ & [=] & _)|[_ Hw]].
    cbn. destruct (P j w Hw) as [vs Hvs]. rewrite list_lookup_alter. case_decide as Hd; [rewrite Hd|]; rewrite Hvs; by eexists.
Qed.

Section launcher_spec.
Context `{MkConf} `{Library}.
Variable create_ok : nat -> bool.

(** One configuration call: the service stays, with its host, and the lists of the hosts are the same. *)
Lemma apply_call_frame i c st : live st i -> parents_ok st ->
  exists st', apply_call i c st = Ret st' /\ frame [i] st st' /\ live st' i /\ (forall vh, ids_of st' vh = ids_of st vh) /\
    length (services_list st') = length (services_list st).
Proof.
  intros [ws Hw] P. destruct c as [|name|]; cbn; unfold duda_conf_bind_messages, duda_conf_service_name, duda_conf_service_root, deref_ws;
    rewrite Hw; cbn [mbind res_bind].
  - eexists. split; [done|]. split; [by eapply put_frame|]. split; [apply put_live; by exists ws|done].
  - eexists. split; [done|]. split; [by eapply put_frame|]. split; [apply put_live; by exists ws|done].
  - destruct (P i ws Hw) as [vs Hvs]. rewrite Hvs. eexists. split; [done|].
    pose proof (put_frame i ws (ws_set_root true ws) st Hw eq_refl) as [F1 F2 F3].
    split; [constructor; [done|done|]|split; [apply (put_live i (ws_set_root true ws) st); by exists ws|split]].
    + intros _ j w Hj. destruct (F3 P j w Hj) as [v Hv]. cbn in *.
      destruct (decide (ws_vh_parent w = ws_vh_parent ws)) as [->|Hne].
      * rewrite list_lookup_insert_eq by by eapply lookup_lt_Some. eauto.
      * rewrite list_lookup_insert_ne by done. eauto.
    + intros vh. unfold ids_of. cbn. destruct (decide (ws_vh_parent ws = vh)) as [<-|Hne].
      * rewrite list_lookup_insert_eq by by eapply lookup_lt_Some. by rewrite Hvs.
      * by rewrite list_lookup_insert_ne by done.
    + cbn. by rewrite length_insert.
Qed.

Lemma apply_calls_frame i calls : forall st, live st i -> parents_ok st ->
  exists st', apply_calls i calls st = Ret st' /\ frame [i] st st' /\ live st' i /\ (forall vh, ids_of st' vh = ids_of st vh) /\
    length (services_list st') = length (services_list st).
Proof.
  induction calls as [|c calls IH]; intros st Hl P; [by exists st; split_and!; [|apply frame_refl|..]|].
  cbn [apply_calls]. destruct (apply_call_frame i c st Hl P) as (st1 & -> & F1 & L1 & I1 & N1). cbn [mbind res_bind].
  destruct (IH st1 L1 (frame_parents _ _ _ F1 P)) as (st2 & E2 & F2 & L2 & I2 & N2). exists st2.
  split_and!; [done| |done| |congruence].
  - eapply frame_trans; [|exact F1|exact F2]. done.
  - intros vh. by rewrite I2, I1.
Qed.

(** Libraries that have their entry point and whose threads can be created. *)
Definition libraries_ok : Prop :=
  forall h, has_bootstrap h = true /\ Forall (fun w => create_ok w = true) (lib_workers h).
Hypothesis Hlib : libraries_ok.

Lemma spawn_all_ok l : Forall (fun w => create_ok w = true) l -> duda_worker_spawn_all create_ok l = Ret l.
Proof. induction 1 as [|w l Hw _ IH]; cbn; [done|]. by rewrite Hw, IH. Qed.

Lemma register_frame i h st : live st i -> parents_ok st ->
  exists w st', duda_service_register create_ok i h st = Ret (w, st') /\ frame [i] st st' /\ live st' i /\
    (forall vh, ids_of st' vh = ids_of st vh) /\ length (services_list st') = length (services_list st).
Proof.
  intros Hl P. destruct (Hlib h) as [Hb Hw]. unfold duda_service_register. rewrite Hb.
  destruct (service_init h) as [ret calls]. destruct (apply_calls_frame i calls st Hl P) as (st1 & -> & F1 & [ws Hws] & I1 & N1).
  cbn [mbind res_bind]. destruct (ret =? 0); [|exists [], st1; split_and!; [done..| |done|done]; by exists ws].
  unfold deref_ws. rewrite Hws. cbn [mbind res_bind]. rewrite spawn_all_ok by done. cbn [mbind res_bind].
  eexists _, _. split; [done|]. split.
  - eapply (frame_trans [i] [i]); [done|exact F1|by eapply put_frame].
  - split; [apply put_live; by exists ws|done].
Qed.

(** Whether the library of a service is found. *)
Definition opens (root : list Z) (st : services) (i : nat) : bool :=
  match heap st !! i with
  | Some (Some ws) => match open_service root ws with Some _ => true | None => false end
  | _ => false
  end.

(** The result of loading the services [ids] of host [vh]. *)
Record loaded_host (root : list Z) (vh : nat) (ids : list nat) (st st' : services) : Prop := {
  lh_frame : frame ids st st';
  lh_ids : forall i, i ∈ ids -> if opens root st i then live st' i else heap st' !! i = Some None;
  lh_other : forall vh', vh' <> vh -> ids_of st' vh' = ids_of st vh';
  lh_host : ids_of st' vh = List.filter (fun j => negb (bool_decide (j ∈ ids)) || opens root st j) <$> ids_of st vh;
  lh_length : length (services_list st') = length (services_list st)
}.

(** The first service is treated, then the others. *)
Lemma loaded_host_cons root vh i ids st st1 st2 : i ∉ ids ->
  frame [i] st st1 -> (if opens root st i then live st1 i else heap st1 !! i = Some None) ->
  (forall vh', vh' <> vh -> ids_of st1 vh' = ids_of st vh') ->
  ids_of st1 vh = List.filter (fun j => negb (bool_decide (j = i)) || opens root st j) <$> ids_of st vh ->
  length (services_list st1) = length (services_list st) ->
  loaded_host root vh ids st1 st2 -> loaded_host root vh (i :: ids) st st2.
Proof.
  intros Hi F1 Hl Ho Hh Hn [F2 L2 O2 H2 N2].
  assert (forall j, j <> i -> opens root st1 j = opens root st j) as Hop.
  { intros j Hj. unfold opens. by rewrite (frame_heap _ _ _ F1) by (rewrite list_elem_of_singleton; done). }
  constructor.
  - eapply frame_trans; [|exact F1|exact F2]. intros j. rewrite not_elem_of_cons, list_elem_of_singleton. tauto.
  - intros j Hj. apply elem_of_cons in Hj as [->|Hj].
    + unfold live. by rewrite (frame_heap _ _ _ F2) by done.
    + rewrite <- Hop by (intros ->; done). by apply L2.
  - intros vh' Hv. by rewrite O2, Ho.
  - rewrite H2, Hh, <- option_fmap_compose. apply option_fmap_ext. intros l. cbn. rewrite filter_filter_andb.
    apply List.filter_ext. intros j. destruct (decide (j = i)) as [->|Hne].
    + rewrite (bool_decide_true (i = i)), (bool_decide_false (i ∈ ids)), (bool_decide_true (i ∈ i :: ids)) by (done || left).
      cbn. by rewrite andb_true_r.
    + rewrite (bool_decide_false (j = i)) by done. rewrite Hop by done. cbn. f_equal. f_equal.
      apply bool_decide_ext. rewrite elem_of_cons. clear -Hne. tauto.
  - congruence.
Qed.

Lemma load_host_spec root vh ids : forall st, NoDup ids -> (forall i, i ∈ ids -> live st i) -> parents_ok st ->
  exists w st', load_host create_ok root vh ids st = Ret (w, st') /\ loaded_host root vh ids st st'.
Proof.
  induction ids as [|i ids IH]; intros st Hnd Hl P.
  - exists [], st. split; [done|]. constructor; [apply frame_refl|by intros i ?%not_elem_of_nil|done| |done].
    destruct (ids_of st vh) as [l|]; cbn; [|done]. f_equal. rewrite (List.filter_ext _ (fun _ => true)); [|done].
    induction l; cbn; congruence.
  - apply NoDup_cons in Hnd as [Hi Hnd]. destruct (Hl i) as [ws Hws]; [set_solver|].
    assert (forall st1, frame [i] st st1 -> forall j, j ∈ ids -> live st1 j) as Hlive.
    { intros st1 F1 j Hj. unfold live. rewrite (frame_heap _ _ _ F1); [apply Hl; set_solver|].
      intros ->%list_elem_of_singleton. done. }
    assert (opens root st i = match open_service root ws with Some _ => true | None => false end) as Ho
      by (unfold opens; by rewrite Hws).
    cbn [load_host]. unfold deref_ws. rewrite Hws. cbn [mbind res_bind].
    destruct (open_service root ws) as [h|].
    + set (st0 := put_ws i (ws_set_handler (Some h) ws) st).
      pose proof (put_frame i ws (ws_set_handler (Some h) ws) st Hws eq_refl) as F0. fold st0 in F0.
      destruct (register_frame i h st0) as (w & st1 & -> & F1 & L1 & I1 & N1);
        [apply put_live; by exists ws|by eapply frame_parents|].
      cbn [mbind res_bind]. assert (frame [i] st st1) as F by (by eapply (frame_trans [i] [i])).
      destruct (IH st1 Hnd (Hlive st1 F) (frame_parents _ _ _ F P)) as (w' & st2 & -> & L2). cbn [mbind res_bind].
      eexists _, _. split; [done|]. eapply loaded_host_cons; [done|exact F|by rewrite Ho| | |done|exact L2].
      * intros vh' _. by rewrite I1.
      * rewrite I1. unfold st0. change (ids_of (put_ws i (ws_set_handler (Some h) ws) st) vh) with (ids_of st vh).
        destruct (ids_of st vh) as [l|]; cbn; [|done]. f_equal. rewrite (List.filter_ext _ (fun _ => true)).
        { induction l; cbn; congruence. }
        intros j. case_bool_decide as E; [subst j; by rewrite Ho|done].
    + pose proof (drop_service_frame vh i st) as F.
      destruct (IH (drop_service vh i st) Hnd (Hlive _ F) (frame_parents _ _ _ F P)) as (w' & st2 & E2 & L2).
      exists w', st2. split; [done|]. eapply loaded_host_cons; [done|exact F| | | | |exact L2].
      * rewrite Ho. cbn. apply list_lookup_insert_eq. by eapply lookup_lt_Some.
      * intros vh' Hv. unfold ids_of. cbn. by rewrite list_lookup_alter_ne.
      * unfold ids_of. cbn. rewrite list_lookup_alter_eq, <- !option_fmap_compose.
        apply option_fmap_ext. intros vs. cbn. apply List.filter_ext. intros j.
        destruct (Nat.eqb_spec i j) as [->|Hne]; [by rewrite bool_decide_true, Ho|by rewrite bool_decide_false].
      * cbn. by rewrite length_alter.
Qed.

(** The services of the hosts from [vh] on. *)
Definition rest_ids (st : services) (vh n : nat) : list nat :=
  concat ((fun v => default [] (ids_of st v)) <$> seq vh n).

Lemma rest_ids_ext st st' vh n : (forall v, (vh <= v)%nat -> ids_of st' v = ids_of st v) -> rest_ids st' vh n = rest_ids st vh n.
Proof.
  intros E. unfold rest_ids. f_equal. apply list_fmap_ext. intros k v Hv. apply lookup_seq in Hv as [-> _].
  by rewrite E by lia.
Qed.

Lemma load_hosts_spec root n : forall vh st, NoDup (rest_ids st vh n) -> (forall i, i ∈ rest_ids st vh n -> live st i) ->
  parents_ok st -> (vh + n = length (services_list st))%nat ->
  exists w st', load_hosts create_ok root vh n st = Ret (w, st') /\ frame (rest_ids st vh n) st st' /\
    (forall i, i ∈ rest_ids st vh n -> if opens root st i then live st' i else heap st' !! i = Some None).
Proof.
  induction n as [|n IH]; intros vh st Hnd Hl P Hn.
  - exists [], st. split; [done|]. split; [apply frame_refl|]. by intros i ?%not_elem_of_nil.
  - destruct (services_list st !! vh) as [vs|] eqn:Ev; [|apply lookup_ge_None in Ev; lia].
    assert (rest_ids st vh (S n) = vs_services vs ++ rest_ids st (S vh) n) as Er.
    { unfold rest_ids. cbn. unfold ids_of at 1. by rewrite Ev. }
    rewrite Er in *. apply NoDup_app in Hnd as (Hnd1 & Hdisj & Hnd2).
    destruct (load_host_spec root vh (vs_services vs) st Hnd1) as (w & st1 & E1 & L1);
      [intros i Hi; apply Hl, elem_of_app; by left|done|].
    pose proof (lh_frame _ _ _ _ _ L1) as F1.
    assert (rest_ids st1 (S vh) n = rest_ids st (S vh) n) as Es
      by (apply rest_ids_ext; intros v Hv; apply (lh_other _ _ _ _ _ L1); lia).
    assert (forall i, i ∈ rest_ids st (S vh) n -> heap st1 !! i = heap st !! i) as Hsame.
    { intros i Hi. apply (frame_heap _ _ _ F1). intros Hi'. by destruct (Hdisj i Hi'). }
    destruct (IH (S vh) st1) as (w' & st2 & E2 & F2 & L2).
    + by rewrite Es.
    + intros i. rewrite Es. intros Hi. unfold live. rewrite Hsame by done. apply Hl, elem_of_app. by right.
    + by eapply frame_parents.
    + rewrite (lh_length _ _ _ _ _ L1). lia.
    + rewrite Es in *. eexists _, st2. cbn [load_hosts]. rewrite Ev, E1. cbn [mbind res_bind]. rewrite E2.
      split; [done|]. split.
      * eapply frame_trans; [|exact F1|exact F2]. intros j. rewrite not_elem_of_app. tauto.
      * intros i Hi. apply elem_of_app in Hi as [Hi|Hi].
        -- pose proof (lh_ids _ _ _ _ _ L1 i Hi) as Hc. unfold live in *.
           rewrite (frame_heap _ _ _ F2); [done|]. intros Hi'. by destruct (Hdisj i Hi).
        -- specialize (L2 i Hi). revert L2. unfold opens. by rewrite Hsame by done.
Qed.

Lemma bound_services_live l st : (forall i, i ∈ l -> live st i) -> exists b, bound_services l st = Ret b.
Proof.
  induction l as [|i l IH]; intros Hl; [by exists []|]. cbn. unfold deref_ws.
  destruct (Hl i) as [ws ->]; [by left|]. cbn [mbind res_bind].
  destruct IH as [b ->]; [intros; apply Hl; by right|]. cbn [mbind res_bind]. eauto.
Qed.

Lemma bound_services_freed l st i : i ∈ l -> heap st !! i = Some None -> bound_services l st = Fault UseAfterFree.
Proof.
  intros Hi Hf. induction l as [|j l IH]; [by apply not_elem_of_nil in Hi|]. cbn. unfold deref_ws.
  destruct (heap st !! j) as [[ws|]|] eqn:Ej; cbn [mbind res_bind]; [|done|done].
  apply elem_of_cons in Hi as [->|Hi]; [congruence|]. by rewrite IH.
Qed.

(** The services of a state that was read from a configuration. *)
Record configured_state (st : services) : Prop := {
  cs_nodup : NoDup (rest_ids st 0 (length (services_list st)));
  cs_live : forall i, i ∈ rest_ids st 0 (length (services_list st)) -> live st i;
  cs_parents : parents_ok st;
  cs_loaded : forall i, i ∈ services_loaded st <-> i ∈ rest_ids st 0 (length (services_list st))
}.

Lemma master_init_state root st : configured_state st ->
  if forallb (opens root st) (services_loaded st)
  then exists b st', duda_master_init create_ok root st = Ret (b, st')
  else duda_master_init create_ok root st = Fault UseAfterFree.
Proof.
  intros [Hnd Hl P Hld].
  destruct (load_hosts_spec root _ 0 st Hnd Hl P eq_refl) as (w & st' & E & F & Hi).
  unfold duda_master_init, duda_load_services. rewrite E. cbn [mbind res_bind]. rewrite (frame_loaded _ _ _ F).
  destruct (forallb (opens root st) (services_loaded st)) eqn:Ef.
  - destruct (bound_services_live (services_loaded st) st') as [b ->]; [|cbn; eauto].
    intros i Hin. rewrite forallb_forall in Ef. specialize (Ef i (proj1 (list_elem_of_In _ _) Hin)).
    specialize (Hi i (proj1 (Hld i) Hin)). by rewrite Ef in Hi.
  - destruct (forallb_false _ _ Ef) as (i & Hin & Ho). specialize (Hi i (proj1 (Hld i) Hin)). rewrite Ho in Hi.
    by rewrite (bound_services_freed _ _ i).
Qed.

(** ** From the configuration to the server *)

Lemma host_list_parent vh l ws : ws ∈ host_list vh l -> ws_vh_parent ws = vh.
Proof.
  intros Hw. apply list_elem_of_omap in Hw as (s & _ & E). unfold described in E. destruct (describes s); [|done].
  destruct (get_key_str s (cs "Name")); [|done]. by injection E as <-.
Qed.

Lemma host_entries_ids vh k hosts :
  concat (vs_services <$> host_entries vh k hosts) = seq k (length (all_services vh hosts)).
Proof.
  revert vh k; induction hosts as [|[host l] hosts IH]; intros vh k; cbn; [done|].
  by rewrite IH, length_app, seq_app.
Qed.

Lemma host_entries_length vh k hosts : length (host_entries vh k hosts) = length hosts.
Proof. revert vh k; induction hosts as [|[host l] hosts IH]; intros vh k; cbn; [done|]. by rewrite IH. Qed.

Lemma all_services_parent vh hosts ws : ws ∈ all_services vh hosts -> (vh <= ws_vh_parent ws < vh + length hosts)%nat.
Proof.
  revert vh; induction hosts as [|[host l] hosts IH]; intros vh Hw; cbn in *; [by apply not_elem_of_nil in Hw|].
  apply elem_of_app in Hw as [Hw|Hw]; [apply host_list_parent in Hw; lia|]. apply IH in Hw. lia.
Qed.

Lemma rest_ids_all st : rest_ids st 0 (length (services_list st)) = concat (vs_services <$> services_list st).
Proof.
  unfold rest_ids, ids_of. f_equal. apply list_eq. intros i. rewrite !list_lookup_fmap.
  destruct (decide (i < length (services_list st))%nat) as [Hi|Hi].
  - rewrite lookup_seq_lt by done. cbn. destruct (lookup_lt_is_Some_2 _ _ Hi) as [vs ->]. done.
  - rewrite lookup_seq_ge, (lookup_ge_None_2 (services_list st)) by lia. done.
Qed.

Lemma read_state_configured hosts : configured_state (read_state hosts).
Proof.
  assert (rest_ids (read_state hosts) 0 (length (services_list (read_state hosts))) = seq 0 (length (all_services 0 hosts))) as E
    by by rewrite rest_ids_all; cbn; rewrite host_entries_ids.
  constructor; try rewrite E.
  - apply NoDup_seq.
  - intros i Hi. apply elem_of_seq in Hi as [_ Hi]. destruct (lookup_lt_is_Some_2 _ _ Hi) as [ws Hw].
    exists ws. cbn. by rewrite list_lookup_fmap, Hw.
  - intros i ws Hi. cbn in *. apply list_lookup_fmap_Some in Hi as (w & [= <-] & Hw).
    apply lookup_lt_is_Some_2. rewrite host_entries_length.
    apply list_elem_of_lookup_2, all_services_parent in Hw. lia.
  - done.
Qed.

(** Start of the server: when every configured service has its file and its library, the initialisation reads every service's
    request for redirected messages and succeeds; when one has not, the loader frees it but leaves it
    in [services_loaded], and the initialisation reads it after it was freed. *)
Theorem missing_service_read_after_free hosts root : hosts_texts (configured hosts) -> hosts_ok (configured hosts) = true ->
  exists st, duda_conf_vhost_init hosts = Ret (0, st) /\
    if forallb (fun ws => match open_service root ws with Some _ => true | None => false end) (all_services 0 (configured hosts))
    then exists b st', duda_master_init create_ok root st = Ret (b, st')
    else duda_master_init create_ok root st = Fault UseAfterFree.
Proof.
  intros Ht Hok. exists (read_state (configured hosts)). split; [by rewrite vhost_init_read, Hok|].
  pose proof (master_init_state root _ (read_state_configured (configured hosts))) as Hm.
  assert (forallb (opens root (read_state (configured hosts))) (services_loaded (read_state (configured hosts)))
    = forallb (fun ws => match open_service root ws with Some _ => true | None => false end) (all_services 0 (configured hosts))) as E.
  { apply forallb_seq. intros i ws Hi. unfold opens, read_state. cbn. by rewrite list_lookup_fmap, Hi. }
  by rewrite E in Hm.
Qed.
End launcher_spec.

(** ** An instance *)

Module RefLauncher.
(** Only the library of the service [hello] is installed. *)
Definition conf : MkConf := {|
  section := RefConf.sec;
  section_name := fst;
  file_get_info := fun p =>
    if bool_decide (p = cs "/srv/hello.duda") then Some (mk_finfo true false)
    else if char_at p 0 =? 47 then Some (mk_finfo false true) else None;
  config_open := fun _ => Some [];
  config_create := fun _ => Some [];
  get_key_str := RefConf.get;
  get_key_bool := @get_key_bool RefConf.conf;
  mk_is_bool := fun b => (b =? 0) || (b =? 1);
  strcaseeq := fun a b => bool_decide (a = b);
  file_to_buffer := fun _ => None
|}.

Definition library : Library := {|
  duda_load_library := fun _ => Some 3%nat;
  has_bootstrap := fun _ => true;
  service_init := fun _ => (0, [BindMessages]);
  lib_global_dist := fun _ => [];
  lib_pre_loop := fun _ => [];
  lib_packages := fun _ => [];
  lib_workers := fun _ => [1%nat]
|}.

Lemma library_ok : @libraries_ok library (fun _ => true).
Proof. intros h. split; [done|]. by repeat constructor. Qed.
End RefLauncher.

Lemma missing_service_read_after_free_witness :
  exists st, @duda_conf_vhost_init RefLauncher.conf RefConf.hosts = Ret (0, st) /\
    @duda_master_init RefLauncher.conf RefLauncher.library (fun _ => true) (cs "/srv") st = Fault UseAfterFree.
Proof.
  destruct (@missing_service_read_after_free RefLauncher.conf RefLauncher.library (fun _ => true) RefLauncher.library_ok
    RefConf.hosts (cs "/srv")) as (st & E & Hm).
  - apply (bool_decide_unpack _). vm_compute. done.
  - vm_compute. reflexivity.
  - exists st. split; [exact E|]. vm_compute in Hm |- *. exact Hm.
Defined.

(** ** Globals *)

Lemma thread_globals_init_other l t k : k ∉ gl_key <$> l -> thread_globals_init l t !! k = t !! k.
Proof.
  revert t; induction l as [|g l IH]; intros t Hk; cbn; [done|]. cbn in Hk. apply not_elem_of_cons in Hk as [Hg Hk].
  rewrite IH by done. by rewrite lookup_insert_ne.
Qed.

(** In every worker, each global variable of a library has the value its callback returned, and [NULL] without one. *)
Lemma thread_globals_init_get l t g : NoDup (gl_key <$> l) -> g ∈ l ->
  duda_global_get g (thread_globals_init l t) = gl_callback g.
Proof.
  revert t; induction l as [|g' l IH]; intros t Hnd Hg; [by apply not_elem_of_nil in Hg|].
  cbn in Hnd. apply NoDup_cons in Hnd as [Hn Hnd]. apply elem_of_cons in Hg as [->|Hg]; cbn.
  - unfold duda_global_get. rewrite thread_globals_init_other by done. by rewrite lookup_insert_eq.
  - by apply IH.
Qed.

(** A service whose [duda_main] did not return 0 stays among the services of its host without the lists of its library:
    a worker that starts goes through a [NULL] list. *)
Lemma failed_service_null `{MkConf} `{Library} st i ids ws s :
  heap st !! i = Some (Some ws) -> ws_registered ws = false -> init_services st (i :: ids) s = Fault NullDeref.
Proof. intros Hi Hr. cbn. unfold init_service, deref_ws. rewrite Hi. cbn. rewrite Hr. by destruct (ws_handler ws). Qed.
