(* ===== verification/Redis.v ===== *)
(** * The event adapter of packages/redis

    packages/redis/redis.c: the connections of a worker, each with the request it was opened for,
    and the handlers that dispatch the events of a descriptor to hiredis.  hiredis itself is in
    RedisAsync.v: a handler's result names the function that is called on the context.  The registration uses
    [duda_event_add] of Event.v. *)

From S2P Require Import Prelude CString Event.

(** An asynchronous context of hiredis: its address, its descriptor and its error. *)
Record redisAsyncContext := mk_ac { ac_addr : Z; ac_fd : Z; ac_err : Z }.

Record duda_redis_t := mk_redis { rd_rc : redisAsyncContext; rd_dr : Z }.

(** The list under [redis_key]: [None] before the first connection of the worker. *)
Abbreviation redis_list := (option (list duda_redis_t)).

Inductive redis_call :=
  | HandleRead (addr : Z)
  | HandleWrite (addr : Z)
  | RedisDel (addr : Z)
  | PrintError.

Fixpoint redis_search (fd : Z) (l : list duda_redis_t) : option redisAsyncContext :=
  match l with
  | [] => None
  | e :: l' => if ac_fd (rd_rc e) =? fd then Some (rd_rc e) else redis_search fd l'
  end.

(** The three handlers differ in what they do with the context.  Without a list [mk_list_foreach]
    reads through [NULL]. *)
Definition redis_dispatch (act : Z -> redis_call) (fd : Z) (l : redis_list) : res redis_call :=
  match l with
  | None => Fault NullDeref
  | Some l => Ret (match redis_search fd l with None => PrintError | Some rc => act (ac_addr rc) end)
  end.

Definition redis_read : Z -> redis_list -> res redis_call := redis_dispatch HandleRead.
Definition redis_write : Z -> redis_list -> res redis_call := redis_dispatch HandleWrite.
Definition redis_error : Z -> redis_list -> res redis_call := redis_dispatch RedisDel.

(** The first entry of the descriptor is unlinked (and not freed). *)
Fixpoint redis_unlink (fd : Z) (l : list duda_redis_t) : list duda_redis_t :=
  match l with
  | [] => []
  | e :: l' => if ac_fd (rd_rc e) =? fd then l' else e :: redis_unlink fd l'
  end.

Definition redis_close (fd : Z) (l : redis_list) : res (Z * redis_list) :=
  match l with
  | None => Fault NullDeref
  | Some l => Ret (1, Some (redis_unlink fd l))
  end.

(** [c->err || c == NULL]: the pointer is followed before it is tested. *)
Definition redis_connect (c : option redisAsyncContext) (alloc_ok : bool) (dr_web : Z) (l : redis_list)
    : res (redisAsyncContext * redis_list) :=
  match c with
  | None => Fault NullDeref
  | Some c =>
      if negb (ac_err c =? 0) then Fault ExitFailure
      else if negb alloc_ok then Fault NullDeref
      else Ret (c, Some (default [] l ++ [mk_redis c dr_web]))
  end.

(** The request a context was opened for; its entry is removed. *)
Fixpoint request_search (addr : Z) (l : list duda_redis_t) : option (Z * list duda_redis_t) :=
  match l with
  | [] => None
  | e :: l' =>
      if ac_addr (rd_rc e) =? addr then Some (rd_dr e, l')
      else match request_search addr l' with Some (d, l'') => Some (d, e :: l'') | None => None end
  end.

Definition redis_request_map (addr : Z) (l : redis_list) : res (option Z * redis_list) :=
  match l with
  | None => Fault NullDeref
  | Some l => match request_search addr l with
              | None => Ret (None, Some l)
              | Some (d, l) => Ret (Some d, Some l)
              end
  end.

(** The addresses of the handlers as callbacks of Event.v. *)
Record redis_callbacks := mk_redis_cbs { f_read : Z; f_write : Z; f_error : Z; f_close : Z; f_timeout : Z }.

(** [event->add(fd, dr, DUDA_EVENT_RW, DUDA_EVENT_LEVEL_TRIGGERED, read, write, error, close, timeout)]: the
    request is passed where the mode is expected, so that every argument is one place late; the
    constants [rw] and [level] are Monkey's. *)
Definition redis_attach `{MkEvent} (rw level : Z) (f : redis_callbacks) (ac : redisAsyncContext) (dr : Z)
    (events : option (list duda_event_handler)) : res (Z * option (list duda_event_handler)) :=
  '(_, events) ← duda_event_add true events
    (mk_eh (ac_fd ac) (swrap 32 dr) rw (Some level) (Some (f_read f)) (Some (f_write f)) (Some (f_error f))
       (Some (f_close f)) (f_timeout f));
  Ret (0, events).

(** ** Properties *)

Lemma redis_search_fresh fd l c dr : redis_search fd l = None -> ac_fd c = fd ->
  redis_search fd (l ++ [mk_redis c dr]) = Some c.
Proof.
  intros Hn Hc. induction l as [|e l IH]; cbn in *; [by rewrite Hc, Z.eqb_refl|].
  destruct (ac_fd (rd_rc e) =? fd); [done|auto].
Qed.

Lemma request_search_fresh addr l c dr : request_search addr l = None -> ac_addr c = addr ->
  request_search addr (l ++ [mk_redis c dr]) = Some (dr, l).
Proof.
  intros Hn Hc. induction l as [|e l IH]; cbn in *; [by rewrite Hc, Z.eqb_refl|].
  destruct (ac_addr (rd_rc e) =? addr); [done|].
  destruct (request_search addr l) as [[? ?]|]; [done|]. by rewrite IH.
Qed.

Lemma redis_unlink_fresh fd l c dr : redis_search fd l = None -> ac_fd c = fd ->
  redis_unlink fd (l ++ [mk_redis c dr]) = l.
Proof.
  intros Hn Hc. induction l as [|e l IH]; cbn in *; [by rewrite Hc, Z.eqb_refl|].
  destruct (ac_fd (rd_rc e) =? fd); [done|]. by rewrite IH.
Qed.

(** A connection that was opened without an error, on a descriptor and with a context that are new in the worker: the events of the descriptor
    reach its context, the context leads back to its request once, and after that, or after the close event,
    the list is what it was. *)
Theorem redis_lifecycle c dr l : ac_err c = 0 -> redis_search (ac_fd c) l = None ->
  request_search (ac_addr c) l = None ->
  exists l', redis_connect (Some c) true dr (Some l) = Ret (c, Some l') /\
    redis_read (ac_fd c) (Some l') = Ret (HandleRead (ac_addr c)) /\
    redis_write (ac_fd c) (Some l') = Ret (HandleWrite (ac_addr c)) /\
    redis_error (ac_fd c) (Some l') = Ret (RedisDel (ac_addr c)) /\
    redis_request_map (ac_addr c) (Some l') = Ret (Some dr, Some l) /\
    redis_close (ac_fd c) (Some l') = Ret (1, Some l).
Proof.
  intros He Hs Hr. exists (l ++ [mk_redis c dr]). unfold redis_connect, redis_read, redis_write, redis_error,
    redis_dispatch, redis_request_map, redis_close. rewrite He. cbn [negb default].
  rewrite redis_search_fresh, request_search_fresh, redis_unlink_fresh by done. by split_and!.
Qed.

Lemma redis_lifecycle_witness :
  exists l', redis_connect (Some (mk_ac 100 7 0)) true 55 (Some [mk_redis (mk_ac 99 6 0) 54]) = Ret (mk_ac 100 7 0, Some l') /\
    redis_read 7 (Some l') = Ret (HandleRead 100) /\ redis_request_map 100 (Some l') = Ret (Some 55, Some [mk_redis (mk_ac 99 6 0) 54]).
Proof.
  destruct (redis_lifecycle (mk_ac 100 7 0) 55 [mk_redis (mk_ac 99 6 0) 54] eq_refl eq_refl eq_refl)
    as (l' & H1 & H2 & _ & _ & H5 & _).
  exists l'. exact (conj H1 (conj H2 H5)).
Defined.

(** The handler registered by [attach]: a write event runs the read handler, an error event the write handler, and a
    read event jumps to the constant of the trigger mode. *)
Lemma redis_attach_shifted `{MkEvent} rw level f ac dr l : MK_EVENT_READ <= swrap 32 dr ->
  exists eh, redis_attach rw level f ac dr (Some l) = Ret (0, Some (l ++ [eh])) /\
    cb_on_read eh = Some level /\ cb_on_write eh = Some (f_read f) /\ cb_on_error eh = Some (f_write f) /\
    cb_on_close eh = Some (f_error f) /\ cb_on_timeout eh = Some (f_close f).
Proof.
  intros Hd. unfold redis_attach, duda_event_add. cbn. rewrite (proj2 (Z.ltb_ge _ _) Hd). cbn.
  eexists. by split_and!.
Qed.
