(* ===== verification/Redirect.v ===== *)
(** * Redirections of the router

    [duda_router_redirect] of lib/objects/duda_router.c, which answers a request with the location of the
    same resource with a final slash, composed from the collector (Gc.v) and the response object
    (Http.v).  The addresses the allocator gives and Monkey's duplicate of the host are
    arguments, as is the value [junk] of the local [port_redirect], which is not always assigned. *)

From S2P Require Import Prelude CString Gc QueryString Http Session.

Definition ROUTER_REDIR_SIZE : Z := 64.

(** What is read of Monkey's request; [rd_host] is [None] when [host.data] is [NULL], whose length is 0. *)
Record redirect_request := mk_redirect {
  rd_host : option mk_ptr_t;
  rd_port : Z;
  rd_uri : mk_ptr_t
}.

Definition host_bytes (r : redirect_request) : list Z :=
  match rd_host r with Some h => ptr_bytes h | None => [] end.
Definition host_len (r : redirect_request) : Z :=
  match rd_host r with Some h => len h | None => 0 end.

(** The port that is tested: assigned only for a host and a port that is not the standard one. *)
Definition port_redirect (junk standard_port : Z) (r : redirect_request) : Z :=
  match rd_host r with
  | Some _ => if (0 <? rd_port r) && negb (rd_port r =? standard_port) then rd_port r else junk
  | None => junk
  end.

(** The text given to [snprintf]; ["%s"] stops at the NUL of the duplicated host. *)
Definition location_text (port : Z) (host location : list Z) : list Z :=
  cs "Location: FIXME://" ++ take (strlen host) host
    ++ (if 0 <? port then cs ":" ++ fmt_d port else []) ++ location.

Section redirect.
Context `{GcMem} `{MkHttp}.

Definition duda_router_redirect (junk standard_port buf_addr host_addr loc_addr : Z) (r : redirect_request)
    (g : duda_gc_map) (dr : http_dr) : res (Z * duda_gc_map * http_dr * list http_event) :=
  '(_, dr) ← duda_response_http_status dr 301;
  let redirect_size := swrap 32 (ROUTER_REDIR_SIZE + host_len r + len (rd_uri r) + 2) in
  '(buf, g) ← duda_gc_alloc (fun _ => buf_addr) g redirect_size;
  '(_, g) ← duda_gc_add g host_addr;
  '(location, g) ← duda_gc_alloc (fun _ => loc_addr) g (len (rd_uri r) + 2);
  if location =? 0 then Fault ExitFailure
  else if buf =? 0 then Fault NullDeref
  else
    let text := location_text (port_redirect junk standard_port r) (host_bytes r) (ptr_bytes (rd_uri r) ++ cs "/") in
    let n := Z.of_nat (length text) in
    (* len bytes are read from the buffer, whatever snprintf wrote there *)
    if redirect_size <? n then Fault OutOfBounds
    else
      '(_, dr) ← duda_response_http_header_n dr (printed redirect_size text ++ [0]) n;
      '(_, dr, ev) ← duda_response_end dr None;
      Ret (0, g, dr, ev).
End redirect.

(** ** The row fits its buffer *)

Lemma digits_of_length fuel b n acc : (length (digits_of fuel b n acc) <= fuel + length acc)%nat.
Proof.
  revert n acc. induction fuel as [|fuel IH]; intros n acc; cbn [digits_of]; [lia|].
  destruct (n / b =? 0); [cbn; lia|]. etrans; [apply IH|]. cbn. lia.
Qed.

Lemma fmt_d_length n : (length (fmt_d n) <= 11)%nat.
Proof.
  unfold fmt_d. destruct (n <? 0); cbn [length];
    [pose proof (digits_of_length 10 10 (- n) [])|pose proof (digits_of_length 10 10 n [])]; cbn [length] in *; lia.
Qed.

Lemma location_text_length port host uri : cstr host ->
  (length (location_text port host (uri ++ cs "/")) <= 31 + length host + length uri)%nat.
Proof.
  intros Hh. unfold location_text. rewrite strlen_cstr, take_ge by (done || lia).
  rewrite !length_app. change (length (cs "Location: FIXME://")) with 18%nat. change (length (cs "/")) with 1%nat.
  destruct (0 <? port); [|cbn; lia]. rewrite length_app. pose proof (fmt_d_length port).
  change (length (cs ":")) with 1%nat. lia.
Qed.

(** A registration with room, with the count of what is registered. *)
Lemma gc_add_counted `{HG : GcMemSpec} g q : gc_ok g -> gc_used g < gc_size g ->
  exists g', duda_gc_add g q = Ret (0, g') /\ gc_ok g' /\ registered g' ≡ₚ q :: registered g /\
    gc_size g' = gc_size g /\ gc_used g' = gc_used g + 1.
Proof.
  intros Hok Hroom. destruct (gc_add_room g q Hok Hroom) as (g' & E & Hok' & Hp & _ & Hs).
  exists g'. split_and!; [done..|]. rewrite (gc_used_count _ Hok'), (gc_used_count _ Hok), Hp. cbn [length]. lia.
Qed.

Section answer.
Context `{HG : GcMemSpec} `{HM : MkHttpSpec}.

(** The end of a response whose headers are still to be sent. *)
Lemma response_end_sends dr rq : h_request dr = Some rq -> 0 < rs_status rq ->
  st_http_headers_off dr = false -> st_http_headers_sent dr = false -> st_body_writes dr <= 0 ->
  st_http_content_length dr = -2 -> header_prepare rq = 0 ->
  exists dr', duda_response_end dr None
    = Ret (0, dr', [HeadersSent (rs_status rq) (rs_content_length rq); CorkOff]) /\ h_request dr' = Some rq.
Proof.
  intros Hrq Hst Hoff Hsent Hw Hcl Hp. unfold duda_response_end, with_request. rewrite Hrq, Hoff.
  rewrite (proj2 (Z.eqb_neq _ _)) by lia. cbn [andb]. unfold duda_response_send_headers, set_end_callback, with_request.
  cbn. rewrite Hoff, Hsent, Hrq, Hcl. cbn. change (-2 =? -2) with true. cbv iota. dbool.
  cbn. by eexists.
Qed.

(** The redirect answers 301 with one header row, the location of the request with a slash added, in
    a buffer that is large enough for every host, port and URI, and sends the headers; the three
    buffers it allocates are registered in the collector of the request. *)
Theorem redirect_location junk standard_port buf host_addr loc r g dr rq :
  h_request dr = Some rq -> st_http_headers_off dr = false -> st_http_headers_sent dr = false ->
  st_body_writes dr <= 0 -> st_http_content_length dr = -2 -> (forall rq, header_prepare rq = 0) ->
  (forall h, rd_host r = Some h -> ptr_ok h) -> ptr_ok (rd_uri r) -> host_len r + len (rd_uri r) < 2 ^ 30 ->
  buf <> 0 -> loc <> 0 -> gc_ok g -> gc_used g + 3 <= gc_size g ->
  exists g' dr' rq',
    duda_router_redirect junk standard_port buf host_addr loc r g dr
      = Ret (0, g', dr', [HeadersSent 301 (rs_content_length rq'); CorkOff]) /\
    h_request dr' = Some rq' /\
    rs_rows rq' = rs_rows (mk_http_status rq 301) ++
      [cs "Location: FIXME://" ++ host_bytes r
         ++ (let port := port_redirect junk standard_port r in if 0 <? port then cs ":" ++ fmt_d port else [])
         ++ ptr_bytes (rd_uri r) ++ cs "/"] /\
    gc_ok g' /\ registered g' ≡ₚ loc :: host_addr :: buf :: registered g.
Proof.
  intros Hrq Hoff Hsent Hw Hcl Hprep Hh Hu Hlen Hb Hl Hok Hroom.
  unfold duda_router_redirect, duda_response_http_status, with_request. rewrite Hrq. cbn [mbind res_bind].
  unfold duda_gc_alloc. rewrite (proj2 (Z.eqb_neq buf 0)), (proj2 (Z.eqb_neq loc 0)) by done.
  destruct (gc_add_counted g buf Hok) as (g1 & -> & Hok1 & Hp1 & Hs1 & Hu1); [lia|]. cbn [mbind res_bind].
  destruct (gc_add_counted g1 host_addr Hok1) as (g2 & -> & Hok2 & Hp2 & Hs2 & Hu2); [lia|]. cbn [mbind res_bind].
  destruct (gc_add_counted g2 loc Hok2) as (g3 & -> & Hok3 & Hp3 & Hs3 & Hu3); [lia|]. cbn [mbind res_bind].
  rewrite (proj2 (Z.eqb_neq buf 0)), (proj2 (Z.eqb_neq loc 0)) by done.
  set (port := port_redirect junk standard_port r).
  assert (Hch : cstr (host_bytes r) /\ Z.of_nat (length (host_bytes r)) <= host_len r /\ 0 <= host_len r).
  { unfold host_bytes, host_len. destruct (rd_host r) as [h|]; [|by split_and!].
    destruct (Hh h eq_refl) as [Hc Hr]. unfold ptr_bytes. rewrite length_take. split_and!; [by apply cstr_take|lia..]. }
  destruct Hch as (Hch & Hhl & Hh0). pose proof (location_text_length port _ (ptr_bytes (rd_uri r)) Hch) as Htl.
  assert (Hul : Z.of_nat (length (ptr_bytes (rd_uri r))) <= len (rd_uri r)).
  { destruct Hu as [_ Hr]. unfold ptr_bytes. rewrite length_take. lia. }
  destruct Hu as [_ Hu].
  set (text := location_text _ _ _) in *. change ROUTER_REDIR_SIZE with 64.
  rewrite (swrap_small 32) by (cbn; lia). set (size := 64 + _ + _ + 2).
  assert (Hts : Z.of_nat (length text) < size) by (unfold size; lia).
  rewrite (proj2 (Z.ltb_ge _ _)) by lia. rewrite printed_fits by done.
  unfold duda_response_http_header_n, with_request. cbn [h_request set_rq].
  destruct (header_add _ _ _) as [ret rq'] eqn:Ea. cbn [mbind res_bind].
  pose proof (header_add_keeps (mk_http_status rq 301) (text ++ [0]) (Z.of_nat (length text))) as Hk.
  pose proof (header_add_row (mk_http_status rq 301) (text ++ [0]) (Z.of_nat (length text))) as Hrow.
  rewrite Ea in Hk, Hrow. cbn [snd] in Hk, Hrow. rewrite http_status_sets in Hk.
  destruct (response_end_sends (set_rq (set_rq dr (mk_http_status rq 301)) rq') rq') as (dr' & -> & Hdr');
    [done|lia|done..|]. cbn [mbind res_bind]. rewrite Hk.
  exists g3, dr', rq'. split_and!; [done..| |done|by rewrite Hp3, Hp2, Hp1].
  rewrite Hrow, Nat2Z.id, take_app_length. unfold text, location_text. by rewrite strlen_cstr, take_ge by (done || lia).
Qed.
End answer.

Lemma redirect_location_witness :
  exists g' dr' rq',
    @duda_router_redirect (RefGc.ops []) RefHttp.ops 0 80 1000 1001 1002
      (mk_redirect (Some (mk_ptr (cs "localhost") 9)) 2001 (mk_ptr (cs "/docs") 5)) ref_gc RefHttp.new_dr
      = Ret (0, g', dr', [HeadersSent 301 (rs_content_length rq'); CorkOff]) /\
    h_request dr' = Some rq' /\ rs_rows rq' = [cs "Location: FIXME://localhost:2001/docs/"] /\
    registered g' ≡ₚ [1002; 1001; 1000].
Proof.
  destruct (@redirect_location (RefGc.ops []) (RefGc.gc_spec []) RefHttp.ops RefHttp.http_spec 0 80 1000 1001 1002
    (mk_redirect (Some (mk_ptr (cs "localhost") 9)) 2001 (mk_ptr (cs "/docs") 5)) ref_gc RefHttp.new_dr RefHttp.get_request)
    as (g' & dr' & rq' & E & Hd & Hr & _ & Hp).
  all: try reflexivity; try (cbn; lia).
  - intros h [= <-]. split; [by apply (bool_decide_unpack _)|cbn; lia].
  - split; [by apply (bool_decide_unpack _)|cbn; lia].
  - constructor; [cbn; lia|cbn; lia|reflexivity| |cbn; lia].
    apply (bool_decide_unpack _). vm_compute. exact I.
  - exists g', dr', rq'. split_and!; [exact E|exact Hd|exact Hr|exact Hp].
Defined.
