(* ===== verification/Stage30.v ===== *)
(** * Dispatch of a request to a loaded service

    From lib/duda_old_launcher.c: the stage 30 handler [duda_stage30], the choice of the service by
    the URI, the static files of the document root ([duda_override_docroot]), the preparation of a
    request context ([duda_service_run]) and the end of the server ([duda_plugin_exit]).  They compose
    the tree of requests (Event.v), the collector (Gc.v), the query string and the URI parsers
    (QueryString.v, Router.v), the redirect (Redirect.v) and the services of Conf.v and
    Launcher.v.

    [duda_service_run] calls the lookup of Router.v with pointers of other types than it takes, so that
    what the call returns is an argument here. *)

From stdpp Require Import gmap.
From S2P Require Import Prelude CString Gc Router RouterSpec QueryString Event Http Redirect Conf Launcher.

(** ** Data *)

(** The buffer of a path: [rp_static] when it is [real_path_static], [None] for [NULL]; the list is
    the whole buffer. *)
Record real_path := mk_rp { rp_static : bool; rp_buf : option (list Z); rp_len : Z }.

(** What is used of Monkey's request and session. *)
Record stage_request := mk_sr {
  sr_addr : Z;
  sr_socket : Z;
  sr_host_conf : nat;
  sr_uri : mk_ptr_t;
  sr_query : option mk_ptr_t;
  sr_http : mk_http_request;
  sr_host : option mk_ptr_t;
  sr_port : Z;
  sr_real_path : real_path;
  sr_file_info : option file_info;
  sr_blocked : bool
}.

Definition sr_set_path (rp : real_path) (sr : stage_request) : stage_request :=
  mk_sr (sr_addr sr) (sr_socket sr) (sr_host_conf sr) (sr_uri sr) (sr_query sr) (sr_http sr) (sr_host sr)
    (sr_port sr) rp (sr_file_info sr) (sr_blocked sr).
Definition sr_set_file (f : file_info) (sr : stage_request) : stage_request :=
  mk_sr (sr_addr sr) (sr_socket sr) (sr_host_conf sr) (sr_uri sr) (sr_query sr) (sr_http sr) (sr_host sr)
    (sr_port sr) (sr_real_path sr) (Some f) true.

(** The request contexts of a worker, by their address, and the tree they are registered in. *)
Record context := mk_ctx {
  cx_node : dr_node;
  cx_gc : option duda_gc_map;
  cx_http : http_dr;
  cx_qs : duda_qs_map;
  cx_uri : duda_router_uri;
  cx_path : option (duda_router_path Z)
}.

Record worker := mk_worker { wk_tree : option rb_tree; wk_ctx : gmap Z context }.

(** What a request led to. *)
Inductive ran : Type :=
  | RanNothing
  | RanCallback (cb : Z)
  | RanRedirect (ev : list http_event).

Inductive plugin_ret := MK_PLUGIN_RET_NOT_ME | MK_PLUGIN_RET_CONTINUE.

Definition MK_PATH_BASE : Z := 128.

(** ** Buffers *)

Definition write_at (buf : list Z) (off : nat) (src : list Z) : res (list Z) :=
  if (off + length src <=? length buf)%nat
  then Ret (take off buf ++ src ++ drop (off + length src) buf)
  else Fault OutOfBounds.

(** [mem_realloc] on a block: the new one starts with what the old one held. *)
Definition realloc_buf (alloc : Z -> option (list Z)) (old : list Z) (n : Z) : option (list Z) :=
  (fun b => take (Z.to_nat n) (old ++ drop (length old) b)) <$> alloc n.

Section docroot.
Context `{MkConf}.
(** A new block of [n] bytes, whatever it holds. *)
Variable alloc : Z -> option (list Z).

(** The buffer for a path of [n] bytes. *)
Definition path_room (n : Z) (rp : real_path) : real_path :=
  if (rp_len rp <? n) && (MK_PATH_BASE <? n) then
    if rp_static rp then mk_rp false (alloc (n + 1)) (rp_len rp)
    else mk_rp false (match rp_buf rp with Some b => realloc_buf alloc b (n + 1) | None => alloc (n + 1) end) (rp_len rp)
  else rp.

Definition duda_override_docroot (sr : stage_request) (uri_offset : Z) (path : list Z) (plen : Z)
    : res (Z * stage_request) :=
  let uri := sr_uri sr in
  let rp := path_room (wrap 32 (len uri + plen)) (sr_real_path sr) in
  match rp_buf rp with
  | None => Ret (-1, sr_set_path rp sr)
  | Some b =>
      b ← write_at b 0 (take (Z.to_nat plen) path);
      (* a negative length is a huge one *)
      if len uri <? uri_offset then Fault OutOfBounds
      else
        b ← write_at b (Z.to_nat plen) (take (Z.to_nat (len uri - uri_offset)) (drop (Z.to_nat uri_offset) (data uri)));
        let l := Z.abs (swrap 32 (plen + len uri - uri_offset)) in
        b ← write_at b (Z.to_nat l) [0];
        let sr := sr_set_path (mk_rp (rp_static rp) (Some b) l) sr in
        match file_get_info (take (strlen b) b) with
        | None => Ret (-1, sr)
        | Some f => Ret (0, sr_set_file f sr)
        end
  end.
End docroot.

(** ** The service of a request *)

(** The first service of the host whose name starts the URI after its slash. *)
Fixpoint duda_get_service_from_uri (st : services) (ids : list nat) (uri : mk_ptr_t) : res (option nat) :=
  match ids with
  | [] => Ret None
  | i :: ids' =>
      ws ← deref_ws i st;
      if strncmp (data (ws_name ws)) (drop 1 (data uri)) (Z.to_nat (len (ws_name ws))) =? 0 then Ret (Some i)
      else duda_get_service_from_uri st ids' uri
  end.

Section run.
Context `{MkConf} `{GcMem} `{RbTree} `{MkHttp}.

(** What the environment answers: the address of a new context ([None] without memory) and what its
    memory holds, the arguments of the redirect, the root callback of a service, and the result of the
    lookup of a rule. *)
Variable new_ctx : option (Z * context).
Variables junk standard_port buf_addr host_addr loc_addr : Z.
Variable router_root_cb : nat -> option Z.
Variable path_lookup : nat -> context -> res (lookup_code * option (duda_router_path Z)).

(** The context of the request: the registered one, or a new one, which is registered. *)
Definition get_context (sr : stage_request) (w : worker) : res (option (context * worker)) :=
  match duda_dr_list_get (wk_tree w) (sr_addr sr) with
  | Some d =>
      match wk_ctx w !! node_addr d with
      | Some c => Ret (Some (c, w))
      | None => Fault UseAfterFree
      end
  | None =>
      match new_ctx with
      | None => Ret None
      | Some (a, raw) =>
          let d := mk_node a (sr_socket sr) (sr_addr sr) in
          let h := cx_http raw in
          let c := mk_ctx d (duda_gc_init).2
                     (mk_http_dr (sr_socket sr) (h_has_session h) (Some (sr_http sr)) (st_http_content_length h)
                        (st_http_headers_off h) (st_http_headers_sent h) (st_body_writes h) (h_end_callback h) (h_queue_out h))
                     (cx_qs raw) (cx_uri raw) (cx_path raw) in
          t ← duda_dr_list_add (wk_tree w) d;
          Ret (Some (c, mk_worker (Some t) (<[a := c]> (wk_ctx w))))
      end
  end.

(** The assignments of [duda_service_run] and the two parsers. *)
Definition prepare (sr : stage_request) (c : context) : res context :=
  let h := mk_http_dr (h_socket (cx_http c)) true (Some (sr_http sr)) (-2) false false 0 None [] in
  '(_, qs) ← duda_qs_parse (mk_qs_map 0 (qs_entries (cx_qs c))) (sr_query sr);
  Ret (mk_ctx (cx_node c) (cx_gc c) h qs (default [] (duda_router_uri_parse (sr_uri sr))) (cx_path c)).

Definition put_ctx (c : context) (w : worker) : worker :=
  mk_worker (wk_tree w) (<[node_addr (cx_node c) := c]> (wk_ctx w)).

(** The redirect of a request for the root of a service without its slash. *)
Definition redirect_root (sr : stage_request) (c : context) : res (context * list http_event) :=
  match cx_gc c with
  | None => Fault NullDeref
  | Some g =>
      '(_, g, h, ev) ← duda_router_redirect junk standard_port buf_addr host_addr loc_addr
                         (mk_redirect (sr_host sr) (sr_port sr) (sr_uri sr)) g (cx_http c);
      Ret (mk_ctx (cx_node c) (Some g) h (cx_qs c) (cx_uri c) (cx_path c), ev)
  end.

(** The root callback, the rule of the router, or nothing. *)
Definition route (i : nat) (ws : web_service) (sr : stage_request) (c : context) (w : worker) : res (Z * ran * worker) :=
  let look :=
    '(code, p) ← path_lookup i c;
    match code, p with
    | DUDA_ROUTER_MATCH, Some p =>
        Ret (0, RanCallback (callback p), put_ctx (mk_ctx (cx_node c) (cx_gc c) (cx_http c) (cx_qs c) (cx_uri c) (Some p)) w)
    | DUDA_ROUTER_MATCH, None => Fault NullDeref
    | DUDA_ROUTER_REDIRECT, _ => Ret (0, RanRedirect [], w)
    | DUDA_ROUTER_NOTFOUND, _ => Ret (-1, RanNothing, w)
    end in
  match router_root_cb i with
  | Some cb =>
      if duda_router_is_request_root (ws_is_root ws) (ws_fixed_name ws) (sr_uri sr) then
        if len (sr_uri sr) <=? 0 then Fault OutOfBounds
        else if char_at (data (sr_uri sr)) (Z.to_nat (len (sr_uri sr) - 1)) =? Router.slash then Ret (0, RanCallback cb, w)
        else '(c, ev) ← redirect_root sr c; Ret (0, RanRedirect ev, put_ctx c w)
      else look
  | None => look
  end.

Definition duda_service_run (st : services) (i : nat) (sr : stage_request) (w : worker) : res (Z * ran * worker) :=
  o ← get_context sr w;
  match o with
  | None => Ret (-1, RanNothing, w)
  | Some (c, w) =>
      c ← prepare sr c;
      ws ← deref_ws i st;
      route i ws sr c (put_ctx c w)
  end.

(** ** The handler *)

Variable alloc : Z -> option (list Z).

Definition run_result (r : Z * ran * worker) (sr : stage_request) : plugin_ret * ran * worker * stage_request :=
  let '(ret, o, w) := r in
  (if ret =? 0 then MK_PLUGIN_RET_CONTINUE else MK_PLUGIN_RET_NOT_ME, o, w, sr).

Definition duda_stage30 (document_root : option mk_ptr_t) (st : services) (sr : stage_request) (w : worker)
    : res (plugin_ret * ran * worker * stage_request) :=
  match list_find (fun vs => vs_host vs = sr_host_conf sr) (services_list st) with
  | None => Ret (MK_PLUGIN_RET_NOT_ME, RanNothing, w, sr)
  | Some (_, vs) =>
      let services :=
        match vs_root_service vs with
        | Some i => r ← duda_service_run st i sr w; Ret (run_result r sr)
        | None =>
            if 1 <? len (sr_uri sr) then
              o ← duda_get_service_from_uri st (vs_services vs) (sr_uri sr);
              match o with
              | None => Ret (MK_PLUGIN_RET_NOT_ME, RanNothing, w, sr)
              | Some i => r ← duda_service_run st i sr w; Ret (run_result r sr)
              end
            else Ret (MK_PLUGIN_RET_NOT_ME, RanNothing, w, sr)
        end in
      match document_root with
      | Some d =>
          if strncmp (data (sr_uri sr)) (cs "/ddr") 4 =? 0 then
            '(_, sr) ← duda_override_docroot alloc sr 4 (data d) (len d);
            Ret (MK_PLUGIN_RET_NOT_ME, RanNothing, w, sr)
          else services
      | None => services
      end
  end.
End run.

(** ** The document root *)

(** What Monkey keeps of a request's path: the fixed buffer has [MK_PATH_BASE] bytes, an allocated one at least as
    many, and the path with its NUL fits. *)
Definition path_ok (rp : real_path) : Prop :=
  exists b, rp_buf rp = Some b /\ 0 <= rp_len rp < Z.of_nat (length b) /\
    if rp_static rp then Z.of_nat (length b) = MK_PATH_BASE else MK_PATH_BASE <= Z.of_nat (length b).

(** An allocator that gives blocks of the size asked for. *)
Definition alloc_ok (alloc : Z -> option (list Z)) : Prop :=
  forall n, 0 <= n -> exists b, alloc n = Some b /\ Z.of_nat (length b) = n.

Lemma write_at_ok buf off src : (off + length src <= length buf)%nat ->
  write_at buf off src = Ret (take off buf ++ src ++ drop (off + length src) buf).
Proof. intros Hl. unfold write_at. by rewrite (proj2 (Nat.leb_le _ _)). Qed.

Lemma write_at_length buf off src buf' : write_at buf off src = Ret buf' -> length buf' = length buf.
Proof.
  unfold write_at. destruct (Nat.leb_spec (off + length src) (length buf)); [|done]. intros [= <-].
  rewrite !length_app, length_take, length_drop. lia.
Qed.

Lemma write_at_fault buf off src f : write_at buf off src = Fault f -> f = OutOfBounds.
Proof. unfold write_at. destruct (_ <=? _)%nat; congruence. Qed.

(** Three writes that compose a string: [a], [b] after it, and the NUL. *)
Lemma compose_buffer buf a b : (length a + length b < length buf)%nat ->
  exists rest, (b1 ← write_at buf 0 a; b2 ← write_at b1 (length a) b; write_at b2 (length a + length b) [0])
    = Ret (a ++ b ++ 0 :: rest).
Proof.
  intros Hl. rewrite write_at_ok by lia. cbn [mbind res_bind Nat.add take app].
  rewrite take_0. cbn [app]. rewrite write_at_ok by (rewrite length_app, length_drop; lia). cbn [mbind res_bind].
  rewrite take_app_length.
  rewrite write_at_ok by (rewrite !length_app, !length_drop, length_app, length_drop; cbn; lia).
  rewrite (app_assoc a b), (take_app_length' (a ++ b)) by (by rewrite length_app).
  eexists. rewrite <- (app_assoc a b ([0] ++ _)). done.
Qed.

Lemma path_room_ok alloc n rp : alloc_ok alloc -> 0 <= n -> path_ok rp ->
  exists b, rp_buf (path_room alloc n rp) = Some b /\
    (n < Z.of_nat (length b) \/ (n <= MK_PATH_BASE /\ MK_PATH_BASE <= Z.of_nat (length b))).
Proof.
  intros Ha Hn (b & Hb & Hlen & Hcap). unfold path_room.
  destruct (Z.ltb_spec (rp_len rp) n), (Z.ltb_spec MK_PATH_BASE n); cbn [andb];
    [|exists b; split; [done|]; destruct (rp_static rp); lia..].
  destruct (Ha (n + 1)) as (nb & Hnb & Hnl); [lia|].
  destruct (rp_static rp); cbn [rp_buf]; [exists nb; split; [done|lia]|].
  rewrite Hb. unfold realloc_buf. rewrite Hnb. eexists. split; [done|].
  left. rewrite length_take, length_app, length_drop. lia.
Qed.

(** The path of a static file is the document root followed by the URI from [off] on, and it is composed inside the
    buffer of the request, as long as at least one byte of the URI is left out. *)
Lemma override_docroot_path `{MkConf} alloc sr off path :
  alloc_ok alloc -> path_ok (sr_real_path sr) -> cstr path -> cstr (data (sr_uri sr)) ->
  len (sr_uri sr) = Z.of_nat (length (data (sr_uri sr))) -> 1 <= off <= len (sr_uri sr) ->
  len (sr_uri sr) + Z.of_nat (length path) < 2 ^ 31 ->
  let full := path ++ drop (Z.to_nat off) (data (sr_uri sr)) in
  exists rp sr', duda_override_docroot alloc sr off path (Z.of_nat (length path))
      = Ret (match file_get_info full with Some _ => 0 | None => -1 end, sr') /\
    sr_real_path sr' = rp /\ rp_len rp = Z.of_nat (length full) /\
    (exists b, rp_buf rp = Some b /\ take (strlen b) b = full) /\
    sr_blocked sr' = match file_get_info full with Some _ => true | None => sr_blocked sr end.
Proof.
  intros Ha Hp Hcp Hcu Hlu Hoff Hlen full. unfold duda_override_docroot.
  rewrite wrap_small by lia.
  destruct (path_room_ok alloc (len (sr_uri sr) + Z.of_nat (length path)) _ Ha ltac:(lia) Hp) as (b & -> & Hcap).
  change MK_PATH_BASE with 128 in Hcap.
  set (u := drop (Z.to_nat off) (data (sr_uri sr))) in *.
  assert (Hul : length u = (Z.to_nat (len (sr_uri sr)) - Z.to_nat off)%nat) by (unfold u; rewrite length_drop; lia).
  destruct (compose_buffer b path u) as [rest Hc]; [lia|].
  rewrite Nat2Z.id, (take_ge path), (take_ge u) by lia. rewrite (proj2 (Z.ltb_ge _ _)) by lia.
  rewrite (swrap_small 32) by (cbn; lia).
  replace (Z.to_nat (Z.abs (Z.of_nat (length path) + len (sr_uri sr) - off))) with (length path + length u)%nat by lia.
  inv_res Hc. rewrite H0. cbn [mbind res_bind]. inv_res Hc. rewrite H1. cbn [mbind res_bind]. rewrite Hc. cbn [mbind res_bind].
  assert (Hfull : take (strlen (path ++ u ++ 0 :: rest)) (path ++ u ++ 0 :: rest) = full).
  { assert (Hs : strlen (path ++ u ++ 0 :: rest) = length (path ++ u)).
    { rewrite app_assoc. assert (Hcf : cstr (path ++ u)) by (apply cstr_app; split; [done|by apply cstr_drop]).
      clear -Hcf. induction Hcf as [|c l Hc _ IH]; [done|]. cbn [app strlen length].
      rewrite (proj2 (Z.eqb_neq c 0)) by lia. by rewrite IH. }
    rewrite Hs, app_assoc, take_app_length. done. }
  rewrite Hfull. exists (mk_rp (rp_static (path_room alloc (len (sr_uri sr) + Z.of_nat (length path)) (sr_real_path sr)))
    (Some (path ++ u ++ 0 :: rest)) (Z.abs (Z.of_nat (length path) + len (sr_uri sr) - off))).
  destruct (file_get_info full) as [f|]; eexists; (split; [done|]); cbn; (split_and!; [done| |by eexists|done]);
    unfold full; rewrite length_app; lia.
Qed.

(** A URI that is appended whole to a root so that both have [MK_PATH_BASE] bytes: the terminating NUL is written
    behind the fixed buffer of the request. *)
Lemma override_docroot_whole_uri `{MkConf} alloc sr path b :
  rp_buf (sr_real_path sr) = Some b -> Z.of_nat (length b) = MK_PATH_BASE ->
  len (sr_uri sr) = Z.of_nat (length (data (sr_uri sr))) ->
  len (sr_uri sr) + Z.of_nat (length path) = MK_PATH_BASE ->
  duda_override_docroot alloc sr 0 path (Z.of_nat (length path)) = Fault OutOfBounds.
Proof.
  intros Hb Hl Hlu Hsum. unfold duda_override_docroot, path_room. change MK_PATH_BASE with 128 in *.
  rewrite Hsum, wrap_small by lia. rewrite (Z.ltb_irrefl 128), andb_false_r, Hb.
  rewrite Nat2Z.id, (take_ge path), write_at_ok by lia. cbn [mbind res_bind Nat.add]. rewrite take_0. cbn [app].
  rewrite (proj2 (Z.ltb_ge _ _)) by lia. rewrite drop_0, (take_ge (data (sr_uri sr))) by lia.
  rewrite write_at_ok by (rewrite length_app, length_drop; lia). cbn [mbind res_bind]. rewrite take_app_length.
  rewrite (swrap_small 32) by (cbn; lia). unfold write_at at 1.
  rewrite (proj2 (Nat.leb_gt _ _)); [done|]. rewrite !length_app, !length_drop, length_app, length_drop. cbn [length]. lia.
Qed.

(** ** The service of a request *)

(** A service that is there, with a name of its own length. *)
Definition named (st : services) (i : nat) : Prop :=
  exists ws, heap st !! i = Some (Some ws) /\ cstr (data (ws_name ws)) /\
    len (ws_name ws) = Z.of_nat (length (data (ws_name ws))).

(** The name of the service starts the URI after its slash. *)
Definition name_matches (st : services) (uri : mk_ptr_t) (i : nat) : bool :=
  match heap st !! i with
  | Some (Some ws) => bool_decide (data (ws_name ws) `prefix_of` drop 1 (data uri))
  | _ => false
  end.

Lemma get_service_find st uri ids : cstr (data uri) -> Forall (named st) ids ->
  duda_get_service_from_uri st ids uri = Ret (List.find (name_matches st uri) ids).
Proof.
  intros Hu. induction 1 as [|i ids (ws & Hws & Hc & Hl) _ IH]; [done|]. cbn [duda_get_service_from_uri List.find].
  unfold deref_ws. rewrite Hws. cbn [mbind res_bind]. unfold name_matches at 1. rewrite Hws, Hl, Nat2Z.id.
  assert (Hiff : strncmp (data (ws_name ws)) (drop 1 (data uri)) (length (data (ws_name ws))) = 0
    <-> data (ws_name ws) `prefix_of` drop 1 (data uri)).
  { rewrite strncmp_take by (done || by apply cstr_drop). rewrite (take_ge (data (ws_name ws))) by lia. split.
    - intros E. exists (drop (length (data (ws_name ws))) (drop 1 (data uri))). rewrite E at 1. by rewrite take_drop.
    - intros [k ->]. by rewrite take_app_length. }
  case_bool_decide as Hp.
  - by rewrite (proj2 (Z.eqb_eq _ _) (proj2 Hiff Hp)).
  - rewrite (proj2 (Z.eqb_neq _ _)) by tauto. done.
Qed.

(** ** The context of a request *)

Definition query_of (sr : stage_request) : list (list Z * list Z) :=
  match sr_query sr with Some q => query_params (ptr_bytes q) | None => [] end.

(** What Monkey guarantees of a request. *)
Record request_ok (sr : stage_request) : Prop := {
  ok_uri : ptr_ok (sr_uri sr);
  ok_query q : sr_query sr = Some q -> 0 <= len q < 2 ^ 31 /\ (Z.to_nat (len q) <= length (data q))%nat
}.

(** A context ready for the callback: nothing sent or queued, the parameters of the query string and the
    segments of the URI. *)
Record fresh_context (sr : stage_request) (socket : Z) (c : context) : Prop := {
  fresh_http : cx_http c = mk_http_dr socket true (Some (sr_http sr)) (-2) false false 0 None [];
  fresh_query : params_of (cx_qs c) = query_of sr;
  fresh_uri : Forall2 field_rep (cx_uri c) (take DUDA_ROUTER_URI_MAX (rooted_segments (ptr_bytes (sr_uri sr))))
}.

Lemma prepare_context sr c : request_ok sr -> length (qs_entries (cx_qs c)) = QS_ENTRIES_SIZE ->
  if (length (query_of sr) <=? QS_ENTRIES_SIZE)%nat then
    exists c', prepare sr c = Ret c' /\ fresh_context sr (h_socket (cx_http c)) c' /\
      cx_node c' = cx_node c /\ cx_gc c' = cx_gc c
  else prepare sr c = Fault OutOfBounds.
Proof.
  intros [Hu Hq] He. unfold prepare, query_of.
  destruct (uri_parse_rep _ Hu) as (ruri & -> & Hseg). cbn [default].
  destruct (sr_query sr) as [q|] eqn:Eq.
  - destruct (Hq q eq_refl) as [Hl Hd]. pose proof (qs_parse_ok (mk_qs_map 0 (qs_entries (cx_qs c))) q Hl Hd He) as Hp.
    cbv zeta in Hp. destruct (_ <=? _)%nat; [|by rewrite Hp]. destruct Hp as (qs' & -> & _ & _ & Hps & _).
    cbn [mbind res_bind]. eexists. split; [done|]. split_and!; [|done..].
    split; [done| |done]. unfold query_of. by rewrite Eq.
  - cbn [length Nat.leb duda_qs_parse mbind res_bind]. eexists. split; [done|]. split_and!; [|done..].
    split; [done| |done]. unfold query_of. by rewrite Eq.
Qed.

Section dispatch.
Context `{MkConf} `{HG : GcMem} `{HR : RbTreeSpec} `{HM : MkHttp}.
Variables (a : Z) (raw : context) (junk standard_port buf_addr host_addr loc_addr : Z).
Variable router_root_cb : nat -> option Z.
Variable path_lookup : nat -> context -> res (lookup_code * option (duda_router_path Z)).
Variable alloc : Z -> option (list Z).

Local Abbreviation run := (duda_service_run (Some (a, raw)) junk standard_port buf_addr host_addr loc_addr router_root_cb path_lookup).
Local Abbreviation stage30 := (duda_stage30 (Some (a, raw)) junk standard_port buf_addr host_addr loc_addr router_root_cb path_lookup alloc).
Local Abbreviation route_to := (route junk standard_port buf_addr host_addr loc_addr router_root_cb path_lookup).

(** No registered request has the address or the socket of the new one. *)
Definition new_request (sr : stage_request) (t : rb_tree) : Prop :=
  forall d, d ∈ inorder t -> node_socket d <> sr_socket sr /\ node_request d <> sr_addr sr.

(** The memory of a new context and its registration. *)
Lemma get_context_new sr w t : wk_tree w = Some t -> ordered node_socket (inorder t) -> new_request sr t ->
  exists c t', get_context (Some (a, raw)) sr w = Ret (Some (c, mk_worker (Some t') (<[a := c]> (wk_ctx w)))) /\
    cx_node c = mk_node a (sr_socket sr) (sr_addr sr) /\ cx_gc c = (duda_gc_init).2 /\
    h_socket (cx_http c) = sr_socket sr /\ cx_qs c = cx_qs raw /\
    ordered node_socket (inorder t') /\ (forall d, d ∈ inorder t' <-> d = cx_node c \/ d ∈ inorder t).
Proof.
  intros Ht Ho Hnew. unfold get_context. rewrite Ht. cbn [duda_dr_list_get].
  destruct (dr_search (sr_addr sr) t) as [d|] eqn:Es.
  { apply dr_search_sound in Es as [Hr Hd]. by destruct (Hnew d Hd). }
  destruct (dr_list_add_registered t (mk_node a (sr_socket sr) (sr_addr sr)) Ho) as (t' & -> & Ho' & Hin).
  { intros d Hd. by apply Hnew. }
  eexists _, t'. split; [done|]. by split_and!.
Qed.

(** A new request gets a context, which is registered, prepared and given to the service. *)
Lemma service_run_new st i ws sr w t : request_ok sr -> heap st !! i = Some (Some ws) ->
  wk_tree w = Some t -> ordered node_socket (inorder t) -> new_request sr t ->
  length (qs_entries (cx_qs raw)) = QS_ENTRIES_SIZE ->
  if (length (query_of sr) <=? QS_ENTRIES_SIZE)%nat then
    exists c t', run st i sr w = route_to i ws sr c (mk_worker (Some t') (<[a := c]> (wk_ctx w))) /\
      fresh_context sr (sr_socket sr) c /\ cx_gc c = (duda_gc_init).2 /\
      cx_node c = mk_node a (sr_socket sr) (sr_addr sr) /\ ordered node_socket (inorder t') /\
      (forall d, d ∈ inorder t' <-> d = cx_node c \/ d ∈ inorder t)
  else run st i sr w = Fault OutOfBounds.
Proof.
  intros Hsr Hws Ht Ho Hnew He. unfold duda_service_run.
  destruct (get_context_new sr w t Ht Ho Hnew) as (c0 & t' & -> & Hn0 & Hg0 & Hs0 & Hq0 & Ho' & Hin).
  cbn [mbind res_bind]. rewrite <- Hq0 in He. pose proof (prepare_context sr c0 Hsr He) as Hp.
  destruct (_ <=? _)%nat; [|by rewrite Hp]. destruct Hp as (c & -> & Hf & Hn & Hg). cbn [mbind res_bind].
  unfold deref_ws. rewrite Hws. cbn [mbind res_bind]. exists c, t'. unfold put_ctx. cbn [wk_tree wk_ctx].
  rewrite Hn, Hn0. cbn [node_addr]. rewrite insert_insert_eq. rewrite Hn0 in Hin. rewrite Hs0 in Hf. by rewrite Hg.
Qed.

(** The root service of a host that was freed because its library could not be loaded is still the root service: a
    new request for the host reads it. *)
Lemma stage30_freed_root st sr w t k vs i : request_ok sr ->
  list_find (fun vs => vs_host vs = sr_host_conf sr) (services_list st) = Some (k, vs) ->
  vs_root_service vs = Some i -> heap st !! i = Some None ->
  wk_tree w = Some t -> ordered node_socket (inorder t) -> new_request sr t ->
  length (qs_entries (cx_qs raw)) = QS_ENTRIES_SIZE -> (length (query_of sr) <= QS_ENTRIES_SIZE)%nat ->
  stage30 None st sr w = Fault UseAfterFree.
Proof.
  intros Hsr Hvs Hroot Hfree Ht Ho Hnew He Hps. unfold duda_stage30. rewrite Hvs, Hroot. unfold duda_service_run.
  destruct (get_context_new sr w t Ht Ho Hnew) as (c0 & t' & -> & _ & _ & _ & Hq0 & _). cbn [mbind res_bind].
  rewrite <- Hq0 in He. pose proof (prepare_context sr c0 Hsr He) as Hp. rewrite (proj2 (Nat.leb_le _ _) Hps) in Hp.
  destruct Hp as (c & -> & _). cbn [mbind res_bind]. unfold deref_ws. by rewrite Hfree.
Qed.

(** A request that is not for the document root, on a host without a root service, is given to the service its URI names. *)
Lemma stage30_by_name document_root st sr w k vs : ptr_ok (sr_uri sr) ->
  list_find (fun vs => vs_host vs = sr_host_conf sr) (services_list st) = Some (k, vs) ->
  vs_root_service vs = None -> 1 < len (sr_uri sr) -> Forall (named st) (vs_services vs) ->
  document_root = None \/ ~ cs "/ddr" `prefix_of` data (sr_uri sr) ->
  stage30 document_root st sr w =
  match List.find (name_matches st (sr_uri sr)) (vs_services vs) with
  | None => Ret (MK_PLUGIN_RET_NOT_ME, RanNothing, w, sr)
  | Some i => r ← run st i sr w; Ret (run_result r sr)
  end.
Proof.
  intros [Hu _] Hvs Hroot Hlen Hn Hddr. unfold duda_stage30. rewrite Hvs, Hroot, (proj2 (Z.ltb_lt _ _) Hlen).
  rewrite get_service_find by done. cbn [mbind res_bind]. destruct document_root as [d|]; [|done].
  destruct Hddr as [?|Hd]; [done|]. rewrite (proj2 (Z.eqb_neq _ _)); [done|].
  intros E. apply Hd, (strncmp_prefix _ (cs "/ddr")); [done|by apply (bool_decide_unpack _)|exact E].
Qed.

(** C6. A new request for a host without a root service is given to the first service of the host whose name starts the
    URI after its slash, with a context of its own that is registered under its socket: nothing
    sent or queued, an empty collector, the parameters of the query string and the segments of the URI; without such
    a service Monkey goes on with the request.  A query string of more than 32 parameters makes
    the handler write behind the table. *)
Theorem stage30_new_request document_root st sr w t k vs :
  request_ok sr -> list_find (fun vs => vs_host vs = sr_host_conf sr) (services_list st) = Some (k, vs) ->
  vs_root_service vs = None -> 1 < len (sr_uri sr) -> Forall (named st) (vs_services vs) ->
  document_root = None \/ ~ cs "/ddr" `prefix_of` data (sr_uri sr) ->
  wk_tree w = Some t -> ordered node_socket (inorder t) -> new_request sr t ->
  length (qs_entries (cx_qs raw)) = QS_ENTRIES_SIZE ->
  match List.find (name_matches st (sr_uri sr)) (vs_services vs) with
  | None => stage30 document_root st sr w = Ret (MK_PLUGIN_RET_NOT_ME, RanNothing, w, sr)
  | Some i =>
      if (length (query_of sr) <=? QS_ENTRIES_SIZE)%nat then
        exists ws c t', heap st !! i = Some (Some ws) /\
          stage30 document_root st sr w
            = (r ← route_to i ws sr c (mk_worker (Some t') (<[a := c]> (wk_ctx w))); Ret (run_result r sr)) /\
          fresh_context sr (sr_socket sr) c /\ cx_gc c = (duda_gc_init).2 /\
          cx_node c = mk_node a (sr_socket sr) (sr_addr sr) /\ ordered node_socket (inorder t') /\
          (forall d, d ∈ inorder t' <-> d = cx_node c \/ d ∈ inorder t)
      else stage30 document_root st sr w = Fault OutOfBounds
  end.
Proof.
  intros Hsr Hvs Hroot Hlen Hn Hddr Ht Ho Hnew He. rewrite (stage30_by_name _ _ _ _ k vs) by (apply Hsr || done).
  destruct (List.find _ _) as [i|] eqn:Ei; [|done].
  apply List.find_some in Ei as [Hi _]. apply list_elem_of_In, (proj1 (Forall_forall _ _) Hn) in Hi as (ws & Hws & _).
  pose proof (service_run_new st i ws sr w t Hsr Hws Ht Ho Hnew He) as Hr. destruct (_ <=? _)%nat; [|by rewrite Hr].
  destruct Hr as (c & t' & -> & Hr). by exists ws, c, t'.
Qed.

(** C39. A request below /ddr on a host that Duda serves is left to Monkey with the path of the document root
    followed by the rest of the URI, for every length of the two: the path is composed, with its NUL, inside
    the buffer of the request or a new one, and no service runs. *)
Theorem stage30_document_root d st sr w k vs :
  alloc_ok alloc -> path_ok (sr_real_path sr) -> cstr (data d) -> len d = Z.of_nat (length (data d)) ->
  cstr (data (sr_uri sr)) -> len (sr_uri sr) = Z.of_nat (length (data (sr_uri sr))) ->
  len (sr_uri sr) + len d < 2 ^ 31 -> cs "/ddr" `prefix_of` data (sr_uri sr) ->
  list_find (fun vs => vs_host vs = sr_host_conf sr) (services_list st) = Some (k, vs) ->
  let full := data d ++ drop 4 (data (sr_uri sr)) in
  exists sr' b, stage30 (Some d) st sr w = Ret (MK_PLUGIN_RET_NOT_ME, RanNothing, w, sr') /\
    rp_len (sr_real_path sr') = Z.of_nat (length full) /\ rp_buf (sr_real_path sr') = Some b /\
    take (strlen b) b = full /\ sr_blocked sr' = match file_get_info full with Some _ => true | None => sr_blocked sr end.
Proof.
  intros Ha Hp Hd Hld Hu Hlu Hlen Hddr Hvs full. unfold duda_stage30. rewrite Hvs.
  assert (E : strncmp (data (sr_uri sr)) (cs "/ddr") 4 = 0).
  { apply (strncmp_prefix _ (cs "/ddr")); [done|by apply (bool_decide_unpack _)|done]. }
  rewrite E, Hld. change (0 =? 0) with true. cbv iota. apply prefix_length in Hddr. change (length (cs "/ddr")) with 4%nat in Hddr.
  destruct (override_docroot_path alloc sr 4 (data d) Ha Hp Hd Hu Hlu) as (rp & sr' & -> & Hrp & Hl & (b & Hb & Hs) & Hbl);
    [lia..|]. cbn [mbind res_bind]. exists sr', b. subst rp. by split_and!.
Qed.
End dispatch.

(** ** An instance *)

Module RefStage.
Definition raw : context :=
  mk_ctx (mk_node 7 7 7) None (mk_http_dr 9 false None 5 true true 3 None []) (mk_qs_map 9 empty_entries) [] None.
Definition service (name : string) : option web_service :=
  let p := mk_ptr (cs name) (Z.of_nat (length (cs name))) in
  Some (mk_ws p p None None None None 1 false false None 0 true).
Definition st : services := mk_services [service "blog"; service "shop"] [mk_vs 5 None [0%nat; 1%nat]] [0%nat; 1%nat].
Definition request (uri : string) : stage_request :=
  mk_sr 8192 6 5 (mk_ptr (cs uri) (Z.of_nat (length (cs uri)))) (Some (mk_ptr (cs "id=4") 4)) RefHttp.get_request None 80
    (mk_rp true (Some (replicate 128 0)) 0) None false.
Definition w : worker := mk_worker (Some sample_tree) ∅.
Definition not_found (i : nat) (c : context) : res (lookup_code * option (duda_router_path Z)) := Ret (DUDA_ROUTER_NOTFOUND, None).
Definition alloc (n : Z) : option (list Z) := Some (replicate (Z.to_nat n) 1).

Definition stage30 (root : option mk_ptr_t) (sr : stage_request) :=
  @duda_stage30 RefConf.conf (RefGc.ops []) RefRb.ops RefHttp.ops (Some (2000, raw)) 0 80 1000 1001 1002
    (fun _ => None) not_found alloc root st sr w.
End RefStage.

Lemma stage30_new_request_witness :
  exists c t', RefStage.stage30 None (RefStage.request "/shop/item")
      = Ret (MK_PLUGIN_RET_NOT_ME, RanNothing, mk_worker (Some t') {[2000 := c]}, RefStage.request "/shop/item") /\
    params_of (cx_qs c) = [(cs "id", cs "4")] /\ mk_node 2000 6 8192 ∈ inorder t'.
Proof.
  pose proof (@stage30_new_request RefConf.conf (RefGc.ops []) RefRb.ops RefRb.ops_ok RefHttp.ops 2000 RefStage.raw 0 80 1000 1001 1002
    (fun _ => None) RefStage.not_found RefStage.alloc None RefStage.st (RefStage.request "/shop/item") RefStage.w sample_tree
    0 (mk_vs 5 None [0%nat; 1%nat])) as T.
  destruct T as (ws & c & t' & _ & E & Hf & _ & Hn & _ & Hin).
  - split; [|intros q [= <-]; cbn; lia]. split; [by apply (bool_decide_unpack _)|]. cbn. lia.
  - reflexivity.
  - reflexivity.
  - cbn. lia.
  - repeat constructor; (eexists; split; [reflexivity|]; split; [by apply (bool_decide_unpack _)|reflexivity]).
  - by left.
  - reflexivity.
  - repeat constructor.
  - intros d [->|?%not_elem_of_nil]%elem_of_cons; cbn; [lia|done].
  - reflexivity.
  - exists c, t'. split; [exact E|]. split; [apply Hf|]. apply Hin. left. by rewrite Hn.
Defined.

Lemma stage30_document_root_witness :
  exists sr' b, RefStage.stage30 (Some (mk_ptr (cs "/var/ddr") 8)) (RefStage.request "/ddr/style.css")
      = Ret (MK_PLUGIN_RET_NOT_ME, RanNothing, RefStage.w, sr') /\
    rp_buf (sr_real_path sr') = Some b /\ take (strlen b) b = cs "/var/ddr/style.css" /\ sr_blocked sr' = true.
Proof.
  destruct (@stage30_document_root RefConf.conf (RefGc.ops []) RefRb.ops RefHttp.ops 2000 RefStage.raw 0 80 1000 1001 1002
    (fun _ => None) RefStage.not_found RefStage.alloc (mk_ptr (cs "/var/ddr") 8) RefStage.st
    (RefStage.request "/ddr/style.css") RefStage.w 0 (mk_vs 5 None [0%nat; 1%nat])) as (sr' & b & E & _ & Hb & Hs & Hbl).
  - intros n Hn. eexists. split; [reflexivity|]. rewrite length_replicate. lia.
  - exists (replicate 128 0). split; [reflexivity|]. split; [cbn; lia|reflexivity].
  - by apply (bool_decide_unpack _).
  - reflexivity.
  - by apply (bool_decide_unpack _).
  - reflexivity.
  - cbn. lia.
  - by exists (cs "/style.css").
  - reflexivity.
  - exists sr', b. split_and!; [exact E|exact Hb|exact Hs|exact Hbl].
Defined.
