(* ===== verification/Logger.v ===== *)
(** * The log writer and the data directory

    lib/objects/duda_log.c with the inline functions of include/duda/objects/duda_log.h: the creation of a logger and
    the printing of a message into the pipe of its context; and lib/objects/duda_data.c.  A logger finds
    its context through a global variable of the worker (Launcher.v); the text of a message grows its buffer in the same
    loop as [response->printf] (Http.v).  The thread that reads the pipes waits for events it never
    registers and reads an uninitialised count; it is not modelled. *)

From S2P Require Import Prelude CString Http Conf Launcher Stage30.

(** ** Loggers *)

Record duda_logger_t := mk_logger { lg_enabled : bool; lg_global_key : duda_global_t }.

(** A context, with the two ends of its pipe. *)
Record duda_logger_context_t := mk_log_ctx { lc_pipe : Z * Z; lc_name : list Z }.

(** [memset] clears the key of the variable, and the registration that would create one is commented out. *)
Definition duda_logger_create (pipe : option (Z * Z)) (name : list Z) : res (Z * duda_logger_t * duda_logger_context_t) :=
  match pipe with
  | None => Fault ExitFailure
  | Some p => Ret (0, mk_logger true (mk_global 0 None), mk_log_ctx p name)
  end.

(** What the thread of a worker is given for the context [info]. *)
Definition duda_logger_cb_create (info : duda_logger_context_t) : duda_logger_context_t :=
  mk_log_ctx (lc_pipe info) (lc_name info).

Definition LOGGER_FMT_SIZE : Z := 512.

(** The format with the time before it, composed in the buffer of the worker. *)
Definition logger_fmt (cache : bool) (time_human : mk_ptr_t) (fmt : list Z) : res (list Z) :=
  if cache then
    if LOGGER_FMT_SIZE <? len time_human + 1 + Z.of_nat (strlen fmt) + 1 then Fault OutOfBounds
    else Ret (ptr_bytes time_human ++ cs " " ++ take (strlen fmt) fmt)
  else Fault NullDeref.

(** [contexts] are the objects the addresses of the variables lead to, [format] what [vsnprintf] makes of a format with the
    arguments of the call.  The result is [None] when the loop does not end within the fuel; the last component lists what
    is written to which descriptor. *)
Definition duda_logger_print (contexts : nat -> option duda_logger_context_t) (t : tls) (cache alloc_ok : bool)
    (realloc_ok : Z -> bool) (fuel : nat) (time_human : mk_ptr_t) (format : list Z -> list Z)
    (write : Z -> list Z -> Z) (key : duda_logger_t) (fmt : list Z) : option (res (Z * list (Z * list Z))) :=
  if lg_enabled key then
    match duda_global_get (lg_global_key key) t with
    | None => Some (Ret (0, []))
    | Some p =>
        if alloc_ok then
          match logger_fmt cache time_human fmt with
          | Fault f => Some (Fault f)
          | Ret f =>
              let text := format f in
              let n := Z.of_nat (length text) in
              match printf_loop realloc_ok fuel 128 n with
              | None => None
              | Some None => Some (Ret (-1, []))
              | Some (Some _) =>
                  match contexts p with
                  | None => Some (Fault UseAfterFree)
                  | Some ctx => Some (Ret (write (lc_pipe ctx).2 text, [((lc_pipe ctx).2, text)]))
                  end
              end
          end
        else Some (Ret (-1, []))
    end
  else Some (Ret (0, [])).

(** ** The data directory *)

Section directory.
Context `{MkConf}.

Definition duda_data_set_path (ws : web_service) (dir : list Z) : res (Z * web_service) :=
  '(ret, ws) ← duda_conf_set_datadir ws dir; Ret (if ret =? -1 then -1 else 0, ws).

Definition duda_data_get_path (ws : web_service) : option (list Z) := data <$> ws_datadir ws.
End directory.

(** The local [ws] is not initialised: it is an argument.  [alloc] gives a block of the size asked for. *)
Definition duda_data_locate (alloc : Z -> list Z) (ws : option web_service) (filename : option (list Z)) : res (option (list Z)) :=
  match ws with
  | None => Ret None
  | Some ws =>
      match ws_datadir ws, filename with
      | Some d, Some f =>
          let n := len d + Z.of_nat (strlen f) + 1 in
          path ← write_at (alloc n) 0 (take (Z.to_nat (len d)) (data d ++ [0]));
          path ← write_at path (Z.to_nat (len d)) (take (strlen f) f);
          path ← write_at path (Z.to_nat n) [0];
          Ret (Some path)
      | _, _ => Ret None
      end
  end.

(** ** Properties *)

(** A message of an enabled logger whose context the worker has is the time, a space and the message, formatted and written
    once to the pipe of the context, for every text below 1 GiB. *)
Theorem logger_print_writes contexts t time_human format write key fmt p ctx fuel :
  lg_enabled key = true -> duda_global_get (lg_global_key key) t = Some p -> contexts p = Some ctx ->
  cstr fmt -> len time_human + Z.of_nat (length fmt) + 2 <= LOGGER_FMT_SIZE -> (24 <= fuel)%nat ->
  let text := format (ptr_bytes time_human ++ cs " " ++ fmt) in
  Z.of_nat (length text) < 2 ^ 30 ->
  duda_logger_print contexts t true true (fun _ => true) fuel time_human format write key fmt
  = Some (Ret (write (lc_pipe ctx).2 text, [((lc_pipe ctx).2, text)])).
Proof.
  intros He Hk Hp Hc Hl Hf text Ht. unfold duda_logger_print, logger_fmt. rewrite He, Hk, strlen_cstr by done.
  rewrite (proj2 (Z.ltb_ge _ _)), take_ge by lia. fold text.
  destruct (printf_loop_fits (fun _ => true) (Z.of_nat (length text)) ltac:(lia) 23 fuel 128) as (s & -> & _);
    [done|lia|lia|change (Z.of_nat 23) with 23; lia|change (Z.of_nat 23) with 23; lia|]. by rewrite Hp.
Qed.

Lemma logger_print_writes_witness :
  duda_logger_print (fun _ => Some (mk_log_ctx (3, 4) (cs "access"))) {[2%nat := Some 9%nat]} true true (fun _ => true) 24
    (mk_ptr (cs "[now]") 5) (fun f => f) (fun _ text => Z.of_nat (length text)) (mk_logger true (mk_global 2 None)) (cs "hello")
  = Some (Ret (11, [(4, cs "[now] hello")])).
Proof.
  apply (logger_print_writes (fun _ => Some (mk_log_ctx (3, 4) (cs "access"))) {[2%nat := Some 9%nat]} (mk_ptr (cs "[now]") 5)
    (fun f => f) (fun _ text => Z.of_nat (length text)) (mk_logger true (mk_global 2 None)) (cs "hello") 9 (mk_log_ctx (3, 4) (cs "access")) 24).
  - reflexivity.
  - reflexivity.
  - reflexivity.
  - by apply (bool_decide_unpack _).
  - vm_compute. congruence.
  - apply Nat.leb_le. reflexivity.
  - reflexivity.
Defined.

(** A logger as [duda_logger_create] leaves it looks its context up under the key 0: where that key has no value
    nothing is ever written, and otherwise the value belongs to another variable. *)
Lemma created_logger_silent contexts t cache alloc_ok realloc_ok fuel time_human format write pipe name key info fmt :
  duda_logger_create pipe name = Ret (0, key, info) -> default None (t !! 0%nat) = None ->
  duda_logger_print contexts t cache alloc_ok realloc_ok fuel time_human format write key fmt = Some (Ret (0, [])).
Proof.
  destruct pipe as [p|]; [|done]. intros [= <- <-] Hk. unfold duda_logger_print, duda_global_get. cbn [lg_enabled lg_global_key gl_key].
  by rewrite Hk.
Qed.

(** A format that does not fit the buffer of the worker overruns it. *)
Lemma logger_print_overflow contexts t realloc_ok fuel time_human format write key fmt p :
  lg_enabled key = true -> duda_global_get (lg_global_key key) t = Some p ->
  LOGGER_FMT_SIZE < len time_human + Z.of_nat (strlen fmt) + 2 ->
  duda_logger_print contexts t true true realloc_ok fuel time_human format write key fmt = Some (Fault OutOfBounds).
Proof.
  intros He Hk Hl. unfold duda_logger_print, logger_fmt. rewrite He, Hk. by rewrite (proj2 (Z.ltb_lt _ _)) by lia.
Qed.

(** Whenever there is a path to give, its NUL is written behind the block that was allocated for it. *)
Lemma locate_writes_past alloc ws d f : (forall n, 0 <= n -> Z.of_nat (length (alloc n)) = n) ->
  ws_datadir ws = Some d -> 0 <= len d -> duda_data_locate alloc (Some ws) (Some f) = Fault OutOfBounds.
Proof.
  intros Ha Hd Hl. unfold duda_data_locate. rewrite Hd. set (n := len d + _ + 1).
  destruct (write_at (alloc n) 0 _) as [b1|e] eqn:E1; cbn [mbind res_bind]; [|by apply write_at_fault in E1 as ->].
  destruct (write_at b1 _ _) as [b2|e] eqn:E2; cbn [mbind res_bind]; [|by apply write_at_fault in E2 as ->].
  apply write_at_length in E1, E2. specialize (Ha n ltac:(lia)). unfold write_at.
  rewrite (proj2 (Nat.leb_gt _ _)) by (cbn [length]; lia). done.
Qed.
