(* ===== verification/Digits.v ===== *)
(** * Decimal digits

    The number a run of digits stands for, and the runs [digits_of] prints. *)

From S2P Require Import Prelude CString Session.

Definition is_digit (c : Z) : bool := (48 <=? c) && (c <=? 57).

(** The number of a run of digits after [v]. *)
Fixpoint run_value (v : Z) (ds : list Z) : Z :=
  match ds with [] => v | c :: ds' => run_value (v * 10 + (c - 48)) ds' end.

Lemma run_value_app v ds ds' : run_value v (ds ++ ds') = run_value (run_value v ds) ds'.
Proof. revert v. induction ds as [|c ds IH]; intros v; [done|]. apply IH. Qed.

Lemma run_value_ge v ds : 0 <= v -> Forall (fun c => is_digit c = true) ds -> v <= run_value v ds.
Proof.
  intros Hv Hd. revert v Hv. induction Hd as [|c ds Hc _ IH]; intros v Hv; cbn [run_value]; [lia|].
  unfold is_digit in Hc. apply andb_true_iff in Hc as [?%Z.leb_le ?%Z.leb_le]. pose proof (IH (v * 10 + (c - 48)) ltac:(lia)). lia.
Qed.

Lemma digits_run fuel n acc : 0 <= n < 10 ^ Z.of_nat fuel -> (0 < fuel)%nat ->
  exists c ds, digits_of fuel 10 n acc = c :: ds ++ acc /\ Forall (fun c => is_digit c = true) (c :: ds)
    /\ run_value 0 (c :: ds) = n /\ (c = 48 -> ds = [] /\ n = 0).
Proof.
  revert n acc. induction fuel as [|fuel IH]; intros n acc Hn Hf; [lia|]. cbn [digits_of]. change (ch "0") with 48.
  assert (Hm : 0 <= n mod 10 < 10) by (apply Z.mod_pos_bound; lia). pose proof (Z.div_mod n 10 ltac:(lia)).
  rewrite (proj2 (Z.ltb_lt (n mod 10) 10)) by lia.
  assert (Hd : is_digit (48 + n mod 10) = true) by (unfold is_digit; dbool; done).
  destruct (Z.eqb_spec (n / 10) 0) as [E|E].
  - exists (48 + n mod 10), []. split_and!; [done|by constructor|cbn; lia|]. intros. split; [done|lia].
  - assert (0 <= n / 10 < 10 ^ Z.of_nat fuel).
    { rewrite Nat2Z.inj_succ, Z.pow_succ_r in Hn by lia. split; [apply Z.div_pos; lia|apply Z.div_lt_upper_bound; lia]. }
    destruct fuel as [|fuel]; [cbn in *; lia|].
    destruct (IH (n / 10) (48 + n mod 10 :: acc)) as (c & ds & -> & Hds & Hv & Hc); [done|lia|].
    exists c, (ds ++ [48 + n mod 10]). rewrite <- app_assoc. split_and!; [done| | |].
    + rewrite app_comm_cons. apply Forall_app. split; [done|by constructor].
    + rewrite app_comm_cons, run_value_app, Hv. cbn [run_value]. lia.
    + intros H48. destruct (Hc H48). lia.
Qed.
