(* ===== verification/Double.v ===== *)
(** * Double precision numbers

    The arithmetic of C's [double] the sources use, on the IEEE 754 binary64 numbers of the Standard
    Library's [SpecFloat] (53 bits, exponents up to 1024), with the conversions from and to [int].
    The arithmetic on integers below 2^53 is exact: sums, products and comparisons of
    converted integers are those of the integers. *)

From Stdlib Require Import SpecFloat.
From S2P Require Import Prelude.

Abbreviation double := spec_float.

Definition d_add : double -> double -> double := SFadd 53 1024.
Definition d_sub : double -> double -> double := SFsub 53 1024.
Definition d_mul : double -> double -> double := SFmul 53 1024.
Definition d_abs : double -> double := SFabs.
Definition d_le (x y : double) : bool := SFleb x y.
Definition d_lt (x y : double) : bool := SFltb x y.

(** The conversion of an integer. *)
Definition d_of_int (z : Z) : double := binary_normalize 53 1024 z 0 false.

(** The integer towards zero; [None] for a number without one. *)
Definition d_trunc (x : double) : option Z :=
  match x with
  | S754_zero _ => Some 0
  | S754_finite s m e => Some (cond_Zopp s (if 0 <=? e then Z.shiftl (Zpos m) e else Z.shiftr (Zpos m) (- e)))
  | _ => None
  end.

(** floor(3), which is exact. *)
Definition d_floor (x : double) : double :=
  match x with
  | S754_finite s m e =>
      if 0 <=? e then x
      else match Z.shiftr (cond_Zopp s (Zpos m)) (- e) with
           | 0 => S754_zero s
           | z => d_of_int z
           end
  | _ => x
  end.

Definition DBL_EPSILON : double := S754_finite false (2 ^ 52) (-104).

(** ** Exactness *)

(** The number [z * 2 ^ 0] with a mantissa of 53 bits. *)
Definition fin (s : bool) (z : Z) : double := S754_finite s (Z.to_pos (z * 2 ^ (52 - Z.log2 z))) (Z.log2 z - 52).

Lemma digits2_log2 p : Zpos (digits2_pos p) = Z.log2 (Zpos p) + 1.
Proof.
  induction p as [p IH|p IH|]; cbn [digits2_pos]; [..|done]; rewrite Pos2Z.inj_succ, IH.
  - rewrite (Pos2Z.inj_xI p). rewrite Z.log2_succ_double by lia. lia.
  - rewrite (Pos2Z.inj_xO p). rewrite Z.log2_double by lia. lia.
Qed.

Lemma iter_shr p m : SpecFloat.iter_pos shr_1 p {| shr_m := m * 2 ^ Zpos p; shr_r := false; shr_s := false |}
  = {| shr_m := m; shr_r := false; shr_s := false |}.
Proof.
  assert (H1 : forall m, shr_1 {| shr_m := 2 * m; shr_r := false; shr_s := false |} = {| shr_m := m; shr_r := false; shr_s := false |})
    by (intros []; done).
  revert m. induction p as [p IH|p IH|]; intros m; cbn [SpecFloat.iter_pos].
  - replace (m * 2 ^ Zpos p~1) with (2 * (m * 2 ^ Zpos p * 2 ^ Zpos p)).
    + by rewrite H1, !IH.
    + rewrite (Pos2Z.inj_xI p), Z.pow_add_r, Z.pow_mul_r, Z.pow_2_r by lia. replace (2 ^ 2) with (2 * 2) by done.
      rewrite Z.pow_mul_l. lia.
  - replace (m * 2 ^ Zpos p~0) with (m * 2 ^ Zpos p * 2 ^ Zpos p); [by rewrite !IH|].
    rewrite (Pos2Z.inj_xO p), Z.pow_mul_r by lia. replace (2 ^ 2) with (2 * 2) by done. rewrite Z.pow_mul_l. lia.
  - replace (m * 2 ^ 1) with (2 * m) by lia. apply H1.
Qed.

(** No rounding: the mantissa is the number shifted left. *)
Lemma round_aux_exact s z e : 0 < z < 2 ^ 53 -> e <= Z.log2 z - 52 ->
  binary_round_aux 53 1024 s (z * 2 ^ (- e)) e loc_Exact = fin s z.
Proof.
  intros Hz He. assert (Hl : 0 <= Z.log2 z < 53) by (split; [apply Z.log2_nonneg|apply Z.log2_lt_pow2; lia]).
  assert (Hd : forall k, 0 <= k -> Zdigits2 (z * 2 ^ k) = Z.log2 z + 1 + k).
  { intros k Hk. assert (0 < z * 2 ^ k) by (apply Z.mul_pos_pos; lia).
    destruct (z * 2 ^ k) as [|q|q] eqn:E; [lia| |lia]. cbn [Zdigits2]. rewrite digits2_log2, <- E, Z.log2_mul_pow2 by lia. lia. }
  assert (Hf : forall k, 0 <= k -> fexp 53 1024 (Zdigits2 (z * 2 ^ k) + (- k)) = Z.log2 z - 52).
  { intros k Hk. rewrite Hd by done. unfold fexp, emin. lia. }
  unfold binary_round_aux, shr_fexp. pose proof (Hf (- e)) as Hfe. rewrite Z.opp_involutive in Hfe.
  rewrite Hfe by lia. clear Hfe. cbn [shr_record_of_loc].
  assert (Es : shr {| shr_m := z * 2 ^ (- e); shr_r := false; shr_s := false |} e (Z.log2 z - 52 - e)
    = ({| shr_m := z * 2 ^ (52 - Z.log2 z); shr_r := false; shr_s := false |}, Z.log2 z - 52)).
  { destruct (Z.log2 z - 52 - e) as [|p|p] eqn:Ep; cbn [shr]; [|f_equal|lia].
    - replace e with (Z.log2 z - 52) by lia. f_equal. by replace (- (Z.log2 z - 52)) with (52 - Z.log2 z) by lia.
    - rewrite <- (iter_shr p (z * 2 ^ (52 - Z.log2 z))). do 2 f_equal.
      rewrite <- Z.mul_assoc, <- Z.pow_add_r by lia. do 2 f_equal. lia.
    - lia. }
  rewrite Es. cbn [shr_m loc_of_shr_record round_nearest_even]. clear Es.
  pose proof (Hf (52 - Z.log2 z)) as Hfe. replace (- (52 - Z.log2 z)) with (Z.log2 z - 52) in Hfe by lia.
  rewrite Hfe, Z.sub_diag by lia. cbn [shr shr_record_of_loc shr_m].
  assert (0 < z * 2 ^ (52 - Z.log2 z)) by (apply Z.mul_pos_pos; lia). unfold fin.
  destruct (z * 2 ^ (52 - Z.log2 z)) as [|q|q]; [lia| |lia].
  by rewrite (proj2 (Z.leb_le _ _)) by lia.
Qed.

Lemma iter_xO p d : Zpos (Pos.iter xO p d) = Zpos p * 2 ^ Zpos d.
Proof.
  revert p. induction d as [|d IH] using Pos.peano_ind; intros p; [cbn; lia|].
  rewrite Pos.iter_succ, Pos2Z.inj_xO, IH, Pos2Z.inj_succ, Z.pow_succ_r by lia. lia.
Qed.

Lemma round_exact s p e z : 0 < z < 2 ^ 53 -> e <= 0 -> Zpos p = z * 2 ^ (- e) -> binary_round 53 1024 s p e = fin s z.
Proof.
  intros Hz He Hp. assert (Hl : 0 <= Z.log2 z < 53) by (split; [apply Z.log2_nonneg|apply Z.log2_lt_pow2; lia]).
  unfold binary_round. rewrite digits2_log2, Hp, Z.log2_mul_pow2 by lia.
  replace (fexp 53 1024 _) with (Z.log2 z - 52) by (unfold fexp, emin; lia). unfold shl_align.
  destruct (Z.log2 z - 52 - e) as [|q|q] eqn:Eq.
  - rewrite Hp. apply round_aux_exact; lia.
  - rewrite Hp. apply round_aux_exact; lia.
  - rewrite iter_xO, Hp, <- Z.mul_assoc, <- Z.pow_add_r by lia.
    replace (- e + Zpos q) with (- (Z.log2 z - 52)) by lia. apply round_aux_exact; lia.
Qed.

(** A converted integer, by its sign. *)
Lemma normalize_int z e : Z.abs z < 2 ^ 53 -> e <= 0 ->
  binary_normalize 53 1024 (z * 2 ^ (- e)) e false = if z =? 0 then S754_zero false else fin (z <? 0) (Z.abs z).
Proof.
  intros Hz He. destruct (Z.eqb_spec z 0) as [->|Hn]; [done|].
  destruct (Z.ltb_spec z 0) as [Hneg|Hpos].
  - assert (E : z * 2 ^ (- e) = - (- z * 2 ^ (- e))) by lia.
    assert (0 < - z * 2 ^ (- e)) by (apply Z.mul_pos_pos; lia).
    rewrite E. destruct (- z * 2 ^ (- e)) as [|p|p] eqn:Ep; [lia| |lia]. cbn [Z.opp binary_normalize].
    apply round_exact; [lia|done|]. rewrite Z.abs_neq by lia. lia.
  - assert (0 < z * 2 ^ (- e)) by (apply Z.mul_pos_pos; lia).
    destruct (z * 2 ^ (- e)) as [|p|p] eqn:Ep; [lia| |lia]. cbn [binary_normalize].
    apply round_exact; [lia|done|]. rewrite Z.abs_eq by lia. lia.
Qed.

Lemma of_int_fin z : Z.abs z < 2 ^ 53 -> d_of_int z = if z =? 0 then S754_zero false else fin (z <? 0) (Z.abs z).
Proof. intros Hz. rewrite <- (normalize_int z 0) by (done || lia). unfold d_of_int. f_equal. cbn. lia. Qed.

Lemma fin_mul s s' a b : 0 < a -> 0 < b -> a * b < 2 ^ 53 -> d_mul (fin s a) (fin s' b) = fin (xorb s s') (a * b).
Proof.
  intros Ha Hb Hab. assert (a < 2 ^ 53) by nia. assert (b < 2 ^ 53) by nia.
  assert (Z.log2 a < 53) by (apply Z.log2_lt_pow2; lia). assert (Z.log2 b < 53) by (apply Z.log2_lt_pow2; lia).
  assert (Hl : Z.log2 a + Z.log2 b <= Z.log2 (a * b)) by (apply Z.log2_mul_below; lia).
  assert (Hl' : Z.log2 (a * b) < 53) by (apply Z.log2_lt_pow2; nia).
  pose proof (Z.log2_nonneg a). pose proof (Z.log2_nonneg b).
  unfold d_mul, fin at 1 2. cbn [SFmul]. rewrite Pos2Z.inj_mul, !Z2Pos.id by (apply Z.mul_pos_pos; lia).
  replace (a * 2 ^ (52 - Z.log2 a) * (b * 2 ^ (52 - Z.log2 b)))
    with (a * b * 2 ^ (- (Z.log2 a - 52 + (Z.log2 b - 52)))).
  - apply round_aux_exact; nia.
  - replace (- (Z.log2 a - 52 + (Z.log2 b - 52))) with (52 - Z.log2 a + (52 - Z.log2 b)) by lia.
    rewrite Z.pow_add_r by lia. lia.
Qed.

(** The alignment of two mantissas. *)
Lemma fin_align z e : 0 < z < 2 ^ 53 -> e <= Z.log2 z - 52 ->
  Zpos (fst (shl_align (Z.to_pos (z * 2 ^ (52 - Z.log2 z))) (Z.log2 z - 52) e)) = z * 2 ^ (- e).
Proof.
  intros Hz He. assert (Z.log2 z < 53) by (apply Z.log2_lt_pow2; lia).
  assert (Hm : Zpos (Z.to_pos (z * 2 ^ (52 - Z.log2 z))) = z * 2 ^ (52 - Z.log2 z)).
  { apply Z2Pos.id, Z.mul_pos_pos; lia. }
  unfold shl_align. destruct (e - (Z.log2 z - 52)) as [|p|p] eqn:Ep; [|lia|]; cbn [fst].
  - rewrite Hm. do 2 f_equal. lia.
  - rewrite iter_xO, Hm, <- Z.mul_assoc, <- Z.pow_add_r by lia. do 2 f_equal. lia.
Qed.

Lemma fin_sum (s s' : bool) a b : 0 < a < 2 ^ 53 -> 0 < b < 2 ^ 53 ->
  let z := cond_Zopp s a + cond_Zopp s' b in Z.abs z < 2 ^ 53 ->
  d_add (fin s a) (fin s' b) = d_of_int z.
Proof.
  intros Ha Hb z Hz. assert (Z.log2 a < 53) by (apply Z.log2_lt_pow2; lia). assert (Z.log2 b < 53) by (apply Z.log2_lt_pow2; lia).
  unfold d_add, fin. cbn [SFadd]. rewrite !fin_align by lia.
  set (e := Z.min _ _). rewrite of_int_fin, <- (normalize_int z e) by (done || lia). f_equal.
  unfold z. destruct s, s'; cbn [cond_Zopp]; lia.
Qed.

Lemma d_mul_int a b : a <> 0 -> b <> 0 -> Z.abs (a * b) < 2 ^ 53 -> d_mul (d_of_int a) (d_of_int b) = d_of_int (a * b).
Proof.
  intros Ha Hb Hab. rewrite !of_int_fin by nia.
  rewrite (proj2 (Z.eqb_neq a 0)), (proj2 (Z.eqb_neq b 0)), (proj2 (Z.eqb_neq (a * b) 0)) by nia.
  rewrite fin_mul by nia. rewrite Z.abs_mul. f_equal.
  destruct (Z.ltb_spec a 0), (Z.ltb_spec b 0), (Z.ltb_spec (a * b) 0); cbn [xorb]; nia || done.
Qed.

Lemma d_add_int a b : Z.abs a < 2 ^ 53 -> Z.abs b < 2 ^ 53 -> Z.abs (a + b) < 2 ^ 53 ->
  d_add (d_of_int a) (d_of_int b) = d_of_int (a + b).
Proof.
  intros Ha Hb Hab. rewrite (of_int_fin a), (of_int_fin b) by done.
  destruct (Z.eqb_spec a 0) as [->|Hna], (Z.eqb_spec b 0) as [->|Hnb]; [done| | |].
  - rewrite Z.add_0_l, of_int_fin, (proj2 (Z.eqb_neq b 0)) by done. done.
  - rewrite Z.add_0_r, of_int_fin, (proj2 (Z.eqb_neq a 0)) by done. done.
  - replace (a + b) with (cond_Zopp (a <? 0) (Z.abs a) + cond_Zopp (b <? 0) (Z.abs b)).
    + apply fin_sum; [lia|lia|]. destruct (Z.ltb_spec a 0), (Z.ltb_spec b 0); cbn [cond_Zopp]; lia.
    + destruct (Z.ltb_spec a 0), (Z.ltb_spec b 0); cbn [cond_Zopp]; lia.
Qed.

Lemma d_sub_same z : Z.abs z < 2 ^ 53 -> d_sub (d_of_int z) (d_of_int z) = S754_zero false.
Proof.
  intros Hz. rewrite of_int_fin by done. destruct (Z.eqb_spec z 0); [done|].
  unfold d_sub, fin. cbn [SFsub]. by rewrite Z.sub_diag.
Qed.

Lemma d_trunc_int z : Z.abs z < 2 ^ 53 -> d_trunc (d_of_int z) = Some z.
Proof.
  intros Hz. rewrite of_int_fin by done. destruct (Z.eqb_spec z 0) as [->|Hn]; [done|].
  assert (Hl : 0 <= Z.log2 (Z.abs z) < 53) by (split; [apply Z.log2_nonneg|apply Z.log2_lt_pow2; lia]).
  unfold d_trunc, fin. set (k := 52 - Z.log2 (Z.abs z)). replace (Z.log2 (Z.abs z) - 52) with (- k) by lia.
  rewrite Z2Pos.id by (apply Z.mul_pos_pos; lia). rewrite Z.opp_involutive.
  assert (E : (if 0 <=? - k then Z.shiftl (Z.abs z * 2 ^ k) (- k) else Z.shiftr (Z.abs z * 2 ^ k) k) = Z.abs z).
  { destruct (Z.leb_spec 0 (- k)).
    - replace k with 0 by lia. change (- 0) with 0. rewrite Z.shiftl_0_r. lia.
    - rewrite Z.shiftr_div_pow2 by lia. apply Z.div_mul. lia. }
  rewrite E. f_equal. destruct (Z.ltb_spec z 0); cbn [cond_Zopp]; lia.
Qed.

(** The order of two mantissas and exponents is that of the numbers. *)
Lemma fin_compare a b : 0 < a < 2 ^ 53 -> 0 < b < 2 ^ 53 ->
  (match Z.log2 a - 52 ?= Z.log2 b - 52 with
   | Lt => Lt | Gt => Gt
   | Eq => Pos.compare_cont Eq (Z.to_pos (a * 2 ^ (52 - Z.log2 a))) (Z.to_pos (b * 2 ^ (52 - Z.log2 b)))
   end) = (a ?= b).
Proof.
  intros Ha Hb. assert (Z.log2 a < 53) by (apply Z.log2_lt_pow2; lia). assert (Z.log2 b < 53) by (apply Z.log2_lt_pow2; lia).
  destruct (Z.compare_spec (Z.log2 a - 52) (Z.log2 b - 52)) as [E|E|E].
  - set (p := Z.to_pos (a * _)). set (q := Z.to_pos (b * _)). change (Pos.compare_cont Eq p q) with (Zpos p ?= Zpos q). unfold p, q.
    replace (Z.log2 b) with (Z.log2 a) by lia. rewrite !Z2Pos.id by (apply Z.mul_pos_pos; lia).
    symmetry. apply Zmult_compare_compat_r. lia.
  - symmetry. apply Z.compare_lt_iff. destruct (Z.lt_ge_cases a b) as [|Hge]; [done|].
    apply Z.log2_le_mono in Hge. lia.
  - symmetry. apply Z.compare_gt_iff. destruct (Z.lt_ge_cases b a) as [|Hge]; [done|].
    apply Z.log2_le_mono in Hge. lia.
Qed.

Lemma d_le_int a b : Z.abs a < 2 ^ 53 -> Z.abs b < 2 ^ 53 -> d_le (d_of_int a) (d_of_int b) = (a <=? b).
Proof.
  intros Ha Hb. assert (Hc : SFcompare (d_of_int a) (d_of_int b) = Some (a ?= b)).
  { rewrite !of_int_fin by done. unfold fin.
    destruct (Z.eqb_spec a 0) as [->|Hna], (Z.eqb_spec b 0) as [->|Hnb]; cbn [SFcompare].
    - done.
    - destruct (Z.ltb_spec b 0), (Z.compare_spec 0 b); (lia || done).
    - destruct (Z.ltb_spec a 0), (Z.compare_spec a 0); (lia || done).
    - destruct (Z.ltb_spec a 0), (Z.ltb_spec b 0).
      + f_equal. pose proof (fin_compare (Z.abs a) (Z.abs b) ltac:(lia) ltac:(lia)) as E.
        rewrite (Z.abs_neq a), (Z.abs_neq b) in * by lia. rewrite Z.compare_opp in E.
        rewrite (Z.compare_antisym b a), <- E. by destruct (_ ?= _).
      + f_equal. destruct (Z.compare_spec a b); (lia || done).
      + f_equal. destruct (Z.compare_spec a b); (lia || done).
      + f_equal. rewrite !Z.abs_eq by lia. apply fin_compare; lia. }
  unfold d_le, SFleb. rewrite Hc. unfold Z.leb. by destruct (a ?= b).
Qed.
