(* ===== verification/Json.v ===== *)
(** * The JSON reader and writer of packages/json

    packages/json/cJSON.c: the items, the parser, the printer and the operations on arrays and objects.
    An item is a tree, the [next] chain of its children a list.  A [const char *] into the text is
    the rest of the text; moving such a pointer past the terminating NUL is [OutOfBounds].  The
    allocator answers the n-th request with [mem n]; the state counts the requests and the
    blocks that are allocated, and holds the global [ep].  The functions whose results C leaves open
    ([pow], the conversions ["%e"] and ["%f"], an [int] of a number out of range) are the class
    [Libm]; [junk] is the value of the locals that are read before they are assigned. *)

From Stdlib Require Import SpecFloat.
From S2P Require Import Prelude CString Session Digits Double.

(** ** Items *)

Definition cJSON_False : Z := 0.
Definition cJSON_True : Z := 1.
Definition cJSON_NULL : Z := 2.
Definition cJSON_Number : Z := 3.
Definition cJSON_String : Z := 4.
Definition cJSON_Array : Z := 5.
Definition cJSON_Object : Z := 6.
Definition cJSON_IsReference : Z := 256.

Local Unset Elimination Schemes.
Inductive cJSON : Type := Item {
  j_child : list cJSON;
  j_type : Z;
  j_valuestring : option (list Z);
  j_valueint : Z;
  j_valuedouble : double;
  j_string : option (list Z)
}.
Local Set Elimination Schemes.

Definition new_item : cJSON := Item [] 0 None 0 (S754_zero false) None.

Definition set_type (t : Z) (c : cJSON) : cJSON :=
  Item (j_child c) t (j_valuestring c) (j_valueint c) (j_valuedouble c) (j_string c).
Definition set_child (l : list cJSON) (c : cJSON) : cJSON :=
  Item l (j_type c) (j_valuestring c) (j_valueint c) (j_valuedouble c) (j_string c).
Definition set_valuestring (s : option (list Z)) (c : cJSON) : cJSON :=
  Item (j_child c) (j_type c) s (j_valueint c) (j_valuedouble c) (j_string c).
Definition set_valueint (n : Z) (c : cJSON) : cJSON :=
  Item (j_child c) (j_type c) (j_valuestring c) n (j_valuedouble c) (j_string c).
Definition set_valuedouble (d : double) (c : cJSON) : cJSON :=
  Item (j_child c) (j_type c) (j_valuestring c) (j_valueint c) d (j_string c).
Definition set_string (s : option (list Z)) (c : cJSON) : cJSON :=
  Item (j_child c) (j_type c) (j_valuestring c) (j_valueint c) (j_valuedouble c) s.

(** ** The environment *)

Class Libm := {
  pow10 : double -> double;
  fmt_e : double -> list Z;
  fmt_f : double -> list Z;
  int_overflow : double -> Z
}.

(** [pow (x, 0)] is 1 (C11 F.10.4.4). *)
Class LibmSpec `{Libm} : Prop := { pow10_zero s : pow10 (S754_zero s) = d_of_int 1 }.

(** [js_next] requests so far, [js_live] blocks allocated. *)
Record json_state := mk_js { js_next : nat; js_live : Z; js_ep : option (list Z) }.

Definition set_ep (s : list Z) (st : json_state) : json_state := mk_js (js_next st) (js_live st) (Some s).

Definition cJSON_free (n : Z) (st : json_state) : json_state := mk_js (js_next st) (js_live st - n) (js_ep st).

(** ** Deletion *)

(** The blocks [cJSON_Delete] frees for one item: those of its children and its string unless it is a reference, its
    name, and the item. *)
Definition some_block {A} (o : option A) : nat := match o with Some _ => 1 | None => 0 end.

Fixpoint delete_item (c : cJSON) : nat :=
  (if Z.testbit (j_type c) 8 then 0 else sum_list_with delete_item (j_child c) + some_block (j_valuestring c))
    + some_block (j_string c) + 1.

(** A chain of items. *)
Definition cJSON_Delete (l : list cJSON) (st : json_state) : json_state :=
  cJSON_free (Z.of_nat (sum_list_with delete_item l)) st.

(** ** Numbers *)

(** The two loops over digits: the number so far, with [scale] counting the digits of the fraction. *)
Fixpoint int_digits (n : double) (s : list Z) : double * list Z :=
  match s with
  | c :: s' => if is_digit c then int_digits (d_add (d_mul n (d_of_int 10)) (d_of_int (c - 48))) s' else (n, s)
  | [] => (n, [])
  end.

Fixpoint frac_digits (n scale : double) (s : list Z) : double * double * list Z :=
  match s with
  | c :: s' =>
      if is_digit c then frac_digits (d_add (d_mul n (d_of_int 10)) (d_of_int (c - 48))) (d_sub scale (d_of_int 1)) s'
      else (n, scale, s)
  | [] => (n, scale, [])
  end.

Fixpoint exp_digits (subscale : Z) (s : list Z) : Z * list Z :=
  match s with
  | c :: s' => if is_digit c then exp_digits (swrap 32 (subscale * 10 + (c - 48))) s' else (subscale, s)
  | [] => (subscale, [])
  end.

Definition first_is (c : Z) (s : list Z) : bool := char_at s 0 =? c.

(** The exponent and its sign. *)
Definition exponent (s : list Z) : Z * Z * list Z :=
  if first_is (ch "e") s || first_is (ch "E") s then
    let s := tail s in
    let '(sign, s) := if first_is (ch "+") s then (1, tail s) else if first_is (ch "-") s then (-1, tail s) else (1, s) in
    let '(subscale, s) := exp_digits 0 s in (subscale, sign, s)
  else (0, 1, s).

Section json.
Context `{Libm}.
Variable mem : nat -> bool.
Variable junk : Z.

(** A conversion to [int]. *)
Definition d_to_int (d : double) : Z :=
  match d_trunc d with
  | Some z => if (- 2 ^ 31 <=? z) && (z <=? 2 ^ 31 - 1) then z else int_overflow d
  | None => int_overflow d
  end.

(** What follows the sign of a number. *)
Definition parse_unsigned (sign : Z) (item : cJSON) (num : list Z) : cJSON * list Z :=
  let num := if first_is (ch "0") num then tail num else num in
  let '(n, num) :=
    if (ch "1" <=? char_at num 0) && (char_at num 0 <=? ch "9") then int_digits (S754_zero false) num
    else (S754_zero false, num) in
  let '(n, scale, num) :=
    if first_is (ch ".") num && is_digit (char_at num 1) then frac_digits n (S754_zero false) (tail num)
    else (n, S754_zero false, num) in
  let '(subscale, signsubscale, num) := exponent num in
  let n := d_mul (d_mul (d_of_int sign) n) (pow10 (d_add scale (d_of_int (swrap 32 (subscale * signsubscale))))) in
  (set_type cJSON_Number (set_valueint (d_to_int n) (set_valuedouble n item)), num).

Definition parse_number (item : cJSON) (num : list Z) : cJSON * list Z :=
  if first_is (ch "-") num then parse_unsigned (-1) item (tail num) else parse_unsigned 1 item num.

(** ** Strings *)

Definition quote : Z := 34.
Definition backslash : Z := 92.

Definition malloc (st : json_state) : bool * json_state :=
  if mem (js_next st) then (true, mk_js (S (js_next st)) (js_live st + 1) (js_ep st))
  else (false, mk_js (S (js_next st)) (js_live st) (js_ep st)).

(** [p + n], read next. *)
Definition advance (n : nat) (s : list Z) : res (list Z) :=
  if (n <=? length s)%nat then Ret (drop n s) else Fault OutOfBounds.

(** [p[k]]. *)
Definition read_at (s : list Z) (k : nat) : res Z :=
  if (k <=? length s)%nat then Ret (char_at s k) else Fault OutOfBounds.

(** The first pass over a string: the characters and escapes before the quote.  The count is an [int] in the code: the text is
    shorter than 2 GiB. *)
Fixpoint string_len (s : list Z) : res Z :=
  match s with
  | [] => Ret 0
  | c :: s' =>
      if c =? quote then Ret 0
      else if c =? backslash then
        match s' with
        | [] => Fault OutOfBounds
        | _ :: s'' => n ← string_len s''; Ret (n + 1)
        end
      else n ← string_len s'; Ret (n + 1)
  end.

Definition hex_digit (c : Z) : option Z :=
  if is_digit c then Some (c - 48)
  else if (97 <=? c) && (c <=? 102) then Some (c - 87)
  else if (65 <=? c) && (c <=? 70) then Some (c - 55)
  else None.

(** At most [w] hexadecimal digits, [None] without any. *)
Fixpoint hex_run (w : nat) (acc : option Z) (s : list Z) : option Z :=
  match w, s with
  | S w', c :: s' => match hex_digit c with Some d => hex_run w' (Some (default 0 acc * 16 + d)) s' | None => acc end
  | _, _ => acc
  end.

Definition is_space (c : Z) : bool := (c =? 32) || ((9 <=? c) && (c <=? 13)).

Fixpoint skip_space (s : list Z) : list Z :=
  match s with c :: s' => if is_space c then skip_space s' else s | [] => [] end.

(** [sscanf (s, "%4x", &uc)]: spaces, then at most four characters of a sign, a prefix and digits; [None] when
    nothing is assigned. *)
Definition sscanf_4x (s : list Z) : option Z :=
  let s := skip_space s in
  let '(neg, w, s) :=
    if first_is (ch "-") s then (true, 3%nat, tail s) else if first_is (ch "+") s then (false, 3%nat, tail s)
    else (false, 4%nat, s) in
  let v := if first_is (ch "0") s && ((char_at s 1 =? ch "x") || (char_at s 1 =? ch "X"))
           then hex_run (w - 2) None (drop 2 s) else hex_run w None s in
  (fun v => if neg then wrap 32 (- v) else v) <$> v.

Definition firstByteMark (len : nat) : Z := nth len [0; 0; 192; 224; 240; 248; 252] 0.

Definition utf8_len (uc : Z) : nat :=
  if uc <? 128 then 1 else if uc <? 2048 then 2 else if uc <? 65536 then 3 else 4.

(** The bytes of a character, written from the last to the first. *)
Fixpoint utf8_tail (n : nat) (uc : Z) (acc : list Z) : list Z * Z :=
  match n with
  | O => (acc, uc)
  | S n' => utf8_tail n' (Z.shiftr uc 6) (Z.land (Z.lor uc 128) 191 :: acc)
  end.

Definition utf8 (uc : Z) : list Z :=
  let len := utf8_len uc in
  let '(rest, uc) := utf8_tail (len - 1) uc [] in
  wrap 8 (Z.lor uc (firstByteMark len)) :: rest.

(** [*ptr2++ = c] for each byte, in a block of [cap] bytes. *)
Definition put_bytes (cap : Z) (out bytes : list Z) : res (list Z) :=
  if Z.of_nat (length out + length bytes) <=? cap then Ret (out ++ bytes) else Fault OutOfBounds.

(** The escape ['u']: [s] starts at that letter.  The result is the output, the rest after the escape, and the values of
    [uc] and [uc2]. *)
Definition unicode_escape (cap : Z) (out s : list Z) (uc uc2 : Z) : res (list Z * list Z * Z * Z) :=
  let uc := default uc (sscanf_4x (tail s)) in
  p ← advance 4 s;
  if ((56320 <=? uc) && (uc <=? 57343)) || (uc =? 0) then p ← advance 1 p; Ret (out, p, uc, uc2)
  else if (55296 <=? uc) && (uc <=? 56319) then
    c1 ← read_at p 1;
    if negb (c1 =? backslash) then p ← advance 1 p; Ret (out, p, uc, uc2)
    else
      c2 ← read_at p 2;
      if negb (c2 =? ch "u") then p ← advance 1 p; Ret (out, p, uc, uc2)
      else
        let uc2 := default uc2 (sscanf_4x (drop 3 p)) in
        p ← advance 6 p;
        if (uc2 <? 56320) || (57343 <? uc2) then p ← advance 1 p; Ret (out, p, uc, uc2)
        else
          let uc := Z.lor (Z.lor 65536 (Z.shiftl (Z.land uc 1023) 10)) (Z.land uc2 1023) in
          out ← put_bytes cap out (utf8 uc); p ← advance 1 p; Ret (out, p, uc, uc2)
  else out ← put_bytes cap out (utf8 uc); p ← advance 1 p; Ret (out, p, uc, uc2).

(** The other escapes. *)
Definition unescape (c : Z) : Z :=
  if c =? ch "b" then 8 else if c =? ch "f" then 12 else if c =? ch "n" then 10
  else if c =? ch "r" then 13 else if c =? ch "t" then 9 else c.

(** The second pass: the output and the rest from the closing quote on. *)
Fixpoint string_loop (n : nat) (cap : Z) (out s : list Z) (uc uc2 : Z) : outcome (list Z * list Z) :=
  match n with
  | O => NoFuel
  | S n =>
      match s with
      | [] => Done (out, s)
      | c :: s' =>
          if c =? quote then Done (out, s)
          else if negb (c =? backslash) then
            out ← of_res (put_bytes cap out [c]); string_loop n cap out s' uc uc2
          else
            let c := char_at s' 0 in
            if c =? ch "u" then
              '(out, s, uc, uc2) ← of_res (unicode_escape cap out s' uc uc2); string_loop n cap out s uc uc2
            else
              out ← of_res (put_bytes cap out [unescape c]);
              s ← of_res (advance 1 s');
              string_loop n cap out s uc uc2
      end
  end.

(** [NULL], or the rest after the string. *)
Definition parse_string (item : cJSON) (str : list Z) (st : json_state) : outcome (option (list Z) * cJSON * json_state) :=
  if first_is quote str then
    len ← of_res (string_len (tail str));
    let '(ok, st) := malloc st in
    if ok then
      '(out, rest) ← string_loop (S (length str)) (len + 1) [] (tail str) junk junk;
      _ ← of_res (put_bytes (len + 1) out [0]);
      let rest := if first_is quote rest then tail rest else rest in
      Done (Some rest, set_type cJSON_String (set_valuestring (Some out) item), st)
    else Done (None, item, st)
  else Done (None, item, set_ep str st).

(** ** Values *)

Fixpoint skip (s : list Z) : list Z :=
  match s with c :: s' => if c <=? 32 then skip s' else s | [] => [] end.

Definition has_prefix (p : list Z) (s : list Z) : bool := strncmp s p (length p) =? 0.

(** The value at [value]; the elements of an array from the pointer before an element on; the members of an object,
    likewise.  An item that could not be completed is still in its list. *)
Fixpoint parse_value (n : nat) (item : cJSON) (value : list Z) (st : json_state)
    : outcome (option (list Z) * cJSON * json_state) :=
  match n with
  | O => NoFuel
  | S n =>
      if has_prefix (cs "null") value then Done (Some (drop 4 value), set_type cJSON_NULL item, st)
      else if has_prefix (cs "false") value then Done (Some (drop 5 value), set_type cJSON_False item, st)
      else if has_prefix (cs "true") value then Done (Some (drop 4 value), set_valueint 1 (set_type cJSON_True item), st)
      else if first_is quote value then parse_string item value st
      else if first_is (ch "-") value || is_digit (char_at value 0) then
        let '(item, rest) := parse_number item value in Done (Some rest, item, st)
      else if first_is (ch "[") value then
        let item := set_type cJSON_Array item in
        let value := skip (tail value) in
        if first_is (ch "]") value then Done (Some (tail value), item, st)
        else '(r, l, st) ← parse_elements n value st; Done (r, set_child l item, st)
      else if first_is (ch "{") value then
        let item := set_type cJSON_Object item in
        let value := skip (tail value) in
        if first_is (ch "}") value then Done (Some (tail value), item, st)
        else '(r, l, st) ← parse_members n value st; Done (r, set_child l item, st)
      else Done (None, item, set_ep value st)
  end
with parse_elements (n : nat) (value : list Z) (st : json_state) : outcome (option (list Z) * list cJSON * json_state) :=
  match n with
  | O => NoFuel
  | S n =>
      let '(ok, st) := malloc st in
      if ok then
        '(r, child, st) ← parse_value n new_item (skip value) st;
        match skip <$> r with
        | None => Done (None, [child], st)
        | Some value =>
            if first_is (ch ",") value then '(r, l, st) ← parse_elements n (tail value) st; Done (r, child :: l, st)
            else if first_is (ch "]") value then Done (Some (tail value), [child], st)
            else Done (None, [child], set_ep value st)
        end
      else Done (None, [], st)
  end
with parse_members (n : nat) (value : list Z) (st : json_state) : outcome (option (list Z) * list cJSON * json_state) :=
  match n with
  | O => NoFuel
  | S n =>
      let '(ok, st) := malloc st in
      if ok then
        '(r, child, st) ← parse_string new_item (skip value) st;
        match skip <$> r with
        | None => Done (None, [child], st)
        | Some value =>
            let child := set_valuestring None (set_string (j_valuestring child) child) in
            if negb (first_is (ch ":") value) then Done (None, [child], set_ep value st)
            else
              '(r, child, st) ← parse_value n child (skip (tail value)) st;
              match skip <$> r with
              | None => Done (None, [child], st)
              | Some value =>
                  if first_is (ch ",") value then '(r, l, st) ← parse_members n (tail value) st; Done (r, child :: l, st)
                  else if first_is (ch "}") value then Done (Some (tail value), [child], st)
                  else Done (None, [child], set_ep value st)
              end
        end
      else Done (None, [], st)
  end.

(** A value takes at most one turn per character and list, and one to start. *)
Definition parse_fuel (s : list Z) : nat := 2 * length s + 1.

Definition cJSON_Parse (value : list Z) (st : json_state) : outcome (option cJSON * json_state) :=
  let '(ok, st) := malloc st in
  let st := mk_js (js_next st) (js_live st) None in
  if ok then
    '(r, c, st) ← parse_value (parse_fuel value) new_item (skip value) st;
    match r with
    | Some _ => Done (Some c, st)
    | None => Done (None, cJSON_Delete [c] st)
    end
  else Done (None, st).

(** ** Printing *)

(** A text of a block of [cap] bytes, with its NUL. *)
Definition in_block (cap : Z) (text : list Z) : res (list Z) :=
  if Z.of_nat (length text) + 1 <=? cap then Ret text else Fault OutOfBounds.

(** A new block that is filled with [text]; [None] for [NULL]. *)
Definition alloc_text (cap : Z) (text : list Z) (st : json_state) : res (option (list Z) * json_state) :=
  let '(ok, st) := malloc st in
  if ok then t ← in_block cap text; Ret (Some t, st) else Ret (None, st).

Definition cJSON_strdup (s : list Z) (st : json_state) : res (option (list Z) * json_state) :=
  alloc_text (Z.of_nat (strlen s) + 1) (take (strlen s) s) st.

(** ["%.0f"] of an integral number: its digits. *)
Definition fmt_0f (d : double) : list Z :=
  let z := default 0 (d_trunc d) in
  let digits := digits_of (S (Z.to_nat (Z.log2 (Z.abs z)))) 10 (Z.abs z) [] in
  match d with S754_finite true _ _ | S754_zero true => ch "-" :: digits | _ => digits end.

Definition INT_MAX : Z := 2 ^ 31 - 1.
Definition INT_MIN : Z := - 2 ^ 31.

(** The constants 1.0e-6 and 1.0e9. *)
Definition small_limit : double := S754_finite false 4722366482869645 (-72).
Definition large_limit : double := d_of_int 1000000000.

Definition print_number (item : cJSON) (st : json_state) : res (option (list Z) * json_state) :=
  let d := j_valuedouble item in
  if d_le (d_abs (d_sub (d_of_int (j_valueint item)) d)) DBL_EPSILON
     && d_le d (d_of_int INT_MAX) && d_le (d_of_int INT_MIN) d
  then alloc_text 21 (fmt_d (j_valueint item)) st
  else alloc_text 64
         (if d_le (d_abs (d_sub (d_floor d) d)) DBL_EPSILON then fmt_0f d
          else if d_lt (d_abs d) small_limit || d_lt large_limit (d_abs d) then fmt_e d else fmt_f d) st.

(** The characters with a short escape. *)
Definition short_escape (c : Z) : option Z :=
  if c =? quote then Some quote else if c =? backslash then Some backslash
  else if c =? 8 then Some (ch "b") else if c =? 12 then Some (ch "f") else if c =? 10 then Some (ch "n")
  else if c =? 13 then Some (ch "r") else if c =? 9 then Some (ch "t") else None.

(** The pass that measures the text. *)
Fixpoint escaped_len (s : list Z) : Z :=
  match s with
  | [] => 0
  | c :: s' => match short_escape c with Some _ => 2 | None => if c <? 32 then 6 else 1 end + escaped_len s'
  end.

(** ["%04x"] of a byte. *)
Definition hex_char (d : Z) : Z := if d <? 10 then 48 + d else 87 + d.
Definition fmt_04x (c : Z) : list Z := [48; 48; hex_char (c / 16); hex_char (c mod 16)].

Fixpoint escape (s : list Z) : list Z :=
  match s with
  | [] => []
  | c :: s' =>
      (if (31 <? c) && negb (c =? quote) && negb (c =? backslash) then [c]
       else backslash :: match short_escape c with Some e => [e] | None => ch "u" :: fmt_04x c end) ++ escape s'
  end.

Definition print_string_ptr (str : option (list Z)) (st : json_state) : res (option (list Z) * json_state) :=
  match str with
  | None => cJSON_strdup [] st
  | Some s => alloc_text (escaped_len s + 3) (quote :: escape s ++ [quote]) st
  end.

(** ["\t"] repeated. *)
Definition tabs (n : Z) : list Z := replicate (Z.to_nat n) 9.

(** The elements between the brackets. *)
Fixpoint join_elements (fmt : bool) (entries : list (list Z)) : list Z :=
  match entries with
  | [] => []
  | [e] => e
  | e :: entries' => e ++ (if fmt then [ch ","; 32] else [ch ","]) ++ join_elements fmt entries'
  end.

Definition elements_len (fmt : bool) (entries : list (list Z)) : Z :=
  5 + Z.of_nat (sum_list_with (fun e => length e + 2 + if fmt then 1 else 0)%nat entries).

(** The members between the braces. *)
Fixpoint join_members (fmt : bool) (depth : Z) (entries : list (list Z * list Z)) : list Z :=
  match entries with
  | [] => []
  | (name, e) :: entries' =>
      (if fmt then tabs depth else []) ++ name ++ (if fmt then [ch ":"; 9] else [ch ":"]) ++ e
      ++ (match entries' with [] => [] | _ => [ch ","] end) ++ (if fmt then [10] else []) ++ join_members fmt depth entries'
  end.

Definition members_len (fmt : bool) (depth : Z) (entries : list (list Z * list Z)) : Z :=
  7 + (if fmt then depth else 0)
  + Z.of_nat (sum_list_with (fun e => length e.2 + length e.1 + 2 + if fmt then 2 + Z.to_nat depth else 0)%nat entries).

(** The loop over the elements of an array: the texts so far, and whether one failed, which ends it. *)
Definition print_elements (print : cJSON -> json_state -> res (option (list Z) * json_state)) :=
  fix go (l : list cJSON) (st : json_state) : res (list (list Z) * bool * json_state) :=
    match l with
    | [] => Ret ([], false, st)
    | c :: l' =>
        '(r, st) ← print c st;
        match r with
        | None => Ret ([], true, st)
        | Some e => '(es, fail, st) ← go l' st; Ret (e :: es, fail, st)
        end
    end.

(** The loop over the members of an object, which does not stop at a failure. *)
Definition print_members (print : cJSON -> json_state -> res (option (list Z) * json_state)) :=
  fix go (l : list cJSON) (st : json_state) : res (list (option (list Z) * option (list Z)) * json_state) :=
    match l with
    | [] => Ret ([], st)
    | c :: l' =>
        '(str, st) ← print_string_ptr (j_string c) st;
        '(ret, st) ← print c st;
        '(es, st) ← go l' st;
        Ret ((str, ret) :: es, st)
    end.

(** The pairs of texts, if none failed. *)
Fixpoint all_printed (es : list (option (list Z) * option (list Z))) : option (list (list Z * list Z)) :=
  match es with
  | [] => Some []
  | (Some n, Some e) :: es' => cons (n, e) <$> all_printed es'
  | _ :: _ => None
  end.

Definition member_blocks (es : list (option (list Z) * option (list Z))) : nat :=
  sum_list_with (fun e => some_block e.1 + some_block e.2)%nat es.

(** [out] is allocated and filled, then [n] temporary blocks are freed. *)
Definition finish_text (n : nat) (cap : Z) (text : list Z) (st : json_state) : res (option (list Z) * json_state) :=
  '(o, st) ← alloc_text cap text st; Ret (o, cJSON_free (Z.of_nat n) st).

Fixpoint print_value (fmt : bool) (depth : Z) (item : cJSON) (st : json_state) {struct item} : res (option (list Z) * json_state) :=
  let t := Z.land (j_type item) 255 in
  if t =? cJSON_NULL then cJSON_strdup (cs "null") st
  else if t =? cJSON_False then cJSON_strdup (cs "false") st
  else if t =? cJSON_True then cJSON_strdup (cs "true") st
  else if t =? cJSON_Number then print_number item st
  else if t =? cJSON_String then print_string_ptr (j_valuestring item) st
  else if t =? cJSON_Array then
    let '(ok, st) := malloc st in
    if ok then
      '(es, fail, st) ← print_elements (print_value fmt (depth + 1)) (j_child item) st;
      if fail : bool then Ret (None, cJSON_free (Z.of_nat (length es + 1)) st)
      else finish_text (length es + 1) (elements_len fmt es) (ch "[" :: join_elements fmt es ++ [ch "]"]) st
    else Ret (None, st)
  else if t =? cJSON_Object then
    let '(ok, st) := malloc st in
    if ok then
      let '(ok, st) := malloc st in
      if ok then
        let depth := depth + 1 in
        '(es, st) ← print_members (print_value fmt depth) (j_child item) st;
        match all_printed es with
        | None => Ret (None, cJSON_free (Z.of_nat (member_blocks es + 2)) st)
        | Some l =>
            finish_text (member_blocks es + 2) (members_len fmt depth l)
              (ch "{" :: (if fmt then [10] else []) ++ join_members fmt depth l
                 ++ (if fmt then tabs (depth - 1) else []) ++ [ch "}"]) st
        end
      else Ret (None, cJSON_free 1 st)
    else Ret (None, st)
  else Ret (None, st).

Definition cJSON_Print (item : cJSON) (st : json_state) := print_value true 0 item st.
Definition cJSON_PrintUnformatted (item : cJSON) (st : json_state) := print_value false 0 item st.
End json.

(** ** Arrays and objects *)

(** The comparison of two texts without regard to case. *)
Fixpoint strcasecmp_loop (a b : list Z) : Z :=
  match a, b with
  | [], [] => 0
  | [], d :: _ => 0 - tolower d
  | c :: _, [] => tolower c
  | c :: a', d :: b' => if tolower c =? tolower d then strcasecmp_loop a' b' else tolower c - tolower d
  end.

Definition cJSON_strcasecmp (s1 s2 : option (list Z)) : Z :=
  match s1, s2 with
  | None, None => 0
  | None, Some _ => 1
  | Some _, None => 1
  | Some a, Some b => strcasecmp_loop a b
  end.

Definition cJSON_GetArraySize (array : cJSON) : Z := Z.of_nat (length (j_child array)).

Definition cJSON_GetArrayItem (array : cJSON) (item : Z) : option cJSON := j_child array !! Z.to_nat item.

(** The position of the first child with the name. *)
Definition named_child (string : list Z) (l : list cJSON) : option (nat * cJSON) :=
  list_find (fun c => cJSON_strcasecmp (j_string c) (Some string) = 0) l.

Definition cJSON_GetObjectItem (object : cJSON) (string : list Z) : option cJSON :=
  snd <$> named_child string (j_child object).

(** The item that is added is the root of a tree of its own. *)
Definition cJSON_AddItemToArray (array : cJSON) (item : option cJSON) : cJSON :=
  match item with None => array | Some c => set_child (j_child array ++ [c]) array end.

(** The item's earlier name is freed; the copy is [NULL] without memory. *)
Definition cJSON_AddItemToObject (mem : nat -> bool) (object : cJSON) (string : list Z) (item : option cJSON) (st : json_state)
    : res (cJSON * json_state) :=
  match item with
  | None => Ret (object, st)
  | Some c =>
      let st := cJSON_free (Z.of_nat (some_block (j_string c))) st in
      '(s, st) ← cJSON_strdup mem string st;
      Ret (cJSON_AddItemToArray object (Some (set_string s c)), st)
  end.

Definition cJSON_DetachItemFromArray (array : cJSON) (which : Z) : option cJSON * cJSON :=
  match j_child array !! Z.to_nat which with
  | None => (None, array)
  | Some c => (Some c, set_child (delete (Z.to_nat which) (j_child array)) array)
  end.

Definition cJSON_DetachItemFromObject (object : cJSON) (string : list Z) : option cJSON * cJSON :=
  match named_child string (j_child object) with
  | None => (None, object)
  | Some (i, _) => cJSON_DetachItemFromArray object (Z.of_nat i)
  end.

(** The item that is taken out is deleted, if there is one. *)
Definition cJSON_DeleteItemFromArray (array : cJSON) (which : Z) (st : json_state) : cJSON * json_state :=
  let '(c, array) := cJSON_DetachItemFromArray array which in (array, cJSON_Delete (option_list c) st).

Definition cJSON_DeleteItemFromObject (object : cJSON) (string : list Z) (st : json_state) : cJSON * json_state :=
  let '(c, object) := cJSON_DetachItemFromObject object string in (object, cJSON_Delete (option_list c) st).

(** The new item takes the place of the old one, which is deleted. *)
Definition cJSON_ReplaceItemInArray (array : cJSON) (which : Z) (newitem : cJSON) (st : json_state) : cJSON * json_state :=
  match j_child array !! Z.to_nat which with
  | None => (array, st)
  | Some c => (set_child (<[Z.to_nat which := newitem]> (j_child array)) array, cJSON_Delete [c] st)
  end.

(** The new item's earlier name is not freed. *)
Definition cJSON_ReplaceItemInObject (mem : nat -> bool) (object : cJSON) (string : list Z) (newitem : cJSON) (st : json_state)
    : res (cJSON * json_state) :=
  match named_child string (j_child object) with
  | None => Ret (object, st)
  | Some (i, _) =>
      '(s, st) ← cJSON_strdup mem string st;
      Ret (cJSON_ReplaceItemInArray object (Z.of_nat i) (set_string s newitem) st)
  end.

(** ** New items *)

Section create.
Context `{Libm}.
Variable mem : nat -> bool.

Definition cJSON_New_Item (st : json_state) : option cJSON * json_state :=
  let '(ok, st) := malloc mem st in (if ok then Some new_item else None, st).

(** A new item that is filled in, if there is memory. *)
Definition create (fill : cJSON -> cJSON) (st : json_state) : option cJSON * json_state :=
  let '(item, st) := cJSON_New_Item st in (fill <$> item, st).

Definition cJSON_CreateNull := create (set_type cJSON_NULL).
Definition cJSON_CreateTrue := create (set_type cJSON_True).
Definition cJSON_CreateFalse := create (set_type cJSON_False).
Definition cJSON_CreateBool (b : bool) := create (set_type (if b then cJSON_True else cJSON_False)).
Definition cJSON_CreateNumber (num : double) :=
  create (fun item => set_valueint (d_to_int num) (set_valuedouble num (set_type cJSON_Number item))).
Definition cJSON_CreateArray := create (set_type cJSON_Array).
Definition cJSON_CreateObject := create (set_type cJSON_Object).

Definition cJSON_CreateString (string : list Z) (st : json_state) : res (option cJSON * json_state) :=
  let '(item, st) := cJSON_New_Item st in
  match item with
  | None => Ret (None, st)
  | Some c => '(s, st) ← cJSON_strdup mem string st; Ret (Some (set_valuestring s (set_type cJSON_String c)), st)
  end.

(** The loop over the elements, each made by [make]: the first becomes the child, the others are linked to the one
    before, which fails on [NULL]; [prev] is whether there is one. *)
Fixpoint create_elements {A} (make : A -> json_state -> res (option cJSON * json_state)) (first prev : bool) (l : list A) (st : json_state)
    : res (list cJSON * json_state) :=
  match l with
  | [] => Ret ([], st)
  | x :: l' =>
      '(n, st) ← make x st;
      match n with
      | Some c =>
          if first || prev then '(cs, st) ← create_elements make false true l' st; Ret (c :: cs, st) else Fault NullDeref
      | None => if first then create_elements make false false l' st else Fault NullDeref
      end
  end.

Definition create_array {A} (make : A -> json_state -> res (option cJSON * json_state)) (l : list A) (st : json_state)
    : res (option cJSON * json_state) :=
  let '(a, st) := cJSON_CreateArray st in
  match a with
  | None => Ret (None, st)
  | Some a => '(cs, st) ← create_elements make true false l st; Ret (Some (set_child cs a), st)
  end.

Definition cJSON_CreateIntArray (numbers : list Z) := create_array (fun n st => Ret (cJSON_CreateNumber (d_of_int n) st)) numbers.
Definition cJSON_CreateDoubleArray (numbers : list double) := create_array (fun n st => Ret (cJSON_CreateNumber n st)) numbers.
(** The [float]s are converted, which is exact. *)
Definition cJSON_CreateFloatArray (numbers : list double) := create_array (fun n st => Ret (cJSON_CreateNumber n st)) numbers.
Definition cJSON_CreateStringArray (strings : list (list Z)) := create_array cJSON_CreateString strings.
End create.
