(* ===== verification/JsonSpec.v ===== *)
(** * Theorems on packages/json

    The reader and the writer of Json.v against JSON values: what is printed is read back
    ([json_roundtrip]), reading ends for every text and leaves the text only through an escape
    ([json_parse_total]), and no block is lost whatever the allocator answers ([json_blocks]). *)

From Stdlib Require Import SpecFloat.
From S2P Require Import Prelude CString Session Digits Redirect Double Json.

(** ** Values *)

Local Unset Elimination Schemes.
Inductive json : Type :=
  | JNull
  | JBool (b : bool)
  | JNum (z : Z)
  | JStr (s : list Z)
  | JArr (l : list json)
  | JObj (l : list (list Z * json)).
Local Set Elimination Schemes.

Lemma json_ind (P : json -> Prop) :
  P JNull -> (forall b, P (JBool b)) -> (forall z, P (JNum z)) -> (forall s, P (JStr s)) ->
  (forall l, Forall P l -> P (JArr l)) -> (forall l, Forall (fun kv => P kv.2) l -> P (JObj l)) -> forall j, P j.
Proof.
  intros Hn Hb Hz Hs Ha Ho. refine (fix go j := match j with
    | JNull => Hn | JBool b => Hb b | JNum z => Hz z | JStr s => Hs s
    | JArr l => Ha l _ | JObj l => Ho l _ end).
  - induction l as [|j' l IH]; constructor; [apply go|exact IH].
  - induction l as [|[k j'] l IH]; constructor; [apply go|exact IH].
Qed.

Lemma cJSON_ind (P : cJSON -> Prop) : (forall c, Forall P (j_child c) -> P c) -> forall c, P c.
Proof.
  intros H. refine (fix go c := H c _). destruct c as [l ? ? ? ? ?]. cbn.
  induction l as [|c' l IH]; constructor; [apply go|exact IH].
Qed.

#[export] Instance spec_float_eq_dec : EqDecision spec_float.
Proof. solve_decision. Defined.

(** The value an item stands for: numbers are those of the range of [int]. *)
Fixpoint value_of (c : cJSON) : option json :=
  let t := Z.land (j_type c) 255 in
  if t =? cJSON_NULL then Some JNull
  else if t =? cJSON_False then Some (JBool false)
  else if t =? cJSON_True then Some (JBool true)
  else if t =? cJSON_Number then
    if bool_decide (j_valuedouble c = d_of_int (j_valueint c)) && (INT_MIN <=? j_valueint c) && (j_valueint c <=? INT_MAX)
    then Some (JNum (j_valueint c)) else None
  else if t =? cJSON_String then JStr <$> j_valuestring c
  else if t =? cJSON_Array then JArr <$> mapM value_of (j_child c)
  else if t =? cJSON_Object then
    JObj <$> mapM (fun c => match j_string c, value_of c with Some k, Some v => Some (k, v) | _, _ => None end) (j_child c)
  else None.

(** Strings without NUL, numbers in range. *)
Fixpoint json_okb (j : json) : bool :=
  match j with
  | JNull | JBool _ => true
  | JNum z => (INT_MIN <=? z) && (z <=? INT_MAX)
  | JStr s => bool_decide (cstr s)
  | JArr l => forallb json_okb l
  | JObj l => forallb (fun kv => bool_decide (cstr kv.1) && json_okb kv.2) l
  end.

(** The item the reader makes of a value, with the name [k]. *)
Fixpoint item_of (k : option (list Z)) (j : json) : cJSON :=
  let c := set_string k new_item in
  match j with
  | JNull => set_type cJSON_NULL c
  | JBool false => set_type cJSON_False c
  | JBool true => set_valueint 1 (set_type cJSON_True c)
  | JNum z => set_type cJSON_Number (set_valueint z (set_valuedouble (d_of_int z) c))
  | JStr s => set_type cJSON_String (set_valuestring (Some s) c)
  | JArr l => set_child (item_of None <$> l) (set_type cJSON_Array c)
  | JObj l => set_child ((fun kv => item_of (Some kv.1) kv.2) <$> l) (set_type cJSON_Object c)
  end.

(** The text of a value. *)
Definition quoted (s : list Z) : list Z := quote :: escape s ++ [quote].

Fixpoint text (fmt : bool) (depth : Z) (j : json) : list Z :=
  match j with
  | JNull => cs "null"
  | JBool b => cs (if b then "true" else "false")
  | JNum z => fmt_d z
  | JStr s => quoted s
  | JArr l => ch "[" :: join_elements fmt (text fmt (depth + 1) <$> l) ++ [ch "]"]
  | JObj l =>
      ch "{" :: (if fmt then [10] else [])
        ++ join_members fmt (depth + 1) ((fun kv => (quoted kv.1, text fmt (depth + 1) kv.2)) <$> l)
        ++ (if fmt then tabs (depth + 1 - 1) else []) ++ [ch "}"]
  end.

Lemma Forall2_with {A B} (P : A -> B -> Prop) (Q : A -> Prop) (R : A -> B -> Prop) l k :
  Forall2 P l k -> Forall Q l -> (forall x y, P x y -> Q x -> R x y) -> Forall2 R l k.
Proof. intros HP HQ HR. induction HP; inversion_clear HQ; constructor; auto. Qed.

Lemma Forall_with {A} (P Q R : A -> Prop) l : Forall P l -> Forall Q l -> (forall x, P x -> Q x -> R x) -> Forall R l.
Proof. intros HP HQ HR. induction HP; inversion_clear HQ; constructor; auto. Qed.

Lemma forallb_Forall {A} (f : A -> bool) l : forallb f l = true -> Forall (fun x => f x = true) l.
Proof. induction l as [|x l IH]; [done|]. cbn. intros [? ?]%andb_true_iff. auto. Qed.

(** ** Printing *)

Lemma escape_len s : Z.of_nat (length (escape s)) = escaped_len s.
Proof.
  induction s as [|c s IH]; [done|]. cbn [escape escaped_len]. rewrite length_app, Nat2Z.inj_add, IH. f_equal.
  unfold short_escape. destruct (Z.eqb_spec c quote) as [->|]; [done|]. destruct (Z.eqb_spec c backslash) as [->|]; [done|].
  cbn [andb negb]. rewrite !andb_true_r.
  destruct (Z.ltb_spec 31 c); [|by repeat (destruct (Z.eqb_spec c _); [done|]); dbool].
  repeat (rewrite (proj2 (Z.eqb_neq c _)) by lia). dbool. done.
Qed.

Lemma join_elements_len fmt es : Z.of_nat (length (join_elements fmt es)) + 3 <= elements_len fmt es.
Proof.
  unfold elements_len. induction es as [|e es IH]; [done|]. cbn [sum_list_with].
  destruct es as [|e' es]; [cbn; lia|].
  change (join_elements fmt (e :: e' :: es)) with (e ++ (if fmt then [ch ","; 32] else [ch ","]) ++ join_elements fmt (e' :: es)).
  rewrite !length_app. destruct fmt; cbn [length] in *; lia.
Qed.

Lemma join_members_len fmt depth es : 0 <= depth ->
  Z.of_nat (length (join_members fmt depth es)) + 7 + (if fmt then depth else 0) <= members_len fmt depth es.
Proof.
  intros Hd. unfold members_len. induction es as [|[n e] es IH]; [destruct fmt; cbn [join_members sum_list_with length]; lia|].
  cbn [join_members sum_list_with fst snd].
  rewrite !length_app. destruct fmt; cbn [length] in *; unfold tabs; rewrite ?length_replicate; destruct es; cbn [length]; lia.
Qed.

(** ** Strings *)

(** The three forms of a character in a string. *)
Inductive piece : Z -> list Z -> Prop :=
  | piece_plain c : c <> quote -> c <> backslash -> piece c [c]
  | piece_short c e : e <> ch "u" -> unescape e = c -> piece c [backslash; e]
  | piece_hex c : 0 < c < 32 -> (forall rest, sscanf_4x (fmt_04x c ++ rest) = Some c) -> Forall (fun d => d <> quote /\ d <> backslash) (fmt_04x c) ->
      piece c (backslash :: ch "u" :: fmt_04x c).

Lemma escape_piece c s : 0 < c < 256 -> exists p, piece c p /\ escape (c :: s) = p ++ escape s.
Proof.
  intros Hc. cbn [escape]. destruct (Z.ltb_spec 31 c); cbn [andb].
  - destruct (Z.eqb_spec c quote) as [->|]; [eexists; split; [by apply (piece_short _ quote)|done]|].
    destruct (Z.eqb_spec c backslash) as [->|]; [eexists; split; [by apply (piece_short _ backslash)|done]|].
    eexists. split; [by apply piece_plain|done].
  - unfold short_escape. destruct (Z.eqb_spec c quote); [unfold quote in *; lia|]. destruct (Z.eqb_spec c backslash); [unfold backslash in *; lia|].
    destruct (Z.eqb_spec c 8) as [->|]; [eexists; split; [by apply (piece_short _ (ch "b"))|done]|].
    destruct (Z.eqb_spec c 12) as [->|]; [eexists; split; [by apply (piece_short _ (ch "f"))|done]|].
    destruct (Z.eqb_spec c 10) as [->|]; [eexists; split; [by apply (piece_short _ (ch "n"))|done]|].
    destruct (Z.eqb_spec c 13) as [->|]; [eexists; split; [by apply (piece_short _ (ch "r"))|done]|].
    destruct (Z.eqb_spec c 9) as [->|]; [eexists; split; [by apply (piece_short _ (ch "t"))|done]|].
    eexists. split; [apply piece_hex; [lia|intros rest|]|done].
    all: assert (Hcs : c ∈ seqZ 1 31) by (apply elem_of_seqZ; lia); clear -Hcs; revert c Hcs; apply Forall_forall.
    + repeat constructor.
    + apply (bool_decide_unpack _). vm_compute. exact I.
Qed.

Lemma string_len_plain p s : Forall (fun d => d <> quote /\ d <> backslash) p -> string_len (p ++ s) = n ← string_len s; Ret (n + Z.of_nat (length p)).
Proof.
  induction 1 as [|d p [Hq Hb] _ IH]; cbn [app string_len length].
  - destruct (string_len s) as [n|]; cbn; [f_equal; lia|done].
  - rewrite (proj2 (Z.eqb_neq _ _) Hq), (proj2 (Z.eqb_neq _ _) Hb), IH. destruct (string_len s); cbn; [f_equal; lia|done].
Qed.

(** The measuring pass allows for the characters. *)
Lemma string_len_escape s rest : cstr s -> exists n, string_len (escape s ++ quote :: rest) = Ret n /\ Z.of_nat (length s) <= n.
Proof.
  induction 1 as [|c s Hc _ (n & En & Hn)]; [by exists 0|]. cbn [length].
  destruct (escape_piece c s Hc) as (p & Hp & ->). rewrite <- app_assoc. destruct Hp as [c Hq Hb|c e He Hu|c Hr Hs Hf].
  - rewrite string_len_plain, En by (repeat constructor; done). eexists; split; [done|]. cbn [length]. lia.
  - cbn [app string_len]. rewrite En. eexists; split; [done|]. lia.
  - cbn [app string_len]. change (?a :: ?b :: ?c :: ?d :: escape s ++ quote :: rest) with ([a; b; c; d] ++ escape s ++ quote :: rest).
    fold (fmt_04x c). rewrite string_len_plain, En by done. eexists; split; [done|]. cbn [length]. lia.
Qed.

Lemma put_bytes_ok cap out b : Z.of_nat (length out + length b) <= cap -> put_bytes cap out b = Ret (out ++ b).
Proof. intros H. unfold put_bytes. by rewrite (proj2 (Z.leb_le _ _)) by lia. Qed.

Lemma utf8_ascii c : 0 < c < 32 -> utf8 c = [c].
Proof.
  intros Hc. assert (Hcs : c ∈ seqZ 1 31) by (apply elem_of_seqZ; lia). clear Hc. revert c Hcs. apply Forall_forall.
  apply (bool_decide_unpack _). vm_compute. exact I.
Qed.

Lemma char_at_0 c s : char_at (c :: s) 0 = c.
Proof. done. Qed.

Lemma unicode_escape_hex cap out out' c t uc uc2 : 0 < c < 32 -> sscanf_4x (fmt_04x c ++ t) = Some c ->
  put_bytes cap out [c] = Ret out' -> unicode_escape cap out (ch "u" :: fmt_04x c ++ t) uc uc2 = Ret (out', t, c, uc2).
Proof.
  intros Hr Hx Hp. unfold unicode_escape. cbn [tail]. rewrite Hx. change (default uc (Some c)) with c.
  assert (Ha : advance 4 (ch "u" :: fmt_04x c ++ t) = Ret (hex_char (c mod 16) :: t)) by done.
  rewrite Ha. cbn [mbind res_bind]. dbool;
  rewrite utf8_ascii, Hp by lia; done.
Qed.

(** The second pass undoes the escapes. *)
Lemma string_loop_escape s n cap out rest uc uc2 : cstr s -> (length (escape s) < n)%nat ->
  Z.of_nat (length out + length s) <= cap -> string_loop n cap out (escape s ++ quote :: rest) uc uc2 = Done (out ++ s, quote :: rest).
Proof.
  intros Hs. revert n out uc uc2. induction Hs as [|c s Hc _ IH]; intros n out uc uc2 Hn Hcap; (destruct n as [|n]; [lia|]).
  { by rewrite app_nil_r. }
  destruct (escape_piece c s Hc) as (p & Hp & E). rewrite E in *. rewrite <- app_assoc. rewrite length_app in Hn. cbn [length] in Hcap.
  replace (out ++ c :: s) with ((out ++ [c]) ++ s) by (by rewrite <- app_assoc).
  assert (Hput : put_bytes cap out [c] = Ret (out ++ [c])) by (apply put_bytes_ok; cbn [length]; lia).
  assert (Hnext : forall uc uc2, (length (escape s) < n)%nat ->
    string_loop n cap (out ++ [c]) (escape s ++ quote :: rest) uc uc2 = Done ((out ++ [c]) ++ s, quote :: rest)).
  { intros. apply IH; [done|]. rewrite length_app. cbn [length]. lia. }
  destruct Hp as [c Hq Hb|c e He Hu|c Hr Hx Hf]; cbn [length] in Hn; cbn [app string_loop].
  - rewrite (proj2 (Z.eqb_neq _ _) Hq), (proj2 (Z.eqb_neq _ _) Hb). cbn [negb]. rewrite Hput. apply Hnext. lia.
  - change (backslash =? quote) with false. change (backslash =? backslash) with true. cbn [negb].
    rewrite !char_at_0, (proj2 (Z.eqb_neq _ _) He), Hu, Hput. apply Hnext. lia.
  - change (backslash =? quote) with false. change (backslash =? backslash) with true. cbn [negb].
    rewrite char_at_0. change (ch "u" =? ch "u") with true. cbv iota.
    change (?a :: ?b :: ?c :: ?d :: escape s ++ quote :: rest) with ([a; b; c; d] ++ escape s ++ quote :: rest).
    fold (fmt_04x c). rewrite (unicode_escape_hex _ _ _ _ _ _ _ Hr (Hx _) Hput). apply Hnext. cbn [length fmt_04x] in Hn. lia.
Qed.

(** ** Numbers *)

Lemma d_mul_10 v : 0 <= v -> v * 10 < 2 ^ 53 -> d_mul (d_of_int v) (d_of_int 10) = d_of_int (v * 10).
Proof. intros Hv Hb. destruct (Z.eq_dec v 0) as [->|]; [done|]. apply d_mul_int; lia. Qed.

Lemma int_digits_run v ds rest : 0 <= v -> run_value v ds < 2 ^ 53 -> Forall (fun c => is_digit c = true) ds ->
  is_digit (char_at rest 0) = false -> int_digits (d_of_int v) (ds ++ rest) = (d_of_int (run_value v ds), rest).
Proof.
  intros Hv Hb Hd Hr. revert v Hv Hb. induction Hd as [|c ds Hc Hd IH]; intros v Hv Hb; cbn [app int_digits run_value] in *.
  - destruct rest as [|c rest]; [done|]. rewrite char_at_0 in Hr. cbn [int_digits]. by rewrite Hr.
  - rewrite Hc. unfold is_digit in Hc. apply andb_true_iff in Hc as [?%Z.leb_le ?%Z.leb_le].
    pose proof (run_value_ge (v * 10 + (c - 48)) ds ltac:(lia) Hd).
    rewrite d_mul_10, d_add_int by lia. apply IH; lia.
Qed.

(** What follows a number is not part of it. *)
Definition number_end (rest : list Z) : bool :=
  negb (is_digit (char_at rest 0)) && negb (first_is (ch ".") rest) && negb (first_is (ch "e") rest) && negb (first_is (ch "E") rest).

(** The item that is read stands for the value. *)
Lemma value_of_item k j : json_okb j = true -> value_of (item_of k j) = Some j.
Proof.
  revert k. induction j as [|b|z|s|l IH|l IH] using json_ind; intros k Hok; [done|by destruct b| |done|..]; cbn [json_okb] in Hok.
  - apply andb_true_iff in Hok as [H1 H2]. cbn. by rewrite bool_decide_true, H1, H2.
  - apply forallb_Forall in Hok. change (value_of (item_of k (JArr l))) with (JArr <$> mapM value_of (item_of None <$> l)).
    rewrite mapM_fmap_Forall_Some; [done|]. apply (Forall_with _ _ _ _ IH Hok). auto.
  - apply forallb_Forall in Hok. change (value_of (item_of k (JObj l))) with (JObj <$> mapM
      (fun c => match j_string c, value_of c with Some k, Some v => Some (k, v) | _, _ => None end) ((fun kv => item_of (Some kv.1) kv.2) <$> l)).
    rewrite mapM_fmap_Forall_Some; [done|]. apply (Forall_with _ _ _ _ IH Hok).
    intros [n j] H1 [_ H2]%andb_true_iff. cbn [fst snd] in *. rewrite H1 by done. destruct j as [|[]| | | |]; done.
Qed.

Section spec.
Context `{HL : LibmSpec}.
Variable mem : nat -> bool.
Variable junk : Z.

Lemma alloc_text_ok cap t st : (forall i, mem i = true) -> Z.of_nat (length t) + 1 <= cap ->
  exists st', alloc_text mem cap t st = Ret (Some t, st').
Proof.
  intros Hm Hc. unfold alloc_text, malloc, in_block. rewrite Hm, (proj2 (Z.leb_le _ _)) by lia. by eexists.
Qed.

Lemma strdup_ok s st : (forall i, mem i = true) -> cstr s -> exists st', cJSON_strdup mem s st = Ret (Some s, st').
Proof.
  intros Hm Hs. unfold cJSON_strdup. rewrite strlen_cstr, take_ge by (done || lia). apply alloc_text_ok; [done|lia].
Qed.

Lemma print_quoted s st : (forall i, mem i = true) -> exists st', print_string_ptr mem (Some s) st = Ret (Some (quoted s), st').
Proof.
  intros Hm. cbn [print_string_ptr]. apply alloc_text_ok; [done|]. unfold quoted. cbn [length]. rewrite length_app. cbn [length].
  pose proof (escape_len s). lia.
Qed.

Lemma print_int c st : (forall i, mem i = true) -> j_valuedouble c = d_of_int (j_valueint c) ->
  INT_MIN <= j_valueint c <= INT_MAX -> exists st', print_number mem c st = Ret (Some (fmt_d (j_valueint c)), st').
Proof.
  intros Hm Hd Hr. unfold INT_MIN, INT_MAX in *. unfold print_number. rewrite Hd, d_sub_same by lia.
  change (d_le (d_abs (S754_zero false)) DBL_EPSILON) with true. unfold INT_MAX, INT_MIN.
  rewrite !d_le_int, !(proj2 (Z.leb_le _ _)) by lia. cbn [andb].
  apply alloc_text_ok; [done|]. pose proof (fmt_d_length (j_valueint c)). lia.
Qed.

Lemma exponent_none rest : number_end rest = true -> exponent rest = (0, 1, rest).
Proof. unfold number_end, exponent. destruct (first_is (ch "e") rest), (first_is (ch "E") rest); rewrite ?andb_false_r; done. Qed.

Lemma d_to_int_int z : INT_MIN <= z <= INT_MAX -> d_to_int (d_of_int z) = z.
Proof.
  unfold INT_MIN, INT_MAX. intros Hz. unfold d_to_int. rewrite d_trunc_int by lia. by rewrite !(proj2 (Z.leb_le _ _)) by lia.
Qed.

Lemma d_mul_int_nonneg sign n : sign = 1 \/ sign = -1 /\ 0 < n -> 0 <= n < 2 ^ 53 -> d_mul (d_of_int sign) (d_of_int n) = d_of_int (sign * n).
Proof.
  intros Hs Hn. destruct (Z.eq_dec n 0) as [->|]; [by destruct Hs as [->|]; [|lia]|]. apply d_mul_int; lia.
Qed.

(** A run of digits that is the number [n], after its sign. *)
Lemma parse_unsigned_run sign n item rest : sign = 1 \/ sign = -1 /\ 0 < n -> 0 <= n < 10 ^ 10 -> INT_MIN <= sign * n <= INT_MAX ->
  number_end rest = true -> parse_unsigned sign item (digits_of 10 10 n [] ++ rest)
  = (set_type cJSON_Number (set_valueint (sign * n) (set_valuedouble (d_of_int (sign * n)) item)), rest).
Proof.
  intros Hs Hn Hr He. pose proof He as He'. unfold number_end in He'. rewrite !andb_true_iff, !negb_true_iff in He'.
  destruct He' as [[[Hd Hdot] _] _]. destruct (digits_run 10 n []) as (c & ds & -> & Hds & Hv & Hc); [done|lia|].
  rewrite app_nil_r. cbn [app]. unfold parse_unsigned.
  set (num := if first_is (ch "0") _ then _ else _).
  assert (E : (if (ch "1" <=? char_at num 0) && (char_at num 0 <=? ch "9") then int_digits (S754_zero false) num else (S754_zero false, num))
    = (d_of_int n, rest)).
  { unfold num, first_is. rewrite char_at_0. inversion Hds as [|? ? Hcd Hds' [E1 E2]]. pose proof Hcd as Hcr.
    unfold is_digit in Hcr. apply andb_true_iff in Hcr as [?%Z.leb_le ?%Z.leb_le].
    destruct (Z.eqb_spec c (ch "0")) as [->|Hc0].
    - destruct (Hc eq_refl) as [-> ->]. cbn [app tail]. unfold is_digit in Hd.
      change (ch "1") with 49. change (ch "9") with 57. destruct (Z.leb_spec 49 (char_at rest 0)), (Z.leb_spec (char_at rest 0) 57); try done.
      dbool_in Hd; done || lia.
    - change (ch "0") with 48 in Hc0. rewrite char_at_0. change (ch "1") with 49. change (ch "9") with 57. rewrite !(proj2 (Z.leb_le _ _)) by lia.
      cbn [andb]. change (S754_zero false) with (d_of_int 0). rewrite app_comm_cons, int_digits_run, Hv by (rewrite ?Hv; done || lia). done. }
  rewrite E. rewrite Hdot. cbn [andb]. rewrite exponent_none by done.
  change (d_add (S754_zero false) _) with (S754_zero false). rewrite pow10_zero, d_mul_int_nonneg by (done || lia).
  unfold INT_MIN, INT_MAX in Hr.
  assert (E1 : d_mul (d_of_int (sign * n)) (d_of_int 1) = d_of_int (sign * n)).
  { destruct (Z.eq_dec (sign * n) 0) as [->|]; [done|]. rewrite d_mul_int, Z.mul_1_r by lia. done. }
  rewrite E1, d_to_int_int by (unfold INT_MIN, INT_MAX; lia). done.
Qed.

Lemma parse_number_int z item rest : INT_MIN <= z <= INT_MAX -> number_end rest = true ->
  parse_number item (fmt_d z ++ rest) = (set_type cJSON_Number (set_valueint z (set_valuedouble (d_of_int z) item)), rest).
Proof.
  intros Hz He. unfold parse_number, fmt_d. pose proof Hz as Hz'. unfold INT_MIN, INT_MAX in Hz. destruct (Z.ltb_spec z 0).
  - cbn [app]. change (first_is (ch "-") (ch "-" :: _)) with true. cbv iota. cbn [tail].
    rewrite parse_unsigned_run; [|lia|lia|unfold INT_MIN, INT_MAX; lia|done]. by replace (-1 * - z) with z by lia.
  - destruct (digits_run 10 z []) as (c & ds & E & Hds & _ & _); [lia|lia|].
    replace (first_is (ch "-") (digits_of 10 10 z [] ++ rest)) with false.
    + rewrite parse_unsigned_run; [|lia|lia|unfold INT_MIN, INT_MAX; lia|done]. by rewrite Z.mul_1_l.
    + rewrite E. cbn [app]. unfold first_is. rewrite char_at_0. inversion Hds as [|? ? Hc]. unfold is_digit in Hc. symmetry. apply Z.eqb_neq.
      change (ch "-") with 45. apply andb_true_iff in Hc as [?%Z.leb_le _]. lia.
Qed.

Lemma parse_string_quoted item s rest st : (forall i, mem i = true) -> cstr s ->
  exists st', parse_string mem junk item (quoted s ++ rest) st = Done (Some rest, set_type cJSON_String (set_valuestring (Some s) item), st').
Proof.
  intros Hm Hs. unfold parse_string, quoted. cbn [app]. change (first_is quote (quote :: _)) with true. cbv iota. cbn [tail].
  rewrite <- app_assoc. cbn [app]. destruct (string_len_escape s rest Hs) as (n & -> & Hn). cbn [of_res mbind outcome_bind].
  unfold malloc. rewrite Hm. rewrite string_loop_escape; [|done| |cbn [length]; lia].
  - cbn [mbind outcome_bind app]. rewrite put_bytes_ok by (cbn [length]; lia). by eexists.
  - cbn [length]. rewrite length_app. lia.
Qed.

(** Printing gives the text of the value, when memory does not run out. *)
Definition prints (fmt : bool) (depth : Z) (c : cJSON) (j : json) : Prop :=
  forall st, exists st', print_value mem fmt depth c st = Ret (Some (text fmt depth j), st').

Lemma print_elements_ok fmt depth l js st : Forall2 (prints fmt depth) l js ->
  exists st', print_elements (print_value mem fmt depth) l st = Ret (text fmt depth <$> js, false, st').
Proof.
  intros Hl. revert st. induction Hl as [|c j l js Hc _ IH]; intros st; [by eexists|]. cbn [print_elements].
  destruct (Hc st) as [st1 ->]. cbn [mbind res_bind]. destruct (IH st1) as [st2 E]. fold (print_elements (print_value mem fmt depth)).
  rewrite E. by eexists.
Qed.

Definition member_texts (fmt : bool) (depth : Z) (l : list (list Z * json)) : list (list Z * list Z) :=
  (fun kv => (quoted kv.1, text fmt depth kv.2)) <$> l.

Lemma print_members_ok fmt depth l js st : (forall i, mem i = true) ->
  Forall2 (fun c kv => j_string c = Some kv.1 /\ prints fmt depth c kv.2) l js ->
  exists st', print_members mem (print_value mem fmt depth) l st
    = Ret ((fun e => (Some e.1, Some e.2)) <$> member_texts fmt depth js, st').
Proof.
  intros Hm Hl. revert st. induction Hl as [|c [k j] l js [Hk Hc] _ IH]; intros st; [by eexists|]. cbn [print_members].
  cbn [fst] in Hk. rewrite Hk. destruct (print_quoted k st Hm) as [st1 ->]. cbn [mbind res_bind fst snd]. destruct (Hc st1) as [st2 ->].
  cbn [mbind res_bind]. destruct (IH st2) as [st3 E]. fold (print_members mem (print_value mem fmt depth)).
  rewrite E. by eexists.
Qed.

Lemma all_printed_ok es : all_printed ((fun e => (Some e.1, Some e.2)) <$> es) = Some es.
Proof. induction es as [|[n e] es IH]; [done|]. cbn. by rewrite IH. Qed.

Lemma finish_text_ok n cap t st : (forall i, mem i = true) -> Z.of_nat (length t) + 1 <= cap ->
  exists st', finish_text mem n cap t st = Ret (Some t, st').
Proof. intros Hm Hc. unfold finish_text. destruct (alloc_text_ok cap t st Hm Hc) as [st' ->]. by eexists. Qed.

Lemma print_value_text c j fmt depth : (forall i, mem i = true) -> value_of c = Some j -> 0 <= depth -> prints fmt depth c j.
Proof.
  intros Hm. revert j depth. induction c as [c IH] using cJSON_ind. intros j depth Hv Hd st. destruct c as [l t vs vi vd k].
  cbn [value_of print_value j_child j_type j_valuestring j_valueint j_valuedouble j_string] in *.
  destruct (Z.land t 255 =? cJSON_NULL); [simplify_eq; apply strdup_ok; [done|vm_compute; repeat constructor; discriminate]|].
  destruct (Z.land t 255 =? cJSON_False); [simplify_eq; apply strdup_ok; [done|vm_compute; repeat constructor; discriminate]|].
  destruct (Z.land t 255 =? cJSON_True); [simplify_eq; apply strdup_ok; [done|vm_compute; repeat constructor; discriminate]|].
  destruct (Z.land t 255 =? cJSON_Number).
  { case_bool_decide; [|done]. destruct (Z.leb_spec INT_MIN vi), (Z.leb_spec vi INT_MAX); try done.
    cbn in Hv. simplify_eq.
    apply print_int; cbn; (done || lia). }
  destruct (Z.land t 255 =? cJSON_String).
  { destruct vs as [s|]; [|done]. cbn in Hv. simplify_eq. by apply print_quoted. }
  destruct (Z.land t 255 =? cJSON_Array).
  { destruct (mapM value_of l) as [js|] eqn:Ejs; [|done]. cbn in Hv. simplify_eq. apply mapM_Some in Ejs.
    unfold malloc. rewrite Hm.
    destruct (print_elements_ok fmt (depth + 1) l js (mk_js (S (js_next st)) (js_live st + 1) (js_ep st))) as [st1 ->].
    - apply (Forall2_with _ _ _ _ _ Ejs IH). intros c j H1 H2. apply H2; [done|lia].
    - cbn [mbind res_bind]. apply finish_text_ok; [done|]. cbn [text length]. rewrite length_app. cbn [length].
      pose proof (join_elements_len fmt (text fmt (depth + 1) <$> js)). lia. }
  destruct (Z.land t 255 =? cJSON_Object); [|done].
  destruct (mapM _ l) as [js|] eqn:Ejs; [|done]. cbn in Hv. simplify_eq. apply mapM_Some in Ejs.
  unfold malloc. rewrite !Hm.
  edestruct (print_members_ok fmt (depth + 1) l js) as [st1 ->]; [done| |].
  - apply (Forall2_with _ _ _ _ _ Ejs IH). intros c [k' j] H1 H2.
    destruct (j_string c); [|done]. destruct (value_of c); [|done]. simplify_eq. split; [done|]. apply H2; [done|lia].
  - cbn [mbind res_bind]. rewrite all_printed_ok. apply finish_text_ok; [done|]. cbn [text length]. rewrite !length_app. cbn [length].
    pose proof (join_members_len fmt (depth + 1) (member_texts fmt (depth + 1) js) ltac:(lia)).
    destruct fmt; cbn [length]; unfold tabs; rewrite ?length_replicate; fold (member_texts true (depth + 1) js); fold (member_texts false (depth + 1) js); lia.
Qed.
(** ** Reading *)

Lemma skip_app ws s : Forall (fun c => c <= 32) ws -> skip (ws ++ s) = skip s.
Proof. induction 1 as [|c ws Hc _ IH]; [done|]. cbn [app skip]. by rewrite (proj2 (Z.leb_le _ _)). Qed.

Lemma skip_head c s : 32 < c -> skip (c :: s) = c :: s.
Proof. intros Hc. cbn [skip]. by rewrite (proj2 (Z.leb_gt _ _)). Qed.

Lemma tabs_space d : Forall (fun c => c <= 32) (tabs d).
Proof. apply Forall_replicate. lia. Qed.

Lemma has_prefix_head d p c s : c <> d -> has_prefix (d :: p) (c :: s) = false.
Proof.
  intros Hc. unfold has_prefix. cbn [strncmp length]. change (default 0 (head (c :: s))) with c. change (default 0 (head (d :: p))) with d.
  by rewrite (proj2 (Z.eqb_neq c d)), (proj2 (Z.eqb_neq (c - d) 0)) by lia.
Qed.

Lemma fmt_d_head z : INT_MIN <= z <= INT_MAX -> exists c t, fmt_d z = c :: t /\ (c = ch "-" \/ is_digit c = true).
Proof.
  unfold INT_MIN, INT_MAX. intros Hz. unfold fmt_d. destruct (Z.ltb_spec z 0); [by do 2 eexists; split; [|left]|].
  destruct (digits_run 10 z []) as (c & ds & -> & Hd & _); [lia|lia|]. inversion Hd. do 2 eexists. split; [done|by right].
Qed.

Lemma json_num_ok z : json_okb (JNum z) = true -> INT_MIN <= z <= INT_MAX.
Proof. cbn [json_okb]. intros [?%Z.leb_le ?%Z.leb_le]%andb_true_iff. done. Qed.

(** A text starts with a character that is not skipped and ends no list. *)
Lemma text_head fmt depth j : json_okb j = true -> exists c t, text fmt depth j = c :: t /\ 32 < c /\ c <> ch "]".
Proof.
  intros Hok. destruct j as [|b|z|s|l|l]; cbn [text]; [by do 2 eexists|by destruct b; do 2 eexists| |by do 2 eexists..].
  destruct (fmt_d_head z) as (c & t & -> & Hc); [by apply json_num_ok|]. do 2 eexists. split; [done|].
  change (ch "-") with 45 in Hc. change (ch "]") with 93. destruct Hc as [->|[?%Z.leb_le ?%Z.leb_le]%andb_true_iff]; lia.
Qed.

Lemma skip_text fmt depth j rest : json_okb j = true -> skip (text fmt depth j ++ rest) = text fmt depth j ++ rest.
Proof. intros Hok. destruct (text_head fmt depth j Hok) as (c & t & -> & Hc & _). by apply skip_head. Qed.

(** One turn of each of the three functions. *)
Lemma parse_value_S n item value st : parse_value mem junk (S n) item value st =
      if has_prefix (cs "null") value then Done (Some (drop 4 value), set_type cJSON_NULL item, st)
      else if has_prefix (cs "false") value then Done (Some (drop 5 value), set_type cJSON_False item, st)
      else if has_prefix (cs "true") value then Done (Some (drop 4 value), set_valueint 1 (set_type cJSON_True item), st)
      else if first_is quote value then parse_string mem junk item value st
      else if first_is (ch "-") value || is_digit (char_at value 0) then
        let '(item, rest) := parse_number item value in Done (Some rest, item, st)
      else if first_is (ch "[") value then
        let item := set_type cJSON_Array item in
        let value := skip (tail value) in
        if first_is (ch "]") value then Done (Some (tail value), item, st)
        else '(r, l, st) ← parse_elements mem junk n value st; Done (r, set_child l item, st)
      else if first_is (ch "{") value then
        let item := set_type cJSON_Object item in
        let value := skip (tail value) in
        if first_is (ch "}") value then Done (Some (tail value), item, st)
        else '(r, l, st) ← parse_members mem junk n value st; Done (r, set_child l item, st)
      else Done (None, item, set_ep value st).
Proof. done. Qed.

Lemma parse_elements_S n value st : parse_elements mem junk (S n) value st =
      let '(ok, st) := malloc mem st in
      if ok then
        '(r, child, st) ← parse_value mem junk n new_item (skip value) st;
        match skip <$> r with
        | None => Done (None, [child], st)
        | Some value =>
            if first_is (ch ",") value then '(r, l, st) ← parse_elements mem junk n (tail value) st; Done (r, child :: l, st)
            else if first_is (ch "]") value then Done (Some (tail value), [child], st)
            else Done (None, [child], set_ep value st)
        end
      else Done (None, [], st).
Proof. done. Qed.

Lemma parse_members_S n value st : parse_members mem junk (S n) value st =
      let '(ok, st) := malloc mem st in
      if ok then
        '(r, child, st) ← parse_string mem junk new_item (skip value) st;
        match skip <$> r with
        | None => Done (None, [child], st)
        | Some value =>
            let child := set_valuestring None (set_string (j_valuestring child) child) in
            if negb (first_is (ch ":") value) then Done (None, [child], set_ep value st)
            else
              '(r, child, st) ← parse_value mem junk n child (skip (tail value)) st;
              match skip <$> r with
              | None => Done (None, [child], st)
              | Some value =>
                  if first_is (ch ",") value then '(r, l, st) ← parse_members mem junk n (tail value) st; Done (r, child :: l, st)
                  else if first_is (ch "}") value then Done (Some (tail value), [child], st)
                  else Done (None, [child], set_ep value st)
              end
        end
      else Done (None, [], st).
Proof. done. Qed.

(** The text of the value is read as its item. *)
Definition reads (fmt : bool) (depth : Z) (j : json) : Prop := forall k t n rest st,
  (2 * length (text fmt depth j) <= n)%nat -> number_end rest = true ->
  exists st', parse_value mem junk n (set_type t (set_string k new_item)) (text fmt depth j ++ rest) st = Done (Some rest, item_of k j, st').

Lemma reads_number fmt depth z : json_okb (JNum z) = true -> reads fmt depth (JNum z).
Proof.
  intros Hz%json_num_ok k ty n rest st Hn He. cbn [text] in *. exists st.
  pose proof (parse_number_int z (set_type ty (set_string k new_item)) rest Hz He) as Hp.
  destruct (fmt_d_head z Hz) as (c & t & E & Hc). rewrite E in *. cbn [app length] in *. destruct n as [|n]; [lia|]. rewrite parse_value_S.
  change (ch "-") with 45 in Hc.
  assert (Hr : c = 45 \/ 48 <= c <= 57) by (destruct Hc as [|[?%Z.leb_le ?%Z.leb_le]%andb_true_iff]; lia).
  unfold first_is at 1 2. rewrite !char_at_0. unfold cs. cbn [fmap list_fmap list_ascii_of_string].
  rewrite !has_prefix_head by (change (Zascii "n") with 110; change (Zascii "f") with 102; change (Zascii "t") with 116; lia).
  rewrite (proj2 (Z.eqb_neq c quote)) by (unfold quote; lia). change (ch "-") with 45.
  replace ((c =? 45) || is_digit c) with true; [by rewrite Hp|].
  destruct Hc as [->| ->]; [done|by rewrite orb_true_r].
Qed.

Lemma reads_string fmt depth s : (forall i, mem i = true) -> json_okb (JStr s) = true -> reads fmt depth (JStr s).
Proof.
  intros Hm Hs%bool_decide_eq_true k t n rest st Hn He. cbn [text] in *. destruct n as [|n]; [unfold quoted in Hn; cbn in Hn; lia|].
  destruct (parse_string_quoted (set_type t (set_string k new_item)) s rest st Hm Hs) as [st' E]. exists st'. exact E.
Qed.

(** One element of an array, after the bracket or a comma, and what is left. *)
Lemma parse_element fmt depth j n value more st : (forall i, mem i = true) -> reads fmt depth j -> (2 * length (text fmt depth j) <= n)%nat ->
  number_end more = true -> skip value = text fmt depth j ++ more ->
  exists st1, parse_elements mem junk (S n) value st =
    if first_is (ch ",") (skip more) then '(r, l, st) ← parse_elements mem junk n (tail (skip more)) st1; Done (r, item_of None j :: l, st)
    else if first_is (ch "]") (skip more) then Done (Some (tail (skip more)), [item_of None j], st1)
    else Done (None, [item_of None j], set_ep (skip more) st1).
Proof.
  intros Hm Hj Hn He Hv. rewrite parse_elements_S. unfold malloc. rewrite Hm, Hv.
  destruct (Hj None 0 n more (mk_js (S (js_next st)) (js_live st + 1) (js_ep st)) Hn He) as [st1 E]. exists st1.
  change (set_type 0 (set_string None new_item)) with new_item in E. rewrite E. done.
Qed.

Lemma join_elements_cons fmt e e' es :
  join_elements fmt (e :: e' :: es) = e ++ ch "," :: (if fmt then [32] else []) ++ join_elements fmt (e' :: es).
Proof. by destruct fmt. Qed.

Lemma parse_elements_text fmt depth l n value rest st : (forall i, mem i = true) -> l <> [] -> Forall (reads fmt depth) l -> forallb json_okb l = true ->
  skip value = join_elements fmt (text fmt depth <$> l) ++ ch "]" :: rest -> (2 * length (join_elements fmt (text fmt depth <$> l)) < n)%nat ->
  exists st', parse_elements mem junk n value st = Done (Some rest, item_of None <$> l, st').
Proof.
  intros Hm Hne Hl. revert n value st Hne. induction Hl as [|j l Hj Hl IH]; intros n value st Hne Hok Hv Hn; [done|].
  cbn [forallb] in Hok. apply andb_true_iff in Hok as [Hjok Hok]. destruct n as [|n]; [lia|]. destruct l as [|j' l].
  - destruct (parse_element fmt depth j n value (ch "]" :: rest) st) as [st1 E]; [done|done| |done|done|].
    + cbn [fmap list_fmap join_elements] in Hn. lia.
    + exists st1. exact E.
  - rewrite !fmap_cons, join_elements_cons, <- fmap_cons in Hv, Hn. rewrite <- app_assoc in Hv. cbn [app] in Hv.
    rewrite length_app in Hn. cbn [length] in Hn. rewrite length_app in Hn.
    edestruct (parse_element fmt depth j n value) as [st1 E]; [done|done| |..|exact Hv|]; [lia|done|].
    rewrite E. rewrite skip_head by (change (ch ",") with 44; lia). change (first_is (ch ",") (ch "," :: _)) with true. cbv iota. cbn [tail].
    edestruct (IH n) as [st2 E2]; [done|done| |lia|rewrite E2; by exists st2].
    cbn [forallb] in Hok. apply andb_true_iff in Hok as [Hok' _]. rewrite <- app_assoc, skip_app by (destruct fmt; repeat constructor; lia).
    destruct (text_head fmt depth j' Hok') as (c & t & Et & Hc & _). rewrite fmap_cons, Et.
    destruct (text fmt depth <$> l); cbn [join_elements app]; by apply skip_head.
Qed.

(** One member of an object, likewise. *)
Lemma parse_member fmt depth k j n value ws more st : (forall i, mem i = true) -> cstr k -> json_okb j = true -> reads fmt depth j ->
  (2 * length (text fmt depth j) <= n)%nat -> number_end more = true -> Forall (fun c => c <= 32) ws ->
  skip value = quoted k ++ ch ":" :: ws ++ text fmt depth j ++ more ->
  exists st1, parse_members mem junk (S n) value st =
    if first_is (ch ",") (skip more) then '(r, l, st) ← parse_members mem junk n (tail (skip more)) st1; Done (r, item_of (Some k) j :: l, st)
    else if first_is (ch "}") (skip more) then Done (Some (tail (skip more)), [item_of (Some k) j], st1)
    else Done (None, [item_of (Some k) j], set_ep (skip more) st1).
Proof.
  intros Hm Hk Hok Hj Hn He Hws Hv. rewrite parse_members_S. unfold malloc. rewrite Hm, Hv.
  set (st0 := mk_js _ _ _).
  destruct (parse_string_quoted new_item k (ch ":" :: ws ++ text fmt depth j ++ more) st0 Hm Hk) as [st1 E1].
  rewrite E1. cbn [mbind outcome_bind]. change (skip <$> Some ?x) with (Some (skip x)). cbv iota beta.
  rewrite skip_head by (change (ch ":") with 58; lia). change (first_is (ch ":") (ch ":" :: _)) with true. cbn [negb tail].
  rewrite skip_app, skip_text by done.
  change (set_valuestring _ _) with (set_type cJSON_String (set_string (Some k) new_item)).
  destruct (Hj (Some k) cJSON_String n more st1 Hn He) as [st2 E2]. exists st2. rewrite E2. done.
Qed.

Lemma join_members_cons fmt depth n e es : join_members fmt depth ((n, e) :: es)
  = (if fmt then tabs depth else []) ++ n ++ ch ":" :: (if fmt then [9] else []) ++ e
    ++ (match es with [] => [] | _ => [ch ","] end) ++ (if fmt then [10] else []) ++ join_members fmt depth es.
Proof. by destruct fmt. Qed.

Lemma quoted_skip (fmt : bool) depth k s : skip ((if fmt then tabs depth else []) ++ quoted k ++ s) = quoted k ++ s.
Proof. rewrite skip_app by (destruct fmt; [apply tabs_space|constructor]). by apply skip_head. Qed.

Lemma number_end_space ws s : Forall (fun c => c <= 32) ws -> number_end s = true -> number_end (ws ++ s) = true.
Proof.
  intros [|c ws' Hc _] He; [done|]. cbn [app]. unfold number_end, first_is, is_digit. rewrite !char_at_0.
  change (ch ".") with 46. change (ch "e") with 101. change (ch "E") with 69. dbool.
Qed.

Lemma parse_members_text fmt depth l n value ws rest st : (forall i, mem i = true) -> l <> [] -> Forall (fun kv => reads fmt depth kv.2) l ->
  forallb (fun kv => bool_decide (cstr kv.1) && json_okb kv.2) l = true -> Forall (fun c => c <= 32) ws ->
  skip value = skip (join_members fmt depth (member_texts fmt depth l) ++ ws ++ ch "}" :: rest) ->
  (2 * length (join_members fmt depth (member_texts fmt depth l)) <= n)%nat ->
  exists st', parse_members mem junk n value st = Done (Some rest, (fun kv => item_of (Some kv.1) kv.2) <$> l, st').
Proof.
  intros Hm Hne Hl. revert n value st Hne. induction Hl as [|[k j] l Hj Hl IH]; intros n value st Hne Hok Hws Hv Hn; [done|].
  cbn [forallb fst snd] in Hok, Hj. apply andb_true_iff in Hok as [[Hk%bool_decide_eq_true Hjok]%andb_true_iff Hok].
  unfold member_texts in Hv, Hn. rewrite fmap_cons, join_members_cons in Hv, Hn. cbn [fst snd] in Hv, Hn. fold (member_texts fmt depth l) in Hv, Hn.
  rewrite <- !app_assoc, quoted_skip in Hv. cbn [app] in Hv. rewrite <- !app_assoc in Hv. rewrite !length_app in Hn. cbn [length] in Hn. rewrite !length_app in Hn.
  destruct n as [|n]; [lia|].
  edestruct (parse_member fmt depth k j n value) as [st1 E]; [done|done|done|done| | | |exact Hv|].
  - lia.
  - destruct l as [|kv l]; [|done]. apply (number_end_space []); [constructor|]. apply number_end_space; [destruct fmt; repeat constructor; lia|].
    by apply (number_end_space ws).
  - destruct fmt; repeat constructor; lia.
  - rewrite E. destruct l as [|kv l].
    + change (join_members fmt depth (member_texts fmt depth [])) with (@nil Z). cbn [app]. exists st1.
      rewrite !skip_app by (done || destruct fmt; repeat constructor; lia). done.
    + cbn [app member_texts fmap list_fmap]. rewrite skip_head by (change (ch ",") with 44; lia).
      change (first_is (ch ",") (ch "," :: _)) with true. cbv iota. cbn [tail].
      edestruct (IH n) as [st2 E2]; [done|done|done| | |rewrite E2; by exists st2].
      * rewrite skip_app by (destruct fmt; repeat constructor; lia). done.
      * lia.
Qed.

Lemma parse_value_array n item s st : parse_value mem junk (S n) item (ch "[" :: s) st =
  if first_is (ch "]") (skip s) then Done (Some (tail (skip s)), set_type cJSON_Array item, st)
  else '(r, l, st) ← parse_elements mem junk n (skip s) st; Done (r, set_child l (set_type cJSON_Array item), st).
Proof. done. Qed.

Lemma parse_value_object n item s st : parse_value mem junk (S n) item (ch "{" :: s) st =
  if first_is (ch "}") (skip s) then Done (Some (tail (skip s)), set_type cJSON_Object item, st)
  else '(r, l, st) ← parse_members mem junk n (skip s) st; Done (r, set_child l (set_type cJSON_Object item), st).
Proof. done. Qed.

Lemma skip_idem s : skip (skip s) = skip s.
Proof. induction s as [|c s IH]; [done|]. cbn [skip]. destruct (Z.leb_spec c 32); [done|]. by apply skip_head. Qed.

Lemma reads_array fmt depth l : (forall i, mem i = true) -> Forall (reads fmt (depth + 1)) l -> forallb json_okb l = true -> reads fmt depth (JArr l).
Proof.
  intros Hm Hl Hok k t [|n] rest st Hn _; [cbn in Hn; lia|].
  destruct l as [|j l]; [by exists st|]. cbn [text app length] in *. rewrite length_app in Hn. cbn [length] in Hn.
  rewrite parse_value_array, <- app_assoc. cbn [app].
  assert (Hs : skip (join_elements fmt (text fmt (depth + 1) <$> j :: l) ++ ch "]" :: rest) = join_elements fmt (text fmt (depth + 1) <$> j :: l) ++ ch "]" :: rest
    /\ first_is (ch "]") (join_elements fmt (text fmt (depth + 1) <$> j :: l) ++ ch "]" :: rest) = false).
  { cbn [forallb] in Hok. apply andb_true_iff in Hok as [Hj _]. destruct (text_head fmt (depth + 1) j Hj) as (c & t' & E & Hc & Hb).
    rewrite fmap_cons, E. destruct (text fmt (depth + 1) <$> l); cbn [join_elements app]; (split; [by apply skip_head|by apply Z.eqb_neq]). }
  destruct Hs as [Hs1 Hs2]. rewrite Hs1, Hs2.
  edestruct (parse_elements_text fmt (depth + 1) (j :: l) n) as [st1 E]; [done|done|done|done|exact Hs1|lia|]. rewrite E. by exists st1.
Qed.

Lemma reads_object fmt depth l : (forall i, mem i = true) -> Forall (fun kv => reads fmt (depth + 1) kv.2) l ->
  forallb (fun kv => bool_decide (cstr kv.1) && json_okb kv.2) l = true -> reads fmt depth (JObj l).
Proof.
  intros Hm Hl Hok k t [|n] rest st Hn _; [cbn in Hn; lia|]. cbn [text app length] in *.
  fold (member_texts fmt (depth + 1) l) in *. rewrite !length_app in Hn. cbn [length] in Hn.
  rewrite parse_value_object, <- !app_assoc. cbn [app].
  assert (Hnl : Forall (fun c => c <= 32) (if fmt then [10] else [])) by (destruct fmt; repeat constructor; lia).
  assert (Hws : Forall (fun c => c <= 32) (if fmt then tabs (depth + 1 - 1) else [])) by (destruct fmt; [apply tabs_space|constructor]).
  rewrite skip_app by done. destruct l as [|[k' j] l].
  { change (join_members _ _ (member_texts _ _ [])) with (@nil Z). cbn [app]. rewrite skip_app by done. by exists st. }
  assert (Hs : first_is (ch "}") (skip (join_members fmt (depth + 1) (member_texts fmt (depth + 1) ((k', j) :: l)) ++
    (if fmt then tabs (depth + 1 - 1) else []) ++ ch "}" :: rest)) = false).
  { unfold member_texts. rewrite fmap_cons, join_members_cons, <- !app_assoc, quoted_skip. done. }
  rewrite Hs.
  edestruct (parse_members_text fmt (depth + 1) ((k', j) :: l) n) as [st1 E]; [done|done|done|done|exact Hws|apply skip_idem|lia|].
  rewrite E. by exists st1.
Qed.

Lemma text_reads fmt depth j : (forall i, mem i = true) -> json_okb j = true -> reads fmt depth j.
Proof.
  intros Hm. revert depth. induction j as [|b|z|s|l IH|l IH] using json_ind; intros depth Hok.
  - intros k t [|n] rest st Hn _; [cbn in Hn; lia|]. by exists st.
  - intros k t [|n] rest st Hn _; [destruct b; cbn in Hn; lia|]. exists st. by destruct b.
  - by apply reads_number.
  - by apply reads_string.
  - cbn [json_okb] in Hok. apply reads_array; [done| |done]. apply forallb_Forall in Hok.
    apply (Forall_with _ _ _ _ IH Hok). auto.
  - cbn [json_okb] in Hok. apply reads_object; [done| |done]. apply forallb_Forall in Hok.
    apply (Forall_with _ _ _ _ IH Hok). intros [k j] H1 [_ H2]%andb_true_iff. auto.
Qed.

Lemma parse_text j fmt st : (forall i, mem i = true) -> json_okb j = true ->
  exists st', cJSON_Parse mem junk (text fmt 0 j) st = Done (Some (item_of None j), st').
Proof.
  intros Hm Hok. unfold cJSON_Parse, malloc. rewrite Hm.
  set (st0 := mk_js _ _ _). pose proof (skip_text fmt 0 j [] Hok) as Hs. rewrite app_nil_r in Hs. rewrite Hs.
  destruct (text_reads fmt 0 j Hm Hok None 0 (parse_fuel (text fmt 0 j)) [] st0) as [st1 E]; [unfold parse_fuel; lia|done|].
  rewrite app_nil_r in E. change (set_type 0 (set_string None new_item)) with new_item in E. rewrite E. by exists st1.
Qed.

(** C34. What is printed is read back: an item that stands for a JSON value (its numbers are in the range of
    [int], its strings have no NUL) is printed by [cJSON_Print] and by [cJSON_PrintUnformatted], while there is
    memory, without leaving the block of any text, and [cJSON_Parse] of the text is an item that stands for the same
    value: the order of the elements and members, the names, the control characters and quotes of the strings. *)
Theorem json_roundtrip fmt c j st st2 : (forall i, mem i = true) -> value_of c = Some j -> json_okb j = true ->
  exists t st' c' st3,
    (if fmt : bool then cJSON_Print mem c st else cJSON_PrintUnformatted mem c st) = Ret (Some t, st')
    /\ cJSON_Parse mem junk t st2 = Done (Some c', st3) /\ value_of c' = Some j.
Proof.
  intros Hm Hv Hok. destruct (print_value_text c j fmt 0 Hm Hv ltac:(lia) st) as [st' Ep].
  destruct (parse_text j fmt st2 Hm Hok) as [st3 Er]. exists (text fmt 0 j), st', (item_of None j), st3.
  split_and!; [by destruct fmt|done|by apply value_of_item].
Qed.
End spec.

(** ** Examples *)

(** A libm for the examples: powers of ten from the integers, texts that are short enough. *)
Definition libm_example : Libm := {|
  pow10 d := match d_trunc d with Some z => d_of_int (10 ^ z) | None => d end;
  fmt_e _ := cs "1.000000e+10";
  fmt_f _ := cs "0.500000";
  int_overflow _ := INT_MIN
|}.

Lemma libm_example_spec : @LibmSpec libm_example.
Proof. split. by intros s. Qed.

Definition all_memory (n : nat) : bool := true.
Definition js0 : json_state := mk_js 0 0 None.

Definition example_item : cJSON :=
  item_of None (JObj [(cs "a", JArr [JNum (-12); JBool true; JNull]); (cs "q", JStr [34; 92; 10; 1; 200])]).

Lemma json_roundtrip_witness : exists t st' c' st3,
  @cJSON_Print libm_example all_memory example_item js0 = Ret (Some t, st')
  /\ @cJSON_Parse libm_example all_memory 0 t js0 = Done (Some c', st3) /\ value_of c' = value_of example_item.
Proof.
  pose proof libm_example_spec as HL.
  destruct (@json_roundtrip libm_example HL all_memory 0 true example_item
    (JObj [(cs "a", JArr [JNum (-12); JBool true; JNull]); (cs "q", JStr [34; 92; 10; 1; 200])]) js0 js0)
    as (t & st' & c' & st3 & H1 & H2 & H3); [done|vm_compute; reflexivity|vm_compute; reflexivity|].
  exists t, st', c', st3. split; [exact H1|split; [exact H2|rewrite H3; vm_compute; reflexivity]].
Defined.
