(* ===== verification/JsonSafe.v ===== *)
(** * Safety of packages/json

    The reader of Json.v on every text and with every allocator: it ends, its only fault is a pointer that
    leaves the text or a string's block through an escape ([json_parse_total]), and every block it
    allocates is in the item it returns or freed; the writer frees all but its result
    ([json_blocks]). *)

From Stdlib Require Import SpecFloat.
From S2P Require Import Prelude CString Session Digits Double Json JsonSpec.

(** ** Outcomes *)

(** A result with [P], or a fault that leaves a block, for which [b] is to blame. *)
Definition safe {A} (b : Prop) (P : A -> Prop) (o : outcome A) : Prop :=
  match o with Done x => P x | Crash e => e = OutOfBounds /\ b | NoFuel => False end.

Lemma safe_bind {A B} (b : Prop) (P : A -> Prop) (Q : B -> Prop) (o : outcome A) (f : A -> outcome B) :
  safe b P o -> (forall x, P x -> safe b Q (f x)) -> safe b Q (o ≫= f).
Proof. destruct o as [x|e|]; cbn; auto. Qed.

Lemma safe_weaken {A} (b b' : Prop) (P Q : A -> Prop) o : safe b P o -> (b -> b') -> (forall x, P x -> Q x) -> safe b' Q o.
Proof. destruct o as [x|e|]; cbn; [auto|intros [-> ?]; auto|done]. Qed.

(** The same for a result without fuel. *)
Definition rsafe {A} (P : A -> Prop) (m : res A) : Prop := match m with Ret x => P x | Fault e => e = OutOfBounds end.

Lemma rsafe_bind {A B} (P : A -> Prop) (Q : B -> Prop) (m : res A) (f : A -> res B) :
  rsafe P m -> (forall x, P x -> rsafe Q (f x)) -> rsafe Q (m ≫= f).
Proof. destruct m; cbn; auto. Qed.

Lemma safe_of_res {A} (b : Prop) (P : A -> Prop) m : b -> rsafe P m -> safe b P (of_res m).
Proof. destruct m; cbn; auto. Qed.

Lemma advance_safe n s : rsafe (fun s' => s' = drop n s) (advance n s).
Proof. unfold advance. by destruct (n <=? length s)%nat. Qed.

Lemma read_at_safe s k : rsafe (fun _ => True) (read_at s k).
Proof. unfold read_at. by destruct (k <=? length s)%nat. Qed.

Lemma put_bytes_safe cap out bytes : rsafe (fun out' => out' = out ++ bytes) (put_bytes cap out bytes).
Proof. unfold put_bytes. by destruct (_ <=? cap). Qed.

(** ** Strings *)

Lemma suffix_drop n (s : list Z) : drop n s `suffix_of` s.
Proof. exists (take n s). by rewrite take_drop. Qed.

Lemma suffix_tail (s : list Z) : tail s `suffix_of` s.
Proof. destruct s as [|c s]; [done|]. by exists [c]. Qed.
Lemma suffix_skip s : skip s `suffix_of` s.
Proof. induction s as [|c s IH]; [done|]. cbn [skip]. destruct (c <=? 32); [by apply suffix_cons_r|done]. Qed.

Lemma suffix_drop_S n (s : list Z) : drop (S n) s `suffix_of` tail s.
Proof. destruct s as [|c s]; [done|]. cbn [drop tail]. apply suffix_drop. Qed.

(** An escape ends after its first character. *)
Lemma unicode_escape_safe cap out s uc uc2 : rsafe (fun r => r.1.1.2 `suffix_of` tail s) (unicode_escape cap out s uc uc2).
Proof.
  assert (Hend : forall k (out' : list Z) (uc uc2 : Z), rsafe (fun r => r.1.1.2 `suffix_of` tail s) (p ← advance 1 (drop (S k) s); Ret (out', p, uc, uc2))).
  { intros k out' u u2. apply (rsafe_bind _ _ _ _ (advance_safe _ _)). intros p ->. cbn. rewrite drop_drop. apply suffix_drop_S. }
  unfold unicode_escape. apply (rsafe_bind _ _ _ _ (advance_safe _ _)). intros p ->.
  destruct ((_ && _) || _); [apply Hend|]. destruct (_ && _).
  - apply (rsafe_bind _ _ _ _ (read_at_safe _ _)). intros c1 _. destruct (negb _); [apply Hend|].
    apply (rsafe_bind _ _ _ _ (read_at_safe _ _)). intros c2 _. destruct (negb _); [apply Hend|].
    apply (rsafe_bind _ _ _ _ (advance_safe _ _)). intros p ->. rewrite (drop_drop _ 6 4). destruct (_ || _); [apply Hend|].
    apply (rsafe_bind _ _ _ _ (put_bytes_safe _ _ _)). intros out' _. apply Hend.
  - apply (rsafe_bind _ _ _ _ (put_bytes_safe _ _ _)). intros out' _. apply Hend.
Qed.

Lemma string_loop_safe n cap out s uc uc2 : (length s < n)%nat -> safe True (fun r => r.2 `suffix_of` s) (string_loop n cap out s uc uc2).
Proof.
  revert out s uc uc2. induction n as [|n IH]; intros out s uc uc2 Hn; [lia|]. destruct s as [|c s]; [cbn; reflexivity|]. cbn [length] in Hn. cbn [string_loop].
  assert (Hnext : forall out s' uc uc2, s' `suffix_of` s -> safe True (fun r => r.2 `suffix_of` c :: s) (string_loop n cap out s' uc uc2)).
  { intros out' s' u u2 Hs. eapply safe_weaken; [apply IH|done|].
    - apply suffix_length in Hs. lia.
    - intros x Hx. apply suffix_cons_r. by trans s'. }
  destruct (c =? quote); [cbn; reflexivity|]. destruct (negb _).
  - eapply safe_bind; [apply safe_of_res; [done|apply put_bytes_safe]|]. intros out' _. by apply Hnext.
  - destruct (_ =? ch "u").
    + eapply safe_bind; [apply safe_of_res; [done|apply unicode_escape_safe]|]. intros [[[o s'] u] u2] Hs. apply Hnext. cbn in Hs.
      trans (tail s); [done|apply suffix_tail].
    + eapply safe_bind; [apply safe_of_res; [done|apply put_bytes_safe]|]. intros out' _.
      eapply safe_bind; [apply safe_of_res; [done|apply advance_safe]|]. intros s' ->. apply Hnext, suffix_drop.
Qed.

(** Without a backslash the first pass measures what the second writes. *)
Lemma string_len_no_escape s : backslash ∉ s -> exists k, string_len s = Ret (Z.of_nat k)
  /\ forall n out cap uc uc2, (length s < n)%nat -> Z.of_nat (length out + k) <= cap -> exists out' rest,
    string_loop n cap out s uc uc2 = Done (out', rest) /\ length out' = (length out + k)%nat.
Proof.
  induction s as [|c s IH]; intros Hb.
  { exists 0%nat. split; [done|]. intros [|n] out cap uc uc2 Hn Hc; [lia|]. exists out, []. split; [done|lia]. }
  apply not_elem_of_cons in Hb as [Hc Hb]. destruct (IH Hb) as (k & Ek & Hk). cbn [string_len].
  destruct (c =? quote) eqn:Eq.
  { exists 0%nat. split; [done|]. intros [|n] out cap uc uc2 Hn Hcap; [lia|]. exists out, (c :: s). cbn [string_loop]. rewrite Eq. split; [done|lia]. }
  rewrite (proj2 (Z.eqb_neq c backslash)), Ek by done. exists (S k). split; [cbn; f_equal; lia|].
  intros [|n] out cap uc uc2 Hn Hcap; [lia|]. cbn [string_loop length] in *. rewrite Eq, (proj2 (Z.eqb_neq c backslash)) by done. cbn [negb].
  rewrite put_bytes_ok by (cbn [length]; lia). cbn [of_res mbind outcome_bind].
  destruct (Hk n (out ++ [c]) cap uc uc2) as (out' & rest & E & Hl); [lia|rewrite length_app; cbn [length]; lia|].
  exists out', rest. split; [done|]. rewrite Hl, length_app. cbn [length]. lia.
Qed.

(** ** Numbers *)

Lemma int_digits_suffix n s : (int_digits n s).2 `suffix_of` s.
Proof. revert n. induction s as [|c s IH]; intros n; [done|]. cbn [int_digits]. destruct (is_digit c); [by apply suffix_cons_r|done]. Qed.

Lemma frac_digits_suffix n k s : (frac_digits n k s).2 `suffix_of` s.
Proof. revert n k. induction s as [|c s IH]; intros n k; [done|]. cbn [frac_digits]. destruct (is_digit c); [by apply suffix_cons_r|done]. Qed.

Lemma exp_digits_suffix n s : (exp_digits n s).2 `suffix_of` s.
Proof. revert n. induction s as [|c s IH]; intros n; [done|]. cbn [exp_digits]. destruct (is_digit c); [by apply suffix_cons_r|done]. Qed.

Lemma exponent_suffix s : (exponent s).2 `suffix_of` s.
Proof.
  assert (Hend : forall (sign : Z) s', s' `suffix_of` s -> (let '(subscale, s'') := exp_digits 0 s' in (subscale, sign, s'')).2 `suffix_of` s).
  { intros sign s' Hs. pose proof (exp_digits_suffix 0 s') as He. destruct (exp_digits 0 s'). cbn in *. by trans s'. }
  unfold exponent. destruct (_ || _); [|done]. assert (Htt : tail (tail s) `suffix_of` s) by (trans (tail s); apply suffix_tail).
  destruct (first_is (ch "+") (tail s)), (first_is (ch "-") (tail s)); apply Hend; done || apply suffix_tail.
Qed.

Lemma parse_number_suffix `{Libm} item s : exists vi vd rest, rest `suffix_of` s
  /\ parse_number item s = (set_type cJSON_Number (set_valueint vi (set_valuedouble vd item)), rest).
Proof.
  assert (Hu : forall sign s', s' `suffix_of` s -> exists vi vd rest, rest `suffix_of` s
    /\ parse_unsigned sign item s' = (set_type cJSON_Number (set_valueint vi (set_valuedouble vd item)), rest)).
  { intros sign s' Hs. unfold parse_unsigned. set (num := if first_is (ch "0") s' then tail s' else s').
    assert (H1 : num `suffix_of` s) by (unfold num; destruct (first_is (ch "0") s'); [trans s'; [apply suffix_tail|done]|done]).
    destruct (if _ && (char_at num 0 <=? ch "9") then _ else _) as [n num2] eqn:E2.
    assert (H2 : num2 `suffix_of` s).
    { trans num; [|done]. revert E2. destruct (_ && _); [|intros E; by simplify_eq]. intros E2. pose proof (int_digits_suffix (S754_zero false) num) as Hi. by rewrite E2 in Hi. }
    clear E2 H1. clearbody num.
    destruct (if first_is (ch ".") num2 && _ then _ else _) as [[n3 scale] num3] eqn:E3.
    assert (H3 : num3 `suffix_of` s).
    { trans num2; [|done]. revert E3. destruct (_ && _); [|intros E; by simplify_eq]. intros E3. pose proof (frac_digits_suffix n (S754_zero false) (tail num2)) as Hi.
      rewrite E3 in Hi. trans (tail num2); [done|apply suffix_tail]. }
    pose proof (exponent_suffix num3) as H4. destruct (exponent num3) as [[a b] num4]. do 3 eexists. split; [|done]. by trans num3. }
  unfold parse_number. destruct (first_is (ch "-") s); apply Hu; [apply suffix_tail|done].
Qed.

Lemma string_len_safe s : rsafe (fun _ => True) (string_len s).
Proof.
  remember (length s) as n eqn:Hn. assert (length s <= n)%nat as Hs by lia. clear Hn. revert s Hs.
  induction n as [|n IH]; intros [|c s] Hs; cbn [length] in Hs; [done|lia|done|]. cbn [string_len].
  destruct (c =? quote); [done|]. destruct (c =? backslash).
  - destruct s as [|c' s]; [done|]. cbn [length] in Hs. eapply rsafe_bind; [apply IH; lia|done].
  - eapply rsafe_bind; [apply IH; lia|done].
Qed.

(** ** Items and their blocks *)

(** An item that owns no string and no children yet. *)
Definition fresh (c : cJSON) : Prop := j_child c = [] /\ j_valuestring c = None /\ Z.testbit (j_type c) 8 = false.

Lemma fresh_new : fresh new_item.
Proof. done. Qed.

Section safety.
Context `{Libm}.
Variable mem : nat -> bool.
Variable junk : Z.

Lemma malloc_live st : js_live (malloc mem st).2 = js_live st + if (malloc mem st).1 then 1 else 0.
Proof. unfold malloc. destruct (mem _); cbn; lia. Qed.

(** What a string leaves: a copy in the item, or nothing. *)
Definition string_post (value : list Z) (item : cJSON) (st : json_state) (x : option (list Z) * cJSON * json_state) : Prop :=
  let '(r, item', st') := x in
  match r with
  | Some rest => rest `suffix_of` value
      /\ (exists out, item' = set_type cJSON_String (set_valuestring (Some out) item)) /\ js_live st' = js_live st + 1
  | None => item' = item /\ js_live st' = js_live st
  end.

Lemma parse_string_safe item value st : safe (backslash ∈ value) (string_post value item st) (parse_string mem junk item value st).
Proof.
  unfold parse_string. destruct (first_is quote value); [|by cbn].
  assert (Hend : forall (out rest : list Z) st', js_live st' = js_live st + 1 -> rest `suffix_of` tail value ->
    string_post value item st (Some (if first_is quote rest then tail rest else rest), set_type cJSON_String (set_valuestring (Some out) item), st')).
  { intros out rest st' Hl Hs. split_and!; [|by eexists|done]. trans (tail value); [|apply suffix_tail].
    destruct (first_is quote rest); [|done]. trans rest; [apply suffix_tail|done]. }
  assert (Hlen : (length (tail value) < S (length value))%nat) by (destruct value; cbn; lia).
  pose proof (malloc_live st) as Hm. destruct (malloc mem st) as [ok st1]. cbn [fst snd] in Hm.
  pose proof (string_loop_safe (S (length value))) as Hloop.
  destruct (decide (backslash ∈ tail value)) as [Hb|Hb].
  - assert (backslash ∈ value) by (destruct value; [done|by apply list_elem_of_further]).
    eapply safe_bind; [apply safe_of_res; [done|apply string_len_safe]|]. intros len _. destruct ok; [|cbn; split; [done|lia]].
    eapply safe_bind; [eapply safe_weaken; [by apply Hloop|done|by intros x Hx; exact Hx]|]. intros [out rest] Hs.
    eapply safe_bind; [apply safe_of_res; [done|apply put_bytes_safe]|]. intros _ _. apply Hend; [lia|done].
  - destruct (string_len_no_escape (tail value) Hb) as (k & -> & Hk). cbn [of_res mbind outcome_bind]. destruct ok; [|cbn; split; [done|lia]].
    destruct (Hk (S (length value)) [] (Z.of_nat k + 1) junk junk) as (out & rest & E & Hl); [done|cbn; lia|].
    specialize (Hloop (Z.of_nat k + 1) [] (tail value) junk junk Hlen). rewrite E in Hloop |- *. cbn [mbind outcome_bind] in *.
    cbn [length] in Hl. rewrite put_bytes_ok by (cbn [length]; lia). apply Hend; [lia|done].
Qed.
(** The rest is a suffix; the blocks are those of the item, or of the items. *)
Definition rest_of (value : list Z) (r : option (list Z)) : Prop := forall rest, r = Some rest -> rest `suffix_of` value.

Definition value_post (value : list Z) (item : cJSON) (st : json_state) (x : option (list Z) * cJSON * json_state) : Prop :=
  let '(r, item', st') := x in
  rest_of value r /\ js_live st' + Z.of_nat (delete_item item) = js_live st + Z.of_nat (delete_item item').

Definition list_post (value : list Z) (st : json_state) (x : option (list Z) * list cJSON * json_state) : Prop :=
  let '(r, l, st') := x in
  rest_of value r /\ js_live st' = js_live st + Z.of_nat (sum_list_with delete_item l).

Definition parses (n : nat) : Prop :=
  (forall item value st, fresh item -> (2 * length value < n)%nat -> safe (backslash ∈ value) (value_post value item st) (parse_value mem junk n item value st))
  /\ (forall value st, (2 * length value + 1 < n)%nat -> safe (backslash ∈ value) (list_post value st) (parse_elements mem junk n value st))
  /\ (forall value st, (2 * length value + 1 < n)%nat -> safe (backslash ∈ value) (list_post value st) (parse_members mem junk n value st)).

Lemma rest_some value rest : rest `suffix_of` value -> rest_of value (Some rest).
Proof. by intros Hs ? [= <-]. Qed.

Lemma rest_none value : rest_of value None.
Proof. done. Qed.

Lemma elem_suffix (x : Z) s s' : s' `suffix_of` s -> x ∈ s' -> x ∈ s.
Proof. intros [k ->] Hx. apply elem_of_app. by right. Qed.

Lemma first_tail c s : c <> 0 -> first_is c s = true -> (length (tail s) < length s)%nat.
Proof. intros Hc. destruct s; [|cbn; lia]. intros E%Z.eqb_eq. cbn in E. lia. Qed.

(** A list of children, read from a part of the text. *)
Lemma children_post value value' item t st l r st' : fresh item -> Z.testbit t 8 = false -> value' `suffix_of` value ->
  list_post value' st (r, l, st') -> value_post value item st (r, set_child l (set_type t item), st').
Proof.
  intros (Hc & Hv & Ht) Ht' Hs [Hr Hl]. split.
  - intros rest E. by trans value'; [apply Hr|].
  - destruct item as [ch t0 vs vi vd k]. cbn in *. subst. rewrite Ht, Ht'. cbn. lia.
Qed.

Lemma parse_value_safe n item value st : parses n -> fresh item -> (2 * length value < S n)%nat ->
  safe (backslash ∈ value) (value_post value item st) (parse_value mem junk (S n) item value st).
Proof.
  intros (_ & He & Hm) Hf Hn. rewrite parse_value_S. pose proof Hf as (Hc & Hv & Ht).
  assert (Hdone : forall rest item', rest `suffix_of` value -> fresh item' -> j_string item' = j_string item ->
    value_post value item st (Some rest, item', st)).
  { intros rest item' Hs (Hc' & Hv' & Ht') Hk. split; [by apply rest_some|]. destruct item, item'. cbn in *. subst. by rewrite Ht, Ht'. }
  destruct (has_prefix (cs "null") value); [apply Hdone; [apply suffix_drop|done|done]|].
  destruct (has_prefix (cs "false") value); [apply Hdone; [apply suffix_drop|done|done]|].
  destruct (has_prefix (cs "true") value); [apply Hdone; [apply suffix_drop|done|done]|].
  destruct (first_is quote value).
  { eapply safe_weaken; [apply parse_string_safe|done|]. intros [[[rest|] item'] st'].
    - intros (Hs & (out & ->) & Hl). split; [by apply rest_some|]. destruct item. cbn in *. subst. rewrite Ht. cbn. lia.
    - intros [-> Hl]. split; [apply rest_none|lia]. }
  destruct (first_is (ch "-") value || _).
  { destruct (parse_number_suffix item value) as (vi & vd & rest & Hs & ->). by apply Hdone. }
  assert (Hlist : forall c d t (parse : list Z -> json_state -> outcome (option (list Z) * list cJSON * json_state)),
    c <> 0 -> Z.testbit t 8 = false -> first_is c value = true ->
    (forall value st, (2 * length value + 1 < n)%nat -> safe (backslash ∈ value) (list_post value st) (parse value st)) ->
    safe (backslash ∈ value) (value_post value item st)
      (let item := set_type t item in let value := skip (tail value) in
       if first_is d value then Done (Some (tail value), item, st)
       else '(r, l, st) ← parse value st; Done (r, set_child l item, st))).
  { intros c d t parse Hc0 Ht' Hfirst Hparse. assert (Hs : skip (tail value) `suffix_of` value) by (trans (tail value); [apply suffix_skip|apply suffix_tail]).
    cbv zeta. destruct (first_is d (skip (tail value))).
    - apply Hdone; [by trans (skip (tail value)); [apply suffix_tail|]|done|done].
    - pose proof (first_tail c value Hc0 Hfirst) as Hl. pose proof (suffix_length _ _ (suffix_skip (tail value))) as Hl2.
      eapply safe_bind; [eapply safe_weaken; [apply Hparse; lia|by apply elem_suffix|by intros x Hx; exact Hx]|].
      intros [[r l] st'] Hp. by apply (children_post value (skip (tail value))). }
  destruct (first_is (ch "[") value) eqn:Eb; [by apply (Hlist (ch "["))|].
  destruct (first_is (ch "{") value) eqn:Ec; [by apply (Hlist (ch "{"))|].
  split; [apply rest_none|cbn; lia].
Qed.
(** The rest of a list after a value: [rest] is left, the blocks of the child are there. *)
Lemma list_tail (parse : list Z -> json_state -> outcome (option (list Z) * list cJSON * json_state)) n close value rest child st st1 :
  (forall value st, (2 * length value + 1 < n)%nat -> safe (backslash ∈ value) (list_post value st) (parse value st)) ->
  (2 * length value + 1 < S n)%nat -> rest `suffix_of` value -> js_live st1 = js_live st + Z.of_nat (delete_item child) ->
  safe (backslash ∈ value) (list_post value st)
    (if first_is (ch ",") (skip rest) then '(r, l, st) ← parse (tail (skip rest)) st1; Done (r, child :: l, st)
     else if first_is close (skip rest) then Done (Some (tail (skip rest)), [child], st1)
     else Done (None, [child], set_ep (skip rest) st1)).
Proof.
  intros Hparse Hn Hs Hl. assert (Hs1 : skip rest `suffix_of` value) by (trans rest; [apply suffix_skip|done]).
  assert (Hs2 : tail (skip rest) `suffix_of` value) by (trans (skip rest); [apply suffix_tail|done]).
  destruct (first_is (ch ",") (skip rest)) eqn:Ec.
  - apply first_tail in Ec; [|done]. pose proof (suffix_length _ _ Hs1).
    eapply safe_bind; [eapply safe_weaken; [apply Hparse; lia|by apply elem_suffix|by intros x Hx; exact Hx]|].
    intros [[r l] st'] [Hr Hl']. split; [|cbn; lia]. intros r' E. trans (tail (skip rest)); [by apply Hr|done].
  - destruct (first_is close (skip rest)).
    + split; [by apply rest_some|cbn; lia].
    + split; [apply rest_none|cbn; lia].
Qed.

Lemma parse_elements_safe n value st : parses n -> (2 * length value + 1 < S n)%nat ->
  safe (backslash ∈ value) (list_post value st) (parse_elements mem junk (S n) value st).
Proof.
  intros (Hv & He & _) Hn. rewrite parse_elements_S. pose proof (malloc_live st) as Hm. destruct (malloc mem st) as [[] st1]; cbn [fst snd] in Hm.
  2: { split; [apply rest_none|cbn; lia]. }
  pose proof (suffix_length _ _ (suffix_skip value)).
  eapply safe_bind; [eapply safe_weaken; [apply Hv; [apply fresh_new|lia]|apply elem_suffix, suffix_skip|by intros x Hx; exact Hx]|].
  intros [[[rest|] child] st2] [Hr Hl]; change (delete_item new_item) with 1%nat in Hl.
  - apply (list_tail (parse_elements mem junk n) n (ch "]")); [done|done| |lia]. trans (skip value); [by apply Hr|apply suffix_skip].
  - split; [apply rest_none|cbn; lia].
Qed.

Lemma parse_members_safe n value st : parses n -> (2 * length value + 1 < S n)%nat ->
  safe (backslash ∈ value) (list_post value st) (parse_members mem junk (S n) value st).
Proof.
  intros (Hv & _ & Hp) Hn. rewrite parse_members_S. pose proof (malloc_live st) as Hm. destruct (malloc mem st) as [[] st1]; cbn [fst snd] in Hm.
  2: { split; [apply rest_none|cbn; lia]. }
  pose proof (suffix_length _ _ (suffix_skip value)).
  eapply safe_bind; [eapply safe_weaken; [apply parse_string_safe|apply elem_suffix, suffix_skip|by intros x Hx; exact Hx]|].
  intros [[[rest|] child] st2].
  2: { intros [-> Hl]. split; [apply rest_none|cbn; lia]. }
  intros (Hs & (out & ->) & Hl). change (skip <$> Some rest) with (Some (skip rest)). cbv iota beta.
  set (child := set_valuestring None _). assert (Hf : fresh child) by done.
  assert (Hs1 : skip rest `suffix_of` value).
  { trans rest; [apply suffix_skip|]. trans (skip value); [done|apply suffix_skip]. }
  assert (Hd : delete_item child = 2%nat) by done.
  destruct (negb _). { split; [apply rest_none|cbn; lia]. }
  assert (Hs2 : skip (tail (skip rest)) `suffix_of` value).
  { trans (tail (skip rest)); [apply suffix_skip|]. trans (skip rest); [apply suffix_tail|done]. }
  pose proof (suffix_length _ _ Hs2).
  eapply safe_bind; [eapply safe_weaken; [apply Hv; [exact Hf|lia]|by apply elem_suffix|by intros x Hx; exact Hx]|].
  intros [[[rest'|] child'] st3] [Hr Hl'].
  - apply (list_tail (parse_members mem junk n) n (ch "}")); [done|done| |lia]. trans (skip (tail (skip rest))); [by apply Hr|done].
  - split; [apply rest_none|cbn; lia].
Qed.

Lemma parses_all n : parses n.
Proof.
  induction n as [|n IH]; [split_and!; intros; lia|]. split_and!; intros.
  - by apply parse_value_safe.
  - by apply parse_elements_safe.
  - by apply parse_members_safe.
Qed.

Definition item_blocks (r : option cJSON) : Z := match r with Some c => Z.of_nat (delete_item c) | None => 0 end.

Lemma cJSON_Parse_safe s st :
  safe (backslash ∈ s) (fun x => js_live x.2 = js_live st + item_blocks x.1) (cJSON_Parse mem junk s st).
Proof.
  unfold cJSON_Parse. pose proof (malloc_live st) as Hm. destruct (malloc mem st) as [[] st1]; cbn [fst snd] in Hm.
  2: { cbn. lia. }
  destruct (parses_all (parse_fuel s)) as [Hv _]. pose proof (suffix_length _ _ (suffix_skip s)).
  eapply safe_bind; [eapply safe_weaken; [apply Hv; [apply fresh_new|unfold parse_fuel; lia]|apply elem_suffix, suffix_skip|by intros x Hx; exact Hx]|].
  intros [[[rest|] c] st2] [_ Hl]; change (delete_item new_item) with 1%nat in Hl; cbn in *; lia.
Qed.

(** C35. The reader ends on every text, with every allocator: [cJSON_Parse] gives an item or [NULL], or moves a pointer
    out of the text or of a string's block, and the last only on a text with a backslash: without escapes the pass
    that measures a string and the pass that copies it agree, no read passes the NUL, and the fuel of [parse_fuel]
    is enough for every nesting. *)
Theorem json_parse_total s st :
  (exists r st', cJSON_Parse mem junk s st = Done (r, st')) \/ (cJSON_Parse mem junk s st = Crash OutOfBounds /\ backslash ∈ s).
Proof.
  pose proof (cJSON_Parse_safe s st) as Hs. destruct (cJSON_Parse mem junk s st) as [[r st']|e|]; cbn in Hs.
  - left. by do 2 eexists.
  - right. by destruct Hs as [-> ?].
  - done.
Qed.
(** ** The blocks of the writer *)

Lemma alloc_text_live cap t st r st' : alloc_text mem cap t st = Ret (r, st') -> js_live st' = js_live st + Z.of_nat (some_block r).
Proof.
  unfold alloc_text. pose proof (malloc_live st) as Hm. destruct (malloc mem st) as [[] st1]; cbn [fst snd] in Hm; intros E.
  - inv_res E. simplify_eq. cbn. lia.
  - simplify_eq. cbn. lia.
Qed.

Lemma finish_text_live n cap t st r st' : finish_text mem n cap t st = Ret (r, st') ->
  js_live st' = js_live st + Z.of_nat (some_block r) - Z.of_nat n.
Proof.
  unfold finish_text. intros E. apply res_bind_inv in E as ([o st1] & E1 & E2). apply alloc_text_live in E1. simplify_eq. cbn. lia.
Qed.

(** A printer that leaves only its result allocated. *)
Definition leaves (print : cJSON -> json_state -> res (option (list Z) * json_state)) (c : cJSON) : Prop :=
  forall st r st', print c st = Ret (r, st') -> js_live st' = js_live st + Z.of_nat (some_block r).

Lemma print_elements_live print l st es fail st' : Forall (leaves print) l -> print_elements print l st = Ret (es, fail, st') ->
  js_live st' = js_live st + Z.of_nat (length es).
Proof.
  intros Hl. revert st es. induction Hl as [|c l Hc _ IH]; intros st es E; cbn [print_elements] in E; [simplify_eq; cbn; lia|].
  apply res_bind_inv in E as ([r st1] & E1 & E). apply Hc in E1. destruct r as [e|]; [|simplify_eq; cbn in *; lia].
  apply res_bind_inv in E as ([[es' fail'] st2] & E2 & E). simplify_eq. apply IH in E2. cbn in *. lia.
Qed.

Lemma print_members_live print l st es st' : Forall (leaves print) l -> print_members mem print l st = Ret (es, st') ->
  js_live st' = js_live st + Z.of_nat (member_blocks es).
Proof.
  intros Hl. revert st es. induction Hl as [|c l Hc _ IH]; intros st es E; cbn [print_members] in E; [simplify_eq; cbn; lia|].
  apply res_bind_inv in E as ([str st1] & E1 & E). apply res_bind_inv in E as ([r st2] & E2 & E).
  apply res_bind_inv in E as ([es' st3] & E3 & E). simplify_eq. apply IH in E3. apply Hc in E2.
  assert (js_live st1 = js_live st + Z.of_nat (some_block str)) by (destruct (j_string c); by eapply alloc_text_live).
  unfold member_blocks in *. cbn [sum_list_with fst snd]. lia.
Qed.

Lemma print_value_live fmt depth c : leaves (print_value mem fmt depth) c.
Proof.
  revert depth. induction c as [c IH] using cJSON_ind. intros depth st r st' E. destruct c as [l t vs vi vd k]. cbn [print_value j_child j_type j_valuestring] in *.
  assert (Hl : Forall (leaves (print_value mem fmt (depth + 1))) l) by (eapply Forall_impl; [exact IH|]; cbn; auto).
  destruct (Z.land t 255 =? cJSON_NULL); [by eapply alloc_text_live|].
  destruct (Z.land t 255 =? cJSON_False); [by eapply alloc_text_live|].
  destruct (Z.land t 255 =? cJSON_True); [by eapply alloc_text_live|].
  destruct (Z.land t 255 =? cJSON_Number).
  { unfold print_number in E. match type of E with (if ?b then _ else _) = _ => destruct b end; by eapply alloc_text_live. }
  destruct (Z.land t 255 =? cJSON_String); [destruct vs; by eapply alloc_text_live|].
  destruct (Z.land t 255 =? cJSON_Array).
  { pose proof (malloc_live st) as Hm. destruct (malloc mem st) as [[] st1]; cbn [fst snd] in Hm; [|simplify_eq; cbn; lia].
    apply res_bind_inv in E as ([[es fail] st2] & E1 & E). apply (print_elements_live _ _ _ _ _ _ Hl) in E1.
    destruct fail; [simplify_eq; cbn; lia|]. apply finish_text_live in E. lia. }
  destruct (Z.land t 255 =? cJSON_Object); [|simplify_eq; cbn; lia].
  pose proof (malloc_live st) as Hm. destruct (malloc mem st) as [[] st1]; cbn [fst snd] in Hm; [|simplify_eq; cbn; lia].
  pose proof (malloc_live st1) as Hm1. destruct (malloc mem st1) as [[] st2]; cbn [fst snd] in Hm1; [|simplify_eq; cbn; lia].
  apply res_bind_inv in E as ([es st3] & E1 & E). apply (print_members_live _ _ _ _ _ Hl) in E1.
  destruct (all_printed es); [|simplify_eq; cbn; lia]. apply finish_text_live in E. lia.
Qed.

(** C36. No block is lost, whatever the allocator answers: after [cJSON_Parse] the blocks allocated anew are those
    [cJSON_Delete] frees for the item it returns, and none when it returns [NULL], also when memory ends in the
    middle of an object; [cJSON_Print] and [cJSON_PrintUnformatted] leave their text and nothing else, and nothing
    when an allocation fails; deleting the item then leaves the text. *)
Theorem json_blocks s st st1 fmt depth c t st2 :
  cJSON_Parse mem junk s st = Done (Some c, st1) -> print_value mem fmt depth c st1 = Ret (t, st2) ->
  js_live st1 = js_live st + Z.of_nat (delete_item c)
  /\ js_live st2 = js_live st1 + Z.of_nat (some_block t)
  /\ js_live (cJSON_Delete [c] st2) = js_live st + Z.of_nat (some_block t)
  /\ (forall s' st', cJSON_Parse mem junk s' st = Done (None, st') -> js_live st' = js_live st).
Proof.
  intros Ep Et. assert (Hp : forall s r st', cJSON_Parse mem junk s st = Done (r, st') -> js_live st' = js_live st + item_blocks r).
  { intros s' r st' E. pose proof (cJSON_Parse_safe s' st) as Hs. by rewrite E in Hs. }
  apply Hp in Ep. apply print_value_live in Et. cbn in *. split_and!; [lia|lia|lia|]. intros s' st' E. apply Hp in E. cbn in E. lia.
Qed.
End safety.

(** ** Objects *)

(** Names are compared without regard to case. *)
Definition same_name (a b : list Z) : Prop := tolower <$> a = tolower <$> b.

#[export] Instance same_name_dec a b : Decision (same_name a b).
Proof. unfold same_name. apply _. Defined.

Lemma tolower_pos c : 0 < c -> 0 < tolower c.
Proof. unfold tolower. intros Hc. dbool; lia. Qed.

Lemma strcasecmp_same a b : cstr a -> cstr b -> strcasecmp_loop a b = 0 <-> same_name a b.
Proof.
  unfold same_name. intros Ha. revert b. induction Ha as [|c a Hc Ha IH]; intros [|d b] Hb; cbn [strcasecmp_loop fmap list_fmap].
  - done.
  - apply cstr_cons in Hb as [Hd _]. pose proof (tolower_pos d). split; [lia|done].
  - pose proof (tolower_pos c). split; [lia|done].
  - apply cstr_cons in Hb as [Hd Hb]. destruct (Z.eqb_spec (tolower c) (tolower d)) as [E|E].
    + rewrite IH, E by done. split; [by intros ->|by intros [= ->]].
    + split; [lia|]. intros [= ? _]. done.
Qed.

(** The children of an object have names. *)
Definition named (c : cJSON) : Prop := match j_string c with Some k => cstr k | None => False end.
Definition has_name (k : list Z) (c : cJSON) : Prop := cJSON_strcasecmp (j_string c) (Some k) = 0.

Lemma has_name_trans k k' c : cstr k -> cstr k' -> named c -> same_name k k' -> has_name k c <-> has_name k' c.
Proof.
  unfold named, has_name. destruct (j_string c) as [n|]; [|done]. intros Hk Hk' Hn E. cbn [cJSON_strcasecmp].
  rewrite !strcasecmp_same by done. unfold same_name in *. split; congruence.
Qed.

Lemma has_name_distinct k k' c : cstr k -> cstr k' -> named c -> ~ same_name k k' -> has_name k c -> ~ has_name k' c.
Proof.
  unfold named, has_name. destruct (j_string c) as [n|]; [|done]. intros Hk Hk' Hn E. cbn [cJSON_strcasecmp].
  rewrite !strcasecmp_same by done. unfold same_name in *. congruence.
Qed.

#[export] Instance has_name_dec k c : Decision (has_name k c).
Proof. unfold has_name. apply _. Defined.

(** The first child with the name. *)
Definition child_named (k : list Z) (l : list cJSON) : option cJSON := snd <$> named_child k l.

Lemma child_named_cons k c l : child_named k (c :: l) = if decide (has_name k c) then Some c else child_named k l.
Proof.
  unfold child_named, named_child, has_name. cbn. destruct (decide _); [done|]. by rewrite <- option_fmap_compose.
Qed.

Lemma child_named_app k l l' : child_named k (l ++ l') = match child_named k l with Some c => Some c | None => child_named k l' end.
Proof. induction l as [|c l IH]; [done|]. cbn [app]. rewrite !child_named_cons. by destruct (decide _). Qed.

(** A name that is found splits the children at the first with the name. *)
Lemma named_child_split k l i c : named_child k l = Some (i, c) ->
  exists l1 l2, l = l1 ++ c :: l2 /\ length l1 = i /\ has_name k c /\ child_named k l1 = None.
Proof.
  unfold named_child. intros (H1 & H2 & H3)%list_find_Some. exists (take i l), (drop (S i) l).
  apply lookup_lt_Some in H1 as Hi. rewrite take_drop_middle by done. split_and!; [done|rewrite length_take; lia|done|].
  unfold child_named, named_child. apply fmap_None, list_find_None, Forall_lookup. intros j x [Hj Hlt]%lookup_take_Some. by apply (H3 j x).
Qed.

Lemma child_named_same k k' l : cstr k -> cstr k' -> Forall named l -> same_name k k' -> child_named k l = child_named k' l.
Proof.
  intros Hk Hk' Hl E. induction Hl as [|c l Hc _ IH]; [done|]. rewrite !child_named_cons, IH.
  pose proof (has_name_trans k k' c Hk Hk' Hc E). repeat destruct (decide _); tauto || done.
Qed.

Lemma set_string_name k k' c : cstr k -> cstr k' -> has_name k' (set_string (Some k) c) <-> same_name k k'.
Proof. intros Hk Hk'. unfold has_name. cbn. by apply strcasecmp_same. Qed.

Lemma strdup_cstr mem s st : cstr s -> mem (js_next st) = true -> exists st',
  cJSON_strdup mem s st = Ret (Some s, st') /\ js_live st' = js_live st + 1.
Proof.
  intros Hs Hm. unfold cJSON_strdup, alloc_text, malloc, in_block. rewrite strlen_cstr, take_ge, Hm by (done || lia).
  rewrite (proj2 (Z.leb_le _ _)) by lia. by eexists.
Qed.

Section objects.
Context (mem : nat -> bool) (o : cJSON) (k k' : list Z) (st : json_state) (Hk : cstr k) (Hk' : cstr k') (Ho : Forall named (j_child o))
  (Hmem : mem (js_next st) = true).

Lemma add_lookup c : exists o' st', cJSON_AddItemToObject mem o k (Some c) st = Ret (o', st')
  /\ cJSON_GetObjectItem o' k' =
     match cJSON_GetObjectItem o k' with
     | Some x => Some x
     | None => if decide (same_name k k') then Some (set_string (Some k) c) else None
     end
  /\ js_live st' + Z.of_nat (some_block (j_string c)) = js_live st + 1.
Proof.
  destruct (strdup_cstr mem k (cJSON_free (Z.of_nat (some_block (j_string c))) st) Hk Hmem) as (st' & E & Hl).
  unfold cJSON_AddItemToObject. rewrite E. do 2 eexists. split; [done|]. split; [|cbn in Hl; lia].
  change (child_named k' (j_child o ++ [set_string (Some k) c]) = match child_named k' (j_child o) with Some x => Some x
    | None => if decide (same_name k k') then Some (set_string (Some k) c) else None end).
  rewrite child_named_app. destruct (child_named k' (j_child o)); [done|]. rewrite child_named_cons.
  pose proof (set_string_name k k' c Hk Hk'). repeat destruct (decide _); tauto || done.
Qed.

(** The child with the name, and the lookup without it or with another in its place. *)
Lemma other_lookup l1 l2 c : Forall named (l1 ++ c :: l2) -> has_name k c -> ~ same_name k k' ->
  child_named k' (l1 ++ l2) = child_named k' (l1 ++ c :: l2)
  /\ forall new, child_named k' (l1 ++ set_string (Some k) new :: l2) = child_named k' (l1 ++ c :: l2).
Proof.
  intros Hl Hc Hn. apply Forall_app in Hl as [_ Hl]. inversion_clear Hl as [|? ? Hcn _].
  pose proof (has_name_distinct k k' c Hk Hk' Hcn Hn Hc). rewrite !child_named_app, child_named_cons.
  split; [|intros new; rewrite child_named_app, child_named_cons; pose proof (set_string_name k k' new Hk Hk')];
    repeat destruct (decide _); tauto || done.
Qed.

Lemma detach_lookup : let '(r, o') := cJSON_DetachItemFromObject o k in
  r = cJSON_GetObjectItem o k /\ (~ same_name k k' -> cJSON_GetObjectItem o' k' = cJSON_GetObjectItem o k').
Proof.
  unfold cJSON_DetachItemFromObject, cJSON_GetObjectItem. destruct (named_child k (j_child o)) as [[i c]|] eqn:E; [|done].
  destruct (named_child_split _ _ _ _ E) as (l1 & l2 & El & Hi & Hc & _). unfold cJSON_DetachItemFromArray.
  rewrite Nat2Z.id, El, <- Hi, list_lookup_middle by done. split; [done|]. intros Hn.
  cbn [j_child set_child]. rewrite El in Ho. rewrite delete_middle. apply (other_lookup _ _ _ Ho Hc Hn).
Qed.

Lemma replace_lookup new : exists o' st', cJSON_ReplaceItemInObject mem o k new st = Ret (o', st')
  /\ cJSON_GetObjectItem o' k' =
     (if decide (same_name k k') then (fun _ => set_string (Some k) new) <$> cJSON_GetObjectItem o k else cJSON_GetObjectItem o k')
  /\ js_live st' = js_live st + match cJSON_GetObjectItem o k with Some c => 1 - Z.of_nat (delete_item c) | None => 0 end.
Proof.
  unfold cJSON_ReplaceItemInObject, cJSON_GetObjectItem. destruct (named_child k (j_child o)) as [[i c]|] eqn:E.
  - destruct (named_child_split _ _ _ _ E) as (l1 & l2 & El & Hi & Hc & Hl1). unfold cJSON_ReplaceItemInArray.
    destruct (strdup_cstr mem k st Hk Hmem) as (st' & Es & Hl). rewrite Es. cbn [mbind res_bind].
    rewrite Nat2Z.id, El, <- Hi, list_lookup_middle by done. do 2 eexists. split; [done|]. split; [|cbn; lia].
    cbn [j_child set_child]. rewrite El in Ho. rewrite insert_app_r_alt, Nat.sub_diag by lia. cbn [list_insert insert].
    fold (child_named k' (l1 ++ set_string (Some k) new :: l2)). fold (child_named k' (l1 ++ c :: l2)).
    destruct (decide (same_name k k')) as [Hs|Hs]; [|apply (other_lookup _ _ _ Ho Hc Hs)].
    rewrite child_named_app, child_named_cons. apply Forall_app in Ho as [Hn1 _]. rewrite <- (child_named_same k k' l1 Hk Hk' Hn1 Hs), Hl1.
    by rewrite decide_True by (by apply set_string_name).
  - do 2 eexists. split; [done|]. split; [|cbn; lia]. cbn. destruct (decide (same_name k k')) as [Hs|]; [|done].
    fold (child_named k' (j_child o)). rewrite <- (child_named_same k k') by done. unfold child_named. by rewrite E.
Qed.
End objects.

(** An object is a map from names without regard to case: an item that is added is found under every spelling of its
    name, unless an earlier child has the name, and no other name is affected; detaching gives the item the lookup gives
    and leaves the other names; replacing changes what the name gives, if it was there, and nothing else. Adding and
    replacing allocate a copy of the name, adding frees the earlier name and replacing the old item. *)
Theorem json_object_ops mem o k k' c st : cstr k -> cstr k' -> Forall named (j_child o) -> mem (js_next st) = true ->
  (exists o' st', cJSON_AddItemToObject mem o k (Some c) st = Ret (o', st')
   /\ cJSON_GetObjectItem o' k' =
      match cJSON_GetObjectItem o k' with
      | Some x => Some x
      | None => if decide (same_name k k') then Some (set_string (Some k) c) else None
      end
   /\ js_live st' + Z.of_nat (some_block (j_string c)) = js_live st + 1)
  /\ (let '(r, o') := cJSON_DetachItemFromObject o k in
      r = cJSON_GetObjectItem o k /\ (~ same_name k k' -> cJSON_GetObjectItem o' k' = cJSON_GetObjectItem o k'))
  /\ (exists o' st', cJSON_ReplaceItemInObject mem o k c st = Ret (o', st')
      /\ cJSON_GetObjectItem o' k' =
        (if decide (same_name k k') then (fun _ => set_string (Some k) c) <$> cJSON_GetObjectItem o k else cJSON_GetObjectItem o k')
      /\ js_live st' = js_live st + match cJSON_GetObjectItem o k with Some c => 1 - Z.of_nat (delete_item c) | None => 0 end).
Proof. intros Hk Hk' Ho Hm. split_and!; [by apply add_lookup|by apply detach_lookup|by apply replace_lookup]. Qed.

(** ** Items that are made *)

Lemma new_item_ok mem fill st : (forall i, mem i = true) -> exists st', create mem fill st = (Some (fill new_item), st').
Proof. intros Hm. unfold create, cJSON_New_Item, malloc. rewrite Hm. by eexists. Qed.

(** An array made of integers stands for the list of them. *)
Lemma create_int_array_value `{Libm} mem ns st : (forall i, mem i = true) -> Forall (fun n => INT_MIN <= n <= INT_MAX) ns ->
  exists c st', cJSON_CreateIntArray mem ns st = Ret (Some c, st') /\ value_of c = Some (JArr (JNum <$> ns)).
Proof.
  intros Hm Hn. unfold cJSON_CreateIntArray, create_array, cJSON_CreateArray.
  destruct (new_item_ok mem (set_type cJSON_Array) st Hm) as [st0 ->].
  set (num := fun n => set_valueint n (set_valuedouble (d_of_int n) (set_type cJSON_Number new_item))).
  set (make := fun n st => Ret (cJSON_CreateNumber mem (d_of_int n) st)).
  assert (Hmk : forall n st, INT_MIN <= n <= INT_MAX -> exists st', make n st = Ret (Some (num n), st')).
  { intros n st1 Hr. unfold make, cJSON_CreateNumber, num. rewrite d_to_int_int by done.
    destruct (new_item_ok mem (fun item => set_valueint n (set_valuedouble (d_of_int n) (set_type cJSON_Number item))) st1 Hm) as [st2 ->].
    by eexists. }
  assert (Hl : forall first prev st, first || prev = true -> exists st', create_elements make first prev ns st = Ret (num <$> ns, st')).
  { clear st0. clearbody make. induction Hn as [|n ns Hr _ IH]; intros first prev st1 Hp; [by eexists|]. cbn [create_elements].
    destruct (Hmk n st1 Hr) as [st2 ->]. cbn [mbind res_bind]. rewrite Hp. destruct (IH false true st2 eq_refl) as [st3 ->]. by eexists. }
  destruct (Hl true false st0 eq_refl) as [st' ->]. do 2 eexists. split; [done|].
  change (JArr <$> mapM value_of (num <$> ns) = Some (JArr (JNum <$> ns))).
  assert (E : mapM value_of (num <$> ns) = Some (JNum <$> ns)).
  { apply mapM_Some, Forall2_fmap, Forall_Forall2_diag, (Forall_impl _ _ _ Hn). intros n [H1%Z.leb_le H2%Z.leb_le]. cbn.
    by rewrite bool_decide_true, H1, H2. }
  by rewrite E.
Qed.

(** ** Examples *)

(** Memory for all but the sixth request: the object is read, printing it fails and loses nothing. *)
Definition five_blocks (n : nat) : bool := negb (n =? 5)%nat.

Lemma json_blocks_witness : exists c st1 st2,
  cJSON_Parse (H := libm_example) five_blocks 0 (cs "[1,[]]") js0 = Done (Some c, st1)
  /\ print_value (H := libm_example) five_blocks false 0 c st1 = Ret (None, st2) /\ js_live (cJSON_Delete [c] st2) = 0.
Proof.
  destruct (cJSON_Parse (H := libm_example) five_blocks 0 (cs "[1,[]]") js0) as [[[c|] st1]|e|] eqn:E; [|vm_compute in E; discriminate E..].
  destruct (print_value (H := libm_example) five_blocks false 0 c st1) as [[[t|] st2]|e] eqn:E2;
    [vm_compute in E; injection E as <- <-; vm_compute in E2; discriminate E2| |vm_compute in E; injection E as <- <-; vm_compute in E2; discriminate E2].
  exists c, st1, st2. split; [reflexivity|]. split; [exact E2|].
  destruct (json_blocks (H := libm_example) five_blocks 0 (cs "[1,[]]") js0 st1 false 0 c None st2 E E2) as (_ & _ & H3 & _). exact H3.
Defined.

Definition empty_object : cJSON := set_type cJSON_Object new_item.

Lemma json_object_ops_witness : exists o' st',
  cJSON_AddItemToObject all_memory empty_object (cs "Name") (Some new_item) js0 = Ret (o', st')
  /\ cJSON_GetObjectItem o' (cs "nAME") = Some (set_string (Some (cs "Name")) new_item).
Proof.
  destruct (json_object_ops all_memory empty_object (cs "Name") (cs "nAME") new_item js0) as [(o' & st' & H1 & H2 & _) _];
    [apply (bool_decide_unpack _); vm_compute; exact I|apply (bool_decide_unpack _); vm_compute; exact I|constructor|reflexivity|].
  exists o', st'. split; [exact H1|]. rewrite H2. vm_compute. reflexivity.
Defined.

(** An escape ['u'] with fewer than four characters before the quote: the second pass goes on after the quote and
    writes past the block the first measured. *)
Lemma short_unicode_escape_overflows :
  cJSON_Parse (H := libm_example) all_memory 0 ([34; 92] ++ cs "u1" ++ [34] ++ replicate 9 (ch "A")) js0 = Crash OutOfBounds.
Proof. vm_compute. reflexivity. Qed.

(** A backslash before the NUL: the first pass steps over the NUL. *)
Lemma final_backslash_leaves_text : cJSON_Parse (H := libm_example) all_memory 0 [34; 92] js0 = Crash OutOfBounds.
Proof. vm_compute. reflexivity. Qed.

(** The pair for U+20000 is read as U+10000: [0x10000 |] where the sum is meant. *)
Lemma surrogate_pair_loses_bit : match
  cJSON_Parse (H := libm_example) all_memory 0 ([34; 92] ++ cs "ud840" ++ [92] ++ cs "udc00" ++ [34]) js0 with
  | Done (Some c, _) => j_valuestring c = Some (utf8 65536) /\ utf8 65536 <> utf8 131072
  | _ => False end.
Proof. vm_compute. split; [reflexivity|discriminate]. Qed.

(** A large integral number is printed past the 64 bytes of its block. *)
Lemma large_number_overflows : match cJSON_CreateNumber (H := libm_example) all_memory (d_of_int (10 ^ 64)) js0 with
  | (Some c, st) => cJSON_Print (H := libm_example) all_memory c st = Fault OutOfBounds
  | _ => False end.
Proof. vm_compute. reflexivity. Qed.

(** When memory ends in the middle of an array of numbers, a link is written through [NULL]. *)
Lemma create_array_out_of_memory :
  cJSON_CreateIntArray (H := libm_example) (fun n => n <? 2)%nat [1; 2] js0 = Fault NullDeref.
Proof. vm_compute. reflexivity. Qed.
