(* ===== verification/Sds.v ===== *)
(** * The dynamic strings of hiredis

    packages/redis/sds.c: a string is its bytes and the free bytes behind them ([len] of the header is the
    number of bytes; both fields are [int]).  The functions hiredis uses; [ok] is the answer of the allocator,
    [None] the result [NULL], after which the old string is still there. *)

From S2P Require Import Prelude CString.

Record sds := mk_sds { s_buf : list Z; s_free : Z }.

(** The length and the free space are [int]s in the code: a string is shorter than 2 GiB. *)
Definition sdslen (s : sds) : Z := Z.of_nat (length (s_buf s)).
Definition sdsavail (s : sds) : Z := s_free s.

Definition sdsnewlen (ok : bool) (init : list Z) : option sds := if ok then Some (mk_sds init 0) else None.
Definition sdsempty (ok : bool) : option sds := sdsnewlen ok [].

(** The room is doubled. *)
Definition sdsMakeRoomFor (ok : bool) (s : sds) (addlen : Z) : option sds :=
  if addlen <=? sdsavail s then Some s
  else
    let newlen := (sdslen s + addlen) * 2 in
    if ok then Some (mk_sds (s_buf s) (swrap 32 (newlen - sdslen s))) else None.

Definition sdscatlen (ok : bool) (s : sds) (t : list Z) : option sds :=
  match sdsMakeRoomFor ok s (Z.of_nat (length t)) with
  | None => None
  | Some s => Some (mk_sds (s_buf s ++ t) (swrap 32 (s_free s - Z.of_nat (length t))))
  end.

Definition sdscat (ok : bool) (s : sds) (t : list Z) : option sds := sdscatlen ok s (take (strlen t) t).

(** The loop that doubles the buffer until the byte before its last stays NUL; [out] is what the conversion prints. *)
Fixpoint vprintf_loop (n : nat) (buflen : Z) (out : list Z) : outcome (list Z) :=
  match n with
  | O => NoFuel
  | S n =>
      let buf := take (Z.to_nat (buflen - 1)) out in
      if negb (char_at buf (Z.to_nat (buflen - 2)) =? 0) then vprintf_loop n (buflen * 2) out else Done buf
  end.

Definition sdscatvprintf (n : nat) (ok : bool) (s : sds) (out : list Z) : outcome (option sds) :=
  buf ← vprintf_loop n 16 out; Done (sdscat ok s buf).

(** A position from the end, not before the start. *)
Definition from_end (len i : Z) : Z := if i <? 0 then Z.max 0 (len + i) else i.

(** The bytes from [start] to [end], both included. *)
Definition sdsrange (s : sds) (start end_ : Z) : sds :=
  let len := sdslen s in
  if len =? 0 then s
  else
    let start := from_end len start in
    let end_ := from_end len end_ in
    let newlen := if end_ <? start then 0 else end_ - start + 1 in
    let '(start, newlen) :=
      if negb (newlen =? 0) then
        if len <=? start then (start, 0)
        else if len <=? end_ then (start, if len - 1 <? start then 0 else len - 1 - start + 1)
        else (start, newlen)
      else (0, newlen) in
    let buf := if negb (start =? 0) && negb (newlen =? 0) then drop (Z.to_nat start) (s_buf s) else s_buf s in
    mk_sds (take (Z.to_nat newlen) buf) (swrap 32 (s_free s + (len - newlen))).

(** ** Contents *)

Lemma sdscatlen_buf ok s t s' : sdscatlen ok s t = Some s' -> s_buf s' = s_buf s ++ t.
Proof.
  unfold sdscatlen, sdsMakeRoomFor. destruct (_ <=? sdsavail s); [by intros [= <-]|]. destruct ok; [by intros [= <-]|done].
Qed.

Lemma sdscatlen_ok s t : exists s', sdscatlen true s t = Some s' /\ s_buf s' = s_buf s ++ t.
Proof.
  destruct (sdscatlen true s t) as [s'|] eqn:E; [by exists s'; split; [|apply (sdscatlen_buf true)]|].
  unfold sdscatlen, sdsMakeRoomFor in E. by destruct (_ <=? sdsavail s).
Qed.

(** The range from a position to the end. *)
Lemma sdsrange_drop s pos : 0 <= pos <= sdslen s -> s_buf (sdsrange s pos (-1)) = drop (Z.to_nat pos) (s_buf s).
Proof.
  intros Hp. unfold sdsrange. destruct (Z.eqb_spec (sdslen s) 0) as [E|E].
  { unfold sdslen in *. destruct (s_buf s); [by rewrite drop_nil|cbn in E; lia]. }
  unfold from_end. rewrite (proj2 (Z.ltb_ge pos 0)) by lia. change (-1 <? 0) with true. cbv iota. rewrite Z.max_r by lia.
  destruct (Z.ltb_spec (sdslen s + -1) pos) as [H|H].
  - change (negb (0 =? 0)) with false. cbv iota beta. cbn [s_buf]. change (take (Z.to_nat 0) _) with (@nil Z).
    by rewrite (drop_ge (s_buf s)) by (unfold sdslen in *; lia).
  - rewrite (proj2 (Z.eqb_neq (sdslen s + -1 - pos + 1) 0)), (proj2 (Z.leb_gt (sdslen s) pos)), (proj2 (Z.leb_gt (sdslen s) (sdslen s + -1))) by lia.
    cbn [negb]. rewrite (proj2 (Z.eqb_neq (sdslen s + -1 - pos + 1) 0)) by lia. cbn [negb s_buf]. rewrite andb_true_r.
    destruct (Z.eqb_spec pos 0) as [->|]; cbn [negb]; rewrite take_ge; unfold sdslen in *; rewrite ?length_drop; done || lia.
Qed.

(** Enough turns for what is printed: the buffer has [16 * 2 ^ n] bytes after [n]. *)
Lemma vprintf_loop_ok n k out : cstr out -> 0 <= k -> Z.of_nat (length out) + 2 <= 16 * 2 ^ (k + Z.of_nat n - 1) -> (0 < n)%nat ->
  vprintf_loop n (16 * 2 ^ k) out = Done out.
Proof.
  intros Hc. revert k. induction n as [|n IH]; intros k Hk Hl Hn; [lia|]. cbn [vprintf_loop].
  assert (0 < 2 ^ k) by lia. destruct (Z.le_gt_cases (Z.of_nat (length out) + 2) (16 * 2 ^ k)) as [Hle|Hgt].
  - rewrite take_ge by lia. unfold char_at. rewrite lookup_ge_None_2 by lia. done.
  - destruct (lookup_lt_is_Some_2 out (Z.to_nat (16 * 2 ^ k - 2))) as [c Hx]; [lia|].
    unfold char_at. rewrite lookup_take_lt, Hx by lia. cbn [default].
    assert (Hc0 : c <> 0) by (apply (Forall_lookup_1 _ _ _ _ Hc) in Hx; lia). unfold id. rewrite (proj2 (Z.eqb_neq c 0) Hc0). cbn [negb].
    replace (16 * 2 ^ k * 2) with (16 * 2 ^ (k + 1)) by (rewrite Z.pow_add_r by lia; lia).
    destruct n as [|n]; [replace (k + Z.of_nat 1 - 1) with k in Hl by lia; lia|]. apply IH; [lia| |lia].
    by replace (k + 1 + Z.of_nat (S n) - 1) with (k + Z.of_nat (S (S n)) - 1) by lia.
Qed.
