(* ===== verification/RedisDict.v ===== *)
(** * The hash table of hiredis

    packages/redis/dict.c with the dictionary type of packages/redis/async.c: keys are byte strings, compared
    by their bytes, values are copied.  A chain is a list of entries, the table a list of chains; [d_size],
    [d_sizemask] and [d_used] are the fields of the struct.  An access outside the table is a fault.
    The table implements a finite map ([dict_refines]). *)

From stdpp Require Import gmap.
From S2P Require Import Prelude.

Definition DICT_OK : Z := 0.
Definition DICT_ERR : Z := 1.
Definition DICT_HT_INITIAL_SIZE : Z := 4.
Definition LONG_MAX : Z := 2 ^ 63 - 1.

(** hash * 33 + c, in 32 bits. *)
Definition dictGenHashFunction (buf : list Z) : Z := fold_left (fun hash c => wrap 32 (Z.shiftl hash 5 + hash + c)) buf 5381.

Section dict.
Context {V : Type}.

Record dictEntry := mk_entry { e_key : list Z; e_val : V }.
Record dict := mk_dict { d_table : list (list dictEntry); d_size : Z; d_sizemask : Z; d_used : Z }.

(** [_dictReset]. *)
Definition dictReset : dict := mk_dict [] 0 0 0.
Definition dictCreate : dict := dictReset.

(** The chain of a slot. *)
Definition slot (table : list (list dictEntry)) (h : Z) : res (list dictEntry) :=
  match table !! Z.to_nat h with Some c => Ret c | None => Fault OutOfBounds end.

Definition hash_slot (mask : Z) (key : list Z) : Z := Z.land (dictGenHashFunction key) mask.

(** [_dictNextPower]: the smallest power of two times the initial size. *)
Fixpoint next_power (n : nat) (i size : Z) : Z :=
  match n with
  | O => i
  | S n => if size <=? i then i else next_power n (wrap 64 (i * 2)) size
  end.
Definition dictNextPower (size : Z) : Z :=
  if LONG_MAX <=? size then LONG_MAX else next_power 64 DICT_HT_INITIAL_SIZE size.

(** The entries of a chain are put in front of their new chains. *)
Fixpoint move_chain (mask : Z) (chain : list dictEntry) (table : list (list dictEntry)) (used : Z) : res (list (list dictEntry) * Z) :=
  match chain with
  | [] => Ret (table, used)
  | he :: chain' =>
      let h := hash_slot mask (e_key he) in
      c ← slot table h;
      move_chain mask chain' (<[Z.to_nat h := he :: c]> table) (wrap 64 (used - 1))
  end.

(** The loop over the old slots, which ends when no entry is left. *)
Fixpoint move_slots (mask : Z) (old : list (list dictEntry)) (table : list (list dictEntry)) (used : Z)
    : res (list (list dictEntry) * Z) :=
  match old with
  | [] => Ret (table, used)
  | chain :: old' =>
      if 0 <? used then '(table, used) ← move_chain mask chain table used; move_slots mask old' table used else Ret (table, used)
  end.

Definition dictExpand (ht : dict) (size : Z) : res (Z * dict) :=
  let realsize := dictNextPower size in
  if size <? d_used ht then Ret (DICT_ERR, ht)
  else
    let mask := realsize - 1 in
    '(table, used) ← move_slots mask (d_table ht) (replicate (Z.to_nat realsize) []) (d_used ht);
    if used =? 0 then Ret (DICT_OK, mk_dict table realsize mask (d_used ht)) else Fault AssertFail.

Definition dictExpandIfNeeded (ht : dict) : res (Z * dict) :=
  if d_size ht =? 0 then dictExpand ht DICT_HT_INITIAL_SIZE
  else if d_used ht =? d_size ht then dictExpand ht (wrap 64 (d_size ht * 2))
  else Ret (DICT_OK, ht).

(** The entry of a chain with the key. *)
Fixpoint chain_find (key : list Z) (chain : list dictEntry) : option dictEntry :=
  match chain with
  | [] => None
  | he :: chain' => if bool_decide (key = e_key he) then Some he else chain_find key chain'
  end.

(** [_dictKeyIndex]: -1 when the key is there. *)
Definition dictKeyIndex (ht : dict) (key : list Z) : res (Z * dict) :=
  '(r, ht) ← dictExpandIfNeeded ht;
  if r =? DICT_ERR then Ret (-1, ht)
  else
    let h := hash_slot (d_sizemask ht) key in
    c ← slot (d_table ht) h;
    match chain_find key c with
    | Some _ => Ret (-1, ht)
    | None => Ret (swrap 32 h, ht)
    end.

Definition set_table (t : list (list dictEntry)) (ht : dict) : dict := mk_dict t (d_size ht) (d_sizemask ht) (d_used ht).
Definition set_used (n : Z) (ht : dict) : dict := mk_dict (d_table ht) (d_size ht) (d_sizemask ht) n.

Definition dictAdd (ht : dict) (key : list Z) (val : V) : res (Z * dict) :=
  '(index, ht) ← dictKeyIndex ht key;
  if index =? -1 then Ret (DICT_ERR, ht)
  else
    c ← slot (d_table ht) index;
    Ret (DICT_OK, set_used (wrap 64 (d_used ht + 1)) (set_table (<[Z.to_nat index := mk_entry key val :: c]> (d_table ht)) ht)).

Definition dictFind (ht : dict) (key : list Z) : res (option dictEntry) :=
  if d_size ht =? 0 then Ret None
  else c ← slot (d_table ht) (hash_slot (d_sizemask ht) key); Ret (chain_find key c).

(** The value of the entry with the key is written. *)
Fixpoint chain_set (key : list Z) (val : V) (chain : list dictEntry) : list dictEntry :=
  match chain with
  | [] => []
  | he :: chain' => if bool_decide (key = e_key he) then mk_entry (e_key he) val :: chain' else he :: chain_set key val chain'
  end.

(** Without an entry [dictFind] gives [NULL], which is followed. *)
Definition dictReplace (ht : dict) (key : list Z) (val : V) : res (Z * dict) :=
  '(r, ht) ← dictAdd ht key val;
  if r =? DICT_OK then Ret (1, ht)
  else
    e ← dictFind ht key;
    match e with
    | None => Fault NullDeref
    | Some _ =>
        let h := hash_slot (d_sizemask ht) key in
        c ← slot (d_table ht) h;
        Ret (0, set_table (<[Z.to_nat h := chain_set key val c]> (d_table ht)) ht)
    end.

(** The chain without the entry, if it is there. *)
Fixpoint chain_delete (key : list Z) (chain : list dictEntry) : option (list dictEntry) :=
  match chain with
  | [] => None
  | he :: chain' => if bool_decide (key = e_key he) then Some chain' else cons he <$> chain_delete key chain'
  end.

Definition dictDelete (ht : dict) (key : list Z) : res (Z * dict) :=
  if d_size ht =? 0 then Ret (DICT_ERR, ht)
  else
    let h := hash_slot (d_sizemask ht) key in
    c ← slot (d_table ht) h;
    match chain_delete key c with
    | None => Ret (DICT_ERR, ht)
    | Some c' => Ret (DICT_OK, set_used (wrap 64 (d_used ht - 1)) (set_table (<[Z.to_nat h := c']> (d_table ht)) ht))
    end.

(** An iterator: the index and the rest of the chain after the current entry, if there is one. *)
Record dictIterator := mk_iter { it_index : Z; it_next : option (list dictEntry) }.
Definition dictGetIterator : dictIterator := mk_iter (-1) None.

(** Each turn moves to the next slot or takes the next entry of the chain. *)
Fixpoint next_loop (n : nat) (ht : dict) (it : dictIterator) : res (option dictEntry * dictIterator) :=
  match n with
  | O => Ret (None, it)
  | S n =>
      match it_next it with
      | Some (he :: chain) => Ret (Some he, mk_iter (it_index it) (Some chain))
      | Some [] => next_loop n ht (mk_iter (it_index it) None)
      | None =>
          let index := it_index it + 1 in
          if d_size ht <=? index then Ret (None, mk_iter index None)
          else
            c ← slot (d_table ht) index;
            match c with
            | he :: chain => Ret (Some he, mk_iter index (Some chain))
            | [] => next_loop n ht (mk_iter index None)
            end
      end
  end.
Definition dictNext (ht : dict) (it : dictIterator) : res (option dictEntry * dictIterator) :=
  next_loop (Z.to_nat (d_size ht) + 2) ht it.

(** The loop [while ((de = dictNext(it)) != NULL)], which runs a callback for each entry. *)
Fixpoint dict_walk (n : nat) (ht : dict) (it : dictIterator) : res (list dictEntry) :=
  match n with
  | O => Ret []
  | S n =>
      '(o, it) ← dictNext ht it;
      match o with
      | None => Ret []
      | Some e => l ← dict_walk n ht it; Ret (e :: l)
      end
  end.

(** One turn more than there are entries. *)
Definition dict_entries (ht : dict) : res (list dictEntry) := dict_walk (S (Z.to_nat (d_used ht))) ht dictGetIterator.
End dict.
Arguments dictEntry : clear implicits.
Arguments dict : clear implicits.
Arguments dictIterator : clear implicits.

(** ** The map of a table *)

Section spec.
Context {V : Type}.
Implicit Types (d : dict V) (t : list (list (dictEntry V))) (c : list (dictEntry V)) (m : gmap (list Z) V).

Definition pair_of (e : dictEntry V) : list Z * V := (e_key e, e_val e).
Definition entries (t : list (list (dictEntry V))) : list (list Z * V) := pair_of <$> concat t.
Definition to_map (d : dict V) : gmap (list Z) V := list_to_map (entries (d_table d)).

(** Every entry is in the slot of its key. *)
Definition slots_ok (mask : Z) (t : list (list (dictEntry V))) : Prop :=
  forall i c e, t !! i = Some c -> e ∈ c -> hash_slot mask (e_key e) = Z.of_nat i.

Record dict_wf (d : dict V) : Prop := {
  wf_size : d_size d = Z.of_nat (length (d_table d));
  wf_mask : (d_size d = 0 /\ d_sizemask d = 0) \/ (exists k, 2 <= k /\ d_size d = 2 ^ k /\ d_sizemask d = 2 ^ k - 1);
  wf_slots : slots_ok (d_sizemask d) (d_table d);
  wf_keys : NoDup (entries (d_table d)).*1;
  wf_used : d_used d = Z.of_nat (length (entries (d_table d)));
  wf_load : d_used d <= d_size d
}.

(** *** Chains *)

Lemma concat_insert t i c c' : t !! i = Some c -> exists rest, concat t ≡ₚ c ++ rest /\ concat (<[i := c']> t) ≡ₚ c' ++ rest.
Proof.
  intros Hi. exists (concat (take i t ++ drop (S i) t)). apply lookup_lt_Some in Hi as Hl.
  rewrite insert_take_drop by done. rewrite <- (take_drop_middle t i c Hi) at 1. rewrite !concat_app. cbn [concat].
  split; solve_Permutation.
Qed.

Lemma entries_insert t i c c' : t !! i = Some c ->
  exists rest, entries t ≡ₚ (pair_of <$> c) ++ rest /\ entries (<[i := c']> t) ≡ₚ (pair_of <$> c') ++ rest.
Proof.
  intros Hi. destruct (concat_insert t i c c' Hi) as (rest & H1 & H2). exists (pair_of <$> rest). unfold entries.
  by rewrite H1, H2, !fmap_app.
Qed.

Lemma elem_concat t e : e ∈ concat t <-> exists c, e ∈ c /\ c ∈ t.
Proof.
  induction t as [|c t IH]; cbn [concat]; [split; [by intros ?%not_elem_of_nil|by intros (? & _ & ?%not_elem_of_nil)]|].
  rewrite elem_of_app, IH. setoid_rewrite elem_of_cons. naive_solver.
Qed.

Lemma elem_entries t k v : (k, v) ∈ entries t <-> exists i c, t !! i = Some c /\ mk_entry k v ∈ c.
Proof.
  unfold entries. rewrite list_elem_of_fmap. split.
  - intros ([k' v'] & [= -> ->] & (c & He & Hc)%elem_concat). apply list_elem_of_lookup in Hc as [i Hi]. eauto.
  - intros (i & c & Hi & He). exists (mk_entry k v). split; [done|]. apply elem_concat. exists c. split; [done|].
    by eapply list_elem_of_lookup_2.
Qed.

(** A lookup in the chain of the key's slot is one in the map. *)
Lemma chain_find_elem c k e : chain_find k c = Some e -> e ∈ c /\ e_key e = k.
Proof.
  induction c as [|he c IH]; [done|]. cbn [chain_find]. case_bool_decide as Hk.
  - intros [= <-]. split; [by left|done].
  - intros He%IH. destruct He. split; [by right|done].
Qed.

Lemma chain_find_none c k : chain_find k c = None -> k ∉ (pair_of <$> c).*1.
Proof.
  induction c as [|he c IH]; [by intros _ ?%not_elem_of_nil|]. cbn [chain_find]. case_bool_decide as Hk; [done|].
  intros Hn [->|?]%elem_of_cons; [done|]. by apply IH.
Qed.

Lemma hash_range k : 0 <= dictGenHashFunction k.
Proof.
  unfold dictGenHashFunction. assert (H : forall l h, 0 <= h -> 0 <= fold_left (fun hash x => wrap 32 (Z.shiftl hash 5 + hash + x)) l h).
  { induction l as [|x l IH]; intros h Hh; cbn [fold_left]; [done|]. apply IH. apply (wrap_range 32). lia. }
  apply H. lia.
Qed.

Lemma hash_slot_mask k n : 0 <= n -> 0 <= hash_slot (2 ^ n - 1) k < 2 ^ n.
Proof.
  intros Hn. unfold hash_slot. rewrite Z.sub_1_r, <- Z.ones_equiv, Z.land_ones by done. apply Z.mod_pos_bound. lia.
Qed.

(** The slot of a key of a table that is not empty. *)
Lemma slot_of_key d k : dict_wf d -> d_size d <> 0 ->
  0 <= hash_slot (d_sizemask d) k < d_size d /\
  exists c, d_table d !! Z.to_nat (hash_slot (d_sizemask d) k) = Some c /\ slot (d_table d) (hash_slot (d_sizemask d) k) = Ret c.
Proof.
  intros Hwf Hs. destruct (wf_mask d Hwf) as [[? _]|(n & Hn & Es & Em)]; [done|].
  assert (Hr : 0 <= hash_slot (d_sizemask d) k < d_size d) by (rewrite Em, Es; apply hash_slot_mask; lia). split; [done|].
  rewrite (wf_size d Hwf) in Hr. destruct (lookup_lt_is_Some_2 (d_table d) (Z.to_nat (hash_slot (d_sizemask d) k))) as [c Hc]; [lia|].
  exists c. unfold slot. by rewrite Hc.
Qed.

Lemma chain_find_map d k c : dict_wf d -> d_table d !! Z.to_nat (hash_slot (d_sizemask d) k) = Some c ->
  e_val <$> chain_find k c = to_map d !! k.
Proof.
  intros Hwf Hc. unfold to_map. destruct (chain_find k c) as [e|] eqn:E; cbn.
  - apply chain_find_elem in E as [He <-]. symmetry. apply elem_of_list_to_map; [by apply wf_keys|]. apply elem_entries. destruct e; eauto.
  - symmetry. apply not_elem_of_list_to_map. intros ([k' v] & -> & Hin)%list_elem_of_fmap. cbn [fst] in *.
    apply elem_entries in Hin as (i & c' & Hi & He). pose proof (wf_slots d Hwf i c' _ Hi He) as Hs. cbn in Hs. rewrite Hs, Nat2Z.id in Hc.
    simplify_eq. apply chain_find_none in E. apply E. apply list_elem_of_fmap. exists (k', v). split; [done|]. apply list_elem_of_fmap. by exists (mk_entry k' v).
Qed.

Lemma dictFind_map d k : dict_wf d -> exists o, dictFind d k = Ret o /\ e_val <$> o = to_map d !! k.
Proof.
  intros Hwf. unfold dictFind. destruct (Z.eqb_spec (d_size d) 0) as [E|E].
  - exists None. split; [done|]. rewrite (wf_size d Hwf) in E. unfold to_map. destruct (d_table d); [|cbn in E; lia]. symmetry. apply lookup_empty.
  - destruct (slot_of_key d k Hwf E) as (_ & c & Hc & ->). eexists. split; [done|]. by apply chain_find_map.
Qed.

(** *** Growing *)

Lemma slots_insert mask t i c : slots_ok mask t -> (forall e, e ∈ c -> hash_slot mask (e_key e) = Z.of_nat i) -> slots_ok mask (<[i := c]> t).
Proof.
  intros Ht Hc j c' e [(-> & -> & _)|[_ Hj]]%list_lookup_insert_Some He; [by apply Hc|by eapply Ht].
Qed.

Lemma move_chain_ok n c t used : 0 <= n -> length t = Z.to_nat (2 ^ n) -> slots_ok (2 ^ n - 1) t ->
  Z.of_nat (length c) <= used < 2 ^ 64 ->
  exists t', move_chain (2 ^ n - 1) c t used = Ret (t', used - Z.of_nat (length c))
    /\ length t' = length t /\ slots_ok (2 ^ n - 1) t' /\ concat t' ≡ₚ c ++ concat t.
Proof.
  intros Hn. revert t used. induction c as [|e c IH]; intros t used Hl Ht Hu; cbn [move_chain length] in *.
  { exists t. split_and!; [do 2 f_equal; lia|done..]. }
  pose proof (hash_slot_mask (e_key e) n Hn) as Hh. unfold slot.
  destruct (lookup_lt_is_Some_2 t (Z.to_nat (hash_slot (2 ^ n - 1) (e_key e)))) as [c0 Hc0]; [lia|]. rewrite Hc0. cbn [mbind res_bind].
  rewrite wrap_small by lia.
  destruct (IH (<[Z.to_nat (hash_slot (2 ^ n - 1) (e_key e)) := e :: c0]> t) (used - 1)) as (t' & E & Hl' & Hs' & Hp).
  - by rewrite length_insert.
  - apply slots_insert; [done|]. intros e' [->|He']%elem_of_cons; [lia|]. by rewrite (Ht _ _ _ Hc0 He').
  - lia.
  - exists t'. rewrite E. split_and!; [do 2 f_equal; lia|by rewrite Hl', length_insert|done|].
    destruct (concat_insert t _ c0 (e :: c0) Hc0) as (rest & H1 & H2). rewrite Hp, H2, H1. solve_Permutation.
Qed.

Lemma move_slots_ok n old t used : 0 <= n -> length t = Z.to_nat (2 ^ n) -> slots_ok (2 ^ n - 1) t ->
  used = Z.of_nat (length (concat old)) -> used < 2 ^ 64 ->
  exists t', move_slots (2 ^ n - 1) old t used = Ret (t', 0) /\ length t' = length t /\ slots_ok (2 ^ n - 1) t' /\ concat t' ≡ₚ concat old ++ concat t.
Proof.
  intros Hn. revert t used. induction old as [|c old IH]; intros t used Hl Ht Hu Hb; cbn [move_slots concat] in *.
  { exists t. by rewrite Hu. }
  rewrite length_app in Hu. destruct (Z.ltb_spec 0 used) as [Hpos|Hz].
  - destruct (move_chain_ok n c t used Hn Hl Ht) as (t1 & -> & Hl1 & Hs1 & Hp1); [lia|]. cbn [mbind res_bind].
    destruct (IH t1 (used - Z.of_nat (length c))) as (t' & E & Hl' & Hs' & Hp'); [by rewrite Hl1|done|lia|lia|].
    exists t'. rewrite E. split_and!; [done|by rewrite Hl'|done|]. rewrite Hp', Hp1. solve_Permutation.
  - exists t. assert (used = 0) as -> by lia. split_and!; [done..|].
    assert (c = []) as -> by (apply length_zero_iff_nil; lia). assert (concat old = []) as -> by (apply length_zero_iff_nil; lia). done.
Qed.

Lemma next_power_exact n i k : 0 <= k -> i <= k -> k - i < Z.of_nat n -> 0 <= i -> k < 63 -> next_power n (2 ^ i) (2 ^ k) = 2 ^ k.
Proof.
  revert i. induction n as [|n IH]; intros i Hk Hi Hn H0 Hb; [lia|]. cbn [next_power].
  destruct (Z.leb_spec (2 ^ k) (2 ^ i)) as [H|H].
  - apply Z.pow_le_mono_r_iff in H; [|lia..]. f_equal. lia.
  - assert (i < k) by (apply (Z.pow_lt_mono_r_iff 2); lia).
    rewrite wrap_small.
    + replace (2 ^ i * 2) with (2 ^ (i + 1)) by (rewrite Z.pow_add_r by lia; lia). apply IH; lia.
    + split; [lia|]. replace (2 ^ i * 2) with (2 ^ (i + 1)) by (rewrite Z.pow_add_r by lia; lia).
      apply Z.pow_lt_mono_r; lia.
Qed.

Lemma concat_nils n : concat (replicate n ([] : list (dictEntry V))) = [].
Proof. induction n as [|n IH]; [done|exact IH]. Qed.

(** Growing keeps the entries. *)
Lemma dictExpand_ok d k : dict_wf d -> 2 <= k < 32 -> d_used d <= 2 ^ k ->
  exists d', dictExpand d (2 ^ k) = Ret (DICT_OK, d') /\ dict_wf d' /\ to_map d' = to_map d /\ d_size d' = 2 ^ k /\ d_used d' = d_used d.
Proof.
  intros Hwf Hk Hu. unfold dictExpand, dictNextPower. assert (Hp : 2 ^ k <= 2 ^ 32) by (apply Z.pow_le_mono_r; lia).
  assert (Hp0 : 0 < 2 ^ k) by lia.
  unfold LONG_MAX. rewrite (proj2 (Z.leb_gt _ _)) by lia. change DICT_HT_INITIAL_SIZE with (2 ^ 2). rewrite next_power_exact by lia.
  rewrite (proj2 (Z.ltb_ge _ _)) by lia. pose proof (wf_used d Hwf) as Hused. unfold entries in Hused. rewrite length_fmap in Hused.
  destruct (move_slots_ok k (d_table d) (replicate (Z.to_nat (2 ^ k)) []) (d_used d)) as (t & -> & Hl & Hs & Hpm); [lia|by rewrite length_replicate| |done|lia|].
  { intros i c e [-> _]%lookup_replicate ?%not_elem_of_nil. done. }
  cbn [mbind res_bind]. eexists. split; [done|].
  assert (Hcc : concat t ≡ₚ concat (d_table d)).
  { by rewrite Hpm, concat_nils, app_nil_r. }
  assert (He : entries t ≡ₚ entries (d_table d)) by (unfold entries; by rewrite Hcc).
  assert (Hn : NoDup (entries t).*1) by (rewrite He; apply (wf_keys d Hwf)).
  split_and!; [split; cbn [d_table d_size d_sizemask d_used]|by apply list_to_map_proper|done|done].
  - rewrite Hl, length_replicate. lia.
  - right. exists k. lia.
  - done.
  - done.
  - rewrite He. apply (wf_used d Hwf).
  - done.
Qed.

Lemma dictExpandIfNeeded_ok d : dict_wf d -> d_size d <= 2 ^ 30 -> exists d', dictExpandIfNeeded d = Ret (DICT_OK, d') /\ dict_wf d'
  /\ to_map d' = to_map d /\ d_size d' <> 0 /\ d_size d' <= Z.max 4 (Z.max (d_size d) (2 * d_used d)) /\ d_used d' = d_used d /\ d_used d' < d_size d'.
Proof.
  intros Hwf Hs. unfold dictExpandIfNeeded. pose proof (wf_load d Hwf) as Hload. pose proof (wf_used d Hwf) as Hu. destruct (Z.eqb_spec (d_size d) 0) as [E|E].
  - assert (Hu0 : d_used d = 0).
    { rewrite (wf_size d Hwf) in E. destruct (d_table d); [|cbn in E; lia]. cbn in Hu. lia. }
    destruct (dictExpand_ok d 2 Hwf) as (d' & H1 & H2 & H3 & H4 & H5); [lia|lia|]. exists d'. split_and!; [done..|lia|lia|done|lia].
  - destruct (Z.eqb_spec (d_used d) (d_size d)) as [Eu|Eu]; [|exists d; split_and!; (done || lia)].
    destruct (wf_mask d Hwf) as [[? _]|(k & Hk & Es & _)]; [done|].
    assert (Hk30 : k <= 30) by (apply (Z.pow_le_mono_r_iff 2); lia).
    assert (Ek : d_size d * 2 = 2 ^ (k + 1)) by (rewrite Es, Z.pow_add_r by lia; lia).
    assert (Hk31 : 2 ^ (k + 1) <= 2 ^ 31) by (apply Z.pow_le_mono_r; lia).
    rewrite wrap_small, Ek by lia.
    destruct (dictExpand_ok d (k + 1) Hwf) as (d' & H1 & H2 & H3 & H4 & H5); [lia|lia|]. exists d'. split_and!; [done..|lia|lia|done|lia].
Qed.

(** *** One chain changes *)

Lemma update_wf d i c c' n : dict_wf d -> d_table d !! i = Some c -> (forall e, e ∈ c' -> hash_slot (d_sizemask d) (e_key e) = Z.of_nat i) ->
  NoDup (entries (<[i := c']> (d_table d))).*1 -> n = Z.of_nat (length (entries (<[i := c']> (d_table d)))) -> n <= d_size d ->
  dict_wf (set_used n (set_table (<[i := c']> (d_table d)) d)).
Proof.
  intros Hwf Hi Hc' Hn Hu Hle. split; cbn [set_used set_table d_table d_size d_sizemask d_used].
  - rewrite length_insert. apply (wf_size d Hwf).
  - apply (wf_mask d Hwf).
  - apply slots_insert; [apply (wf_slots d Hwf)|done].
  - done.
  - done.
  - done.
Qed.

Lemma index_swrap h : 0 <= h < 2 ^ 31 -> swrap 32 h = h /\ (swrap 32 h =? -1) = false.
Proof. intros Hh. rewrite swrap_small by lia. split; [done|]. apply Z.eqb_neq. lia. Qed.

Lemma dictAdd_map d k v : dict_wf d -> d_size d <= 2 ^ 30 -> exists r d', dictAdd d k v = Ret (r, d') /\ dict_wf d'
  /\ d_size d' <= Z.max 4 (Z.max (d_size d) (2 * d_used d)) /\ d_used d' <= d_used d + 1
  /\ match to_map d !! k with
     | Some _ => r = DICT_ERR /\ to_map d' = to_map d /\ d_size d' <> 0
     | None => r = DICT_OK /\ to_map d' = <[k := v]> (to_map d)
     end.
Proof.
  intros Hwf Hs. destruct (dictExpandIfNeeded_ok d Hwf Hs) as (d1 & E1 & Hwf1 & Hm1 & Hs1 & Hb1 & Hu1 & Hlt).
  unfold dictAdd, dictKeyIndex. rewrite E1. cbn [mbind res_bind]. change (DICT_OK =? DICT_ERR) with false. cbv iota.
  destruct (slot_of_key d1 k Hwf1 Hs1) as (Hr & c & Hc & Hslot). rewrite Hslot. cbn [mbind res_bind].
  pose proof (chain_find_map d1 k c Hwf1 Hc) as Hf. rewrite Hm1 in Hf. pose proof (wf_load d Hwf) as Hload.
  destruct (chain_find k c) as [e|] eqn:Ec; cbn in Hf; rewrite <- Hf.
  { exists DICT_ERR, d1. split_and!; (done || lia). }
  destruct (index_swrap (hash_slot (d_sizemask d1) k)) as [Ei Ei']; [lia|]. cbn [mbind res_bind]. rewrite Ei', Ei, Hslot. cbn [mbind res_bind].
  pose proof (wf_used d1 Hwf1) as Hu. rewrite wrap_small by lia.
  destruct (entries_insert (d_table d1) _ c (mk_entry k v :: c) Hc) as (rest & H1 & H2).
  assert (Hperm : entries (<[Z.to_nat (hash_slot (d_sizemask d1) k) := mk_entry k v :: c]> (d_table d1)) ≡ₚ (k, v) :: entries (d_table d1)).
  { rewrite H2, H1. done. }
  assert (Hnew : NoDup ((k, v) :: entries (d_table d1)).*1).
  { rewrite fmap_cons. apply NoDup_cons. split; [|apply (wf_keys d1 Hwf1)]. apply not_elem_of_list_to_map. rewrite <- Hm1 in Hf. by symmetry. }
  do 2 eexists. split; [done|]. split; [apply (update_wf _ _ c)|]; [done|done| | | |lia|].
  - intros e [->|He]%elem_of_cons; [cbn; lia|]. apply (wf_slots d1 Hwf1 _ _ _ Hc He).
  - by rewrite Hperm.
  - rewrite Hperm. cbn [length]. lia.
  - cbn [set_used set_table d_size d_used]. split_and!; [lia|lia|done|]. unfold to_map at 1. cbn [set_used set_table d_table].
    rewrite (list_to_map_proper _ ((k, v) :: entries (d_table d1))) by (done || by rewrite Hperm). cbn [list_to_map]. by rewrite <- Hm1.
Qed.

Lemma chain_set_keys k v c : (pair_of <$> chain_set k v c).*1 = (pair_of <$> c).*1.
Proof.
  induction c as [|e c IH]; [done|]. cbn [chain_set]. case_bool_decide; [done|]. rewrite !fmap_cons. by rewrite IH.
Qed.

Lemma chain_set_elem k v c e : e ∈ chain_set k v c -> exists e', e' ∈ c /\ e_key e' = e_key e.
Proof.
  induction c as [|x c IH]; [by intros ?%not_elem_of_nil|]. cbn [chain_set]. case_bool_decide.
  - intros [->|He]%elem_of_cons; [exists x; split; [by left|done]|exists e; split; [by right|done]].
  - intros [->|He]%elem_of_cons; [exists x; split; [by left|done]|]. destruct (IH He) as (e' & ? & ?). exists e'. split; [by right|done].
Qed.

Lemma chain_set_map k v c rest : chain_find k c <> None -> NoDup ((pair_of <$> c) ++ rest).*1 ->
  (list_to_map ((pair_of <$> chain_set k v c) ++ rest) : gmap _ V) = <[k := v]> (list_to_map ((pair_of <$> c) ++ rest)).
Proof.
  induction c as [|e c IH]; [done|]. cbn [chain_find chain_set]. case_bool_decide as Hk; intros Hf Hn.
  - subst. cbn. by rewrite insert_insert_eq.
  - rewrite !fmap_cons, <- !app_comm_cons. rewrite fmap_cons in Hn. apply NoDup_cons in Hn as [_ Hn]. unfold pair_of at 1 3.
    rewrite !list_to_map_cons, IH by done. by apply insert_insert_ne.
Qed.

Lemma dictReplace_map d k v : dict_wf d -> d_size d <= 2 ^ 30 -> exists d',
  dictReplace d k v = Ret (match to_map d !! k with Some _ => 0 | None => 1 end, d') /\ dict_wf d' /\ to_map d' = <[k := v]> (to_map d)
  /\ d_size d' <= Z.max 4 (Z.max (d_size d) (2 * d_used d)) /\ d_used d' <= d_used d + 1.
Proof.
  intros Hwf Hs. destruct (dictAdd_map d k v Hwf Hs) as (r & d1 & E & Hwf1 & Hb & Hu & Hm). unfold dictReplace. rewrite E. cbn [mbind res_bind].
  destruct (to_map d !! k) as [v0|] eqn:Ek; destruct Hm as [-> Hm]; [|exists d1; split_and!; done].
  destruct Hm as [Hm1 Hs1]. change (DICT_ERR =? DICT_OK) with false. cbv iota.
  destruct (dictFind_map d1 k Hwf1) as (o & -> & Ho). rewrite Hm1, Ek in Ho. destruct o as [e|]; [|done]. cbn [mbind res_bind].
  destruct (slot_of_key d1 k Hwf1 Hs1) as (Hr & c & Hc & ->). cbn [mbind res_bind].
  pose proof (chain_find_map d1 k c Hwf1 Hc) as Hf. rewrite Hm1, Ek in Hf.
  destruct (entries_insert (d_table d1) _ c (chain_set k v c) Hc) as (rest & H1 & H2).
  pose proof (wf_keys d1 Hwf1) as Hn. rewrite H1 in Hn.
  assert (Hn2 : NoDup ((pair_of <$> chain_set k v c) ++ rest).*1) by (by rewrite fmap_app, chain_set_keys, <- fmap_app).
  assert (Hn3 : NoDup (entries (<[Z.to_nat (hash_slot (d_sizemask d1) k) := chain_set k v c]> (d_table d1))).*1) by (by rewrite H2).
  eexists. split; [done|].
  assert (Hwf2 : dict_wf (set_used (d_used d1) (set_table (<[Z.to_nat (hash_slot (d_sizemask d1) k) := chain_set k v c]> (d_table d1)) d1))).
  { apply (update_wf _ _ c); [done|done| |by rewrite H2| |apply (wf_load d1 Hwf1)].
    - intros e' (e2 & He2 & <-)%chain_set_elem. apply (wf_slots d1 Hwf1 _ _ _ Hc He2).
    - rewrite (wf_used d1 Hwf1), H1, H2, !length_app. do 2 f_equal.
      by rewrite <- (length_fmap fst (pair_of <$> c)), <- (length_fmap fst (pair_of <$> chain_set k v c)), chain_set_keys. }
  split_and!; [done| |done|done]. unfold to_map at 1. cbn [set_table d_table]. rewrite (list_to_map_proper _ _ Hn3 H2).
  rewrite chain_set_map; [|by intros E0; rewrite E0 in Hf|done]. f_equal. rewrite <- Hm1. unfold to_map.
  by apply list_to_map_proper; [|by rewrite H1].
Qed.

Lemma chain_delete_split k c c' : chain_delete k c = Some c' -> exists e, e_key e = k /\ c ≡ₚ e :: c'.
Proof.
  revert c'. induction c as [|e c IH]; [done|]. intros c'. cbn [chain_delete]. case_bool_decide as Hk.
  - intros [= <-]. by exists e.
  - destruct (chain_delete k c) as [c1|]; [|done]. intros [= <-]. destruct (IH c1 eq_refl) as (e' & He & Hp). exists e'. split; [done|].
    rewrite Hp. apply Permutation_swap.
Qed.

Lemma chain_delete_none k c : chain_delete k c = None <-> chain_find k c = None.
Proof.
  induction c as [|e c IH]; [done|]. cbn [chain_delete chain_find]. case_bool_decide; [done|]. rewrite <- IH. by destruct (chain_delete k c).
Qed.

Lemma dictDelete_map d k : dict_wf d -> d_size d <= 2 ^ 31 -> exists d',
  dictDelete d k = Ret (match to_map d !! k with Some _ => DICT_OK | None => DICT_ERR end, d') /\ dict_wf d' /\ to_map d' = delete k (to_map d)
  /\ d_size d' = d_size d /\ d_used d' <= d_used d.
Proof.
  intros Hwf Hs. unfold dictDelete. destruct (Z.eqb_spec (d_size d) 0) as [E|E].
  { destruct (dictFind_map d k Hwf) as (o & Eo & Ho). unfold dictFind in Eo. rewrite (proj2 (Z.eqb_eq _ _) E) in Eo. simplify_eq. cbn in Ho.
    rewrite <- Ho. exists d. split_and!; [done|done| |done|done]. by rewrite delete_id. }
  destruct (slot_of_key d k Hwf E) as (Hr & c & Hc & ->). cbn [mbind res_bind].
  pose proof (chain_find_map d k c Hwf Hc) as Hf. destruct (chain_delete k c) as [c'|] eqn:Ed.
  - destruct (chain_find k c) as [e0|] eqn:Ef; [|apply chain_delete_none in Ef; congruence]. cbn in Hf. rewrite <- Hf.
    apply chain_delete_split in Ed as (e & <- & Hp). destruct (entries_insert (d_table d) _ c c' Hc) as (rest & H1 & H2).
    assert (Hall : entries (d_table d) ≡ₚ pair_of e :: entries (<[Z.to_nat (hash_slot (d_sizemask d) (e_key e)) := c']> (d_table d))).
    { rewrite H1, H2, Hp. done. }
    pose proof (wf_keys d Hwf) as Hn. rewrite Hall, fmap_cons in Hn. apply NoDup_cons in Hn as [Hnot Hn].
    pose proof (wf_used d Hwf) as Hu. rewrite Hall in Hu. cbn [length] in Hu. pose proof (wf_load d Hwf) as Hload.
    eexists. split; [done|]. split_and!; [apply (update_wf _ _ c); [done|done| |done| |]| |done|].
    + intros e' He'. apply (wf_slots d Hwf _ _ _ Hc). rewrite Hp. by right.
    + rewrite wrap_small by lia. lia.
    + rewrite wrap_small by lia. lia.
    + unfold to_map. cbn [set_used set_table d_table]. rewrite (list_to_map_proper _ _ (wf_keys d Hwf) Hall). unfold pair_of at 1.
      rewrite list_to_map_cons, delete_insert_id; [done|]. by apply not_elem_of_list_to_map.
    + cbn [set_used d_used]. rewrite wrap_small by lia. lia.
  - apply chain_delete_none in Ed. rewrite Ed in Hf. cbn in Hf. rewrite <- Hf. exists d. split_and!; [done|done| |done|done]. by rewrite delete_id.
Qed.

(** *** Iterators *)

(** The entries an iterator has still to give. *)
Definition remaining d (it : dictIterator V) : list (dictEntry V) := default [] (it_next it) ++ concat (drop (Z.to_nat (it_index it + 1)) (d_table d)).

Lemma next_loop_ok d n (it : dictIterator V) : d_size d = Z.of_nat (length (d_table d)) -> -1 <= it_index it ->
  Z.max 0 (d_size d - 1 - it_index it) + 1 + Z.of_nat (match it_next it with Some _ => 1 | None => 0 end) <= Z.of_nat n ->
  exists it', next_loop n d it = Ret (head (remaining d it), it') /\ -1 <= it_index it' /\ (remaining d it <> [] -> remaining d it' = tail (remaining d it)).
Proof.
  intros Hs. revert it. induction n as [|n IH]; intros [i nx] Hi Hn; cbn [it_index it_next] in *; [lia|]. cbn [next_loop it_next it_index].
  destruct nx as [[|e c]|].
  - destruct (IH (mk_iter i None)) as (it' & E & H1 & H2); [done|cbn [it_index it_next]; lia|]. by exists it'.
  - eexists. split; [done|]. split; [done|]. done.
  - destruct (Z.leb_spec (d_size d) (i + 1)) as [Hle|Hlt].
    + eexists. unfold remaining. cbn [it_next it_index default app]. rewrite drop_ge by lia. split; [done|]. split; [cbn; lia|done].
    + destruct (lookup_lt_is_Some_2 (d_table d) (Z.to_nat (i + 1))) as [c Hc]; [lia|]. unfold slot. rewrite Hc. cbn [mbind res_bind].
      assert (Er : remaining d (mk_iter i None) = c ++ concat (drop (Z.to_nat (i + 1 + 1)) (d_table d))).
      { unfold remaining. cbn [it_next it_index default app]. rewrite (drop_S _ c) by done. cbn [concat]. do 3 f_equal. lia. }
      rewrite Er. destruct c as [|e c].
      * destruct (IH (mk_iter (i + 1) None)) as (it' & E & H1 & H2); [cbn; lia|cbn [it_index it_next]; lia|]. by exists it'.
      * eexists. split; [done|]. split; [cbn; lia|done].
Qed.

Lemma dict_walk_ok d n it : dict_wf d -> -1 <= it_index it -> (length (remaining d it) < n)%nat -> dict_walk n d it = Ret (remaining d it).
Proof.
  intros Hwf. revert it. induction n as [|n IH]; intros it Hi Hn; [lia|]. cbn [dict_walk]. unfold dictNext.
  destruct (next_loop_ok d (Z.to_nat (d_size d) + 2) it (wf_size d Hwf) Hi) as (it' & -> & H1 & H2).
  { pose proof (wf_size d Hwf). destruct (it_next it); lia. }
  cbn [mbind res_bind]. destruct (remaining d it) as [|e r]; [done|]. cbn [head tail length] in *.
  rewrite IH by (done || rewrite H2 by done; lia). by rewrite H2.
Qed.

Lemma dict_entries_ok d : dict_wf d -> dict_entries d = Ret (concat (d_table d)).
Proof.
  intros Hwf. pose proof (wf_used d Hwf) as Hu. unfold entries in Hu. rewrite length_fmap in Hu. apply dict_walk_ok; [done|done|].
  change (remaining d dictGetIterator) with (concat (d_table d)). lia.
Qed.

(** ** Sequences of operations *)

Inductive dict_op := OpAdd (k : list Z) (v : V) | OpReplace (k : list Z) (v : V) | OpDelete (k : list Z) | OpFind (k : list Z).
Inductive dict_out := OutCode (r : Z) | OutVal (o : option V).

Definition run_op (op : dict_op) (d : dict V) : res (dict_out * dict V) :=
  match op with
  | OpAdd k v => '(r, d) ← dictAdd d k v; Ret (OutCode r, d)
  | OpReplace k v => '(r, d) ← dictReplace d k v; Ret (OutCode r, d)
  | OpDelete k => '(r, d) ← dictDelete d k; Ret (OutCode r, d)
  | OpFind k => o ← dictFind d k; Ret (OutVal (e_val <$> o), d)
  end.

Definition map_op (op : dict_op) (m : gmap (list Z) V) : dict_out * gmap (list Z) V :=
  match op with
  | OpAdd k v => match m !! k with Some _ => (OutCode DICT_ERR, m) | None => (OutCode DICT_OK, <[k := v]> m) end
  | OpReplace k v => (OutCode (match m !! k with Some _ => 0 | None => 1 end), <[k := v]> m)
  | OpDelete k => (OutCode (match m !! k with Some _ => DICT_OK | None => DICT_ERR end), delete k m)
  | OpFind k => (OutVal (m !! k), m)
  end.

Fixpoint run_ops (ops : list dict_op) (d : dict V) : res (list dict_out * dict V) :=
  match ops with
  | [] => Ret ([], d)
  | op :: ops => '(o, d) ← run_op op d; '(os, d) ← run_ops ops d; Ret (o :: os, d)
  end.

Fixpoint map_ops (ops : list dict_op) (m : gmap (list Z) V) : list dict_out * gmap (list Z) V :=
  match ops with
  | [] => ([], m)
  | op :: ops => let '(o, m) := map_op op m in let '(os, m) := map_ops ops m in (o :: os, m)
  end.

Lemma run_op_ok op d n : dict_wf d -> d_size d <= Z.max 4 (2 * n) -> d_used d <= n -> n < 2 ^ 29 ->
  exists o d', run_op op d = Ret (o, d') /\ map_op op (to_map d) = (o, to_map d') /\ dict_wf d' /\ d_size d' <= Z.max 4 (2 * (n + 1)) /\ d_used d' <= n + 1.
Proof.
  intros Hwf Hs Hu Hn. destruct op as [k v|k v|k|k]; cbn [run_op map_op].
  - destruct (dictAdd_map d k v Hwf) as (r & d' & -> & Hwf' & Hs' & Hu' & Hm); [lia|]. exists (OutCode r), d'. split; [done|].
    split; [|split_and!; [done|lia|lia]]. destruct (to_map d !! k); [destruct Hm as (-> & -> & _)|destruct Hm as (-> & ->)]; done.
  - destruct (dictReplace_map d k v Hwf) as (d' & -> & Hwf' & Hm & Hs' & Hu'); [lia|]. do 2 eexists. split; [done|]. rewrite Hm. split_and!; [done|done|lia|lia].
  - destruct (dictDelete_map d k Hwf) as (d' & -> & Hwf' & Hm & Hs' & Hu'); [lia|]. do 2 eexists. split; [done|]. rewrite Hm. split_and!; [done|done|lia|lia].
  - destruct (dictFind_map d k Hwf) as (o & -> & Ho). do 2 eexists. split; [done|]. cbn. rewrite Ho. split_and!; [done|done|lia|lia].
Qed.

Lemma run_ops_ok ops d n : dict_wf d -> d_size d <= Z.max 4 (2 * n) -> d_used d <= n -> n + Z.of_nat (length ops) < 2 ^ 29 ->
  exists os d', run_ops ops d = Ret (os, d') /\ map_ops ops (to_map d) = (os, to_map d') /\ dict_wf d'.
Proof.
  revert d n. induction ops as [|op ops IH]; intros d n Hwf Hs Hu Hn; [by exists [], d|]. cbn [length] in Hn. cbn [run_ops map_ops].
  destruct (run_op_ok op d n Hwf Hs Hu) as (o & d1 & -> & -> & Hwf1 & Hs1 & Hu1); [lia|]. cbn [mbind res_bind].
  destruct (IH d1 (n + 1) Hwf1 Hs1 Hu1) as (os & d2 & -> & -> & Hwf2); [lia|]. by exists (o :: os), d2.
Qed.

Lemma create_wf : dict_wf dictCreate.
Proof. split; cbn; [done|by left| |constructor|done|done]. intros i c e Hi. by rewrite lookup_nil in Hi. Qed.

(** C17. The hash table is a finite map: every sequence of fewer than 2^29 operations on a new table gives the results of the same
    operations on a map of byte strings, without an access outside the table and without a failed assertion, through
    every growth of the table; and the iterator gives each entry of the map once. *)
Theorem dict_refines ops : Z.of_nat (length ops) < 2 ^ 29 -> exists os d l,
  run_ops ops dictCreate = Ret (os, d) /\ map_ops ops ∅ = (os, to_map d)
  /\ dict_entries d = Ret l /\ (pair_of <$> l) ≡ₚ map_to_list (to_map d).
Proof.
  intros Hn. destruct (run_ops_ok ops dictCreate 0 create_wf) as (os & d & H1 & H2 & Hwf); [done|done|lia|].
  exists os, d, (concat (d_table d)). split_and!; [done|done|by apply dict_entries_ok|].
  symmetry. apply map_to_list_to_map, (wf_keys d Hwf).
Qed.
End spec.
Arguments dict_op : clear implicits.

Lemma dict_refines_witness : exists os d l, run_ops [OpAdd [97] 1; OpReplace [98] 2; OpAdd [97] 3; OpDelete [98]; OpFind [97]] dictCreate = Ret (os, d)
  /\ os = [OutCode DICT_OK; OutCode 1; OutCode DICT_ERR; OutCode DICT_OK; OutVal (Some 1)] /\ dict_entries d = Ret l.
Proof.
  destruct (dict_refines (V := Z) [OpAdd [97] 1; OpReplace [98] 2; OpAdd [97] 3; OpDelete [98]; OpFind [97]]) as (os & d & l & H1 & H2 & H3 & _); [reflexivity|].
  exists os, d, l. split; [exact H1|]. split; [|exact H3]. vm_compute in H2. injection H2 as <- _. reflexivity.
Defined.
