(* ===== verification/Hiredis.v ===== *)
(** * The protocol reader of hiredis

    packages/redis/hiredis.c: the objects of replies, and the incremental reader with its stack of tasks.
    [rstack] up to [ridx] is a list with the current task first; the parent of a task
    is the next of the list, and the object of a task the array at the path of the indices of the tasks in the reply that is
    being built, so that [parent->element[idx] = r] writes at the end of a path.  [r->len] is the length of [buf]
    ([r->len = sdslen(r->buf)] after every change).  The creation of the n-th object succeeds when [mem n].
    Buffers are smaller than 2 GiB. *)

From S2P Require Import Prelude CString Session Sds.

Definition REDIS_ERR : Z := -1.
Definition REDIS_OK : Z := 0.
Definition REDIS_ERR_IO : Z := 1.
Definition REDIS_ERR_OTHER : Z := 2.
Definition REDIS_ERR_EOF : Z := 3.
Definition REDIS_ERR_PROTOCOL : Z := 4.
Definition REDIS_ERR_OOM : Z := 5.

Definition REDIS_REPLY_STRING : Z := 1.
Definition REDIS_REPLY_ARRAY : Z := 2.
Definition REDIS_REPLY_INTEGER : Z := 3.
Definition REDIS_REPLY_NIL : Z := 4.
Definition REDIS_REPLY_STATUS : Z := 5.
Definition REDIS_REPLY_ERROR : Z := 6.

(** ** Replies *)

(** [rp_element] is the vector, [NULL] or with a slot per element. *)
Local Unset Elimination Schemes.
Inductive redisReply : Type := Reply {
  rp_type : Z;
  rp_integer : Z;
  rp_len : Z;
  rp_str : option (list Z);
  rp_elements : Z;
  rp_element : option (list (option redisReply))
}.
Local Set Elimination Schemes.

Definition createReplyObject (type : Z) : redisReply := Reply type 0 0 None 0 None.

Definition set_element (l : list (option redisReply)) (r : redisReply) : redisReply :=
  Reply (rp_type r) (rp_integer r) (rp_len r) (rp_str r) (rp_elements r) (Some l).

Record redisReadTask := mk_task { t_type : Z; t_elements : Z; t_idx : Z }.

Definition new_task (idx : Z) : redisReadTask := mk_task (-1) (-1) idx.

Record redisReader := mk_reader {
  r_err : Z;
  r_errstr : list Z;
  r_buf : option sds;
  r_pos : Z;
  r_stack : list redisReadTask;
  r_reply : option redisReply;
  r_made : nat
}.

Definition r_len (r : redisReader) : Z := match r_buf r with Some b => sdslen b | None => 0 end.

(** The bytes at [r->buf + r->pos]. *)
Definition unread (r : redisReader) : list Z := match r_buf r with Some b => drop (Z.to_nat (r_pos r)) (s_buf b) | None => [] end.

Definition set_buf (b : option sds) (pos : Z) (r : redisReader) : redisReader :=
  mk_reader (r_err r) (r_errstr r) b pos (r_stack r) (r_reply r) (r_made r).
Definition advance_pos (n : Z) (r : redisReader) : redisReader := set_buf (r_buf r) (r_pos r + n) r.
Definition set_stack (s : list redisReadTask) (r : redisReader) : redisReader :=
  mk_reader (r_err r) (r_errstr r) (r_buf r) (r_pos r) s (r_reply r) (r_made r).
Definition set_reply (o : option redisReply) (r : redisReader) : redisReader :=
  mk_reader (r_err r) (r_errstr r) (r_buf r) (r_pos r) (r_stack r) o (r_made r).
Definition count_object (r : redisReader) : redisReader :=
  mk_reader (r_err r) (r_errstr r) (r_buf r) (r_pos r) (r_stack r) (r_reply r) (S (r_made r)).

Definition ridx (r : redisReader) : Z := Z.of_nat (length (r_stack r)) - 1.

(** ** Objects in the tree *)

(** The indices from the root's array to the slot of the current task. *)
Definition task_path (stack : list redisReadTask) : list Z := reverse (t_idx <$> removelast stack).

(** [parent->element[idx] = obj] for the parent at the path. *)
Fixpoint put (path : list Z) (obj root : redisReply) : res redisReply :=
  match path with
  | [] => Ret obj
  | i :: path' =>
      match path', rp_element root with
      | [], _ =>
          if rp_type root =? REDIS_REPLY_ARRAY then
            match rp_element root with
            | None => Fault NullDeref
            | Some l => if (0 <=? i) && (i <? Z.of_nat (length l)) then Ret (set_element (<[Z.to_nat i := Some obj]> l) root) else Fault OutOfBounds
            end
          else Fault AssertFail
      | _, None => Fault NullDeref
      | _, Some l =>
          match l !! Z.to_nat i with
          | Some (Some c) => c' ← put path' obj c; Ret (set_element (<[Z.to_nat i := Some c']> l) root)
          | Some None => Fault NullDeref
          | None => Fault OutOfBounds
          end
      end
  end.

(** [if (task->parent)]: a task with a parent links its object. *)
Definition link_object (stack : list redisReadTask) (obj : redisReply) (root : option redisReply) : res (option redisReply) :=
  match task_path stack with
  | [] => Ret root
  | path => match root with None => Fault NullDeref | Some r => r' ← put path obj r; Ret (Some r') end
  end.

Definition createStringObject (type : Z) (str : list Z) (len : Z) : res redisReply :=
  if (type =? REDIS_REPLY_ERROR) || (type =? REDIS_REPLY_STATUS) || (type =? REDIS_REPLY_STRING)
  then Ret (Reply type 0 (swrap 32 len) (Some (take (Z.to_nat len) str)) 0 None)
  else Fault AssertFail.

Definition createArrayObject (elements : Z) : redisReply :=
  Reply REDIS_REPLY_ARRAY 0 0 None (wrap 64 elements) (if 0 <? elements then Some (replicate (Z.to_nat elements) None) else None).

Definition createIntegerObject (value : Z) : redisReply := Reply REDIS_REPLY_INTEGER value 0 None 0 None.
Definition createNilObject : redisReply := createReplyObject REDIS_REPLY_NIL.

(** ** Errors *)

(** The object, the buffer and the tasks are dropped; [errstr] has 128 bytes. *)
Definition redisReaderSetError (type : Z) (str : list Z) (r : redisReader) : redisReader :=
  mk_reader type (take 127 str) None 0 [] None (r_made r).

Definition quoted_char (s : list Z) : list Z := 34 :: s ++ [34].
Definition isprint (c : Z) : bool := (32 <=? c) && (c <=? 126).

Definition chrtos (byte : Z) : list Z :=
  if (byte =? 92) || (byte =? 34) then quoted_char [92; byte]
  else if byte =? 10 then quoted_char [92; ch "n"] else if byte =? 13 then quoted_char [92; ch "r"]
  else if byte =? 9 then quoted_char [92; ch "t"] else if byte =? 7 then quoted_char [92; ch "a"]
  else if byte =? 8 then quoted_char [92; ch "b"]
  else if isprint byte then quoted_char [byte]
  else quoted_char ([92; ch "x"] ++ (if byte <? 16 then [48] else []) ++ fmt_x byte).

(** Buffers of 8 and 128 bytes. *)
Definition redisReaderSetErrorProtocolByte (byte : Z) (r : redisReader) : redisReader :=
  redisReaderSetError REDIS_ERR_PROTOCOL
    (printed 128 (cs "Protocol error, got " ++ printed 8 (chrtos byte) ++ cs " as reply type byte")) r.

Definition redisReaderSetErrorOOM (r : redisReader) : redisReader := redisReaderSetError REDIS_ERR_OOM (cs "Out of memory") r.

(** ** Lines *)

(** The offset of the first CR LF. *)
Fixpoint seekNewline (s : list Z) : option nat :=
  match s with
  | c :: s' =>
      match s' with
      | [] => None
      | d :: _ => if (c =? 13) && (d =? 10) then Some O else S <$> seekNewline s'
      end
  | [] => None
  end.

(** The digits up to the CR; -1 for another character. *)
Fixpoint read_digits (v : Z) (s : list Z) : option Z :=
  match s with
  | [] => None
  | c :: s' =>
      if c =? 13 then Some v
      else
        let dec := c - 48 in
        if (0 <=? dec) && (dec <? 10) then read_digits (swrap 64 (swrap 64 (v * 10) + dec)) s' else None
  end.

Definition readLongLong (s : list Z) : Z :=
  let '(mult, s) := if char_at s 0 =? ch "-" then (-1, tail s) else if char_at s 0 =? ch "+" then (1, tail s) else (1, s) in
  match read_digits 0 s with Some v => swrap 64 (mult * v) | None => -1 end.

(** The line at the position, and the reader after it. *)
Definition readLine (r : redisReader) : option (list Z * Z * redisReader) :=
  match seekNewline (unread r) with
  | Some len => Some (unread r, Z.of_nat len, advance_pos (Z.of_nat len + 2) r)
  | None => None
  end.

(** ** Tasks *)

Fixpoint moveToNextTask (stack : list redisReadTask) : res (list redisReadTask) :=
  match stack with
  | [] => Ret []
  | cur :: rest =>
      match rest with
      | [] => Ret []
      | prv :: _ =>
          if negb (t_type prv =? REDIS_REPLY_ARRAY) then Fault AssertFail
          else if t_idx cur =? t_elements prv - 1 then moveToNextTask rest
          else if t_idx cur <? t_elements prv then Ret (new_task (t_idx cur + 1) :: rest)
          else Fault AssertFail
      end
  end.

Section reader.
Variable mem : nat -> bool.

(** An object is created and linked: [None] for [NULL], when memory fails. *)
Definition create_object (r : redisReader) (obj : res redisReply) : res (option redisReply * redisReader) :=
  if mem (r_made r) then
    o ← obj;
    root ← link_object (r_stack r) o (r_reply r);
    Ret (Some o, set_reply root (count_object r))
  else Ret (None, count_object r).

(** [if (r->ridx == 0) r->reply = obj]. *)
Definition set_root (root : bool) (obj : redisReply) (r : redisReader) : redisReader := if root then set_reply (Some obj) r else r.

(** An item that is complete: the root is set, and the next task begins. *)
Definition item_done (obj : option redisReply) (r : redisReader) : res (Z * redisReader) :=
  match obj with
  | None => Ret (REDIS_ERR, redisReaderSetErrorOOM r)
  | Some o =>
      stack ← moveToNextTask (r_stack r);
      Ret (REDIS_OK, set_stack stack (set_root (ridx r =? 0) o r))
  end.

Definition cur_type (r : redisReader) : Z := match r_stack r with t :: _ => t_type t | [] => -1 end.

Definition processLineItem (r : redisReader) : res (Z * redisReader) :=
  match readLine r with
  | None => Ret (REDIS_ERR, r)
  | Some (p, len, r) =>
      '(obj, r) ← create_object r (if cur_type r =? REDIS_REPLY_INTEGER then Ret (createIntegerObject (readLongLong p))
                                   else createStringObject (cur_type r) p len);
      item_done obj r
  end.

Definition processBulkItem (r : redisReader) : res (Z * redisReader) :=
  match seekNewline (unread r) with
  | None => Ret (REDIS_ERR, r)
  | Some s =>
      let bytelen := Z.of_nat s + 2 in
      let len := readLongLong (unread r) in
      if len <? 0 then '(obj, r) ← create_object r (Ret createNilObject); item_done obj (advance_pos bytelen r)
      else
        let bytelen := wrap 64 (bytelen + len + 2) in
        if wrap 64 (r_pos r + bytelen) <=? r_len r then
          '(obj, r) ← create_object r (createStringObject (cur_type r) (drop (s + 2) (unread r)) len);
          item_done obj (advance_pos bytelen r)
        else Ret (REDIS_ERR, r)
  end.

Definition set_cur (t : redisReadTask) (r : redisReader) : redisReader := set_stack (t :: tail (r_stack r)) r.
Definition cur_task (r : redisReader) : redisReadTask := default (new_task (-1)) (head (r_stack r)).

Definition processMultiBulkItem (r : redisReader) : res (Z * redisReader) :=
  if ridx r =? 3 then
    Ret (REDIS_ERR, redisReaderSetError REDIS_ERR_PROTOCOL (cs "No support for nested multi bulk replies with depth > 2") r)
  else
    match readLine r with
    | None => Ret (REDIS_ERR, r)
    | Some (p, _, r) =>
        let elements := readLongLong p in
        let root := ridx r =? 0 in
        if elements =? -1 then '(obj, r) ← create_object r (Ret createNilObject); item_done obj r
        else
          '(obj, r) ← create_object r (Ret (createArrayObject (swrap 32 elements)));
          match obj with
          | None => Ret (REDIS_ERR, redisReaderSetErrorOOM r)
          | Some o =>
              if 0 <? elements then
                let cur := cur_task r in
                let r := set_cur (mk_task (t_type cur) (swrap 32 elements) (t_idx cur)) r in
                Ret (REDIS_OK, set_root root o (set_stack (new_task 0 :: r_stack r) r))
              else item_done (Some o) r
          end
    end.

Definition type_of_byte (c : Z) : option Z :=
  if c =? ch "-" then Some REDIS_REPLY_ERROR else if c =? ch "+" then Some REDIS_REPLY_STATUS
  else if c =? ch ":" then Some REDIS_REPLY_INTEGER else if c =? ch "$" then Some REDIS_REPLY_STRING
  else if c =? ch "*" then Some REDIS_REPLY_ARRAY else None.

(** The item of the current task, by its type. *)
Definition process_typed (r : redisReader) : res (Z * redisReader) :=
  let t := cur_type r in
  if (t =? REDIS_REPLY_ERROR) || (t =? REDIS_REPLY_STATUS) || (t =? REDIS_REPLY_INTEGER) then processLineItem r
  else if t =? REDIS_REPLY_STRING then processBulkItem r
  else if t =? REDIS_REPLY_ARRAY then processMultiBulkItem r
  else Fault AssertFail.

Definition processItem (r : redisReader) : res (Z * redisReader) :=
  if cur_type r <? 0 then
    match unread r with
    | [] => Ret (REDIS_ERR, r)
    | c :: _ =>
        let r := advance_pos 1 r in
        match type_of_byte c with
        | Some t => process_typed (set_cur (mk_task t (t_elements (cur_task r)) (t_idx (cur_task r))) r)
        | None => Ret (REDIS_ERR, redisReaderSetErrorProtocolByte c r)
        end
    end
  else process_typed r.

(** ** The reader *)

Definition redisReaderCreate : redisReader := mk_reader 0 [] (Some (mk_sds [] 0)) 0 [] None 0.

(** [ok]: the buffer can grow; after the release of a large empty buffer a new one is there. *)
Definition redisReaderFeed (ok : bool) (r : redisReader) (buf : list Z) : Z * redisReader :=
  if negb (r_err r =? 0) then (REDIS_ERR, r)
  else
    match buf, r_buf r with
    | [], _ => (REDIS_OK, r)
    | _, None => (REDIS_OK, r)
    | _, Some b =>
        let '(b, pos) := if (r_len r =? 0) && (16 * 1024 <? sdsavail b) then (mk_sds [] 0, 0) else (b, r_pos r) in
        match sdscatlen ok b buf with
        | None => (REDIS_ERR, redisReaderSetErrorOOM r)
        | Some b' => (REDIS_OK, set_buf (Some b') pos r)
        end
    end.

(** [while (r->ridx >= 0) if (processItem(r) != REDIS_OK) break;] *)
Fixpoint process_items (n : nat) (r : redisReader) : outcome redisReader :=
  match n with
  | O => NoFuel
  | S n =>
      match r_stack r with
      | [] => Done r
      | _ => '(status, r) ← of_res (processItem r); if status =? REDIS_OK then process_items n r else Done r
      end
  end.

(** The bytes before the position are dropped from 1024 on. *)
Definition trim (r : redisReader) : redisReader :=
  if 1024 <=? r_pos r then set_buf ((fun b => sdsrange b (r_pos r) (-1)) <$> r_buf r) 0 r else r.

(** An item takes at least a byte. *)
Definition items_fuel (r : redisReader) : nat := length (unread r) + 2.

Definition redisReaderGetReply (r : redisReader) : outcome (Z * option redisReply * redisReader) :=
  if negb (r_err r =? 0) then Done (REDIS_ERR, None, r)
  else if r_len r =? 0 then Done (REDIS_OK, None, r)
  else
    let r := match r_stack r with [] => set_stack [new_task (-1)] r | _ => r end in
    r ← process_items (items_fuel r) r;
    if negb (r_err r =? 0) then Done (REDIS_ERR, None, r)
    else
      let r := trim r in
      match r_stack r with
      | [] => Done (REDIS_OK, r_reply r, set_reply None r)
      | _ => Done (REDIS_OK, None, r)
      end.
End reader.
