(* ===== verification/HiredisSpec.v ===== *)
(** * Theorems on the reader of hiredis

    The reader of Hiredis.v seen without its buffer: [item] is one turn of [processItem] on the unread bytes, and
    [reads] what a client gets who asks for replies until there is none.  The division of the bytes into feeds has no
    effect ([redis_feed_division]). *)

From S2P Require Import Prelude CString Session Digits Redirect Sds Hiredis.

(** ** One turn on the unread bytes *)

(** More bytes are needed; the next turn; an error; a fault.  The number is of the bytes that were consumed. *)
Inductive turn :=
  | TMore (k : nat) (stack : list redisReadTask)
  | TNext (k : nat) (stack : list redisReadTask) (reply : option redisReply) (made : nat)
  | TErr (type : Z) (str : list Z) (made : nat)
  | TFault (f : fault).

Definition shift (n : nat) (t : turn) : turn :=
  match t with TMore k s => TMore (n + k) s | TNext k s rep m => TNext (n + k) s rep m | _ => t end.

Section turns.
Variable mem : nat -> bool.
Implicit Types (u : list Z) (stack : list redisReadTask) (reply : option redisReply) (made : nat).

Definition top_type stack : Z := match stack with t :: _ => t_type t | [] => -1 end.
Definition top stack : redisReadTask := default (new_task (-1)) (head stack).
Definition retype (t : Z) stack : list redisReadTask := mk_task t (t_elements (top stack)) (t_idx (top stack)) :: tail stack.

Definition with_object stack reply made (obj : res redisReply) (k : redisReply -> option redisReply -> turn) : turn :=
  if mem made then
    match obj with
    | Fault f => TFault f
    | Ret o => match link_object stack o reply with Fault f => TFault f | Ret root => k o root end
    end
  else TErr REDIS_ERR_OOM (cs "Out of memory") (S made).

Definition done_turn (n : nat) stack made (o : redisReply) (root : option redisReply) : turn :=
  match moveToNextTask stack with
  | Fault f => TFault f
  | Ret s => TNext n s (if (length stack =? 1)%nat then Some o else root) (S made)
  end.

Definition line_turn u stack reply made : turn :=
  match seekNewline u with
  | None => TMore 0 stack
  | Some len =>
      with_object stack reply made
        (if top_type stack =? REDIS_REPLY_INTEGER then Ret (createIntegerObject (readLongLong u))
         else createStringObject (top_type stack) u (Z.of_nat len))
        (done_turn (len + 2) stack made)
  end.

Definition bulk_turn u stack reply made : turn :=
  match seekNewline u with
  | None => TMore 0 stack
  | Some s =>
      let len := readLongLong u in
      if len <? 0 then with_object stack reply made (Ret createNilObject) (done_turn (s + 2) stack made)
      else if Z.of_nat s + 2 + len + 2 <=? Z.of_nat (length u) then
        with_object stack reply made (createStringObject (top_type stack) (drop (s + 2) u) len)
          (done_turn (s + 2 + Z.to_nat len + 2) stack made)
      else TMore 0 stack
  end.

Definition multi_turn u stack reply made : turn :=
  if (length stack =? 4)%nat then TErr REDIS_ERR_PROTOCOL (cs "No support for nested multi bulk replies with depth > 2") made
  else
    match seekNewline u with
    | None => TMore 0 stack
    | Some s =>
        let elements := readLongLong u in
        if elements =? -1 then with_object stack reply made (Ret createNilObject) (done_turn (s + 2) stack made)
        else
          with_object stack reply made (Ret (createArrayObject (swrap 32 elements)))
            (fun o root =>
               if 0 <? elements then
                 TNext (s + 2) (new_task 0 :: mk_task (top_type stack) (swrap 32 elements) (t_idx (top stack)) :: tail stack)
                   (if (length stack =? 1)%nat then Some o else root) (S made)
               else done_turn (s + 2) stack made o root)
    end.

Definition typed_turn u stack reply made : turn :=
  let t := top_type stack in
  if (t =? REDIS_REPLY_ERROR) || (t =? REDIS_REPLY_STATUS) || (t =? REDIS_REPLY_INTEGER) then line_turn u stack reply made
  else if t =? REDIS_REPLY_STRING then bulk_turn u stack reply made
  else if t =? REDIS_REPLY_ARRAY then multi_turn u stack reply made
  else TFault AssertFail.

Definition item u stack reply made : turn :=
  if top_type stack <? 0 then
    match u with
    | [] => TMore 0 stack
    | c :: u' =>
        match type_of_byte c with
        | Some t => shift 1 (typed_turn u' (retype t stack) reply made)
        | None =>
            TErr REDIS_ERR_PROTOCOL (printed 128 (cs "Protocol error, got " ++ printed 8 (chrtos c) ++ cs " as reply type byte")) made
        end
    end
  else typed_turn u stack reply made.

(** ** The reader takes these turns *)

(** The position is in the buffer, which has at most [N] bytes. *)
Definition valid (N : Z) (r : redisReader) : Prop := exists b, r_buf r = Some b /\ 0 <= r_pos r <= sdslen b /\ sdslen b <= N < 2 ^ 62.

(** The reader after a turn. *)
Definition apply_turn (t : turn) (r : redisReader) : res (Z * redisReader) :=
  match t with
  | TMore k s => Ret (REDIS_ERR, set_stack s (advance_pos (Z.of_nat k) r))
  | TNext k s rep m => Ret (REDIS_OK, mk_reader (r_err r) (r_errstr r) (r_buf r) (r_pos r + Z.of_nat k) s rep m)
  | TErr type str m => Ret (REDIS_ERR, mk_reader type (take 127 str) None 0 [] None m)
  | TFault f => Fault f
  end.

Lemma ridx_root r : (ridx r =? 0) = (length (r_stack r) =? 1)%nat.
Proof. unfold ridx. destruct (Nat.eqb_spec (length (r_stack r)) 1), (Z.eqb_spec (Z.of_nat (length (r_stack r)) - 1) 0); done || lia. Qed.

Lemma ridx_limit r : (ridx r =? 3) = (length (r_stack r) =? 4)%nat.
Proof. unfold ridx. destruct (Nat.eqb_spec (length (r_stack r)) 4), (Z.eqb_spec (Z.of_nat (length (r_stack r)) - 1) 3); done || lia. Qed.

(** Creating an object and going on with it, with [k] bytes consumed before or behind. *)
Lemma create_done r obj n k : n = (Z.to_nat k) -> 0 <= k ->
  ('(o, r') ← create_object mem r obj; item_done o (advance_pos k r')) =
  apply_turn (with_object (r_stack r) (r_reply r) (r_made r) obj (done_turn n (r_stack r) (r_made r))) r.
Proof.
  intros -> Hk. unfold create_object, with_object. destruct (mem (r_made r)); [|done].
  destruct obj as [o|f]; [|done]. cbn [mbind res_bind]. destruct (link_object _ o _) as [root|f]; [|done]. cbn [mbind res_bind].
  unfold item_done, done_turn. cbn [r_stack set_reply count_object advance_pos set_buf]. destruct (moveToNextTask (r_stack r)) as [s|f]; [|done].
  cbn [mbind res_bind apply_turn]. rewrite ridx_root. cbn [r_stack set_reply count_object advance_pos set_buf].
  unfold set_root. rewrite Z2Nat.id by done. by destruct (length (r_stack r) =? 1)%nat.
Qed.

Lemma advance_0 r : advance_pos 0 r = r.
Proof. destruct r. unfold advance_pos, set_buf. cbn. f_equal. lia. Qed.

Lemma apply_more r : apply_turn (TMore 0 (r_stack r)) r = Ret (REDIS_ERR, r).
Proof. cbn [apply_turn]. change (Z.of_nat 0) with 0. rewrite advance_0. by destruct r. Qed.

Lemma apply_shift n t r : apply_turn t (advance_pos (Z.of_nat n) r) = apply_turn (shift n t) r.
Proof.
  destruct t as [k s|k s rep m|type str m|f]; cbn [apply_turn shift]; [| |done|done]; unfold set_stack, advance_pos, set_buf; cbn;
    by replace (r_pos r + Z.of_nat n + Z.of_nat k) with (r_pos r + Z.of_nat (n + k)) by lia.
Qed.

Lemma shift_done n k stack made o root : shift n (done_turn k stack made o root) = done_turn (n + k) stack made o root.
Proof. unfold done_turn. by destruct (moveToNextTask stack). Qed.

Lemma shift_object n stack reply made obj k k' : (forall o root, shift n (k o root) = k' o root) ->
  shift n (with_object stack reply made obj k) = with_object stack reply made obj k'.
Proof. intros Hk. unfold with_object. destruct (mem made); [|done]. destruct obj; [|done]. by destruct (link_object _ _ _). Qed.

(** After [n] bytes were consumed. *)
Lemma create_after r obj n : ('(o, r') ← create_object mem (advance_pos (Z.of_nat n) r) obj; item_done o r') =
  apply_turn (with_object (r_stack r) (r_reply r) (r_made r) obj (done_turn n (r_stack r) (r_made r))) r.
Proof.
  transitivity (apply_turn (with_object (r_stack r) (r_reply r) (r_made r) obj (done_turn 0 (r_stack r) (r_made r))) (advance_pos (Z.of_nat n) r)).
  - transitivity ('(o, r') ← create_object mem (advance_pos (Z.of_nat n) r) obj; item_done o (advance_pos 0 r')); [|exact (create_done (advance_pos (Z.of_nat n) r) obj 0 0 eq_refl ltac:(lia))]. destruct (create_object _ _ _) as [[o r']|f]; [|done].
    cbn [mbind res_bind]. by rewrite advance_0.
  - rewrite apply_shift. f_equal. apply shift_object. intros o root. rewrite shift_done. do 2 f_equal. lia.
Qed.

Lemma unread_length N r : valid N r -> Z.of_nat (length (unread r)) = r_len r - r_pos r.
Proof. intros (b & Eb & Hp & _). unfold unread, r_len. rewrite Eb, length_drop. unfold sdslen in *. lia. Qed.

Lemma readLongLong_range s : - 2 ^ 63 <= readLongLong s < 2 ^ 63.
Proof.
  unfold readLongLong. destruct (if char_at s 0 =? ch "-" then _ else _) as [mult s']. destruct (read_digits 0 s'); [|lia].
  unfold swrap. change (64 - 1) with 63. pose proof (Z.mod_pos_bound (mult * z + 2 ^ 63) (2 ^ 64)). lia.
Qed.

Lemma seekNewline_length u n : seekNewline u = Some n -> (n + 2 <= length u)%nat.
Proof.
  revert n. induction u as [|c u IH]; intros n; [done|]. cbn [seekNewline]. destruct u as [|d u]; [done|].
  destruct (_ && _); [intros [= <-]; cbn; lia|]. destruct (seekNewline (d :: u)) as [m|]; [|done]. intros [= <-]. specialize (IH m eq_refl). cbn [length] in *. lia.
Qed.

Lemma line_turn_ok r : processLineItem mem r = apply_turn (line_turn (unread r) (r_stack r) (r_reply r) (r_made r)) r.
Proof.
  unfold processLineItem, readLine, line_turn. destruct (seekNewline (unread r)) as [n|]; [|by rewrite apply_more].
  replace (Z.of_nat n + 2) with (Z.of_nat (n + 2)) by lia. rewrite create_after. done.
Qed.

Lemma bulk_turn_ok N r : valid N r -> processBulkItem mem r = apply_turn (bulk_turn (unread r) (r_stack r) (r_reply r) (r_made r)) r.
Proof.
  intros Hv. pose proof (unread_length N r Hv) as Hl. destruct Hv as (b & Eb & Hp & Hb).
  unfold processBulkItem, bulk_turn. destruct (seekNewline (unread r)) as [n|] eqn:En; [|by rewrite apply_more].
  apply seekNewline_length in En. pose proof (readLongLong_range (unread r)). unfold r_len in *. rewrite Eb in *.
  destruct (Z.ltb_spec (readLongLong (unread r)) 0); [by apply create_done; lia|].
  rewrite (wrap_small 64 (Z.of_nat n + 2 + _ + 2)), wrap_small by lia.
  destruct (Z.leb_spec (r_pos r + (Z.of_nat n + 2 + readLongLong (unread r) + 2)) (sdslen b)),
    (Z.leb_spec (Z.of_nat n + 2 + readLongLong (unread r) + 2) (Z.of_nat (length (unread r)))); try lia.
  - apply create_done; lia.
  - by rewrite apply_more.
Qed.

Lemma multi_turn_ok r : r_stack r <> [] -> processMultiBulkItem mem r = apply_turn (multi_turn (unread r) (r_stack r) (r_reply r) (r_made r)) r.
Proof.
  intros Hs. unfold processMultiBulkItem, multi_turn. rewrite ridx_limit. destruct (length (r_stack r) =? 4)%nat; [done|].
  unfold readLine. destruct (seekNewline (unread r)) as [n|]; [|by rewrite apply_more].
  replace (Z.of_nat n + 2) with (Z.of_nat (n + 2)) by lia. destruct (readLongLong (unread r) =? -1); [apply create_after|].
  destruct (Z.ltb_spec 0 (readLongLong (unread r))).
  - unfold create_object, with_object. cbn [r_made r_stack r_reply advance_pos set_buf]. destruct (mem (r_made r)); [|done].
    cbn [mbind res_bind]. destruct (link_object _ _ _) as [root|f]; [|done]. cbn [mbind res_bind apply_turn].
    rewrite ridx_root. cbn [r_stack advance_pos set_buf]. unfold set_root.
    destruct r as [err es buf pos stack rep made]. cbn in *. destruct stack as [|cur rest]; [done|]. by destruct (length (cur :: rest) =? 1)%nat.
  - rewrite <- create_after. destruct (create_object _ _ _) as [[[o|] r']|f]; done.
Qed.

(** A turn of the reader is [item] on its unread bytes. *)
Lemma processItem_turn N r : valid N r -> r_stack r <> [] -> processItem mem r = apply_turn (item (unread r) (r_stack r) (r_reply r) (r_made r)) r.
Proof.
  intros Hv Hs.
  assert (Ht : forall r, valid N r -> r_stack r <> [] -> process_typed mem r = apply_turn (typed_turn (unread r) (r_stack r) (r_reply r) (r_made r)) r).
  { clear r Hv Hs. intros r Hv Hs. unfold process_typed, typed_turn. change (cur_type r) with (top_type (r_stack r)). destruct (_ || _); [apply line_turn_ok|].
    destruct (_ =? REDIS_REPLY_STRING); [by apply (bulk_turn_ok N)|]. destruct (_ =? REDIS_REPLY_ARRAY); [by apply multi_turn_ok|done]. }
  unfold processItem, item. change (cur_type r) with (top_type (r_stack r)). destruct (_ <? 0); [|by apply Ht].
  destruct (unread r) as [|c u] eqn:Eu; [by rewrite apply_more|]. destruct (type_of_byte c) as [t|]; [|done].
  pose proof (unread_length N r Hv) as Hl. rewrite Eu in Hl. cbn [length] in Hl.
  assert (Hr' : valid N (advance_pos 1 r) /\ unread (advance_pos 1 r) = u).
  { destruct Hv as (b & Eb & Hp & Hb). unfold unread, r_len in *. rewrite Eb in *. split.
    - exists b. cbn. split; [done|lia].
    - cbn. rewrite Eb. replace (Z.to_nat (r_pos r + 1)) with (Z.to_nat (r_pos r) + 1)%nat by lia. rewrite <- drop_drop, Eu. done. }
  destruct Hr' as [Hv' Hu'].
  assert (Hcur : set_cur (mk_task t (t_elements (cur_task (advance_pos 1 r))) (t_idx (cur_task (advance_pos 1 r)))) (advance_pos 1 r)
    = set_stack (retype t (r_stack r)) (advance_pos 1 r)) by done.
  rewrite Hcur, Ht; [|by destruct Hv' as (b & ?); exists b|done].
  change (unread (set_stack _ (advance_pos 1 r))) with (unread (advance_pos 1 r)). rewrite Hu'. cbn [r_stack set_stack r_reply r_made advance_pos set_buf].
  transitivity (apply_turn (typed_turn u (retype t (r_stack r)) (r_reply r) (r_made r)) (advance_pos (Z.of_nat 1) r)); [|apply apply_shift].
  by destruct (typed_turn _ _ _ _).
Qed.

(** ** More bytes behind *)

Lemma seekNewline_app u x n : seekNewline u = Some n -> seekNewline (u ++ x) = Some n.
Proof.
  revert n. induction u as [|c u IH]; intros n; [done|]. cbn [seekNewline app]. destruct u as [|d u]; [done|]. cbn [app].
  destruct (_ && _); [done|]. destruct (seekNewline (d :: u)) as [m|] eqn:E; [|done]. intros [= <-]. cbn [app] in IH. by rewrite (IH m).
Qed.

Lemma seekNewline_cr u n : seekNewline u = Some n -> 13 ∈ u.
Proof.
  revert n. induction u as [|c u IH]; intros n; [done|]. cbn [seekNewline]. destruct u as [|d u]; [done|].
  destruct (Z.eqb_spec c 13) as [->|]; [by left|]. cbn [andb]. destruct (seekNewline (d :: u)) as [m|]; [|done]. intros _. right. by apply (IH m).
Qed.

Lemma read_digits_app v u x : 13 ∈ u -> read_digits v (u ++ x) = read_digits v u.
Proof.
  revert v. induction u as [|c u IH]; intros v Hc; [by apply not_elem_of_nil in Hc|]. cbn [read_digits app].
  destruct (Z.eqb_spec c 13); [done|]. apply elem_of_cons in Hc as [<-|Hc]; [done|]. destruct (_ && _); [by apply IH|done].
Qed.

Lemma readLongLong_app u x : 13 ∈ u -> readLongLong (u ++ x) = readLongLong u.
Proof.
  intros Hc. unfold readLongLong. destruct u as [|c u]; [by apply not_elem_of_nil in Hc|]. change (char_at ((c :: u) ++ x) 0) with c.
  change (char_at (c :: u) 0) with c. cbn [app tail].
  assert (Ht : c <> 13 -> 13 ∈ u) by (intros; by apply elem_of_cons in Hc as [<-|]).
  destruct (Z.eqb_spec c (ch "-")) as [->|]; [by rewrite read_digits_app by (by apply Ht)|].
  destruct (Z.eqb_spec c (ch "+")) as [->|]; [by rewrite read_digits_app by (by apply Ht)|].
  by rewrite app_comm_cons, read_digits_app.
Qed.

(** The turn is complete within [n] bytes. *)
Definition within (n : nat) (t : turn) : Prop := match t with TNext k _ _ _ => (2 <= k <= n)%nat | TMore _ _ => False | _ => True end.

Lemma within_done n k stack made o root : (2 <= k <= n)%nat -> within n (done_turn k stack made o root).
Proof. intros Hk. unfold done_turn. by destruct (moveToNextTask stack). Qed.

Lemma within_object n stack reply made obj k : (forall o root, within n (k o root)) -> within n (with_object stack reply made obj k).
Proof. intros Hk. unfold with_object. destruct (mem made); [|done]. destruct obj; [|done]. by destruct (link_object _ _ _). Qed.

Lemma createString_app t u x len : len <= Z.of_nat (length u) -> createStringObject t (u ++ x) len = createStringObject t u len.
Proof. intros Hl. unfold createStringObject. destruct (_ || _); [|done]. by rewrite take_app_le by lia. Qed.

Lemma typed_extend u x stack reply made : typed_turn u stack reply made = TMore 0 stack
  \/ (typed_turn (u ++ x) stack reply made = typed_turn u stack reply made /\ within (length u) (typed_turn u stack reply made)).
Proof.
  unfold typed_turn. destruct (_ || _).
  { unfold line_turn. destruct (seekNewline u) as [n|] eqn:En; [right|by left]. rewrite (seekNewline_app _ x _ En).
    pose proof (seekNewline_length _ _ En). pose proof (seekNewline_cr _ _ En). rewrite readLongLong_app, createString_app by (done || lia).
    split; [done|]. apply within_object. intros o root. apply within_done. lia. }
  destruct (_ =? REDIS_REPLY_STRING).
  { unfold bulk_turn. destruct (seekNewline u) as [n|] eqn:En; [|by left]. rewrite (seekNewline_app _ x _ En).
    pose proof (seekNewline_length _ _ En). pose proof (seekNewline_cr _ _ En). rewrite readLongLong_app by done.
    destruct (Z.ltb_spec (readLongLong u) 0).
    - right. split; [done|]. apply within_object. intros o root. apply within_done. lia.
    - destruct (Z.leb_spec (Z.of_nat n + 2 + readLongLong u + 2) (Z.of_nat (length u))); [right|by left].
      rewrite length_app, (proj2 (Z.leb_le _ _)) by lia. rewrite drop_app_le, createString_app by (rewrite ?length_drop; lia).
      split; [done|]. apply within_object. intros o root. apply within_done. lia. }
  destruct (_ =? REDIS_REPLY_ARRAY); [|by right].
  unfold multi_turn. destruct (length stack =? 4)%nat; [by right|]. destruct (seekNewline u) as [n|] eqn:En; [right|by left].
  rewrite (seekNewline_app _ x _ En). pose proof (seekNewline_length _ _ En). pose proof (seekNewline_cr _ _ En). rewrite readLongLong_app by done.
  split; [done|]. destruct (_ =? -1); apply within_object; intros o root; [apply within_done; lia|]. destruct (0 <? _); [cbn; lia|apply within_done; lia].
Qed.

(** A turn that needs more bytes has at most read the type of the item. *)
Lemma item_extend u x stack reply made : stack <> [] ->
  (exists k s, item u stack reply made = TMore k s /\ (k <= length u)%nat /\ s <> [] /\ item (u ++ x) stack reply made = shift k (item (drop k u ++ x) s reply made))
  \/ (item (u ++ x) stack reply made = item u stack reply made /\ within (length u) (item u stack reply made)).
Proof.
  intros Hs. unfold item. destruct (Z.ltb_spec (top_type stack) 0) as [Hneg|Hpos].
  - destruct u as [|c u].
    { left. exists 0%nat, stack. cbn [app drop length]. rewrite (proj2 (Z.ltb_lt _ _)) by done. split_and!; [done|lia|done|].
      destruct x as [|c x]; [done|]. destruct (type_of_byte c); [|done]. by destruct (typed_turn _ _ _ _). }
    cbn [app]. destruct (type_of_byte c) as [t|] eqn:Et; [|by right].
    destruct (typed_extend u x (retype t stack) reply made) as [E|[E Hw]].
    + left. exists 1%nat, (retype t stack). rewrite E. cbn [shift length drop]. split_and!; [done|lia|done|].
      assert (Htop : (top_type (retype t stack) <? 0) = false).
      { cbn. apply Z.ltb_ge. unfold type_of_byte in Et.
        repeat (match type of Et with (if ?b then _ else _) = _ => destruct b end; [injection Et as <-; done|]). done. }
      by rewrite Htop.
    + right. rewrite E. split; [done|]. destruct (typed_turn u _ _ _); cbn in *; done || lia.
  - destruct (typed_extend u x stack reply made) as [E|[E Hw]]; [left|by right]. exists 0%nat, stack. rewrite E. cbn [drop].
    rewrite (proj2 (Z.ltb_ge _ _)) by done. split_and!; [done|lia|done|]. change (drop 0 u) with u. by destruct (typed_turn (u ++ x) _ _ _).
Qed.

(** ** Replies of a stream of bytes *)

(** Where reading stops: more bytes are needed, an error, a fault. *)
Inductive stop :=
  | FMore (u : list Z) (stack : list redisReadTask) (reply : option redisReply) (made : nat)
  | FErr (type : Z) (str : list Z) (made : nat)
  | FFault (f : fault).

Inductive got := Got (o : redisReply) (u : list Z) (made : nat) | Stop (f : stop).

(** The turns up to the end of a reply. *)
Inductive run1 : list Z -> list redisReadTask -> option redisReply -> nat -> got -> Prop :=
  | run1_more u s rep m k s' : item u s rep m = TMore k s' -> run1 u s rep m (Stop (FMore (drop k u) s' rep m))
  | run1_err u s rep m type str m' : item u s rep m = TErr type str m' -> run1 u s rep m (Stop (FErr type str m'))
  | run1_fault u s rep m f : item u s rep m = TFault f -> run1 u s rep m (Stop (FFault f))
  | run1_step u s rep m k t s' rep' m' g : item u s rep m = TNext k (t :: s') rep' m' -> run1 (drop k u) (t :: s') rep' m' g -> run1 u s rep m g
  | run1_reply u s rep m k o m' : item u s rep m = TNext k [] (Some o) m' -> run1 u s rep m (Got o (drop k u) m').

Definition root_task : list redisReadTask := [new_task (-1)].

(** All replies. *)
Inductive reads : list Z -> list redisReadTask -> option redisReply -> nat -> list redisReply -> stop -> Prop :=
  | reads_end u s rep m f : run1 u s rep m (Stop f) -> reads u s rep m [] f
  | reads_cons u s rep m o u' m' l f : run1 u s rep m (Got o u' m') -> reads u' root_task None m' l f -> reads u s rep m (o :: l) f.

(** A turn that ends the tasks has the reply; an error is an error. *)
Definition complete (t : turn) : Prop :=
  match t with TNext _ s rep _ => s = [] -> rep <> None | TErr type _ _ => type <> 0 | TMore _ _ => False | TFault _ => True end.

Lemma linked_some stack o reply root : stack <> [] -> link_object stack o reply = Ret root ->
  (if (length stack =? 1)%nat then Some o else root) <> None.
Proof.
  intros Hs El. destruct (Nat.eqb_spec (length stack) 1) as [|Hn]; [done|]. unfold link_object in El. destruct (task_path stack) eqn:Ep.
  - unfold task_path in Ep. apply (f_equal length) in Ep. rewrite length_reverse, length_fmap in Ep. destruct stack as [|? [|? ?]]; done.
  - destruct reply as [r|]; [|done]. destruct (put _ o r); [|done]. by injection El as <-.
Qed.

Lemma complete_object stack reply made obj k :
  (forall o root, link_object stack o reply = Ret root -> complete (k o root)) -> complete (with_object stack reply made obj k).
Proof.
  intros Hk. unfold with_object. destruct (mem made); [|done]. destruct obj as [o|]; [|done]. destruct (link_object stack o reply) as [root|] eqn:El; [|done].
  by apply Hk.
Qed.

Lemma complete_done n stack reply made o root : stack <> [] -> link_object stack o reply = Ret root -> complete (done_turn n stack made o root).
Proof. intros Hs El. unfold done_turn. destruct (moveToNextTask stack); [|done]. intros _. exact (linked_some _ _ _ _ Hs El). Qed.

Lemma typed_facts u stack reply made : stack <> [] -> complete (typed_turn u stack reply made)
  \/ (typed_turn u stack reply made = TMore 0 stack /\ typed_turn [] stack reply made = TMore 0 stack).
Proof.
  intros Hs. pose proof (fun n o root => complete_done n stack reply made o root Hs) as Hd. unfold typed_turn. destruct (_ || _).
  { unfold line_turn. destruct (seekNewline u); [left; apply complete_object; intros; by apply Hd|by right]. }
  destruct (_ =? REDIS_REPLY_STRING).
  { unfold bulk_turn. destruct (seekNewline u); [|by right]. destruct (_ <? 0); [left; apply complete_object; intros; by apply Hd|]. destruct (_ <=? _); [left; apply complete_object; intros; by apply Hd|by right]. }
  destruct (_ =? REDIS_REPLY_ARRAY); [|by left].
  unfold multi_turn. destruct (length stack =? 4)%nat; [by left|]. destruct (seekNewline u); [left|by right].
  destruct (_ =? -1); apply complete_object; intros o root El; [by apply Hd|]. destruct (0 <? _); [done|by apply Hd].
Qed.

Lemma complete_shift n t : complete t -> complete (shift n t).
Proof. by destruct t. Qed.

Lemma item_facts u stack reply made : stack <> [] -> complete (item u stack reply made)
  \/ exists k s, item u stack reply made = TMore k s /\ (k <= length u)%nat /\ s <> [] /\ item [] s reply made = TMore 0 s.
Proof.
  intros Hs. unfold item. destruct (Z.ltb_spec (top_type stack) 0) as [Hneg|Hpos].
  - destruct u as [|c u]; [right; exists 0%nat, stack; by rewrite (proj2 (Z.ltb_lt _ _))|]. destruct (type_of_byte c) as [t|] eqn:Et; [|by left].
    destruct (typed_facts u (retype t stack) reply made) as [Hc|[E1 E2]]; [done|left; by apply complete_shift|].
    right. exists 1%nat, (retype t stack). rewrite E1. split_and!; [done|cbn; lia|done|]. by destruct (top_type (retype t stack) <? 0).
  - destruct (typed_facts u stack reply made Hs) as [Hc|[E1 E2]]; [by left|]. right. exists 0%nat, stack. rewrite E1, (proj2 (Z.ltb_ge _ _)), E2 by done.
    split_and!; [done|lia|done|done].
Qed.

(** ** The calls of the reader *)

(** The reader with the unread bytes, its tasks and its reply. *)
Definition rs (N : Z) (r : redisReader) (u : list Z) (s : list redisReadTask) (rep : option redisReply) (m : nat) : Prop :=
  valid N r /\ (r_err r = 0 /\ r_errstr r = []) /\ unread r = u /\ r_stack r = s /\ r_reply r = rep /\ r_made r = m.

Lemma rs_advance N r u s rep m k s' rep' m' : rs N r u s rep m -> (k <= length u)%nat ->
  rs N (mk_reader (r_err r) (r_errstr r) (r_buf r) (r_pos r + Z.of_nat k) s' rep' m') (drop k u) s' rep' m'.
Proof.
  intros (Hv & [He Hes] & Hu & _) Hk. pose proof (unread_length N r Hv) as Hl. destruct Hv as (b & Eb & Hp & Hb). rewrite <- Hu in *. unfold unread, r_len in *. rewrite Eb in *.
  split_and!; [exists b; cbn; split; [done|lia]|done|done| |done..]. cbn. unfold unread. cbn. rewrite drop_drop. f_equal. lia.
Qed.

Lemma process_items_S n r : r_stack r <> [] ->
  process_items mem (S n) r = '(status, r) ← of_res (processItem mem r); if status =? REDIS_OK then process_items mem n r else Done r.
Proof. intros Hs. cbn [process_items]. by destruct (r_stack r). Qed.

Lemma item_within u s rep m k s' rep' m' : s <> [] -> item u s rep m = TNext k s' rep' m' -> (2 <= k)%nat /\ (k <= length u)%nat.
Proof.
  intros Hs E. destruct (item_extend u [] s rep m Hs) as [(k1 & s2 & E1 & _)|[_ Hw]]; rewrite E in *; [done|]. exact Hw.
Qed.

Lemma process_items_run N r u s rep m g n : rs N r u s rep m -> s <> [] -> run1 u s rep m g -> (length u + 2 <= n)%nat ->
  match g with
  | Got o u' m' => exists r', process_items mem n r = Done r' /\ rs N r' u' [] (Some o) m'
  | Stop (FMore u' s' rep' m') => exists r', process_items mem n r = Done r' /\ rs N r' u' s' rep' m' /\ s' <> []
  | Stop (FErr type str m') => process_items mem n r = Done (mk_reader type (take 127 str) None 0 [] None m') /\ type <> 0
  | Stop (FFault f) => process_items mem n r = Crash f
  end.
Proof.
  intros Hr Hs Hg. revert r n Hr Hs. induction Hg as [u s rep m k s' E|u s rep m type str m' E|u s rep m f E|u s rep m k t s' rep' m' g E _ IH|u s rep m k o m' E];
    intros r n Hr Hs Hn; (destruct n as [|n]; [lia|]); pose proof Hr as (Hv & [He Hes] & Hu & Hst & Hrep & Hm);
    rewrite process_items_S by (by rewrite Hst); rewrite (processItem_turn N r Hv) by (by rewrite Hst); rewrite Hst, Hu, Hrep, Hm, E; cbn [apply_turn of_res mbind outcome_bind].
  - destruct (item_facts u s rep m Hs) as [Hc|(k0 & s1 & E0 & Hk & Hs1 & _)]; rewrite E in *; [done|]. injection E0 as <- <-.
    eexists. split; [done|]. split; [|done]. pose proof (rs_advance N r u s rep m k s' rep m Hr Hk) as Hr'. destruct r. cbn in *. by subst.
  - split; [done|]. destruct (item_facts u s rep m Hs) as [Hc|(k0 & s1 & E0 & _)]; rewrite E in *; done.
  - done.
  - destruct (item_within _ _ _ _ _ _ _ _ Hs E) as [Hk1 Hk2]. apply IH; [|done|rewrite length_drop; lia]. by apply (rs_advance N r u s rep m).
  - destruct (item_within _ _ _ _ _ _ _ _ Hs E) as [Hk1 Hk2]. destruct n as [|n]; [lia|]. eexists. split; [done|]. by apply (rs_advance N r u s rep m).
Qed.

(** Between the calls an empty stack stands for the task of the next reply. *)
Definition waiting (N : Z) (r : redisReader) (u : list Z) (s : list redisReadTask) (rep : option redisReply) (m : nat) : Prop :=
  ((s = root_task /\ rep = None /\ rs N r u [] None m) \/ (s <> [] /\ rs N r u s rep m)) /\ (u = [] -> item [] s rep m = TMore 0 s).

Lemma rs_trim N r u s rep m : rs N r u s rep m -> rs N (trim r) u s rep m.
Proof.
  intros Hr. pose proof Hr as (Hv & [He Hes] & Hu & Hs & Hrep & Hm). unfold trim. destruct (Z.leb_spec 1024 (r_pos r)) as [Hle|]; [|done].
  destruct Hv as (b & Eb & Hp & Hb). unfold unread in Hu. rewrite Eb in *. cbn [fmap option_fmap option_map].
  pose proof (sdsrange_drop b (r_pos r) Hp) as Hd.
  assert (Hlen : sdslen (sdsrange b (r_pos r) (-1)) <= sdslen b) by (unfold sdslen in *; rewrite Hd, length_drop; lia).
  split_and!; [exists (sdsrange b (r_pos r) (-1)); cbn; split; [done|unfold sdslen in *; lia]|done|done| |done..].
  unfold unread. cbn. change (drop (Z.to_nat 0) ?l) with l. by rewrite Hd.
Qed.

Lemma run1_nil s rep m g : item [] s rep m = TMore 0 s -> run1 [] s rep m g -> g = Stop (FMore [] s rep m).
Proof. intros E Hg. inversion Hg; subst; try congruence. rewrite E in *. by simplify_eq. Qed.

Lemma root_waits rep m : item [] root_task rep m = TMore 0 root_task.
Proof. done. Qed.

Lemma stop_waits u s rep m u' s' rep' m' : s <> [] -> run1 u s rep m (Stop (FMore u' s' rep' m')) -> item [] s' rep' m' = TMore 0 s'.
Proof.
  intros Hs Hg. remember (Stop (FMore u' s' rep' m')) as g eqn:Eg. revert Hs Eg. induction Hg as [u s rep m k s1 E| | |u s rep m k t s1 rep1 m1 g E _ IH|]; intros Hs Eg; try done.
  - injection Eg as <- <- <- <-. destruct (item_facts u s rep m Hs) as [Hc|(k0 & s0 & E0 & _ & _ & Hn)]; rewrite E in *; [done|]. by simplify_eq.
  - by apply IH.
Qed.

Definition get_post (N : Z) (g : got) (x : outcome (Z * option redisReply * redisReader)) : Prop :=
  match g with
  | Got o u' m' => exists r', x = Done (REDIS_OK, Some o, r') /\ waiting N r' u' root_task None m'
  | Stop (FMore u' s' rep' m') => exists r', x = Done (REDIS_OK, None, r') /\ waiting N r' u' s' rep' m'
  | Stop (FErr type str m') => exists r', x = Done (REDIS_ERR, None, r') /\ r_err r' = type /\ r_errstr r' = take 127 str /\ type <> 0
  | Stop (FFault f) => x = Crash f
  end.

Lemma getreply_run N r u s rep m g : waiting N r u s rep m -> run1 u s rep m g -> get_post N g (redisReaderGetReply mem r).
Proof.
  intros [Hw Hnil] Hg. assert (Hs : s <> []) by (by destruct Hw as [(-> & _)|[? _]]).
  assert (Hv : valid N r /\ r_err r = 0 /\ unread r = u) by (destruct Hw as [(_ & _ & Hr)|[_ Hr]]; destruct Hr as (? & [? _] & ? & _); done).
  destruct Hv as (Hv & He & Hu). unfold redisReaderGetReply. rewrite He. cbn [negb Z.eqb]. change (negb (0 =? 0)) with false. cbv iota.
  destruct (Z.eqb_spec (r_len r) 0) as [El|El].
  { assert (u = []) as ->.
    { pose proof (unread_length N r Hv) as Hl. destruct Hv as (b & Eb & Hp & _). unfold r_len in *. rewrite Eb in *. rewrite Hu in Hl. destruct u; [done|]. cbn in Hl. lia. }
    rewrite (run1_nil s rep m g (Hnil eq_refl) Hg). exists r. split; [done|]. by split. }
  set (r0 := match r_stack r with [] => _ | _ => _ end).
  assert (Hr0 : rs N r0 u s rep m).
  { destruct Hw as [(-> & -> & Hr)|[_ Hr]]; destruct Hr as (Hv' & [? ?] & ? & Es & ? & ?); unfold r0; rewrite Es.
    - split_and!; done.
    - destruct s; [done|]. done. }
  assert (Hu0 : unread r0 = u) by apply Hr0. unfold items_fuel. rewrite Hu0.
  pose proof (process_items_run N r0 u s rep m g (length u + 2) Hr0 Hs Hg (le_n _)) as Hp.
  destruct g as [o u' m'|[u' s' rep' m'|type str m'|f]]; cbn [get_post].
  - destruct Hp as (r1 & -> & Hr1). cbn [mbind outcome_bind]. apply rs_trim in Hr1 as Hr2. destruct Hr1 as (_ & [He1 _] & _). rewrite He1.
    change (negb (0 =? 0)) with false. cbv iota. pose proof Hr2 as (Hv2 & [He2 Hes2] & Hu2 & Hs2 & Hrep2 & Hm2). rewrite Hs2, Hrep2. eexists. split; [done|].
    split; [|by intros _]. left. split; [done|]. split; [done|]. split_and!; done.
  - destruct Hp as (r1 & -> & Hr1 & Hs'). cbn [mbind outcome_bind]. apply rs_trim in Hr1 as Hr2. destruct Hr1 as (_ & [He1 _] & _). rewrite He1.
    change (negb (0 =? 0)) with false. cbv iota. pose proof Hr2 as (Hv2 & [He2 Hes2] & Hu2 & Hs2 & Hrep2 & Hm2). rewrite Hs2. destruct s' as [|t s']; [done|].
    eexists. split; [done|]. split; [by right|]. intros _. exact (stop_waits _ _ _ _ _ _ _ _ Hs Hg).
  - destruct Hp as [-> Ht]. cbn [mbind outcome_bind r_err]. rewrite (proj2 (Z.eqb_neq _ _) Ht). eexists. split_and!; done.
  - by rewrite Hp.
Qed.

(** ** Every stream is read *)

Lemma run1_total u s rep m : s <> [] -> exists g, run1 u s rep m g.
Proof.
  remember (length u) as n eqn:Hn. revert u s rep m Hn. induction (lt_wf n) as [n _ IH]. intros u s rep m -> Hs.
  destruct (item u s rep m) as [k s'|k s' rep' m'|type str m'|f] eqn:E; [eexists; by apply run1_more| |eexists; by eapply run1_err|eexists; by eapply run1_fault].
  destruct (item_within _ _ _ _ _ _ _ _ Hs E) as [Hk1 Hk2]. destruct s' as [|t s'].
  - destruct (item_facts u s rep m Hs) as [Hc|(? & ? & E0 & _)]; rewrite E in *; [|done]. destruct rep' as [o|]; [|by destruct (Hc eq_refl)].
    eexists. by eapply run1_reply.
  - destruct (IH (length (drop k u))) with (u := drop k u) (s := t :: s') (rep := rep') (m := m') as [g Hg]; [rewrite length_drop; lia|done|done|].
    exists g. by eapply run1_step.
Qed.

Lemma run1_got_shorter u s rep m o u' m' : s <> [] -> run1 u s rep m (Got o u' m') -> (length u' < length u)%nat.
Proof.
  intros Hs Hg. remember (Got o u' m') as g eqn:Eg. revert Hs Eg.
  induction Hg as [| | |u s rep m k t s1 rep1 m1 g E _ IH|u s rep m k o1 m1 E]; intros Hs Eg; try done; destruct (item_within _ _ _ _ _ _ _ _ Hs E) as [Hk1 Hk2].
  - specialize (IH ltac:(done) Eg). rewrite length_drop in IH. lia.
  - injection Eg as <- <- <-. rewrite length_drop. lia.
Qed.

Lemma reads_total u s rep m : s <> [] -> exists l f, reads u s rep m l f.
Proof.
  remember (length u) as n eqn:Hn. revert u s rep m Hn. induction (lt_wf n) as [n _ IH]. intros u s rep m -> Hs.
  destruct (run1_total u s rep m Hs) as [[o u' m'|f] Hg]; [|eexists _, _; by apply reads_end].
  pose proof (run1_got_shorter _ _ _ _ _ _ _ Hs Hg). destruct (IH (length u') ltac:(done) u' root_task None m' eq_refl) as (l & f & Hr); [done|].
  eexists _, _. by eapply reads_cons.
Qed.

(** ** Division into feeds *)

Lemma drop_shift k k' u x : (k <= length u)%nat -> drop (k + k') (u ++ x) = drop k' (drop k u ++ x).
Proof. intros Hk. by rewrite <- drop_drop, drop_app_le. Qed.

(** Bytes that come later are read as if they had been there. *)
Lemma run1_extend u s rep m g x : s <> [] -> run1 u s rep m g ->
  match g with
  | Got o u' m' => run1 (u ++ x) s rep m (Got o (u' ++ x) m')
  | Stop (FMore u' s' rep' m') => s' <> [] /\ forall g', run1 (u' ++ x) s' rep' m' g' -> run1 (u ++ x) s rep m g'
  | Stop _ => run1 (u ++ x) s rep m g
  end.
Proof.
  intros Hs Hg. revert Hs. induction Hg as [u s rep m k s' E|u s rep m type str m' E|u s rep m f E|u s rep m k t s' rep' m' g E Hg IH|u s rep m k o m' E]; intros Hs;
    destruct (item_extend u x s rep m Hs) as [(k1 & s1 & E1 & Hk1 & Hs1 & Ex)|[Ex Hw]]; rewrite E in *; try done.
  - injection E1 as <- <-. split; [done|]. intros g' Hg'. inversion Hg' as [? ? ? ? k2 s2 E2|? ? ? ? type str m2 E2|? ? ? ? f2 E2|? ? ? ? k2 t s2 rep2 m2 g2 E2 Hg2|? ? ? ? k2 o m2 E2]; subst; rewrite E2 in Ex; cbn [shift] in Ex.
    + rewrite <- drop_shift by done. by apply run1_more.
    + by apply run1_err.
    + by apply run1_fault.
    + eapply run1_step; [exact Ex|]. by rewrite drop_shift.
    + rewrite <- drop_shift by done. by apply run1_reply.
  - by apply run1_err.
  - by apply run1_fault.
  - cbn in Hw. assert (Ed : drop k (u ++ x) = drop k u ++ x) by (apply drop_app_le; lia). specialize (IH ltac:(done)).
    destruct g as [o u' m1|[u' s1 rep1 m1|type str m1|f]]; [| |by eapply run1_step; [exact Ex|rewrite Ed]..].
    + eapply run1_step; [exact Ex|]. by rewrite Ed.
    + destruct IH as [Hs1 IH]. split; [done|]. intros g' Hg'. eapply run1_step; [exact Ex|]. rewrite Ed. by apply IH.
  - cbn in Hw. rewrite <- drop_app_le by lia. by apply run1_reply.
Qed.

(** Reading in two parts is reading the whole. *)
Lemma reads_chunks u s rep m l u' s' rep' m' x l2 f : s <> [] -> reads u s rep m l (FMore u' s' rep' m') -> reads (u' ++ x) s' rep' m' l2 f ->
  reads (u ++ x) s rep m (l ++ l2) f.
Proof.
  intros Hs Hr. remember (FMore u' s' rep' m') as f0 eqn:Ef. revert Hs Ef. induction Hr as [u s rep m f1 Hg|u s rep m o u1 m1 l f1 Hg Hr IH]; intros Hs Ef Hx.
  - subst f1. destruct (run1_extend _ _ _ _ _ x Hs Hg) as [Hs' He]. cbn [app]. inversion Hx as [? ? ? ? f2 Hg2|? ? ? ? o2 u2 m2 l3 f2 Hg2 Hr2]; subst.
    + apply reads_end. by apply He.
    + eapply reads_cons; [by apply He|done].
  - cbn [app]. eapply reads_cons; [exact (run1_extend _ _ _ _ _ x Hs Hg)|]. by apply IH.
Qed.

Lemma reads_stops u s rep m l f x : s <> [] -> reads u s rep m l f -> (forall u' s' rep' m', f <> FMore u' s' rep' m') -> reads (u ++ x) s rep m l f.
Proof.
  intros Hs Hr. revert Hs. induction Hr as [u s rep m f Hg|u s rep m o u1 m1 l f Hg Hr IH]; intros Hs Hf.
  - apply reads_end. pose proof (run1_extend _ _ _ _ _ x Hs Hg) as He. destruct f as [u' s' rep' m'| |]; [by destruct (Hf u' s' rep' m')|done|done].
  - eapply reads_cons; [exact (run1_extend _ _ _ _ _ x Hs Hg)|]. by apply IH.
Qed.

Lemma run1_det u s rep m g g' : run1 u s rep m g -> run1 u s rep m g' -> g = g'.
Proof.
  intros Hg. revert g'. induction Hg as [u s rep m k s' E|u s rep m type str m' E|u s rep m f E|u s rep m k t s' rep' m' g E Hg IH|u s rep m k o m' E];
    intros g' Hg'; inversion Hg'; subst; try congruence; try (rewrite E in *; by simplify_eq).
  apply IH. rewrite E in *. by simplify_eq.
Qed.

Lemma reads_det u s rep m l f l' f' : reads u s rep m l f -> reads u s rep m l' f' -> l = l' /\ f = f'.
Proof.
  intros Hr. revert l' f'. induction Hr as [u s rep m f Hg|u s rep m o u1 m1 l f Hg Hr IH]; intros l' f' Hr';
    inversion Hr' as [? ? ? ? f2 Hg2|? ? ? ? o2 u2 m2 l3 f2 Hg2 Hr2]; subst; pose proof (run1_det _ _ _ _ _ _ Hg Hg2) as Eg; simplify_eq; [done|].
  destruct (IH _ _ Hr2) as [-> ->]. done.
Qed.

(** ** A client *)

(** All replies that are there: the calls of [redisReaderGetReply] until it gives [NULL] or an error. *)
Fixpoint get_replies (n : nat) (r : redisReader) : outcome (list redisReply * Z * redisReader) :=
  match n with
  | O => NoFuel
  | S n =>
      '(status, o, r) ← redisReaderGetReply mem r;
      match o with
      | None => Done ([], status, r)
      | Some x => '(l, status, r) ← get_replies n r; Done (x :: l, status, r)
      end
  end.

(** The bytes come in pieces; after each the replies are taken. *)
Fixpoint feed_all (chunks : list (list Z)) (r : redisReader) : outcome (list redisReply * Z * redisReader) :=
  match chunks with
  | [] => Done ([], REDIS_OK, r)
  | c :: chunks =>
      let '(status, r) := redisReaderFeed true r c in
      if status =? REDIS_OK then
        '(l, status, r) ← get_replies (S (length (unread r))) r;
        if status =? REDIS_OK then '(l', status, r) ← feed_all chunks r; Done (l ++ l', status, r) else Done (l, status, r)
      else Done ([], status, r)
  end.

(** The result for replies [l] and the stop [f]. *)
Definition client_post (N : Z) (l : list redisReply) (f : stop) (x : outcome (list redisReply * Z * redisReader)) : Prop :=
  match f with
  | FMore u s rep m => exists r', x = Done (l, REDIS_OK, r') /\ waiting N r' u s rep m /\ item u s rep m = TMore 0 s
  | FErr type str m => exists r', x = Done (l, REDIS_ERR, r') /\ r_err r' = type /\ r_errstr r' = take 127 str
  | FFault f => x = Crash f
  end.

(** Where more bytes are needed, another turn needs them too. *)
Lemma run1_stuck u s rep m u' s' rep' m' : s <> [] -> run1 u s rep m (Stop (FMore u' s' rep' m')) -> item u' s' rep' m' = TMore 0 s'.
Proof.
  intros Hs Hg. remember (Stop (FMore u' s' rep' m')) as g eqn:Eg. revert Hs Eg. induction Hg as [u s rep m k s1 E| | |u s rep m k t s1 rep1 m1 g E _ IH|]; intros Hs Eg; try done.
  - injection Eg as <- <- <- <-. destruct (item_extend u [] s rep m Hs) as [(k1 & s2 & E1 & Hk1 & _ & Ex)|[_ Hw]]; rewrite E in *; [|done]. simplify_eq.
    rewrite !app_nil_r, E in Ex. destruct (item (drop k1 u) s2 rep m) as [k2 s3| | |]; [|done..]. cbn in Ex. injection Ex as E1 ->. do 2 f_equal. lia.
  - by apply IH.
Qed.

Lemma get_replies_reads N r u s rep m l f n : waiting N r u s rep m -> reads u s rep m l f -> (length u < n)%nat -> client_post N l f (get_replies n r).
Proof.
  intros Hw Hr. revert r n Hw. induction Hr as [u s rep m f Hg|u s rep m o u1 m1 l f Hg Hr IH]; intros r n Hw Hn; (destruct n as [|n]; [lia|]); cbn [get_replies];
    assert (Hs : s <> []) by (by destruct Hw as [[(-> & _)|[? _]] _]); pose proof (getreply_run _ _ _ _ _ _ _ Hw Hg) as Hp; cbn [get_post] in Hp.
  - destruct f as [u' s' rep' m'|type str m'|f].
    + destruct Hp as (r' & -> & Hw'). exists r'. split; [done|]. split; [done|]. exact (run1_stuck _ _ _ _ _ _ _ _ Hs Hg).
    + destruct Hp as (r' & -> & H1 & H2 & _). by exists r'.
    + by rewrite Hp.
  - destruct Hp as (r' & -> & Hw'). cbn [mbind outcome_bind]. pose proof (run1_got_shorter _ _ _ _ _ _ _ Hs Hg).
    specialize (IH r' n Hw' ltac:(lia)). destruct f as [u' s' rep' m'|type str m'|f]; cbn [client_post] in *.
    + destruct IH as (r2 & -> & H2). by exists r2.
    + destruct IH as (r2 & -> & H2). by exists r2.
    + by rewrite IH.
Qed.

Lemma feed_waiting N r u s rep m c : waiting N r u s rep m -> N + Z.of_nat (length c) < 2 ^ 62 ->
  exists r', redisReaderFeed true r c = (REDIS_OK, r') /\ waiting (N + Z.of_nat (length c)) r' (u ++ c) s rep m.
Proof.
  intros Hw HN.
  assert (Hr : exists s0 rep0, rs N r u s0 rep0 m /\ ((s = root_task /\ rep = None /\ s0 = [] /\ rep0 = None) \/ (s <> [] /\ s0 = s /\ rep0 = rep))).
  { destruct Hw as [[(-> & -> & Hr)|[Hs Hr]] _]; eexists _, _; (split; [exact Hr|]); [by left|by right]. }
  destruct Hr as (s0 & rep0 & Hr & Hcase). pose proof Hr as ((b & Eb & Hp & Hb) & [He Hes] & Hu & Hst & Hrep & Hm).
  assert (Hgoal : forall r', rs (N + Z.of_nat (length c)) r' (u ++ c) s0 rep0 m -> waiting (N + Z.of_nat (length c)) r' (u ++ c) s rep m).
  { intros r' Hr'. split.
    - destruct Hcase as [(-> & -> & -> & ->)|(Hs & -> & ->)]; [by left|by right].
    - intros [-> ->]%app_eq_nil. destruct Hw as [_ Hn]. by apply Hn. }
  unfold redisReaderFeed. rewrite He. change (negb (0 =? 0)) with false. cbv iota. destruct c as [|x c].
  { exists r. split; [done|]. apply Hgoal. rewrite app_nil_r. cbn [length]. rewrite Z.add_0_r. done. }
  rewrite Eb. unfold r_len. rewrite Eb.
  assert (Hb0 : exists b0 pos0, (if (sdslen b =? 0) && (16 * 1024 <? sdsavail b) then (mk_sds [] 0, 0) else (b, r_pos r)) = (b0, pos0)
    /\ 0 <= pos0 <= sdslen b0 /\ sdslen b0 <= N /\ drop (Z.to_nat pos0) (s_buf b0) = u).
  { unfold unread in Hu. rewrite Eb in Hu. destruct (_ && _) eqn:Ez.
    - apply andb_true_iff in Ez as [Ez%Z.eqb_eq _]. eexists _, _. split; [done|]. split_and!; [done|done|change (sdslen (mk_sds [] 0)) with 0; lia|].
      cbn. rewrite <- Hu. unfold sdslen in *. destruct (s_buf b); [by rewrite !drop_nil|cbn in Ez; lia].
    - eexists _, _. split; [done|]. split_and!; (done || lia). }
  destruct Hb0 as (b0 & pos0 & -> & Hp0 & Hl0 & Hd0). destruct (sdscatlen_ok b0 (x :: c)) as (b1 & -> & Hb1). eexists. split; [done|].
  apply Hgoal. split_and!; [|done|done| |done..].
  - exists b1. cbn [r_buf set_buf r_pos]. split; [done|]. unfold sdslen in *. rewrite Hb1, length_app. lia.
  - unfold unread. cbn [r_buf set_buf r_pos]. rewrite Hb1, drop_app_le by (unfold sdslen in *; lia). by rewrite Hd0.
Qed.

Lemma waiting_weaken N N' r u s rep m : waiting N r u s rep m -> N <= N' < 2 ^ 62 -> waiting N' r u s rep m.
Proof.
  intros [Hw Hn] HN. split; [|done]. destruct Hw as [(-> & -> & (b & Eb & Hp & Hb) & Hr)|(Hs & (b & Eb & Hp & Hb) & Hr)]; [left|right].
  - split; [done|]. split; [done|]. split; [exists b; split; [done|lia]|done].
  - split; [done|]. split; [exists b; split; [done|lia]|done].
Qed.

Lemma feed_all_reads N chunks r u s rep m : waiting N r u s rep m -> item u s rep m = TMore 0 s -> N + Z.of_nat (length (concat chunks)) < 2 ^ 62 ->
  exists N' l f, reads (u ++ concat chunks) s rep m l f /\ client_post N' l f (feed_all chunks r).
Proof.
  revert N r u s rep m. induction chunks as [|c chunks IH]; intros N r u s rep m Hw Hst HN; cbn [feed_all concat].
  { exists N, [], (FMore u s rep m). rewrite app_nil_r. split; [|by exists r]. apply reads_end. by apply (run1_more u s rep m 0 s). }
  assert (Hs : s <> []) by (by destruct Hw as [[(-> & _)|[? _]] _]). cbn [concat] in HN. rewrite length_app in HN.
  destruct (feed_waiting N r u s rep m c Hw) as (r1 & -> & Hw1); [lia|]. change (REDIS_OK =? REDIS_OK) with true. cbv iota.
  assert (Hu1 : unread r1 = u ++ c) by (destruct Hw1 as [[(_ & _ & Hr)|[_ Hr]] _]; apply Hr). rewrite Hu1.
  destruct (reads_total (u ++ c) s rep m Hs) as (l & f & Hr).
  pose proof (get_replies_reads _ _ _ _ _ _ _ _ (S (length (u ++ c))) Hw1 Hr ltac:(lia)) as Hp.
  destruct f as [u' s' rep' m'|type str m'|f]; cbn [client_post] in Hp.
  - destruct Hp as (r2 & -> & Hw2 & Hst2). cbn [mbind outcome_bind]. change (REDIS_OK =? REDIS_OK) with true. cbv iota.
    destruct (IH _ r2 u' s' rep' m' Hw2 Hst2) as (N' & l2 & f2 & Hr2 & Hp2); [lia|]. exists N', (l ++ l2), f2. split.
    + rewrite app_assoc. exact (reads_chunks _ _ _ _ _ _ _ _ _ _ _ _ Hs Hr Hr2).
    + destruct f2 as [u3 s3 rep3 m3|type3 str3 m3|f3]; cbn [client_post] in *; [destruct Hp2 as (r3 & -> & H3); by exists r3..|by rewrite Hp2].
  - exists 0, l, (FErr type str m'). destruct Hp as (r2 & -> & H2). split; [|by exists r2]. rewrite app_assoc. by apply reads_stops.
  - exists 0, l, (FFault f). split; [rewrite app_assoc; by apply reads_stops|]. cbn [client_post]. by rewrite Hp.
Qed.

Lemma waiting_fine N r u s rep m : waiting N r u s rep m -> r_err r = 0 /\ r_errstr r = [].
Proof. intros [[(_ & _ & Hr)|[_ Hr]] _]; apply Hr. Qed.

Lemma create_waiting : waiting 0 redisReaderCreate [] root_task None 0.
Proof. split; [|done]. left. split; [done|]. split; [done|]. split_and!; try done. by exists (mk_sds [] 0). Qed.

(** What a client sees: the replies, the status and the error. *)
Definition client_view (x : outcome (list redisReply * Z * redisReader)) : outcome (list redisReply * Z * Z * list Z) :=
  '(l, status, r) ← x; Done (l, status, r_err r, r_errstr r).
End turns.

(** C12. The division of the bytes into pieces has no effect: for every stream of bytes, right or wrong, and every allocator, a client that
    feeds it to the reader in pieces and takes the replies after each piece gets the same replies, the same status and the
    same error as one that feeds it at once, and runs into the same fault if there is one. *)
Theorem redis_feed_division mem chunks : Z.of_nat (length (concat chunks)) < 2 ^ 62 ->
  client_view (feed_all mem chunks redisReaderCreate) = client_view (feed_all mem [concat chunks] redisReaderCreate).
Proof.
  intros HN. destruct (feed_all_reads mem 0 chunks _ _ _ _ _ (create_waiting mem) eq_refl) as (N1 & l1 & f1 & Hr1 & Hp1); [lia|].
  destruct (feed_all_reads mem 0 [concat chunks] _ _ _ _ _ (create_waiting mem) eq_refl) as (N2 & l2 & f2 & Hr2 & Hp2); [cbn; rewrite app_nil_r; lia|].
  cbn [concat app] in Hr1, Hr2. rewrite app_nil_r in Hr2. destruct (reads_det _ _ _ _ _ _ _ _ _ Hr1 Hr2) as [-> ->].
  destruct f2 as [u s rep m|type str m|f]; cbn [client_post] in *.
  - destruct Hp1 as (r1 & -> & Hw1 & _), Hp2 as (r2 & -> & Hw2 & _). cbn.
    destruct (waiting_fine _ _ _ _ _ _ _ Hw1) as [-> ->], (waiting_fine _ _ _ _ _ _ _ Hw2) as [-> ->]. done.
  - destruct Hp1 as (r1 & -> & H1 & H2), Hp2 as (r2 & -> & H3 & H4). cbn. by rewrite H1, H2, H3, H4.
  - by rewrite Hp1, Hp2.
Qed.

(** An error reply, then a byte that is no type: in pieces of two. *)
Lemma redis_feed_division_witness :
  client_view (feed_all (fun _ => true) [cs "-E"; cs "RR"; [13; 10]; cs "?x"] redisReaderCreate)
  = client_view (feed_all (fun _ => true) [cs "-ERR" ++ [13; 10] ++ cs "?x"] redisReaderCreate).
Proof. apply (redis_feed_division (fun _ => true) [cs "-E"; cs "RR"; [13; 10]; cs "?x"]). vm_compute. reflexivity. Defined.
