(* ===== verification/HiredisReply.v ===== *)
(** * Replies on the wire

    The encoding of the replies of a server: the reader of Hiredis.v gives the objects of these replies, for every division of
    the bytes ([redis_replies_delivered]). *)

From S2P Require Import Prelude CString Session Digits Redirect Sds Hiredis HiredisSpec.

(** ** Replies *)

Local Unset Elimination Schemes.
Inductive resp : Type :=
  | RStatus (s : list Z)
  | RError (s : list Z)
  | RInt (z : Z)
  | RBulk (s : list Z)
  | RNil
  | RNilArray
  | RArray (l : list resp).
Local Set Elimination Schemes.

Lemma resp_ind (P : resp -> Prop) :
  (forall s, P (RStatus s)) -> (forall s, P (RError s)) -> (forall z, P (RInt z)) -> (forall s, P (RBulk s)) -> P RNil -> P RNilArray ->
  (forall l, Forall P l -> P (RArray l)) -> forall j, P j.
Proof.
  intros H1 H2 H3 H4 H5 H6 H7. refine (fix go j := match j with
    | RStatus s => H1 s | RError s => H2 s | RInt z => H3 z | RBulk s => H4 s | RNil => H5 | RNilArray => H6 | RArray l => H7 l _ end).
  induction l as [|j' l IH]; constructor; [apply go|exact IH].
Qed.

Definition crlf : list Z := [13; 10].

(** A decimal number. *)
Definition decimal (z : Z) : list Z := if z <? 0 then ch "-" :: digits_of 20 10 (- z) [] else digits_of 20 10 z [].

Fixpoint enc (j : resp) : list Z :=
  match j with
  | RStatus s => ch "+" :: s ++ crlf
  | RError s => ch "-" :: s ++ crlf
  | RInt z => ch ":" :: decimal z ++ crlf
  | RBulk s => ch "$" :: decimal (Z.of_nat (length s)) ++ crlf ++ s ++ crlf
  | RNil => ch "$" :: decimal (-1) ++ crlf
  | RNilArray => ch "*" :: decimal (-1) ++ crlf
  | RArray l => ch "*" :: decimal (Z.of_nat (length l)) ++ crlf ++ concat (enc <$> l)
  end.

(** The object a client gets. *)
Fixpoint obj_of (j : resp) : redisReply :=
  match j with
  | RStatus s => Reply REDIS_REPLY_STATUS 0 (Z.of_nat (length s)) (Some s) 0 None
  | RError s => Reply REDIS_REPLY_ERROR 0 (Z.of_nat (length s)) (Some s) 0 None
  | RInt z => Reply REDIS_REPLY_INTEGER z 0 None 0 None
  | RBulk s => Reply REDIS_REPLY_STRING 0 (Z.of_nat (length s)) (Some s) 0 None
  | RNil | RNilArray => Reply REDIS_REPLY_NIL 0 0 None 0 None
  | RArray l => Reply REDIS_REPLY_ARRAY 0 0 None (Z.of_nat (length l)) (match l with [] => None | _ => Some ((fun j => Some (obj_of j)) <$> l) end)
  end.

(** Lines without CR, sizes of an [int], integers of a [long long]. *)
Fixpoint resp_okb (j : resp) : bool :=
  match j with
  | RStatus s | RError s => bool_decide (13 ∉ s) && (Z.of_nat (length s) <? 2 ^ 31)
  | RInt z => Z.abs z <? 2 ^ 63
  | RBulk s => Z.of_nat (length s) <? 2 ^ 31
  | RNil | RNilArray => true
  | RArray l => (Z.of_nat (length l) <? 2 ^ 31) && forallb resp_okb l
  end.

(** The nesting of arrays, and the number of objects. *)
Fixpoint depth (j : resp) : nat := match j with RNilArray => 1%nat | RArray l => S (foldr (fun j d => Nat.max (depth j) d) 0%nat l) | _ => 0%nat end.
Fixpoint objects (j : resp) : nat := match j with RArray l => S (sum_list_with objects l) | _ => 1%nat end.

(** ** Lines *)

Lemma seek_crlf s rest : 13 ∉ s -> seekNewline (s ++ crlf ++ rest) = Some (length s).
Proof.
  induction s as [|c s IH]; [done|]. intros [Hc Hs]%not_elem_of_cons. cbn [app seekNewline length]. rewrite (IH Hs).
  destruct (s ++ crlf ++ rest) as [|d t] eqn:E; [by destruct s|]. rewrite (proj2 (Z.eqb_neq c 13)) by done. done.
Qed.

Lemma read_digits_run v ds rest : 0 <= v -> Forall (fun c => is_digit c = true) ds -> run_value v ds < 2 ^ 63 ->
  read_digits v (ds ++ 13 :: rest) = Some (run_value v ds).
Proof.
  intros Hv Hd. revert v Hv. induction Hd as [|c ds Hc Hd IH]; intros v Hv Hb; cbn [app read_digits run_value] in *; [done|].
  unfold is_digit in Hc. apply andb_true_iff in Hc as [?%Z.leb_le ?%Z.leb_le]. pose proof (run_value_ge (v * 10 + (c - 48)) ds ltac:(lia) Hd).
  rewrite (proj2 (Z.eqb_neq c 13)) by lia. rewrite !(proj2 (Z.leb_le _ _)), (proj2 (Z.ltb_lt _ _)) by lia. cbn [andb].
  rewrite (swrap_small 64 (v * 10)), swrap_small by (change (64 - 1) with 63; lia). apply IH; [lia|done].
Qed.

Lemma digits_nocr ds : Forall (fun c => is_digit c = true) ds -> 13 ∉ ds.
Proof. intros Hd Hin. apply (proj1 (Forall_forall _ _) Hd) in Hin. done. Qed.

Lemma readLongLong_decimal z rest : Z.abs z < 2 ^ 63 -> readLongLong (decimal z ++ 13 :: rest) = z /\ 13 ∉ decimal z.
Proof.
  intros Hz. unfold readLongLong, decimal. destruct (Z.ltb_spec z 0).
  - destruct (digits_run 20 (- z) []) as (c & ds & -> & Hd & Hv & _); [lia|lia|]. rewrite app_nil_r. cbn [app]. change (char_at (ch "-" :: _) 0 =? ch "-") with true.
    cbv iota. cbn [tail]. rewrite app_comm_cons, read_digits_run, Hv by (rewrite ?Hv; done || lia). rewrite swrap_small by (change (64 - 1) with 63; lia).
    split; [lia|]. apply not_elem_of_cons. split; [done|]. by apply digits_nocr.
  - destruct (digits_run 20 z []) as (c & ds & -> & Hd & Hv & _); [lia|lia|]. rewrite app_nil_r. cbn [app]. change (char_at (c :: _) 0) with c.
    inversion Hd as [|? ? Hc]. unfold is_digit in Hc. apply andb_true_iff in Hc as [?%Z.leb_le ?%Z.leb_le].
    change (ch "-") with 45. change (ch "+") with 43. rewrite (proj2 (Z.eqb_neq c 45)), (proj2 (Z.eqb_neq c 43)) by lia.
    rewrite app_comm_cons, read_digits_run, Hv by (rewrite ?Hv; done || lia). rewrite swrap_small by (change (64 - 1) with 63; lia).
    split; [lia|]. by apply digits_nocr.
Qed.

(** ** Slots of the tree *)

Lemma set_element_twice l l' r : set_element l (set_element l' r) = set_element l r.
Proof. done. Qed.

(** Writing below an object that was just written is writing the changed object. *)
Lemma put_app p a root root1 i o : put p a root = Ret root1 -> put (p ++ [i]) o root1 = a' ← put [i] o a; put p a' root.
Proof.
  revert root root1. induction p as [|j p IH]; intros root root1 Hp.
  - cbn [put] in Hp. injection Hp as <-. cbn [app]. by destruct (put [i] o a).
  - destruct p as [|k p].
    + cbn [put] in Hp. destruct (rp_type root =? REDIS_REPLY_ARRAY) eqn:Et; [|done]. destruct (rp_element root) as [l|] eqn:El; [|done].
      destruct (_ && _) eqn:Ej; [|done]. injection Hp as <-. apply andb_true_iff in Ej as Ej'. destruct Ej' as [?%Z.leb_le ?%Z.ltb_lt].
      cbn [app]. change (put [j; i] o ?r) with (match rp_element r with None => Fault NullDeref | Some l => match l !! Z.to_nat j with
        | Some (Some c) => c' ← put [i] o c; Ret (set_element (<[Z.to_nat j := Some c']> l) r) | Some None => Fault NullDeref | None => Fault OutOfBounds end end).
      cbn [rp_element set_element]. rewrite list_lookup_insert_eq by lia. destruct (put [i] o a) as [a'|]; [|done]. cbn [mbind res_bind put].
      rewrite Et, El, Ej. by rewrite list_insert_insert_eq.
    + change ((j :: k :: p) ++ [i]) with (j :: (k :: p) ++ [i]).
      assert (Hput : forall q x r, q <> [] -> put (j :: q) x r = match rp_element r with None => Fault NullDeref | Some l => match l !! Z.to_nat j with
        | Some (Some c) => c' ← put q x c; Ret (set_element (<[Z.to_nat j := Some c']> l) r) | Some None => Fault NullDeref | None => Fault OutOfBounds end end).
      { intros q x r Hq. destruct q; [done|]. done. }
      rewrite (Hput (k :: p)) in Hp by done. destruct (rp_element root) as [l|] eqn:El; [|done]. destruct (l !! Z.to_nat j) as [[c|]|] eqn:Ej; [|done..].
      destruct (put (k :: p) a c) as [c1|] eqn:Ec; [|done]. injection Hp as <-. rewrite Hput by done. cbn [rp_element set_element].
      rewrite list_lookup_insert_eq by (by apply lookup_lt_Some in Ej). rewrite (IH c c1 Ec). destruct (put [i] o a) as [a'|]; [|done]. cbn [mbind res_bind].
      rewrite (Hput (k :: p)) by done. rewrite El, Ej. destruct (put (k :: p) a' c); [|done]. cbn [mbind res_bind]. by rewrite set_element_twice, list_insert_insert_eq.
Qed.

(** The reply after an object was made for the current task. *)
Definition rput (s : list redisReadTask) (o : redisReply) (root : option redisReply) : res (option redisReply) :=
  match task_path s with
  | [] => Ret (Some o)
  | p => match root with None => Fault NullDeref | Some r => r' ← put p o r; Ret (Some r') end
  end.

Lemma path_nil s : s <> [] -> task_path s = [] <-> length s = 1%nat.
Proof.
  intros Hs. destruct s as [|t [|t' s]]; [done|done|]. unfold task_path. cbn [removelast]. rewrite fmap_cons, reverse_cons.
  split; [by intros [_ ?]%app_eq_nil|done].
Qed.

Lemma path_idx t t' rest : t_idx t = t_idx t' -> task_path (t :: rest) = task_path (t' :: rest).
Proof. intros E. unfold task_path. destruct rest as [|t1 rest]; [done|]. cbn [removelast]. by rewrite !fmap_cons, E. Qed.

Lemma path_push t t' rest : task_path (t :: t' :: rest) = task_path (t' :: rest) ++ [t_idx t].
Proof. unfold task_path. cbn [removelast]. by rewrite fmap_cons, reverse_cons. Qed.

Lemma move_idx t t' rest : t_idx t = t_idx t' -> moveToNextTask (t :: rest) = moveToNextTask (t' :: rest).
Proof. intros E. cbn [moveToNextTask]. destruct rest; [done|]. by rewrite E. Qed.

Lemma rput_idx t t' rest o root : t_idx t = t_idx t' -> rput (t :: rest) o root = rput (t' :: rest) o root.
Proof. intros E. unfold rput. by rewrite (path_idx t t'). Qed.

(** The slot of a child of the array that is in the slot of the task. *)
Lemma rput_child t t' rest a root root1 o : rput (t' :: rest) a root = Ret root1 ->
  rput (t :: t' :: rest) o root1 = a' ← put [t_idx t] o a; rput (t' :: rest) a' root.
Proof.
  unfold rput. rewrite path_push. destruct (task_path (t' :: rest)) as [|j p].
  - intros [= <-]. cbn [app]. done.
  - destruct root as [r|]; [|by intros]. intros E. destruct (put (j :: p) a r) as [r1|] eqn:Ep; [|done]. cbn [mbind res_bind] in E. injection E as <-.
    cbn [app]. rewrite app_comm_cons, (put_app _ _ _ _ _ _ Ep). by destruct (put [t_idx t] o a).
Qed.

(** ** Reading a reply *)

Section reading.
Variable mem : nat -> bool.
Hypothesis Hmem : forall i, mem i = true.

Definition istate : Type := list Z * list redisReadTask * option redisReply * nat.

Definition istep (a b : istate) : Prop :=
  let '(u, s, rep, m) := a in s <> [] /\ exists k s' rep' m', item mem u s rep m = TNext k s' rep' m' /\ b = (drop k u, s', rep', m').

Lemma istep_run u s rep m u' o m' : s <> [] -> rtc istep (u, s, rep, m) (u', [], Some o, m') -> run1 mem u s rep m (Got o u' m').
Proof.
  intros Hs Hr. remember (u, s, rep, m) as a eqn:Ea. remember (u', [] : list redisReadTask, Some o, m') as b eqn:Eb.
  revert u s rep m Hs Ea. induction Hr as [a|a a1 b Hst Hr IH]; intros u s rep m Hs ->; [by simplify_eq|].
  destruct Hst as (_ & k & s' & rep' & m1 & E & ->). destruct s' as [|t s'].
  - inversion Hr as [|? ? ? Hst]; subst; [simplify_eq; by apply run1_reply|]. by destruct Hst.
  - eapply run1_step; [exact E|]. by apply IH.
Qed.

Lemma object_linked s o root root' m k : s <> [] -> rput s o root = Ret root' ->
  exists root0, with_object mem s root m (Ret o) k = k o root0 /\ (if (length s =? 1)%nat then Some o else root0) = root'.
Proof.
  intros Hs Hp. unfold with_object. rewrite Hmem. unfold rput in Hp. unfold link_object. pose proof (path_nil s Hs) as Hn.
  destruct (task_path s) as [|i p].
  - rewrite (proj1 Hn eq_refl). injection Hp as <-. by eexists.
  - rewrite Hp. eexists. split; [done|]. destruct (Nat.eqb_spec (length s) 1) as [E|E]; [by apply Hn in E|done].
Qed.

Lemma object_turn s o root root' s' n m : s <> [] -> rput s o root = Ret root' -> moveToNextTask s = Ret s' ->
  with_object mem s root m (Ret o) (done_turn n s m) = TNext n s' root' (S m).
Proof. intros Hs Hp Hm. destruct (object_linked s o root root' m (done_turn n s m) Hs Hp) as (r0 & -> & <-). unfold done_turn. by rewrite Hm. Qed.

(** The first bytes of a reply give its type; the rest is read with it. *)
Lemma item_typed c t u idx rest root m k s' rep' m' : type_of_byte c = Some t ->
  typed_turn mem u (mk_task t (-1) idx :: rest) root m = TNext k s' rep' m' ->
  istep (c :: u, new_task idx :: rest, root, m) (drop k u, s', rep', m').
Proof.
  intros Ht E. split; [done|]. exists (S k), s', rep', m'. split; [|done]. unfold item. cbn [top_type t_type new_task]. change (-1 <? 0) with true. cbv iota.
  rewrite Ht. change (retype t (new_task idx :: rest)) with (mk_task t (-1) idx :: rest). by rewrite E.
Qed.

Context (idx : Z) (rest : list redisReadTask) (root : option redisReply) (s' : list redisReadTask).
Hypothesis Hmove : moveToNextTask (new_task idx :: rest) = Ret s'.

Lemma scalar_turn t o root' n m : rput (new_task idx :: rest) o root = Ret root' ->
  with_object mem (mk_task t (-1) idx :: rest) root m (Ret o) (done_turn n (mk_task t (-1) idx :: rest) m) = TNext n s' root' (S m).
Proof. intros Hp. apply object_turn; [done| |]; [by rewrite <- Hp; apply rput_idx|by rewrite <- Hmove; apply move_idx]. Qed.

Lemma drop_line n (l u : list Z) : n = length l -> drop n (l ++ u) = u.
Proof. intros ->. by rewrite drop_app_length. Qed.

Lemma step_line (c t : Z) s o root' u m : type_of_byte c = Some t -> t = REDIS_REPLY_STATUS \/ t = REDIS_REPLY_ERROR \/ t = REDIS_REPLY_INTEGER ->
  13 ∉ s -> (if t =? REDIS_REPLY_INTEGER then Ret (createIntegerObject (readLongLong (s ++ crlf ++ u))) else createStringObject t (s ++ crlf ++ u) (Z.of_nat (length s))) = Ret o ->
  rput (new_task idx :: rest) o root = Ret root' -> istep (c :: s ++ crlf ++ u, new_task idx :: rest, root, m) (u, s', root', S m).
Proof.
  intros Hc Ht Hs Ho Hp.
  assert (E : typed_turn mem (s ++ crlf ++ u) (mk_task t (-1) idx :: rest) root m = TNext (length s + 2) s' root' (S m)).
  { unfold typed_turn. cbn [top_type t_type].
    replace ((t =? REDIS_REPLY_ERROR) || (t =? REDIS_REPLY_STATUS) || (t =? REDIS_REPLY_INTEGER)) with true by (destruct Ht as [->|[->| ->]]; done).
    unfold line_turn. rewrite seek_crlf by done. cbn [top_type t_type]. rewrite Ho. by apply scalar_turn. }
  pose proof (item_typed c t _ idx rest root m _ _ _ _ Hc E) as H. rewrite app_assoc, drop_line in H by (by rewrite length_app). by rewrite app_assoc.
Qed.

Lemma step_nil c t root' u m : type_of_byte c = Some t -> t = REDIS_REPLY_STRING \/ t = REDIS_REPLY_ARRAY /\ (length rest < 3)%nat ->
  rput (new_task idx :: rest) createNilObject root = Ret root' -> istep (c :: decimal (-1) ++ crlf ++ u, new_task idx :: rest, root, m) (u, s', root', S m).
Proof.
  intros Hc Ht Hp. destruct (readLongLong_decimal (-1) (10 :: u)) as [Hr Hn]; [done|].
  assert (E : typed_turn mem (decimal (-1) ++ crlf ++ u) (mk_task t (-1) idx :: rest) root m = TNext (length (decimal (-1)) + 2) s' root' (S m)).
  { unfold typed_turn. cbn [top_type t_type]. destruct Ht as [->|[-> Hd]].
    - change (_ || _ || _) with false. cbv iota. change (REDIS_REPLY_STRING =? REDIS_REPLY_STRING) with true. cbv iota.
      unfold bulk_turn. rewrite seek_crlf by done. change (crlf ++ u) with (13 :: 10 :: u). rewrite Hr. change (-1 <? 0) with true. cbv iota. by apply scalar_turn.
    - change (_ || _ || _) with false. cbv iota. change (REDIS_REPLY_ARRAY =? REDIS_REPLY_STRING) with false. change (REDIS_REPLY_ARRAY =? REDIS_REPLY_ARRAY) with true. cbv iota.
      unfold multi_turn. cbn [length]. rewrite (proj2 (Nat.eqb_neq _ 4)) by lia. rewrite seek_crlf by done. change (crlf ++ u) with (13 :: 10 :: u). rewrite Hr. by apply scalar_turn. }
  pose proof (item_typed c t _ idx rest root m _ _ _ _ Hc E) as H. rewrite app_assoc, drop_line in H by (by rewrite length_app). by rewrite app_assoc.
Qed.

Lemma step_bulk s root' u m : Z.of_nat (length s) < 2 ^ 31 -> rput (new_task idx :: rest) (obj_of (RBulk s)) root = Ret root' ->
  istep (enc (RBulk s) ++ u, new_task idx :: rest, root, m) (u, s', root', S m).
Proof.
  intros Hs Hp. destruct (readLongLong_decimal (Z.of_nat (length s)) (10 :: s ++ crlf ++ u)) as [Hr Hn]; [lia|].
  change (13 :: 10 :: s ++ crlf ++ u) with (crlf ++ s ++ crlf ++ u) in Hr. cbn [enc app]. rewrite <- !app_assoc. set (d := decimal _) in *.
  assert (E : typed_turn mem (d ++ crlf ++ s ++ crlf ++ u) (mk_task REDIS_REPLY_STRING (-1) idx :: rest) root m = TNext (length d + 2 + length s + 2) s' root' (S m)).
  { unfold typed_turn. cbn [top_type t_type]. change (_ || _ || _) with false. cbv iota. change (REDIS_REPLY_STRING =? REDIS_REPLY_STRING) with true. cbv iota.
    unfold bulk_turn. rewrite seek_crlf, Hr by done.
    rewrite (proj2 (Z.ltb_ge _ _)) by lia. rewrite (proj2 (Z.leb_le _ _)) by (rewrite !length_app; cbn [length crlf]; lia).
    rewrite (app_assoc d), drop_line by (rewrite length_app; done).
    cbn [top_type t_type]. unfold createStringObject. change (_ || _ || _) with true. cbv iota. rewrite Nat2Z.id, take_app_length, swrap_small by (change (32 - 1) with 31; lia).
    by apply scalar_turn. }
  pose proof (item_typed (ch "$") _ _ idx rest root m _ _ _ _ eq_refl E) as H.
  replace (drop _ _) with u in H; [exact H|]. replace (d ++ crlf ++ s ++ crlf ++ u) with ((d ++ crlf ++ s ++ crlf) ++ u) by (by rewrite <- !app_assoc).
  symmetry. apply drop_line. rewrite !length_app. cbn [length crlf]. lia.
Qed.

(** The bytes of an array: its header, and the object with no elements is made. *)
Lemma array_turn n u m : (length rest < 3)%nat -> 0 <= n < 2 ^ 31 ->
  typed_turn mem (decimal n ++ crlf ++ u) (mk_task REDIS_REPLY_ARRAY (-1) idx :: rest) root m =
  with_object mem (mk_task REDIS_REPLY_ARRAY (-1) idx :: rest) root m (Ret (createArrayObject n)) (fun o root' =>
    if 0 <? n then TNext (length (decimal n) + 2) (new_task 0 :: mk_task REDIS_REPLY_ARRAY n idx :: rest)
                     (if (length (mk_task REDIS_REPLY_ARRAY (-1) idx :: rest) =? 1)%nat then Some o else root') (S m)
    else done_turn (length (decimal n) + 2) (mk_task REDIS_REPLY_ARRAY (-1) idx :: rest) m o root').
Proof.
  intros Hd Hn. destruct (readLongLong_decimal n (10 :: u)) as [Hr Hcr]; [lia|]. change (13 :: 10 :: u) with (crlf ++ u) in Hr.
  unfold typed_turn. cbn [top_type t_type]. change (_ || _ || _) with false. cbv iota.
  change (REDIS_REPLY_ARRAY =? REDIS_REPLY_STRING) with false. change (REDIS_REPLY_ARRAY =? REDIS_REPLY_ARRAY) with true. cbv iota.
  unfold multi_turn. cbn [length]. rewrite (proj2 (Nat.eqb_neq _ 4)) by lia. rewrite seek_crlf, Hr by done.
  rewrite (proj2 (Z.eqb_neq _ _)) by lia. rewrite swrap_small by (change (32 - 1) with 31; lia). done.
Qed.

Lemma step_array n root1 u m : (length rest < 3)%nat -> 0 < n < 2 ^ 31 -> rput (new_task idx :: rest) (createArrayObject n) root = Ret root1 ->
  istep (ch "*" :: decimal n ++ crlf ++ u, new_task idx :: rest, root, m) (u, new_task 0 :: mk_task REDIS_REPLY_ARRAY n idx :: rest, root1, S m).
Proof.
  intros Hd Hn Hp. pose proof (array_turn n u m Hd ltac:(lia)) as E. rewrite (proj2 (Z.ltb_lt 0 n)) in E by lia.
  rewrite (rput_idx _ (mk_task REDIS_REPLY_ARRAY (-1) idx)) in Hp by done.
  match type of E with _ = with_object _ _ _ _ _ ?k => destruct (object_linked (mk_task REDIS_REPLY_ARRAY (-1) idx :: rest) _ _ _ m k ltac:(done) Hp) as (r0 & Ek & Er) end.
  rewrite Ek, Er in E. pose proof (item_typed (ch "*") _ _ idx rest root m _ _ _ _ eq_refl E) as H.
  rewrite app_assoc, drop_line in H by (by rewrite length_app). by rewrite app_assoc.
Qed.

Lemma step_empty root' u m : (length rest < 3)%nat -> rput (new_task idx :: rest) (obj_of (RArray [])) root = Ret root' ->
  istep (enc (RArray []) ++ u, new_task idx :: rest, root, m) (u, s', root', S m).
Proof.
  intros Hd Hp. pose proof (array_turn 0 u m Hd ltac:(lia)) as E. change (0 <? 0) with false in E. cbv iota in E.
  rewrite (scalar_turn _ (createArrayObject 0) root' _ m Hp) in E. exact (item_typed (ch "*") _ _ idx rest root m _ _ _ _ eq_refl E).
Qed.
End reading.

(** ** Arrays *)

(** An array of [n] slots whose first ones are filled. *)
Definition partial (n : nat) (l : list resp) : redisReply :=
  Reply REDIS_REPLY_ARRAY 0 0 None (Z.of_nat n) (Some (((fun j => Some (obj_of j)) <$> l) ++ replicate (n - length l) None)).

Lemma partial_0 n : (0 < n)%nat -> Z.of_nat n < 2 ^ 31 -> createArrayObject (Z.of_nat n) = partial n [].
Proof.
  intros Hn Hb. unfold createArrayObject, partial. rewrite wrap_small, (proj2 (Z.ltb_lt _ _)) by lia. cbn [fmap list_fmap app length]. by rewrite Nat2Z.id, Nat.sub_0_r.
Qed.

Lemma partial_put n l o : (length l < n)%nat ->
  put [Z.of_nat (length l)] o (partial n l) =
  Ret (Reply REDIS_REPLY_ARRAY 0 0 None (Z.of_nat n) (Some (((fun j => Some (obj_of j)) <$> l) ++ Some o :: replicate (n - S (length l)) None))).
Proof.
  intros Hl. cbn [put partial rp_type rp_element]. change (REDIS_REPLY_ARRAY =? REDIS_REPLY_ARRAY) with true. cbv iota.
  rewrite length_app, length_fmap, length_replicate, (proj2 (Z.leb_le _ _)), (proj2 (Z.ltb_lt _ _)) by lia. cbn [andb]. unfold set_element. cbn. do 3 f_equal.
  rewrite Nat2Z.id, insert_app_r_alt, length_fmap, Nat.sub_diag by (by rewrite length_fmap). by replace (n - length l)%nat with (S (n - S (length l))) by lia.
Qed.

Lemma partial_next n l j : (length l < n)%nat -> put [Z.of_nat (length l)] (obj_of j) (partial n l) = Ret (partial n (l ++ [j])).
Proof. intros Hl. rewrite partial_put by done. unfold partial. by rewrite fmap_app, <- app_assoc, length_app, Nat.add_1_r. Qed.

Lemma partial_full l : l <> [] -> partial (length l) l = obj_of (RArray l).
Proof. intros Hl. unfold partial. rewrite Nat.sub_diag, app_nil_r. by destruct l. Qed.

Section replies.
Variable mem : nat -> bool.
Hypothesis Hmem : forall i, mem i = true.

(** The bytes of a reply fill the slot of the current task. *)
Definition read_ok (j : resp) : Prop := forall idx rest root root' s' u m,
  (length rest + depth j <= 3)%nat -> moveToNextTask (new_task idx :: rest) = Ret s' ->
  (forall o, exists r, rput (new_task idx :: rest) o root = Ret r) -> rput (new_task idx :: rest) (obj_of j) root = Ret root' ->
  rtc (istep mem) (enc j ++ u, new_task idx :: rest, root, m) (u, s', root', (m + objects j)%nat).

Definition max_depth (l : list resp) : nat := foldr (fun j d => Nat.max (depth j) d) 0%nat l.

Lemma read_elements idx rest root root' s' n l2 : Forall read_ok l2 -> (length rest + S (max_depth l2) <= 3)%nat ->
  moveToNextTask (mk_task REDIS_REPLY_ARRAY (Z.of_nat n) idx :: rest) = Ret s' ->
  (forall o, exists r, rput (mk_task REDIS_REPLY_ARRAY (Z.of_nat n) idx :: rest) o root = Ret r) ->
  forall l1 rk u m, l2 <> [] -> (length l1 + length l2)%nat = n ->
  rput (mk_task REDIS_REPLY_ARRAY (Z.of_nat n) idx :: rest) (partial n l1) root = Ret rk ->
  rput (mk_task REDIS_REPLY_ARRAY (Z.of_nat n) idx :: rest) (partial n (l1 ++ l2)) root = Ret root' ->
  rtc (istep mem) (concat (enc <$> l2) ++ u, new_task (Z.of_nat (length l1)) :: mk_task REDIS_REPLY_ARRAY (Z.of_nat n) idx :: rest, rk, m)
    (u, s', root', (m + sum_list_with objects l2)%nat).
Proof.
  intros Hall Hd Hmove Hslot. induction Hall as [|j l2 Hj Hall IH]; intros l1 rk u m Hne Hn Hk Hroot; [done|].
  cbn [max_depth foldr length] in *. fold (max_depth l2) in Hd.
  destruct (Hslot (partial n (l1 ++ [j]))) as (rk' & Hk').
  assert (Hput : forall o, rput (new_task (Z.of_nat (length l1)) :: mk_task REDIS_REPLY_ARRAY (Z.of_nat n) idx :: rest) o rk
    = a' ← put [Z.of_nat (length l1)] o (partial n l1); rput (mk_task REDIS_REPLY_ARRAY (Z.of_nat n) idx :: rest) a' root).
  { intros o. exact (rput_child (new_task (Z.of_nat (length l1))) _ _ _ _ _ o Hk). }
  assert (Hslot' : forall o, exists r, rput (new_task (Z.of_nat (length l1)) :: mk_task REDIS_REPLY_ARRAY (Z.of_nat n) idx :: rest) o rk = Ret r).
  { intros o. rewrite Hput, partial_put by lia. apply Hslot. }
  assert (Hthis : rput (new_task (Z.of_nat (length l1)) :: mk_task REDIS_REPLY_ARRAY (Z.of_nat n) idx :: rest) (obj_of j) rk = Ret rk').
  { rewrite Hput, partial_next by lia. exact Hk'. }
  rewrite fmap_cons. cbn [concat sum_list_with]. rewrite <- app_assoc, Nat.add_assoc. etrans.
  - apply (Hj _ _ _ rk' (if decide (l2 = []) then s' else new_task (Z.of_nat (length (l1 ++ [j]))) :: mk_task REDIS_REPLY_ARRAY (Z.of_nat n) idx :: rest));
      [cbn [length]; lia| |exact Hslot'|exact Hthis].
    cbn [moveToNextTask new_task t_idx t_type t_elements]. change (negb (REDIS_REPLY_ARRAY =? REDIS_REPLY_ARRAY)) with false. cbv iota.
    rewrite length_app. cbn [length]. destruct (decide (l2 = [])) as [->|Hl2].
    + cbn [length] in Hn. rewrite (proj2 (Z.eqb_eq _ _)) by lia. exact Hmove.
    + destruct l2; [done|]. cbn [length] in Hn. rewrite (proj2 (Z.eqb_neq _ _)), (proj2 (Z.ltb_lt _ _)) by lia. by rewrite Nat2Z.inj_add.
  - destruct (decide (l2 = [])) as [->|Hl2].
    + cbn. rewrite Nat.add_0_r. rewrite Hk' in Hroot. injection Hroot as ->. apply rtc_refl.
    + apply IH; [lia|done|rewrite length_app; cbn; lia|exact Hk'|by rewrite <- app_assoc].
Qed.

Lemma resp_reads j : resp_okb j = true -> read_ok j.
Proof.
  induction j as [s|s|z|s| | |l IH] using resp_ind; intros Hok idx rest root root' s' u m Hd Hmove Hslot Hp; cbn [resp_okb] in Hok;
    cbn [objects]; rewrite ?Nat.add_1_r; cbn [depth] in Hd.
  - apply andb_true_iff in Hok as [?%bool_decide_eq_true ?%Z.ltb_lt]. apply rtc_once. cbn [enc app]. rewrite <- app_assoc.
    eapply (step_line mem Hmem _ _ _ _ Hmove _ REDIS_REPLY_STATUS); [done|by left|done| |exact Hp]. unfold createStringObject. cbn.
    by rewrite Nat2Z.id, take_app_length, swrap_small by (change (32 - 1) with 31; lia).
  - apply andb_true_iff in Hok as [?%bool_decide_eq_true ?%Z.ltb_lt]. apply rtc_once. cbn [enc app]. rewrite <- app_assoc.
    eapply (step_line mem Hmem _ _ _ _ Hmove _ REDIS_REPLY_ERROR); [done|by right; left|done| |exact Hp]. unfold createStringObject. cbn.
    by rewrite Nat2Z.id, take_app_length, swrap_small by (change (32 - 1) with 31; lia).
  - apply Z.ltb_lt in Hok. apply rtc_once. cbn [enc app]. rewrite <- app_assoc. destruct (readLongLong_decimal z (10 :: u) Hok) as [Hr Hcr].
    eapply (step_line mem Hmem _ _ _ _ Hmove _ REDIS_REPLY_INTEGER); [done|by right; right|done| |exact Hp]. cbn [app crlf]. by rewrite Hr.
  - apply Z.ltb_lt in Hok. apply rtc_once. by apply (step_bulk mem Hmem _ _ _ _ Hmove).
  - apply rtc_once. exact (step_nil mem Hmem _ _ _ _ Hmove (ch "$") _ _ u m eq_refl (or_introl eq_refl) Hp).
  - apply rtc_once. eapply (step_nil mem Hmem _ _ _ _ Hmove (ch "*") _ _ u m eq_refl); [|exact Hp]. right. split; [done|].
    lia.
  - apply andb_true_iff in Hok as [Hn%Z.ltb_lt Hl]. assert (Hall : Forall read_ok l).
    { clear -IH Hl. induction IH as [|j l Hj IHl IH]; cbn [forallb] in Hl; [done|]. apply andb_true_iff in Hl as [? ?]. constructor; auto. }
    destruct l as [|j0 l0] eqn:El; [apply rtc_once; cbn [sum_list_with]; rewrite Nat.add_1_r; apply (step_empty mem Hmem _ _ _ _ Hmove); [lia|exact Hp]|]. rewrite <- El in *.
    assert (Hne : l <> []) by (by rewrite El). assert (Hlen : (0 < length l)%nat) by (rewrite El; cbn; lia). clear El j0 l0.
    destruct (Hslot (partial (length l) [])) as (r1 & Hr1). eapply rtc_l.
    + cbn [enc app]. rewrite <- !app_assoc. apply (step_array mem Hmem idx rest root (Z.of_nat (length l)) r1); [lia|lia|]. by rewrite partial_0.
    + replace (m + S (sum_list_with objects l))%nat with (S m + sum_list_with objects l)%nat by lia.
      apply (read_elements idx rest root root' s' (length l) l Hall Hd Hmove) with (l1 := []); [|done|done|rewrite <- Hr1; by apply rput_idx|].
      * intros o. destruct (Hslot o) as (r & Hr). exists r. rewrite <- Hr. by apply rput_idx.
      * cbn [app]. rewrite partial_full by done. rewrite <- Hp. by apply rput_idx.
Qed.

(** A stream of replies. *)
Lemma stream_reads rs m : Forall (fun j => resp_okb j = true /\ (depth j <= 3)%nat) rs ->
  exists m', reads mem (concat (enc <$> rs)) root_task None m (obj_of <$> rs) (FMore [] root_task None m').
Proof.
  intros Hrs. revert m. induction Hrs as [|j rs [Hok Hd] _ IH]; intros m.
  - exists m. apply reads_end. exact (run1_more mem [] root_task None m 0 root_task eq_refl).
  - destruct (IH (m + objects j)%nat) as (m' & Hr). exists m'. rewrite !fmap_cons. eapply reads_cons; [|exact Hr].
    apply istep_run; [done|]. apply (resp_reads j Hok); [done|done|by eexists|done].
Qed.
End replies.

(** C13. The replies of a server arrive: whatever the network does to the bytes of a sequence of replies (status lines, errors,
    integers of a [long long], strings of any bytes, nil, and arrays of replies nested three deep, elements in
    order), a client that feeds the pieces to the reader as they come gets exactly these replies in their order, with no error,
    and the reader is left with no bytes and no task. *)
Theorem redis_replies_delivered mem rs chunks : (forall i, mem i = true) ->
  Forall (fun j => resp_okb j = true /\ (depth j <= 3)%nat) rs -> concat chunks = concat (enc <$> rs) ->
  Z.of_nat (length (concat chunks)) < 2 ^ 62 ->
  exists r', feed_all mem chunks redisReaderCreate = Done (obj_of <$> rs, REDIS_OK, r') /\ r_err r' = 0 /\ unread r' = [].
Proof.
  intros Hmem Hrs Hch HN. destruct (feed_all_reads mem 0 chunks _ _ _ _ _ (create_waiting mem) eq_refl) as (N & l & f & Hr & Hp); [lia|].
  cbn [app] in Hr. rewrite Hch in Hr. destruct (stream_reads mem Hmem rs 0 Hrs) as (m' & Hr').
  destruct (reads_det _ _ _ _ _ _ _ _ _ Hr Hr') as [-> ->]. cbn [client_post] in Hp. destruct Hp as (r' & -> & Hw & _). exists r'.
  destruct (waiting_fine _ _ _ _ _ _ _ Hw) as [He _]. split_and!; [done|done|]. destruct Hw as [[(_ & _ & Hw)|[_ Hw]] _]; apply Hw.
Qed.

(** A nested array with every kind of reply, and an integer, in pieces of five bytes. *)
Definition sample_replies : list resp :=
  [RArray [RStatus (cs "OK"); RArray [RBulk [13; 10; 0]; RNil; RArray []; RArray [RInt (-42)]]; RError (cs "ERR x")]; RInt 7].

Fixpoint pieces (n : nat) (u : list Z) : list (list Z) := match n, u with S n, _ :: _ => take 5 u :: pieces n (drop 5 u) | _, _ => [] end.

Lemma redis_replies_delivered_witness :
  exists r', feed_all (fun _ => true) (pieces 100 (concat (enc <$> sample_replies))) redisReaderCreate = Done (obj_of <$> sample_replies, REDIS_OK, r')
    /\ r_err r' = 0 /\ unread r' = [].
Proof.
  apply (redis_replies_delivered (fun _ => true) sample_replies).
  - done.
  - apply (bool_decide_unpack _). vm_compute. exact I.
  - vm_compute. reflexivity.
  - vm_compute. reflexivity.
Defined.

(** ** Replies that no server should send *)

(** An array of 2^32 elements: the count is positive as a [long long] and 0 as an [int], so that there is no vector, and the first element is written
    through [NULL].  A negative count other than -1 gives an array with a huge number of elements and no vector. *)
Lemma array_count_truncated :
  feed_all (fun _ => true) [cs "*4294967296" ++ crlf ++ cs ":1" ++ crlf] redisReaderCreate = Crash NullDeref /\
  exists r', feed_all (fun _ => true) [cs "*-2" ++ crlf] redisReaderCreate = Done ([Reply REDIS_REPLY_ARRAY 0 0 None (2 ^ 64 - 2) None], REDIS_OK, r').
Proof. split; [vm_compute; reflexivity|eexists; vm_compute; reflexivity]. Qed.
