(* ===== verification/HiredisCommand.v ===== *)
(** * Commands of hiredis

    packages/redis/hiredis.c: the formatting of commands, from an array of arguments and from a format like that of
    [printf].  The command is built in a buffer of [totlen + 1] bytes; a write behind its end is a fault, and so is a
    variable argument that is missing or of another type.  The n-th allocation succeeds when [mem n]; a command that
    fails is [(-1, None)].  What the [printf] of the library prints for one conversion is the parameter
    [printf]. *)

From S2P Require Import Prelude CString Session Digits Redirect Sds Hiredis HiredisSpec HiredisReply.

(** ** Lengths *)

(** The loop of [intlen]; an [int] has at most ten digits. *)
Fixpoint intlen_loop (n : nat) (len i : Z) : Z :=
  match n with
  | O => len
  | S n => let i := Z.quot i 10 in if i =? 0 then len + 1 else intlen_loop n (len + 1) i
  end.
Definition intlen (i : Z) : Z := if i <? 0 then intlen_loop 10 1 (swrap 32 (- i)) else intlen_loop 10 0 i.

Definition bulklen (len : Z) : Z := wrap 64 (1 + intlen (swrap 32 len) + 2 + len + 2).

(** [totlen += bulklen(len)], an [int]. *)
Definition add_bulklen (totlen len : Z) : Z := swrap 32 (wrap 64 (totlen + bulklen len)).

(** ** The buffer *)

(** Bytes behind those that are there; [sprintf] writes a NUL too. *)
Definition emit (cap : Z) (nul : bool) (cmd s : list Z) : res (list Z) :=
  if Z.of_nat (length cmd + length s) + (if nul then 1 else 0) <=? cap then Ret (cmd ++ s) else Fault OutOfBounds.

Definition fmt_zu (n : Z) : list Z := digits_of 20 10 (wrap 64 n) [].

(** [len] bytes at a pointer. *)
Definition read_bytes (arg : list Z) (len : Z) : res (list Z) :=
  if (0 <=? len) && (len <=? Z.of_nat (length arg)) then Ret (take (Z.to_nat len) arg) else Fault OutOfBounds.

Fixpoint emit_args (cap : Z) (cmd : list Z) (args : list (list Z * Z)) : res (list Z) :=
  match args with
  | [] => Ret cmd
  | (arg, len) :: args =>
      cmd ← emit cap true cmd (ch "$" :: fmt_zu len ++ crlf);
      s ← read_bytes arg len;
      cmd ← emit cap false cmd s;
      cmd ← emit cap false cmd [13];
      cmd ← emit cap false cmd [10];
      emit_args cap cmd args
  end.

(** The command for [totlen] bytes: [assert(pos == totlen)]. *)
Definition build_command (ok : bool) (totlen : Z) (args : list (list Z * Z)) : res (Z * option (list Z)) :=
  if ok then
    let cap := wrap 64 (swrap 32 (totlen + 1)) in
    cmd ← emit cap true [] (ch "*" :: fmt_d (Z.of_nat (length args)) ++ crlf);
    cmd ← emit_args cap cmd args;
    if Z.of_nat (length cmd) =? totlen then Ret (totlen, Some cmd) else Fault AssertFail
  else Ret (-1, None).

(** ** Arguments of an array *)

(** [argvlen ? argvlen[j] : strlen(argv[j])] for every argument. *)
Definition arg_lens (argv : list (list Z)) (argvlen : option (list Z)) : res (list (list Z * Z)) :=
  match argvlen with
  | None => Ret ((fun a => (a, Z.of_nat (strlen a))) <$> argv)
  | Some l => if (length argv <=? length l)%nat then Ret (zip argv l) else Fault OutOfBounds
  end.

Definition redisFormatCommandArgv (ok : bool) (argv : list (list Z)) (argvlen : option (list Z)) : res (Z * option (list Z)) :=
  args ← arg_lens argv argvlen;
  let totlen := fold_left (fun t a => add_bulklen t (snd a)) args (1 + intlen (Z.of_nat (length argv)) + 2) in
  build_command ok totlen args.

(** ** Arguments of a format *)

(** The variable arguments; a double by its bits. *)
Inductive vararg : Type :=
  | VPtr (s : list Z)
  | VSize (n : Z)
  | VInt (z : Z)
  | VLong (z : Z)
  | VLongLong (z : Z)
  | VDouble (bits : Z).

Inductive vkind : Set := KInt | KLong | KLongLong | KDouble.

Definition kind_of (a : vararg) : option vkind :=
  match a with VInt _ => Some KInt | VLong _ => Some KLong | VLongLong _ => Some KLongLong | VDouble _ => Some KDouble | _ => None end.

#[export] Instance vkind_eq_dec : EqDecision vkind.
Proof. solve_decision. Defined.

(** [strchr(s, c) != NULL]: the NUL at the end is a character of the string. *)
Definition has_chr (s : list Z) (c : Z) : bool := (c =? 0) || bool_decide (c ∈ s).
Definition intfmts : list Z := cs "diouxX".

Definition skip1 (x : Z) (p : list Z) : list Z := match p with c :: p' => if c =? x then p' else p | [] => p end.
Fixpoint skip_digits (p : list Z) : list Z := match p with c :: p' => if is_digit c then skip_digits p' else p | [] => p end.
Definition skip_precision (p : list Z) : list Z := match p with c :: p' => if c =? ch "." then skip_digits p' else p | [] => p end.

(** Flags, width and precision. *)
Definition skip_modifiers (p : list Z) : list Z :=
  skip_precision (skip_digits (skip1 (ch "+") (skip1 (ch " ") (skip1 (ch "-") (skip1 (ch "0") (skip1 (ch "#") p)))))).

(** A conversion after a size. *)
Definition sized (k : vkind) (p : list Z) : option (vkind * list Z) :=
  if negb (char_at p 0 =? 0) && has_chr intfmts (char_at p 0) then Some (k, p) else None.

(** The type of the argument, and the place of the conversion character; [None] for [fmt_invalid]. *)
Definition conversion (p : list Z) : option (vkind * list Z) :=
  if has_chr intfmts (char_at p 0) then Some (KInt, p)
  else if has_chr (cs "eEfFgGaA") (char_at p 0) then Some (KDouble, p)
  else if (char_at p 0 =? ch "h") && (char_at p 1 =? ch "h") then sized KInt (drop 2 p)
  else if char_at p 0 =? ch "h" then sized KInt (drop 1 p)
  else if (char_at p 0 =? ch "l") && (char_at p 1 =? ch "l") then sized KLongLong (drop 2 p)
  else if char_at p 0 =? ch "l" then sized KLong (drop 1 p)
  else None.

(** The arguments so far, the current one, whether it was touched, their length, the variable arguments, and the
    number of allocations. *)
Record fmt_state := mk_fmt {
  f_argv : list sds;
  f_cur : sds;
  f_touched : bool;
  f_totlen : Z;
  f_ap : list vararg;
  f_mem : nat
}.

Section format.
Variable mem : nat -> bool.
Variable printf : list Z -> vararg -> list Z.

(** The current argument is put in the array: [None] when [realloc] fails. *)
Definition push_arg (st : fmt_state) : option fmt_state :=
  if mem (f_mem st) then
    Some (mk_fmt (f_argv st ++ [f_cur st]) (f_cur st) (f_touched st) (add_bulklen (f_totlen st) (sdslen (f_cur st))) (f_ap st) (S (f_mem st)))
  else None.

Definition set_cur_arg (s : sds) (touched : bool) (ap : list vararg) (st : fmt_state) : fmt_state :=
  mk_fmt (f_argv st) s touched (f_totlen st) ap (S (f_mem st)).

(** The result of a turn: where the format goes on, and the state; [None] for [goto err]. *)
Definition fmt_result : Type := outcome (option (list Z * fmt_state)).

(** [newarg] is checked and becomes the current argument. *)
Definition touch (newarg : option sds) (c : list Z) (ap : list vararg) (st : fmt_state) : fmt_result :=
  match newarg with None => Done None | Some s => Done (Some (c, set_cur_arg s true ap st)) end.

(** [if (size > 0) newarg = sdscatlen(curarg,arg,size);] *)
Definition cat_arg (bytes : list Z) (st : fmt_state) : option sds :=
  match bytes with [] => Some (f_cur st) | _ => sdscatlen (mem (f_mem st)) (f_cur st) bytes end.

(** A conversion of [printf]; [c] is at the percent sign.  The copy of the conversion has 16 bytes: a longer one is not
    printed, and its text goes on as the format. *)
Definition fmt_printf (c : list Z) (st : fmt_state) : fmt_result :=
  match conversion (skip_modifiers (tail c)) with
  | None => Done None
  | Some (k, p) =>
      match f_ap st with
      | a :: ap =>
          if bool_decide (kind_of a = Some k) then
            let l := Z.of_nat (length c) - Z.of_nat (length p) + 1 in
            if l <? 14 then
              newarg ← sdscatvprintf 32 (mem (f_mem st)) (f_cur st) (printf (take (Z.to_nat l) c) a);
              match newarg, p with
              | None, _ => Done None
              | Some _, [] => Crash OutOfBounds
              | Some s, _ :: c' => Done (Some (c', set_cur_arg s true ap st))
              end
            else Done (Some (drop 2 c, set_cur_arg (f_cur st) true ap st))
          else Crash OutOfBounds
      | [] => Crash OutOfBounds
      end
  end.

(** One turn of the loop over the format. *)
Definition fmt_turn (c : list Z) (st : fmt_state) : fmt_result :=
  if negb (char_at c 0 =? ch "%") || (char_at c 1 =? 0) then
    if char_at c 0 =? ch " " then
      if f_touched st then
        match push_arg st with
        | None => Done None
        | Some st => match sdsempty (mem (f_mem st)) with None => Done None | Some s => Done (Some (tail c, set_cur_arg s false (f_ap st) st)) end
        end
      else Done (Some (tail c, st))
    else touch (sdscatlen (mem (f_mem st)) (f_cur st) (take 1 c)) (tail c) (f_ap st) st
  else if char_at c 1 =? ch "s" then
    match f_ap st with
    | VPtr arg :: ap => touch (cat_arg (take (strlen arg) arg) st) (drop 2 c) ap st
    | _ => Crash OutOfBounds
    end
  else if char_at c 1 =? ch "b" then
    match f_ap st with
    | VPtr arg :: VSize size :: ap => bytes ← of_res (read_bytes arg size); touch (cat_arg bytes st) (drop 2 c) ap st
    | _ => Crash OutOfBounds
    end
  else if char_at c 1 =? ch "%" then touch (sdscat (mem (f_mem st)) (f_cur st) (cs "%")) (drop 2 c) (f_ap st) st
  else fmt_printf c st.

Fixpoint fmt_loop (n : nat) (c : list Z) (st : fmt_state) : outcome (option fmt_state) :=
  match n with
  | O => NoFuel
  | S n =>
      match c with
      | [] => Done (Some st)
      | _ => r ← fmt_turn c st; match r with None => Done None | Some (c, st) => fmt_loop n c st end
      end
  end.

(** Each turn takes at least a character of the format. *)
Definition redisvFormatCommand (format : list Z) (ap : list vararg) : outcome (Z * option (list Z)) :=
  match sdsempty (mem 0) with
  | None => Done (-1, None)
  | Some curarg =>
      r ← fmt_loop (S (length format)) format (mk_fmt [] curarg false 0 ap 1);
      match r with
      | None => Done (-1, None)
      | Some st =>
          match (if f_touched st then push_arg st else Some st) with
          | None => Done (-1, None)
          | Some st =>
              let totlen := swrap 32 (f_totlen st + (1 + intlen (Z.of_nat (length (f_argv st))) + 2)) in
              of_res (build_command (mem (f_mem st)) totlen ((fun s => (s_buf s, sdslen s)) <$> f_argv st))
          end
      end
  end.
End format.

(** ** Lengths are lengths *)

Lemma digits_fuel n m i acc : 0 <= i < 10 ^ Z.of_nat n -> (0 < n <= m)%nat -> digits_of m 10 i acc = digits_of n 10 i acc.
Proof.
  revert m i acc. induction n as [|n IH]; intros m i acc Hi Hm; [lia|]. destruct m as [|m]; [lia|]. cbn [digits_of].
  destruct (Z.eqb_spec (i / 10) 0) as [E|E]; [done|]. rewrite Nat2Z.inj_succ, Z.pow_succ_r in Hi by lia.
  assert (0 <= i / 10 < 10 ^ Z.of_nat n) by (split; [apply Z.div_pos; lia|apply Z.div_lt_upper_bound; lia]).
  destruct n as [|n]; [cbn in *; lia|]. apply IH; [done|lia].
Qed.

Lemma intlen_digits n len i acc : 0 <= i < 10 ^ Z.of_nat n -> (0 < n)%nat ->
  intlen_loop n len i = len + Z.of_nat (length (digits_of n 10 i acc)) - Z.of_nat (length acc).
Proof.
  revert len i acc. induction n as [|n IH]; intros len i acc Hi Hn; [lia|]. cbn [digits_of intlen_loop]. rewrite Z.quot_div_nonneg by lia.
  destruct (Z.eqb_spec (i / 10) 0) as [E|E]; [cbn [length]; lia|]. rewrite Nat2Z.inj_succ, Z.pow_succ_r in Hi by lia.
  assert (0 <= i / 10 < 10 ^ Z.of_nat n) by (split; [apply Z.div_pos; lia|apply Z.div_lt_upper_bound; lia]).
  destruct n as [|n]; [cbn in *; lia|]. match goal with |- context [digits_of _ 10 (i / 10) ?a] => rewrite (IH _ _ a) by (done || lia) end. cbn [length]. lia.
Qed.

Lemma intlen_decimal z : 0 <= z < 2 ^ 31 -> intlen z = Z.of_nat (length (decimal z)).
Proof.
  intros Hz. unfold intlen, decimal. rewrite (proj2 (Z.ltb_ge z 0)) by lia. rewrite (digits_fuel 10 20) by (lia || (change (10 ^ Z.of_nat 10) with 10000000000; lia)).
  rewrite (intlen_digits 10 0 z []) by (lia || (change (10 ^ Z.of_nat 10) with 10000000000; lia)). cbn [length]. lia.
Qed.

Lemma fmt_d_decimal z : 0 <= z < 2 ^ 31 -> fmt_d z = decimal z.
Proof.
  intros Hz. unfold fmt_d, decimal. rewrite (proj2 (Z.ltb_ge z 0)) by lia.
  by rewrite (digits_fuel 10 20) by (lia || (change (10 ^ Z.of_nat 10) with 10000000000; lia)).
Qed.

Lemma fmt_zu_decimal z : 0 <= z < 2 ^ 31 -> fmt_zu z = decimal z.
Proof. intros Hz. unfold fmt_zu, decimal. by rewrite wrap_small, (proj2 (Z.ltb_ge z 0)) by lia. Qed.

(** The bytes of the arguments, in the command. *)
Definition bulks (l : list (list Z)) : list Z := concat ((fun a => enc (RBulk a)) <$> l).

Lemma bulk_length a : Z.of_nat (length a) < 2 ^ 31 -> bulklen (Z.of_nat (length a)) = Z.of_nat (length (enc (RBulk a))).
Proof.
  intros Ha. unfold bulklen. rewrite swrap_small by (change (32 - 1) with 31; lia). rewrite intlen_decimal by lia. cbn [enc length]. rewrite !length_app.
  destruct (digits_run 20 (Z.of_nat (length a)) []) as (c & ds & Ed & _); [lia|lia|].
  assert (length (decimal (Z.of_nat (length a))) <= 20)%nat.
  { unfold decimal. rewrite (proj2 (Z.ltb_ge _ 0)) by lia. clear. generalize (Z.of_nat (length a)). intros z.
    enough (H : forall n z acc, (length (digits_of n 10 z acc) <= n + length acc)%nat) by (specialize (H 20%nat z []); cbn [length] in H; lia).
    clear. induction n as [|n IH]; intros z acc; [cbn; lia|]. cbn [digits_of]. destruct (_ =? 0); [cbn [length]; lia|].
    etrans; [apply IH|]. cbn [length]. lia. }
  cbn [length crlf]. rewrite wrap_small; lia.
Qed.

Lemma bulks_length l : length (bulks l) = sum_list_with (fun a => length (enc (RBulk a))) l.
Proof. unfold bulks. induction l as [|a l IH]; [done|]. rewrite fmap_cons. cbn [concat sum_list_with]. by rewrite length_app, IH. Qed.

Lemma bulk_ge a : (length a + 5 <= length (enc (RBulk a)))%nat.
Proof. cbn [enc length]. rewrite !length_app. cbn [length crlf]. lia. Qed.

Lemma bulks_ge l : (length l <= length (bulks l))%nat.
Proof. rewrite bulks_length. induction l as [|a l IH]; cbn [length sum_list_with]; [lia|]. pose proof (bulk_ge a). lia. Qed.

Lemma enc_command (l : list (list Z)) : enc (RArray (RBulk <$> l)) = ch "*" :: decimal (Z.of_nat (length l)) ++ crlf ++ bulks l.
Proof. cbn [enc]. rewrite length_fmap. unfold bulks. by rewrite <- list_fmap_compose. Qed.

Lemma command_length (l : list (list Z)) :
  Z.of_nat (length (enc (RArray (RBulk <$> l)))) = 1 + Z.of_nat (length (decimal (Z.of_nat (length l)))) + 2 + Z.of_nat (length (bulks l)).
Proof. rewrite enc_command. cbn [length]. rewrite !length_app. cbn [length crlf]. lia. Qed.

Lemma emit_fits cap (nul : bool) cmd s : Z.of_nat (length cmd + length s) + (if nul then 1 else 0) <= cap -> emit cap nul cmd s = Ret (cmd ++ s).
Proof. intros H. unfold emit. by rewrite (proj2 (Z.leb_le _ _) H). Qed.

(** The value of an argument with its length. *)
Definition arg_value (a : list Z * Z) : list Z := take (Z.to_nat (snd a)) (fst a).
Definition arg_ok (a : list Z * Z) : Prop := 0 <= snd a <= Z.of_nat (length (fst a)) /\ snd a < 2 ^ 31.

Lemma arg_value_length a : arg_ok a -> Z.of_nat (length (arg_value a)) = snd a.
Proof. intros [Ha _]. unfold arg_value. rewrite length_take. lia. Qed.

Lemma emit_args_ok cap args : Forall arg_ok args -> forall cmd, Z.of_nat (length cmd + length (bulks (arg_value <$> args))) + 1 <= cap ->
  emit_args cap cmd args = Ret (cmd ++ bulks (arg_value <$> args)).
Proof.
  induction 1 as [|[arg len] args Ha _ IH]; intros cmd Hc; [by cbn; rewrite app_nil_r|]. cbn [emit_args].
  pose proof (arg_value_length _ Ha) as Hl. destruct Ha as [Ha Ha']. cbn [fst snd] in *.
  assert (Hb : bulks (arg_value <$> (arg, len) :: args) = (ch "$" :: fmt_zu len ++ crlf) ++ arg_value (arg, len) ++ [13] ++ [10] ++ bulks (arg_value <$> args)).
  { unfold bulks at 1. rewrite !fmap_cons. cbn [concat enc]. rewrite Hl, fmt_zu_decimal by lia. cbn [app]. by rewrite <- !app_assoc. }
  rewrite Hb in *. rewrite !length_app in Hc. cbn [length] in Hc.
  rewrite emit_fits by (cbn [length]; lia). cbn [mbind res_bind]. unfold read_bytes. rewrite !(proj2 (Z.leb_le _ _)) by lia. cbn [andb mbind res_bind].
  change (take (Z.to_nat len) arg) with (arg_value (arg, len)).
  rewrite emit_fits by (rewrite !length_app; cbn [length]; lia). cbn [mbind res_bind]. rewrite emit_fits by (rewrite !length_app; cbn [length]; lia). cbn [mbind res_bind].
  rewrite emit_fits by (rewrite !length_app; cbn [length]; lia). cbn [mbind res_bind].
  rewrite IH by (rewrite !length_app; cbn [length]; lia). f_equal. by rewrite <- !app_assoc.
Qed.

(** The buffer is exactly as long as the command. *)
Lemma build_command_ok args totlen : Forall arg_ok args -> totlen = Z.of_nat (length (enc (RArray (RBulk <$> (arg_value <$> args))))) ->
  totlen < 2 ^ 31 - 1 -> build_command true totlen args = Ret (totlen, Some (enc (RArray (RBulk <$> (arg_value <$> args))))).
Proof.
  intros Ha -> Hb. set (l := arg_value <$> args) in *. rewrite enc_command in *. unfold build_command.
  assert (Hn : length args = length l) by (unfold l; by rewrite length_fmap). rewrite Hn.
  cbn [length] in *. rewrite !length_app in *. cbn [length crlf] in *.
  assert (Hlen : Z.of_nat (length l) < 2 ^ 31).
  { pose proof (bulks_ge l). lia. }
  rewrite swrap_small, wrap_small, fmt_d_decimal by (try change (32 - 1) with 31; lia).
  rewrite emit_fits by (cbn [length]; rewrite length_app; cbn [length crlf]; lia). cbn [mbind res_bind].
  rewrite emit_args_ok; [|done|]; fold l.
  - cbn [mbind res_bind app]. rewrite (proj2 (Z.eqb_eq _ _)); [by rewrite <- app_assoc|]. cbn [length]. rewrite !length_app. cbn [length crlf]. lia.
  - cbn [app length]. rewrite !length_app. cbn [length crlf]. lia.
Qed.

(** The sum of the lengths. *)
Lemma totlen_sum args t : Forall arg_ok args -> 0 <= t -> t + Z.of_nat (length (bulks (arg_value <$> args))) < 2 ^ 31 ->
  fold_left (fun t a => add_bulklen t (snd a)) args t = t + Z.of_nat (length (bulks (arg_value <$> args))).
Proof.
  intros Ha. revert t. induction Ha as [|a args Ha _ IH]; intros t Ht Hb; cbn [fold_left]; [cbn; lia|].
  rewrite fmap_cons in *. rewrite bulks_length in *. cbn [sum_list_with] in *. rewrite <- bulks_length in *. pose proof (arg_value_length a Ha) as Hl.
  rewrite <- Hl. unfold add_bulklen. rewrite bulk_length by (rewrite Hl; apply Ha).
  rewrite wrap_small, swrap_small by (try change (32 - 1) with 31; lia). rewrite IH; lia.
Qed.

(** A command that fits has arguments that fit. *)
Lemma command_args l (a : list Z) : Z.of_nat (length (enc (RArray (RBulk <$> l)))) < 2 ^ 31 - 1 -> a ∈ l -> Z.of_nat (length a) < 2 ^ 31.
Proof.
  rewrite enc_command. cbn [length]. rewrite !length_app, bulks_length. intros Hb Ha. enough (length a <= sum_list_with (fun a => length (enc (RBulk a))) l)%nat by lia.
  clear Hb. induction Ha as [a l|a b l Ha IH]; cbn [sum_list_with]; [|lia]. pose proof (bulk_ge a). lia.
Qed.

Lemma command_resp l : Z.of_nat (length (enc (RArray (RBulk <$> l)))) < 2 ^ 31 - 1 -> resp_okb (RArray (RBulk <$> l)) = true /\ (depth (RArray (RBulk <$> l)) <= 3)%nat.
Proof.
  intros Hb. split.
  - cbn [resp_okb]. rewrite length_fmap. apply andb_true_iff. split.
    + apply Z.ltb_lt. rewrite enc_command in Hb. cbn [length] in Hb. rewrite !length_app in Hb.
      pose proof (bulks_ge l). lia.
    + apply forallb_forall. intros j Hj%list_elem_of_In. apply list_elem_of_fmap in Hj as (a & -> & Ha). cbn [resp_okb]. apply Z.ltb_lt. by eapply command_args.
  - cbn [depth]. enough (foldr (fun j d => Nat.max (depth j) d) 0%nat (RBulk <$> l) = 0%nat) by lia. clear Hb. induction l as [|a l IH]; [done|]. rewrite fmap_cons. exact IH.
Qed.

(** The arguments of an array, and their lengths. *)
Lemma format_argv argv argvlen args : arg_lens argv argvlen = Ret args ->
  Forall (fun a => 0 <= snd a <= Z.of_nat (length (fst a))) args -> Z.of_nat (length (enc (RArray (RBulk <$> (arg_value <$> args))))) < 2 ^ 31 - 1 ->
  redisFormatCommandArgv true argv argvlen =
    Ret (Z.of_nat (length (enc (RArray (RBulk <$> (arg_value <$> args))))), Some (enc (RArray (RBulk <$> (arg_value <$> args))))).
Proof.
  intros Hl Hr Hb.
  assert (Ha : Forall arg_ok args).
  { apply Forall_forall. intros a Ha. pose proof (proj1 (Forall_forall _ _) Hr a Ha) as Hx. cbn beta in Hx. split; [done|].
    pose proof (command_args _ (arg_value a) Hb ltac:(by apply list_elem_of_fmap_2)) as Hv.
    unfold arg_value in Hv. rewrite length_take in Hv. lia. }
  assert (Hlen : length argv = length args).
  { destruct argvlen as [lens|]; cbn in Hl; [|injection Hl as <-; by rewrite length_fmap]. destruct (Nat.leb_spec (length argv) (length lens)); [|done].
    injection Hl as <-. rewrite length_zip_with. lia. }
  unfold redisFormatCommandArgv. rewrite Hl. cbn [mbind res_bind]. rewrite Hlen.
  pose proof (command_length (arg_value <$> args)) as Hcl. rewrite length_fmap in Hcl. pose proof (bulks_ge (arg_value <$> args)) as Hge. rewrite length_fmap in Hge.
  rewrite totlen_sum, intlen_decimal by (rewrite ?intlen_decimal; done || lia).
  rewrite <- build_command_ok by (done || lia). f_equal. lia.
Qed.

(** Arguments with their exact lengths. *)
Definition lengths (l : list (list Z)) : list Z := (fun a => Z.of_nat (length a)) <$> l.

Lemma format_exact l : Z.of_nat (length (enc (RArray (RBulk <$> l)))) < 2 ^ 31 - 1 ->
  redisFormatCommandArgv true l (Some (lengths l)) = Ret (Z.of_nat (length (enc (RArray (RBulk <$> l)))), Some (enc (RArray (RBulk <$> l)))).
Proof.
  intros Hb. assert (Hval : arg_value <$> zip l (lengths l) = l).
  { clear. unfold lengths. induction l as [|a l IH]; [done|]. rewrite fmap_cons. cbn [zip zip_with]. rewrite fmap_cons. unfold arg_value at 1. cbn [fst snd].
    by rewrite Nat2Z.id, firstn_all; f_equal. }
  pose proof (format_argv l (Some (lengths l)) (zip l (lengths l))) as Hf. rewrite Hval in Hf. apply Hf; [| |done].
  - cbn [arg_lens]. unfold lengths. by rewrite length_fmap, (proj2 (Nat.leb_le _ _)) by lia.
  - clear. unfold lengths. induction l as [|a l IH]; [by constructor|]. rewrite fmap_cons. constructor; [cbn; lia|exact IH].
Qed.

(** ** Formats *)

(** A piece of a format: text, [%s], [%b], [%%], or a conversion of [printf]. *)
Inductive frag : Type :=
  | FLit (s : list Z)
  | FStr (s : list Z)
  | FBin (s : list Z)
  | FPct
  | FConv (spec : list Z) (a : vararg).

Definition frag_fmt (f : frag) : list Z :=
  match f with FLit s => s | FStr _ => cs "%s" | FBin _ => cs "%b" | FPct => cs "%%" | FConv spec _ => ch "%" :: spec end.
Definition frag_args (f : frag) : list vararg :=
  match f with FLit _ | FPct => [] | FStr s => [VPtr s] | FBin s => [VPtr s; VSize (Z.of_nat (length s))] | FConv _ a => [a] end.

(** Text without spaces and percent signs; a conversion that fits in the copy and has its type. *)
Definition frag_okb (f : frag) : bool :=
  match f with
  | FLit s => negb (bool_decide (s = [])) && forallb (fun c => negb (c =? 0) && negb (c =? ch "%") && negb (c =? ch " ")) s
  | FStr s => bool_decide (0 ∉ s)
  | FBin _ | FPct => true
  | FConv spec a =>
      bool_decide (0 ∉ spec) && (length spec <=? 12)%nat && forallb (fun c => negb (char_at spec 0 =? c)) (cs "sb%")
      && match conversion (skip_modifiers spec) with Some (k, [_]) => bool_decide (kind_of a = Some k) | _ => false end
  end.

(** *** A conversion ends where it ends *)

Lemma skip1_app x p r : skip1 x p <> [] -> skip1 x (p ++ r) = skip1 x p ++ r.
Proof. destruct p as [|c p]; [done|]. cbn. by destruct (c =? x). Qed.

Lemma skip_digits_app p r : skip_digits p <> [] -> skip_digits (p ++ r) = skip_digits p ++ r.
Proof. induction p as [|c p IH]; [done|]. cbn. by destruct (is_digit c); [apply IH|]. Qed.

Lemma skip_precision_app p r : skip_precision p <> [] -> skip_precision (p ++ r) = skip_precision p ++ r.
Proof. destruct p as [|c p]; [done|]. cbn [skip_precision app]. by destruct (c =? ch "."); [apply skip_digits_app|]. Qed.

Lemma skip1_nil x p : p = [] -> skip1 x p = [].
Proof. by intros ->. Qed.

Lemma skip_modifiers_app p r : skip_modifiers p <> [] -> skip_modifiers (p ++ r) = skip_modifiers p ++ r.
Proof.
  unfold skip_modifiers. intros H.
  assert (H6 : skip_digits (skip1 (ch "+") (skip1 (ch " ") (skip1 (ch "-") (skip1 (ch "0") (skip1 (ch "#") p))))) <> []) by (by intros E; rewrite E in H).
  assert (H5 : skip1 (ch "+") (skip1 (ch " ") (skip1 (ch "-") (skip1 (ch "0") (skip1 (ch "#") p)))) <> []) by (by intros E; rewrite E in H6).
  assert (H4 : skip1 (ch " ") (skip1 (ch "-") (skip1 (ch "0") (skip1 (ch "#") p))) <> []) by (by intros E; rewrite E in H5).
  assert (H3 : skip1 (ch "-") (skip1 (ch "0") (skip1 (ch "#") p)) <> []) by (by intros E; rewrite E in H4).
  assert (H2 : skip1 (ch "0") (skip1 (ch "#") p) <> []) by (by intros E; rewrite E in H3).
  assert (H1 : skip1 (ch "#") p <> []) by (by intros E; rewrite E in H2).
  by rewrite !skip1_app, skip_digits_app, skip_precision_app.
Qed.

Lemma conversion_app p r k x : x <> 0 -> conversion p = Some (k, [x]) -> conversion (p ++ r) = Some (k, x :: r).
Proof.
  intros Hx. unfold conversion, sized.
  destruct p as [|a [|b [|c [|d p]]]]; [done| | | |]; cbn [app drop]; unfold char_at; cbn [lookup list_lookup default];
    repeat case_match; intros E; simplify_eq/=; congruence.
Qed.

(** *** Turns shorten the format *)

Lemma skip1_suffix x p : skip1 x p `suffix_of` p.
Proof. destruct p as [|c p]; [done|]. cbn. destruct (c =? x); [by apply suffix_cons_r|done]. Qed.

Lemma skip_digits_suffix p : skip_digits p `suffix_of` p.
Proof. induction p as [|c p IH]; [done|]. cbn. destruct (is_digit c); [by apply suffix_cons_r|done]. Qed.

Lemma skip_precision_suffix p : skip_precision p `suffix_of` p.
Proof. destruct p as [|c p]; [done|]. cbn [skip_precision]. destruct (c =? ch "."); [apply suffix_cons_r, skip_digits_suffix|done]. Qed.

Lemma skip_modifiers_suffix p : skip_modifiers p `suffix_of` p.
Proof. unfold skip_modifiers. etrans; [apply skip_precision_suffix|]. etrans; [apply skip_digits_suffix|]. repeat (etrans; [apply skip1_suffix|]). done. Qed.

Lemma drop_suffix n (p : list Z) : drop n p `suffix_of` p.
Proof. exists (take n p). by rewrite take_drop. Qed.

Lemma conversion_suffix p k q : conversion p = Some (k, q) -> q `suffix_of` p.
Proof. unfold conversion, sized. repeat case_match; intros E; simplify_eq; apply drop_suffix || done. Qed.

Section formats.
Variable mem : nat -> bool.
Variable printf : list Z -> vararg -> list Z.

Definition fstep (a b : list Z * fmt_state) : Prop := fst a <> [] /\ fmt_turn mem printf (fst a) (snd a) = Done (Some b).

Lemma touch_done newarg c ap st c' st' : touch newarg c ap st = Done (Some (c', st')) -> c' = c.
Proof. destruct newarg; [|done]. cbn. by intros [= <- _]. Qed.

Lemma fstep_shorter c st c' st' : fstep (c, st) (c', st') -> (length c' < length c)%nat.
Proof.
  intros [Hne E]. cbn [fst snd] in *. destruct c as [|x c]; [done|]. unfold fmt_turn in E.
  assert (Hc : negb (char_at (x :: c) 0 =? ch "%") || (char_at (x :: c) 1 =? 0) = false -> (0 < length c)%nat).
  { intros [_ H]%orb_false_iff. destruct c; [done|cbn; lia]. }
  destruct (negb _ || _); [|specialize (Hc eq_refl)].
  - destruct (_ =? ch " "); [|apply touch_done in E as ->; cbn [tail length]; lia]. destruct (f_touched st); [|injection E as <- _; cbn; lia].
    destruct (push_arg mem st) as [st1|]; [|done]. destruct (sdsempty _); [|done]. injection E as <- _. cbn. lia.
  - destruct (_ =? ch "s").
    { destruct (f_ap st) as [|[] ap]; try done. apply touch_done in E as ->. cbn [drop length]. rewrite length_drop. lia. }
    destruct (_ =? ch "b").
    { destruct (f_ap st) as [|[] [|[] ap]]; try done. destruct (read_bytes _ _) as [bytes|]; [|done]. apply touch_done in E as ->. cbn [drop length]. rewrite length_drop. lia. }
    destruct (char_at (x :: c) 1 =? ch "%"); [apply touch_done in E as ->; cbn [drop length]; rewrite length_drop; lia|].
    unfold fmt_printf in E. cbn [tail] in E. destruct (conversion _) as [[k p]|] eqn:Ek; [|done]. apply conversion_suffix, suffix_length in Ek. pose proof (suffix_length _ _ (skip_modifiers_suffix c)).
    destruct (f_ap st) as [|a ap]; [done|]. destruct (bool_decide _); [|done]. destruct (_ <? 14).
    + destruct (sdscatvprintf _ _ _ _) as [[s|]| |]; [|done..]. destruct p as [|y p]; [done|]. injection E as <- _. cbn [length] in *. lia.
    + injection E as <- _. cbn [drop length]. rewrite length_drop. lia.
Qed.

Lemma fmt_loop_run c st st' n : rtc fstep (c, st) ([], st') -> (length c < n)%nat -> fmt_loop mem printf n c st = Done (Some st').
Proof.
  intros Hr. remember (c, st) as a eqn:Ea. remember (@nil Z, st') as b eqn:Eb. revert c st n Ea. induction Hr as [a|a [c1 st1] b Hs Hr IH]; intros c st n -> Hn.
  - injection Eb as -> ->. destruct n; [cbn in Hn; lia|done].
  - destruct n as [|n]; [lia|]. pose proof (fstep_shorter _ _ _ _ Hs). destruct Hs as [Hne E]. cbn [fst snd] in *. cbn [fmt_loop]. destruct c as [|x c]; [done|].
    rewrite E. cbn [mbind outcome_bind]. apply IH; [done|done|cbn [length] in *; lia].
Qed.

(** What the [printf] of the library does: a string, of the length of an [int]. *)
Hypothesis Hprintf : forall f a, cstr (printf f a) /\ Z.of_nat (length (printf f a)) < 2 ^ 31.

Lemma catvprintf_ok ok s f a : sdscatvprintf 32 ok s (printf f a) = Done (sdscatlen ok s (printf f a)).
Proof.
  destruct (Hprintf f a) as [Hc Hl]. unfold sdscatvprintf. change 16 with (16 * 2 ^ 0). rewrite vprintf_loop_ok by (done || lia). cbn [mbind outcome_bind].
  unfold sdscat. by rewrite strlen_cstr, firstn_all by done.
Qed.

(** Every format is formatted: there is a result or a fault. *)
Lemma fmt_turn_total c st : fmt_turn mem printf c st <> NoFuel.
Proof.
  unfold fmt_turn, touch. repeat case_match; try done; try (unfold of_res; by destruct (read_bytes _ _); cbn; repeat case_match).
  unfold fmt_printf. destruct (conversion _) as [[k p]|]; [|done]. destruct (f_ap st); [done|]. destruct (bool_decide _); [|done]. destruct (_ <? 14); [|done].
  rewrite catvprintf_ok. cbn [mbind outcome_bind]. destruct (sdscatlen _ _ _); [|done]. by destruct p.
Qed.

Lemma fmt_loop_total n c st : (length c < n)%nat -> fmt_loop mem printf n c st <> NoFuel.
Proof.
  revert c st. induction n as [|n IH]; intros c st Hn; [lia|]. cbn [fmt_loop]. destruct c as [|x c]; [done|].
  pose proof (fmt_turn_total (x :: c) st). destruct (fmt_turn mem printf (x :: c) st) as [[[c' st']|]| |] eqn:E; try done. cbn [mbind outcome_bind].
  apply IH. assert (Hs : fstep (x :: c, st) (c', st')) by (by split). apply fstep_shorter in Hs. lia.
Qed.

(** *** Pieces *)

Hypothesis Hmem : forall i, mem i = true.

Definition frag_val (f : frag) : list Z :=
  match f with FLit s | FStr s | FBin s => s | FPct => cs "%" | FConv spec a => printf (ch "%" :: spec) a end.

(** The state as the arguments, the current one, whether it was touched, and the variable arguments. *)
Definition fst_ok (argv : list (list Z)) (cur : list Z) (touched : bool) (ap : list vararg) (st : fmt_state) : Prop :=
  s_buf <$> f_argv st = argv /\ s_buf (f_cur st) = cur /\ f_touched st = touched /\ f_ap st = ap /\ f_totlen st = Z.of_nat (length (bulks argv)).

Lemma touch_ok argv cur touched ap ap' st bytes c : fst_ok argv cur touched ap st ->
  exists st', touch (sdscatlen (mem (f_mem st)) (f_cur st) bytes) c ap' st = Done (Some (c, st')) /\ fst_ok argv (cur ++ bytes) true ap' st'.
Proof.
  intros (H1 & H2 & H3 & H4 & H5). rewrite Hmem. destruct (sdscatlen_ok (f_cur st) bytes) as (s & -> & Hs). cbn [touch].
  eexists. split; [done|]. split_and!; try done. cbn. by rewrite Hs, H2.
Qed.

Lemma cat_arg_ok argv cur touched ap ap' st bytes c : fst_ok argv cur touched ap st ->
  exists st', touch (cat_arg mem bytes st) c ap' st = Done (Some (c, st')) /\ fst_ok argv (cur ++ bytes) true ap' st'.
Proof.
  intros Hst. destruct bytes as [|b bytes]; [|by eapply touch_ok]. destruct Hst as (H1 & H2 & H3 & H4 & H5).
  eexists. split; [done|]. split_and!; try done. cbn. by rewrite H2, app_nil_r.
Qed.

Lemma lit_step x argv cur touched ap st c : x <> 0 -> x <> ch "%" -> x <> ch " " -> fst_ok argv cur touched ap st ->
  exists st', fstep (x :: c, st) (c, st') /\ fst_ok argv (cur ++ [x]) true ap st'.
Proof.
  intros H0 Hp Hs Hst. pose proof Hst as (_ & _ & _ & Hap & _). destruct (touch_ok _ _ _ _ ap st [x] c Hst) as (st' & E & Hst').
  exists st'. split; [|done]. split; [done|]. cbn [fst snd]. unfold fmt_turn. change (char_at (x :: c) 0) with x.
  rewrite (proj2 (Z.eqb_neq x (ch "%"))), (proj2 (Z.eqb_neq x (ch " "))) by done. cbn [negb orb]. cbn [take tail]. by rewrite Hap, <- E.
Qed.

Lemma lit_steps s argv cur touched ap st c : s <> [] -> forallb (fun c => negb (c =? 0) && negb (c =? ch "%") && negb (c =? ch " ")) s = true ->
  fst_ok argv cur touched ap st -> exists st', rtc fstep (s ++ c, st) (c, st') /\ fst_ok argv (cur ++ s) true ap st'.
Proof.
  intros Hne Hs. revert cur touched st Hne. induction s as [|x s IH]; intros cur touched st Hne Hst; [done|]. cbn [forallb] in Hs.
  apply andb_true_iff in Hs as [[[?%negb_true_iff%Z.eqb_neq ?%negb_true_iff%Z.eqb_neq]%andb_true_iff ?%negb_true_iff%Z.eqb_neq]%andb_true_iff Hs].
  destruct (lit_step x _ _ _ _ st (s ++ c) ltac:(done) ltac:(done) ltac:(done) Hst) as (st1 & Hst1 & Hok1). cbn [app]. destruct s as [|y s].
  - exists st1. split; [by apply rtc_once|done].
  - destruct (IH Hs (cur ++ [x]) true st1) as (st2 & Hr & Hok2); [done|done|]. exists st2. split; [by eapply rtc_l|]. by rewrite <- app_assoc in Hok2.
Qed.

Lemma conv_step spec a argv cur touched ap st c : frag_okb (FConv spec a) = true -> fst_ok argv cur touched (a :: ap) st ->
  exists st', fstep (ch "%" :: spec ++ c, st) (c, st') /\ fst_ok argv (cur ++ printf (ch "%" :: spec) a) true ap st'.
Proof.
  intros Hf Hst. cbn [frag_okb] in Hf. apply andb_true_iff in Hf as [[[H0%bool_decide_eq_true Hl%Nat.leb_le]%andb_true_iff Hh]%andb_true_iff Hk].
  destruct (conversion (skip_modifiers spec)) as [[k [|x [|y q]]]|] eqn:Ek; try done. apply bool_decide_eq_true in Hk.
  assert (Hm : skip_modifiers spec <> []) by (intros E; by rewrite E in Ek).
  assert (Hx : x <> 0).
  { intros ->. destruct (conversion_suffix _ _ _ Ek) as (l1 & E1), (skip_modifiers_suffix spec) as (l2 & E2). apply H0. rewrite E2, E1. set_solver. }
  destruct spec as [|y0 spec]; [done|]. assert (Hy : y0 <> 0) by (intros ->; apply H0; by left). cbn [forallb] in Hh.
  change (char_at (y0 :: spec) 0) with y0 in Hh. change (cs "sb%") with [ch "s"; ch "b"; ch "%"] in Hh. cbn [forallb] in Hh.
  apply andb_true_iff in Hh as [?%negb_true_iff [?%negb_true_iff [?%negb_true_iff _]%andb_true_iff]%andb_true_iff].
  pose proof Hst as (_ & _ & _ & Hap & _). destruct (touch_ok _ _ _ _ ap st (printf (ch "%" :: y0 :: spec) a) c Hst) as (st' & E & Hst').
  exists st'. split; [|done]. split; [done|]. cbn [fst snd]. unfold fmt_turn. change (char_at (ch "%" :: _) 0) with (ch "%"). cbn [app].
  change (char_at (ch "%" :: y0 :: _) 1) with y0. change (negb (ch "%" =? ch "%")) with false. cbn [orb]. rewrite (proj2 (Z.eqb_neq y0 0) Hy).
  repeat match goal with H : (y0 =? _) = false |- _ => rewrite H; clear H end. unfold fmt_printf. cbn [tail]. rewrite app_comm_cons, skip_modifiers_app by done.
  rewrite (conversion_app _ c k x Hx Ek). rewrite Hap, bool_decide_eq_true_2 by done. rewrite catvprintf_ok.
  replace (Z.of_nat (length (ch "%" :: (y0 :: spec) ++ c)) - Z.of_nat (length (x :: c)) + 1) with (Z.of_nat (length (ch "%" :: y0 :: spec)))
    by (cbn [length app]; rewrite length_app; lia).
  rewrite (proj2 (Z.ltb_lt _ _)) by (cbn [length] in *; lia). cbn [mbind outcome_bind]. rewrite Nat2Z.id, app_comm_cons, take_app_length.
  unfold touch in E. by destruct (sdscatlen _ _ _).
Qed.

Lemma frag_steps f argv cur touched ap st c : frag_okb f = true -> fst_ok argv cur touched (frag_args f ++ ap) st ->
  exists st', rtc fstep (frag_fmt f ++ c, st) (c, st') /\ fst_ok argv (cur ++ frag_val f) true ap st'.
Proof.
  intros Hf Hst. pose proof Hst as (_ & _ & _ & Hap & _). destruct f as [s|s|s| |spec a]; cbn [frag_fmt frag_args frag_val app] in *.
  - cbn [frag_okb] in Hf. apply andb_true_iff in Hf as [Hn%negb_true_iff%bool_decide_eq_false Hs]. by eapply lit_steps.
  - apply bool_decide_eq_true in Hf. destruct (cat_arg_ok _ _ _ _ ap st (take (strlen s) s) c Hst) as (st' & E & Hst'). exists st'.
    split; [apply rtc_once; split; [done|]; cbn [fst snd]; unfold fmt_turn; by rewrite Hap|].
    replace (take (strlen s) s) with s in Hst'; [done|]. clear -Hf. induction s as [|x s IH]; [done|]. apply not_elem_of_cons in Hf as [? ?]. cbn [strlen].
    rewrite (proj2 (Z.eqb_neq x 0)) by done. cbn [take]. by f_equal; apply IH.
  - destruct (cat_arg_ok _ _ _ _ ap st s c Hst) as (st' & E & Hst'). exists st'. split; [|done]. apply rtc_once. split; [done|]. cbn [fst snd]. unfold fmt_turn. rewrite Hap.
    cbn [app]. change (char_at (cs "%b" ++ c) 0) with (ch "%"). change (char_at (cs "%b" ++ c) 1) with (ch "b"). cbv iota.
    change (negb (ch "%" =? ch "%") || (ch "b" =? 0)) with false. change (ch "b" =? ch "s") with false. change (ch "b" =? ch "b") with true. cbv iota.
    unfold read_bytes. rewrite !(proj2 (Z.leb_le _ _)) by lia. cbn [andb of_res mbind outcome_bind]. rewrite Nat2Z.id, firstn_all. exact E.
  - destruct (touch_ok _ _ _ _ ap st (cs "%") c Hst) as (st' & E & Hst'). exists st'. split; [|done]. apply rtc_once. split; [done|]. cbn [fst snd]. unfold fmt_turn.
    rewrite Hap. exact E.
  - destruct (conv_step spec a argv cur touched ap st c Hf Hst) as (st' & Hs & Hst'). exists st'. split; [by apply rtc_once|done].
Qed.

(** *** Words *)

Definition word_fmt (w : list frag) : list Z := concat (frag_fmt <$> w).
Definition word_args (w : list frag) : list vararg := concat (frag_args <$> w).
Definition word_val (w : list frag) : list Z := concat (frag_val <$> w).
Definition word_okb (w : list frag) : bool := match w with [] => false | _ => forallb frag_okb w end.

Lemma word_steps w argv cur touched ap st c : word_okb w = true -> fst_ok argv cur touched (word_args w ++ ap) st ->
  exists st', rtc fstep (word_fmt w ++ c, st) (c, st') /\ fst_ok argv (cur ++ word_val w) true ap st'.
Proof.
  intros Hok. assert (Hne : w <> []) by (by destruct w). assert (Hw : forallb frag_okb w = true) by (by destruct w). clear Hok.
  revert cur touched st Hne. induction w as [|f w IH]; intros cur touched st Hne Hst; [done|].
  cbn [forallb] in Hw. apply andb_true_iff in Hw as [Hf Hw]. unfold word_args, word_fmt, word_val in *. rewrite !fmap_cons in *. cbn [concat] in *. rewrite <- app_assoc in *.
  destruct (frag_steps f _ _ _ _ st (concat (frag_fmt <$> w) ++ c) Hf Hst) as (st1 & Hr1 & Hok1). destruct w as [|g w].
  - exists st1. cbn in *. by rewrite app_nil_r.
  - destruct (IH Hw _ _ _ ltac:(done) Hok1) as (st2 & Hr2 & Hok2). exists st2. split; [by etrans|]. by rewrite app_assoc.
Qed.

Definition flushed (cur : list Z) (touched : bool) : list (list Z) := if touched then [cur] else [].

Lemma bulks_app l1 l2 : bulks (l1 ++ l2) = bulks l1 ++ bulks l2.
Proof. unfold bulks. by rewrite fmap_app, concat_app. Qed.

Lemma push_ok argv cur touched ap st : fst_ok argv cur touched ap st -> Z.of_nat (length (bulks (argv ++ [cur]))) < 2 ^ 31 ->
  exists st', push_arg mem st = Some st' /\ fst_ok (argv ++ [cur]) cur touched ap st'.
Proof.
  intros (H1 & H2 & H3 & H4 & H5) Hb. unfold push_arg. rewrite Hmem. eexists. split; [done|]. split_and!; cbn; try done.
  - by rewrite fmap_app, H1, <- H2.
  - rewrite bulks_app, length_app in Hb |- *. unfold sdslen. rewrite H2. change (bulks [cur]) with (enc (RBulk cur) ++ []) in *. rewrite app_nil_r in *.
    pose proof (bulk_ge cur). unfold add_bulklen. rewrite bulk_length, H5, wrap_small, swrap_small by (try change (32 - 1) with 31; lia). lia.
Qed.

Lemma space_step argv cur touched ap st c : fst_ok argv cur touched ap st -> (touched = false -> cur = []) ->
  Z.of_nat (length (bulks (argv ++ flushed cur touched))) < 2 ^ 31 ->
  exists st', fstep (32 :: c, st) (c, st') /\ fst_ok (argv ++ flushed cur touched) [] false ap st'.
Proof.
  intros Hst Hcur Hb. pose proof Hst as (_ & _ & Ht & Hap & _). destruct touched; cbn [flushed] in *.
  - destruct (push_ok _ _ _ _ _ Hst Hb) as (st1 & E & Hok). pose proof Hok as (H1 & H2 & H3 & H4 & H5). unfold fstep. cbn [fst snd].
    unfold fmt_turn. change (negb (char_at (32 :: c) 0 =? ch "%") || _) with true. change (char_at (32 :: c) 0 =? ch " ") with true. cbv iota.
    rewrite Ht, E, Hmem. cbn [sdsempty sdsnewlen tail]. eexists. split; [by split|]. by split_and!.
  - specialize (Hcur eq_refl). subst cur. exists st. rewrite app_nil_r. split; [|done]. split; [done|]. cbn [fst snd]. unfold fmt_turn.
    change (negb (char_at (32 :: c) 0 =? ch "%") || _) with true. change (char_at (32 :: c) 0 =? ch " ") with true. cbv iota. by rewrite Ht.
Qed.

Lemma spaces_steps n argv cur touched ap st c : fst_ok argv cur touched ap st -> (touched = false -> cur = []) ->
  Z.of_nat (length (bulks (argv ++ flushed cur touched))) < 2 ^ 31 ->
  exists st', rtc fstep (replicate (S n) 32 ++ c, st) (c, st') /\ fst_ok (argv ++ flushed cur touched) [] false ap st'.
Proof.
  revert argv cur touched st. induction n as [|n IH]; intros argv cur touched st Hst Hcur Hb.
  - destruct (space_step _ _ _ _ _ c Hst Hcur Hb) as (st1 & Hs & Hok). exists st1. split; [|done]. by apply rtc_once.
  - destruct (space_step _ _ _ _ _ (replicate (S n) 32 ++ c) Hst Hcur Hb) as (st2 & Hs2 & Hok2).
    destruct (IH _ [] false st2 Hok2) as (st3 & Hr & Hok3); [done|by cbn [flushed]; rewrite app_nil_r|]. cbn [flushed] in Hok3. rewrite app_nil_r in Hok3.
    exists st3. split; [|done]. eapply rtc_l; [exact Hs2|exact Hr].
Qed.

(** Words behind spaces: [k] before the first, one more before each other. *)
Fixpoint words_fmt (sep : nat) (ws : list (nat * list frag)) : list Z :=
  match ws with [] => [] | (k, w) :: ws => replicate (sep + k) 32 ++ word_fmt w ++ words_fmt 1 ws end.
Definition words_args (ws : list (nat * list frag)) : list vararg := concat ((fun w => word_args (snd w)) <$> ws).
Definition words_val (ws : list (nat * list frag)) : list (list Z) := (fun w => word_val (snd w)) <$> ws.

Lemma words_steps ws : forallb (fun w => word_okb (snd w)) ws = true -> forall argv cur (touched : bool) ap st c,
  fst_ok argv cur touched (words_args ws ++ ap) st -> (touched = false -> cur = []) ->
  Z.of_nat (length (bulks (argv ++ flushed cur touched ++ words_val ws))) < 2 ^ 31 ->
  exists argv' cur' touched' st', rtc fstep (words_fmt (if touched then 1 else 0) ws ++ c, st) (c, st') /\ fst_ok argv' cur' touched' ap st' /\
    (touched' = false -> cur' = []) /\ argv' ++ flushed cur' touched' = argv ++ flushed cur touched ++ words_val ws.
Proof.
  induction ws as [|[k w] ws IH]; intros Hok argv cur touched ap st c Hst Hcur Hb.
  { exists argv, cur, touched, st. split; [apply rtc_refl|]. split_and!; [done|done|]. by rewrite app_nil_r. }
  cbn [forallb snd] in Hok. apply andb_true_iff in Hok as [Hw Hok]. unfold words_val, words_args in *. rewrite !fmap_cons in *. cbn [concat snd] in *. fold (words_val ws) (words_args ws) in *.
  rewrite <- app_assoc in Hst. cbn [words_fmt]. rewrite <- !app_assoc.
  assert (Hs : exists st1, rtc fstep (replicate ((if touched then 1 else 0) + k) 32 ++ word_fmt w ++ words_fmt 1 ws ++ c, st) (word_fmt w ++ words_fmt 1 ws ++ c, st1)
    /\ fst_ok (argv ++ flushed cur touched) [] false (word_args w ++ words_args ws ++ ap) st1).
  { assert (Hbp : Z.of_nat (length (bulks (argv ++ flushed cur touched))) < 2 ^ 31) by (rewrite app_assoc, bulks_app, length_app in Hb; lia).
    destruct touched; [cbn [Nat.add]; by apply spaces_steps|]. destruct k as [|k]; [|cbn [Nat.add]; by apply spaces_steps].
    exists st. split; [apply rtc_refl|]. specialize (Hcur eq_refl). subst cur. by rewrite app_nil_r. }
  destruct Hs as (st1 & Hr1 & Hok1). destruct (word_steps w _ _ _ _ _ (words_fmt 1 ws ++ c) Hw Hok1) as (st2 & Hr2 & Hok2). cbn [app] in Hok2.
  destruct (IH Hok _ _ true _ _ c Hok2) as (argv' & cur' & touched' & st' & Hr3 & Hok3 & Hc3 & Heq); [done| |].
  - by rewrite <- app_assoc.
  - exists argv', cur', touched', st'. split_and!; [|done|done|].
    + etrans; [exact Hr1|]. etrans; [exact Hr2|]. exact Hr3.
    + rewrite Heq, <- app_assoc. done.
Qed.

(** The format with its trailing spaces. *)
Lemma format_words ws t : forallb (fun w => word_okb (snd w)) ws = true -> Z.of_nat (length (enc (RArray (RBulk <$> words_val ws)))) < 2 ^ 31 - 1 ->
  redisvFormatCommand mem printf (words_fmt 0 ws ++ replicate t 32) (words_args ws) =
    Done (Z.of_nat (length (enc (RArray (RBulk <$> words_val ws)))), Some (enc (RArray (RBulk <$> words_val ws)))).
Proof.
  intros Hok Hb. pose proof (command_length (words_val ws)) as Hl. pose proof (bulks_ge (words_val ws)) as Hge.
  set (st0 := mk_fmt [] (mk_sds [] 0) false 0 (words_args ws) 1).
  assert (Hst0 : fst_ok [] [] false (words_args ws ++ []) st0) by (rewrite app_nil_r; by split_and!).
  destruct (words_steps ws Hok [] [] false [] st0 (replicate t 32) Hst0 ltac:(done)) as (argv & cur & touched & st1 & Hr1 & Hok1 & Hc1 & Heq); [cbn [app flushed]; lia|].
  cbn [app flushed] in Heq.
  assert (Hend : exists argv' cur' touched' st', rtc fstep (replicate t 32, st1) ([], st') /\ fst_ok argv' cur' touched' [] st' /\ argv' ++ flushed cur' touched' = words_val ws).
  { destruct t as [|t]; [exists argv, cur, touched, st1; split; [apply rtc_refl|by split]|].
    destruct (spaces_steps t _ _ _ _ _ [] Hok1 Hc1) as (st2 & Hr2 & Hok2); [rewrite Heq; lia|]. rewrite app_nil_r in Hr2. exists (argv ++ flushed cur touched), [], false, st2.
    split_and!; [done|done|]. cbn [flushed]. by rewrite app_nil_r. }
  destruct Hend as (argv' & cur' & touched' & st2 & Hr2 & Hok2 & Heq2).
  unfold redisvFormatCommand. rewrite Hmem. cbn [sdsempty sdsnewlen]. fold st0.
  rewrite (fmt_loop_run _ st0 st2 (S (length (words_fmt 0 ws ++ replicate t 32))) ltac:(etrans; [exact Hr1|exact Hr2])) by lia. cbn [mbind outcome_bind].
  assert (Hpush : exists st3, (if f_touched st2 then push_arg mem st2 else Some st2) = Some st3 /\ s_buf <$> f_argv st3 = words_val ws /\ f_totlen st3 = Z.of_nat (length (bulks (words_val ws)))).
  { pose proof Hok2 as (H1 & H2 & H3 & H4 & H5). rewrite H3. destruct touched'; cbn [flushed] in Heq2.
    - destruct (push_ok _ _ _ _ _ Hok2) as (st3 & E & (G1 & _ & _ & _ & G5)); [rewrite Heq2; lia|]. rewrite Heq2 in *. by exists st3.
    - rewrite app_nil_r in Heq2. exists st2. by rewrite <- Heq2. }
  destruct Hpush as (st3 & -> & Ha & Ht).
  assert (Hlen : length (f_argv st3) = length (words_val ws)) by (by rewrite <- Ha, length_fmap).
  assert (Hval : arg_value <$> ((fun s => (s_buf s, sdslen s)) <$> f_argv st3) = words_val ws).
  { rewrite <- Ha, <- list_fmap_compose. apply list_fmap_ext. intros i s _. unfold arg_value, sdslen. cbn. by rewrite Nat2Z.id, firstn_all. }
  rewrite Hmem, Ht, Hlen, intlen_decimal, swrap_small by (try change (32 - 1) with 31; lia).
  rewrite build_command_ok; [rewrite Hval; cbn [of_res]; do 2 f_equal; lia| |rewrite Hval; lia|lia].
  apply Forall_forall. intros a (s & -> & Hs)%list_elem_of_fmap. split; [unfold sdslen; cbn; lia|]. cbn. unfold sdslen.
  apply (command_args (words_val ws)); [done|]. rewrite <- Ha. by apply list_elem_of_fmap_2.
Qed.
End formats.

(** C14. A command means its arguments.  A format is words of text, [%s], [%b], [%%] and conversions, separated by spaces: whatever the
    bytes of the strings that are interpolated (spaces, line ends, percent signs), the command has one argument per word, which is
    the concatenation of its pieces; the buffer has exactly its length, and formatting the array of the same arguments gives the same bytes.
    A server that reads these bytes, in any pieces, gets the array of these strings and nothing else. *)
Theorem redis_command_roundtrip printf mem ws t :
  (forall f a, cstr (printf f a) /\ Z.of_nat (length (printf f a)) < 2 ^ 31) -> (forall i, mem i = true) ->
  forallb (fun w => word_okb (snd w)) ws = true -> Z.of_nat (length (enc (RArray (RBulk <$> words_val printf ws)))) < 2 ^ 31 - 1 ->
  exists cmd, redisvFormatCommand mem printf (words_fmt 0 ws ++ replicate t 32) (words_args ws) = Done (Z.of_nat (length cmd), Some cmd) /\
    redisFormatCommandArgv true (words_val printf ws) (Some (lengths (words_val printf ws))) = Ret (Z.of_nat (length cmd), Some cmd) /\
    forall chunks, concat chunks = cmd ->
      exists r', feed_all mem chunks redisReaderCreate = Done ([obj_of (RArray (RBulk <$> words_val printf ws))], REDIS_OK, r') /\ unread r' = [].
Proof.
  intros Hp Hm Hok Hb. exists (enc (RArray (RBulk <$> words_val printf ws))). split; [by apply format_words|]. split.
  - by apply format_exact.
  - intros chunks Hc. destruct (feed_all_reads mem 0 chunks _ _ _ _ _ (create_waiting mem) eq_refl) as (N & l & f & Hr & Hpost); [rewrite Hc; lia|].
    cbn [app] in Hr. rewrite Hc in Hr. destruct (stream_reads mem Hm [RArray (RBulk <$> words_val printf ws)] 0) as (m' & Hr').
    { constructor; [by apply command_resp|constructor]. }
    cbn [concat] in Hr'. rewrite fmap_cons in Hr'. cbn [concat] in Hr'. rewrite app_nil_r in Hr'. destruct (reads_det _ _ _ _ _ _ _ _ _ Hr Hr') as [-> ->]. cbn [client_post] in Hpost.
    destruct Hpost as (r' & -> & Hw & _). exists r'. split; [done|]. destruct Hw as [[(_ & _ & Hw)|[_ Hw]] _]; apply Hw.
Qed.

(** [SET key:%s  %d-%b] with a key that looks like the protocol. *)
Definition sample_words : list (nat * list frag) :=
  [(0%nat, [FLit (cs "SET")]); (0%nat, [FLit (cs "key:"); FStr (cs "a b" ++ [13; 10] ++ cs "$3")]); (1%nat, [FConv (cs "-5d") (VInt 42); FLit (cs "-"); FBin [0; 32; 37]; FPct])].
Definition sample_printf (f : list Z) (a : vararg) : list Z := match a with VInt _ => cs "42   " | _ => cs "x" end.

Lemma redis_command_roundtrip_witness :
  exists cmd, redisvFormatCommand (fun _ => true) sample_printf (cs "SET key:%s  %-5d-%b%%") (words_args sample_words) = Done (Z.of_nat (length cmd), Some cmd) /\
    words_val sample_printf sample_words = [cs "SET"; cs "key:a b" ++ [13; 10] ++ cs "$3"; cs "42   -" ++ [0; 32; 37; 37]] /\
    exists r', feed_all (fun _ => true) [cmd] redisReaderCreate = Done ([obj_of (RArray (RBulk <$> words_val sample_printf sample_words))], REDIS_OK, r') /\ unread r' = [].
Proof.
  destruct (redis_command_roundtrip sample_printf (fun _ => true) sample_words 0) as (cmd & H1 & _ & H3).
  - intros f a. split; [apply (bool_decide_unpack _)|]; destruct a; vm_compute; exact I || reflexivity.
  - done.
  - vm_compute. reflexivity.
  - vm_compute. reflexivity.
  - exists cmd. split; [exact H1|]. split; [vm_compute; reflexivity|]. apply (H3 [cmd]). cbn. apply app_nil_r.
Defined.

(** A format that ends inside a conversion: the NUL is found in the list of conversions, and the loop goes on behind the end of the format. *)
Lemma format_past_end printf : (forall f a, cstr (printf f a) /\ Z.of_nat (length (printf f a)) < 2 ^ 31) ->
  redisvFormatCommand (fun _ => true) printf (cs "GET %5") [VInt 1] = Crash OutOfBounds.
Proof.
  intros Hp. unfold redisvFormatCommand. cbn [sdsempty sdsnewlen].
  assert (Hs : exists st, f_ap st = [VInt 1] /\ fmt_loop (fun _ => true) printf 7 (cs "GET %5") (mk_fmt [] (mk_sds [] 0) false 0 [VInt 1] 1) = fmt_loop (fun _ => true) printf 3 (cs "%5") st).
  { eexists (mk_fmt _ _ _ _ _ _). split; [|reflexivity]. reflexivity. }
  destruct Hs as (st & Hap & E). change (S (length (cs "GET %5"))) with 7%nat. rewrite E. cbn [fmt_loop].
  assert (Et : fmt_turn (fun _ => true) printf (cs "%5") st = Crash OutOfBounds); [|by rewrite Et].
  transitivity (fmt_printf (fun _ => true) printf (cs "%5") st); [reflexivity|]. unfold fmt_printf. change (conversion _) with (Some (KInt, @nil Z)). rewrite Hap.
  change (bool_decide _) with true. cbv iota. change (_ <? 14) with true. cbv iota zeta. rewrite (catvprintf_ok printf Hp). cbn [mbind outcome_bind].
  by destruct (sdscatlen_ok (f_cur st) (printf (take (Z.to_nat (Z.of_nat (length (cs "%5")) - Z.of_nat (length (@nil Z)) + 1)) (cs "%5")) (VInt 1))) as (s & -> & _).
Qed.
