(* ===== verification/HiredisContext.v ===== *)
(** * Connections of hiredis

    packages/redis/hiredis.c: the context of a connection with its output buffer and its reader, and the blocking client.  The
    socket is a [world]: the results of the calls of [read] and [write] that are still to come, and the bytes that were
    sent.  Without a next result a blocking call does not return ([NoFuel]) and a non-blocking one fails with [EAGAIN].
    The n-th growth of a buffer succeeds when [grow n], the creation of the n-th object of a reply when [mem n].
    Output buffers are smaller than 2 GiB. *)

From S2P Require Import Prelude CString Session Digits Redirect Sds Hiredis HiredisSpec HiredisReply HiredisCommand.

Definition REDIS_BLOCK : Z := 1.
Definition REDIS_CONNECTED : Z := 2.
Definition REDIS_DISCONNECTING : Z := 4.
Definition REDIS_FREEING : Z := 8.
Definition REDIS_IN_CALLBACK : Z := 16.
Definition REDIS_SUBSCRIBED : Z := 32.
Definition EAGAIN : Z := 11.

Definition has_flag (flags f : Z) : bool := negb (Z.land flags f =? 0).
Definition add_flag (flags f : Z) : Z := Z.lor flags f.
Definition del_flag (flags f : Z) : Z := Z.land flags (Z.lnot f).

Record redisContext := mk_ctx {
  c_err : Z;
  c_errstr : list Z;
  c_flags : Z;
  c_obuf : sds;
  c_reader : redisReader
}.

(** A result of [read]: bytes (of any number, the buffer of the code has 2048), none at the end of the stream, or [errno]. *)
Inductive rd_result := Rd (bytes : list Z) | RdErr (errno : Z).
(** A result of [write]: at most the number of bytes that were given, or [errno]. *)
Inductive wr_result := Wr (n : nat) | WrErr (errno : Z).

Record world := mk_world { w_in : list rd_result; w_out : list wr_result; w_sent : list Z; w_clock : nat }.

Definition tick (w : world) : world := mk_world (w_in w) (w_out w) (w_sent w) (S (w_clock w)).

Definition set_reader (r : redisReader) (c : redisContext) : redisContext := mk_ctx (c_err c) (c_errstr c) (c_flags c) (c_obuf c) r.
Definition set_obuf (b : sds) (c : redisContext) : redisContext := mk_ctx (c_err c) (c_errstr c) (c_flags c) b (c_reader c).
Definition set_flags (f : Z) (c : redisContext) : redisContext := mk_ctx (c_err c) (c_errstr c) f (c_obuf c) (c_reader c).

Definition blocking (c : redisContext) : bool := has_flag (c_flags c) REDIS_BLOCK.

Section context.
Variable mem : nat -> bool.
Variable grow : nat -> bool.
(** The text of an [errno]. *)
Variable strerror : Z -> list Z.

(** [errstr] has 128 bytes; [read] and [write] give the [errno] when there is no text. *)
Definition __redisSetError (type : Z) (str : list Z) (c : redisContext) : redisContext :=
  mk_ctx type (take 127 (take (strlen str) str)) (c_flags c) (c_obuf c) (c_reader c).
Definition redisSetErrorIO (errno : Z) (c : redisContext) : redisContext :=
  mk_ctx REDIS_ERR_IO (take 127 (strerror errno)) (c_flags c) (c_obuf c) (c_reader c).

(** [redisContextInit] and the flags of the connect functions. *)
Definition redisContextInit (flags : Z) : redisContext := mk_ctx 0 [] flags (mk_sds [] 0) redisReaderCreate.

(** The calls of the system. *)
Definition sys_read (block : bool) (w : world) : outcome (rd_result * world) :=
  match w_in w with
  | r :: l => Done (r, mk_world l (w_out w) (w_sent w) (w_clock w))
  | [] => if block then NoFuel else Done (RdErr EAGAIN, w)
  end.
Definition sys_write (block : bool) (bytes : list Z) (w : world) : outcome (wr_result * world) :=
  match w_out w with
  | Wr n :: l => let n := Nat.min n (length bytes) in Done (Wr n, mk_world (w_in w) l (w_sent w ++ take n bytes) (w_clock w))
  | WrErr e :: l => Done (WrErr e, mk_world (w_in w) l (w_sent w) (w_clock w))
  | [] => if block then NoFuel else Done (WrErr EAGAIN, w)
  end.

Definition redisBufferRead (c : redisContext) (w : world) : outcome (Z * redisContext * world) :=
  if negb (c_err c =? 0) then Done (REDIS_ERR, c, w)
  else
    '(r, w) ← sys_read (blocking c) w;
    match r with
    | RdErr errno =>
        if (errno =? EAGAIN) && negb (blocking c) then Done (REDIS_OK, c, w) else Done (REDIS_ERR, redisSetErrorIO errno c, w)
    | Rd [] => Done (REDIS_ERR, __redisSetError REDIS_ERR_EOF (cs "Server closed the connection") c, w)
    | Rd bytes =>
        let '(status, r) := redisReaderFeed (grow (w_clock w)) (c_reader c) bytes in
        let w := tick w in
        if status =? REDIS_OK then Done (REDIS_OK, set_reader r c, w)
        else Done (REDIS_ERR, __redisSetError (r_err r) (r_errstr r) (set_reader r c), w)
    end.

(** The status and [*done]; every caller gives [done], so that a new buffer that is [NULL] is followed. *)
Definition redisBufferWrite (c : redisContext) (w : world) : outcome (Z * bool * redisContext * world) :=
  if negb (c_err c =? 0) then Done (REDIS_ERR, false, c, w)
  else if 0 <? sdslen (c_obuf c) then
    '(r, w) ← sys_write (blocking c) (s_buf (c_obuf c)) w;
    match r with
    | WrErr errno =>
        if (errno =? EAGAIN) && negb (blocking c) then Done (REDIS_OK, sdslen (c_obuf c) =? 0, c, w)
        else Done (REDIS_ERR, false, redisSetErrorIO errno c, w)
    | Wr n =>
        if (0 <? n)%nat then
          if Z.of_nat n =? swrap 32 (sdslen (c_obuf c)) then
            match sdsempty (grow (w_clock w)) with
            | None => Crash NullDeref
            | Some b => Done (REDIS_OK, true, set_obuf b c, tick w)
            end
          else let b := sdsrange (c_obuf c) (Z.of_nat n) (-1) in Done (REDIS_OK, sdslen b =? 0, set_obuf b c, w)
        else Done (REDIS_OK, sdslen (c_obuf c) =? 0, c, w)
    end
  else Done (REDIS_OK, sdslen (c_obuf c) =? 0, c, w).

Definition redisGetReplyFromReader (c : redisContext) : outcome (Z * option redisReply * redisContext) :=
  '(status, o, r) ← redisReaderGetReply mem (c_reader c);
  if status =? REDIS_ERR then Done (REDIS_ERR, None, __redisSetError (r_err r) (r_errstr r) (set_reader r c))
  else Done (REDIS_OK, o, set_reader r c).

(** [do redisBufferWrite while (!wdone)]: a turn uses a result of [write]. *)
Fixpoint write_loop (n : nat) (c : redisContext) (w : world) : outcome (Z * redisContext * world) :=
  match n with
  | O => NoFuel
  | S n =>
      '(status, wdone, c, w) ← redisBufferWrite c w;
      if status =? REDIS_ERR then Done (REDIS_ERR, c, w) else if (wdone : bool) then Done (REDIS_OK, c, w) else write_loop n c w
  end.

(** [do redisBufferRead, redisGetReplyFromReader while (aux == NULL)]: a turn uses a result of [read]. *)
Fixpoint read_loop (n : nat) (c : redisContext) (w : world) : outcome (Z * option redisReply * redisContext * world) :=
  match n with
  | O => NoFuel
  | S n =>
      '(status, c, w) ← redisBufferRead c w;
      if status =? REDIS_ERR then Done (REDIS_ERR, None, c, w)
      else
        '(status, o, c) ← redisGetReplyFromReader c;
        if status =? REDIS_ERR then Done (REDIS_ERR, None, c, w)
        else match o with Some _ => Done (REDIS_OK, o, c, w) | None => read_loop n c w end
  end.

Definition redisGetReply (c : redisContext) (w : world) : outcome (Z * option redisReply * redisContext * world) :=
  '(status, aux, c) ← redisGetReplyFromReader c;
  if status =? REDIS_ERR then Done (REDIS_ERR, None, c, w)
  else
    match aux with
    | Some _ => Done (REDIS_OK, aux, c, w)
    | None =>
        if blocking c then
          '(status, c, w) ← write_loop (S (length (w_out w))) c w;
          if status =? REDIS_ERR then Done (REDIS_ERR, None, c, w)
          else read_loop (S (length (w_in w))) c w
        else Done (REDIS_OK, None, c, w)
    end.

(** ** Commands *)

Definition __redisAppendCommand (c : redisContext) (cmd : list Z) (w : world) : Z * redisContext * world :=
  match sdscatlen (grow (w_clock w)) (c_obuf c) cmd with
  | None => (REDIS_ERR, __redisSetError REDIS_ERR_OOM (cs "Out of memory") c, tick w)
  | Some b => (REDIS_OK, set_obuf b c, tick w)
  end.

(** The command that was formatted: any failure counts as a lack of memory. *)
Definition append_formatted (c : redisContext) (x : Z * option (list Z)) (w : world) : Z * redisContext * world :=
  match snd x with
  | None => (REDIS_ERR, __redisSetError REDIS_ERR_OOM (cs "Out of memory") c, w)
  | Some cmd => __redisAppendCommand c cmd w
  end.

Definition redisvAppendCommand (fmem : nat -> bool) (printf : list Z -> vararg -> list Z) (c : redisContext) (format : list Z) (ap : list vararg) (w : world)
    : outcome (Z * redisContext * world) :=
  x ← redisvFormatCommand fmem printf format ap;
  Done (append_formatted c x w).

Definition redisAppendCommandArgv (ok : bool) (c : redisContext) (argv : list (list Z)) (argvlen : option (list Z)) (w : world)
    : outcome (Z * redisContext * world) :=
  x ← of_res (redisFormatCommandArgv ok argv argvlen);
  Done (append_formatted c x w).

Definition __redisBlockForReply (c : redisContext) (w : world) : outcome (option redisReply * redisContext * world) :=
  if blocking c then
    '(status, reply, c, w) ← redisGetReply c w;
    Done (if status =? REDIS_OK then reply else None, c, w)
  else Done (None, c, w).

Definition redisvCommand (fmem : nat -> bool) (printf : list Z -> vararg -> list Z) (c : redisContext) (format : list Z) (ap : list vararg) (w : world)
    : outcome (option redisReply * redisContext * world) :=
  '(status, c, w) ← redisvAppendCommand fmem printf c format ap w;
  if status =? REDIS_OK then __redisBlockForReply c w else Done (None, c, w).

Definition redisCommandArgv (ok : bool) (c : redisContext) (argv : list (list Z)) (argvlen : option (list Z)) (w : world)
    : outcome (option redisReply * redisContext * world) :=
  '(status, c, w) ← redisAppendCommandArgv ok c argv argvlen w;
  if status =? REDIS_OK then __redisBlockForReply c w else Done (None, c, w).
End context.

(** ** A blocking client *)

Section client.
Variables (mem grow : nat -> bool) (strerror : Z -> list Z).
Hypothesis Hgrow : forall i, grow i = true.

(** Everything is written, whatever the system accepts of it at once. *)
Lemma write_loop_ok ns : forall c w n, c_err c = 0 -> blocking c = true -> w_out w = Wr <$> ns -> (length (s_buf (c_obuf c)) <= sum_list ns)%nat ->
  Z.of_nat (length (s_buf (c_obuf c))) < 2 ^ 31 -> (length ns < n)%nat ->
  exists b w', write_loop grow strerror n c w = Done (REDIS_OK, set_obuf b c, w') /\ s_buf b = [] /\ w_in w' = w_in w /\ w_sent w' = w_sent w ++ s_buf (c_obuf c)
    /\ exists ns', w_out w' = Wr <$> ns'.
Proof.
  induction ns as [|k ns IH]; intros c w n He Hbl Hw Hl Hb Hn; (destruct n as [|n]; [lia|]); cbn [write_loop]; unfold redisBufferWrite; rewrite He;
    change (negb (0 =? 0)) with false; cbv iota; unfold sdslen.
  - assert (Es : s_buf (c_obuf c) = []) by (apply nil_length_inv; cbn in Hl; lia). rewrite Es. exists (c_obuf c), w. cbn. rewrite app_nil_r. split_and!; try done; [by destruct c|by exists []].
  - destruct (Z.ltb_spec 0 (Z.of_nat (length (s_buf (c_obuf c))))) as [Hp|Hp].
    2: { exists (c_obuf c), w. assert (Es : s_buf (c_obuf c) = []) by (apply nil_length_inv; lia). rewrite Es. cbn. rewrite app_nil_r. split_and!; try done; [by destruct c|]. by exists (k :: ns). }
    unfold sys_write. rewrite Hw, fmap_cons. cbn [mbind outcome_bind]. set (j := Nat.min k (length (s_buf (c_obuf c)))) in *. change (sum_list (k :: ns)) with (k + sum_list ns)%nat in Hl.
    destruct (Nat.ltb_spec 0 j) as [Hj|Hj].
    + rewrite swrap_small by (change (32 - 1) with 31; lia). destruct (Z.eqb_spec (Z.of_nat j) (Z.of_nat (length (s_buf (c_obuf c))))) as [Ej|Ej].
      * rewrite Hgrow. cbn [sdsempty sdsnewlen]. change (REDIS_OK =? REDIS_ERR) with false. cbv iota. eexists _, _. split; [done|]. cbn. split_and!; try done; [|by exists ns].
        rewrite take_ge by lia. done.
      * set (b := sdsrange (c_obuf c) (Z.of_nat j) (-1)).
        assert (Hbuf : s_buf b = drop j (s_buf (c_obuf c))) by (unfold b; rewrite sdsrange_drop by (unfold sdslen; lia); by rewrite Nat2Z.id).
        change (REDIS_OK =? REDIS_ERR) with false. cbv iota. rewrite (proj2 (Z.eqb_neq _ _)) by (rewrite Hbuf, length_drop; lia).
        destruct (IH (set_obuf b c) (mk_world (w_in w) (Wr <$> ns) (w_sent w ++ take j (s_buf (c_obuf c))) (w_clock w)) n) as (b' & w' & E & H1 & H2 & H3 & H4);
          [done|done|done|cbn [c_obuf set_obuf]; rewrite Hbuf, length_drop; unfold j; lia|cbn [c_obuf set_obuf]; rewrite Hbuf, length_drop; lia|cbn [length] in Hn; lia|].
        exists b', w'. split; [exact E|]. split_and!; [done|done| |done]. rewrite H3. cbn [w_sent c_obuf set_obuf]. by rewrite Hbuf, <- app_assoc, take_drop.
    + assert (j = 0)%nat as Hj0 by lia. rewrite Hj0. cbn [take]. rewrite app_nil_r. change (REDIS_OK =? REDIS_ERR) with false. cbv iota. rewrite (proj2 (Z.eqb_neq _ _)) by lia.
      destruct (IH c (mk_world (w_in w) (Wr <$> ns) (w_sent w) (w_clock w)) n) as (b' & w' & E & H1 & H2 & H3 & H4); [done|done|done|lia|lia|cbn [length] in Hn; lia|].
      exists b', w'. split; [exact E|done].
Qed.

(** The reader with its unread bytes, and the replies that are still to come from them and from the pieces [chunks]. *)
Definition pending (c : redisContext) (chunks : list (list Z)) (objs : list redisReply) : Prop :=
  exists N u s rep m m', waiting mem N (c_reader c) u s rep m /\ N + Z.of_nat (length (concat chunks)) < 2 ^ 62 /\
    reads mem (u ++ concat chunks) s rep m objs (FMore [] root_task None m').

Lemma waiting_stack N r u s rep m : waiting mem N r u s rep m -> s <> [].
Proof. by intros [[(-> & _)|[? _]] _]. Qed.

(** A call of the reader gives the next reply, or there is none yet and the bytes that come decide. *)
Lemma from_reader c chunks o objs : c_err c = 0 -> pending c chunks (o :: objs) ->
  (exists r', redisGetReplyFromReader mem c = Done (REDIS_OK, Some o, set_reader r' c) /\ pending (set_reader r' c) chunks objs /\ unread (c_reader c) <> [])
  \/ (exists r', redisGetReplyFromReader mem c = Done (REDIS_OK, None, set_reader r' c) /\ pending (set_reader r' c) chunks (o :: objs) /\ chunks <> []).
Proof.
  intros He (N & u & s & rep & m & m' & Hw & HN & Hr). pose proof (waiting_stack _ _ _ _ _ _ Hw) as Hs. destruct (run1_total mem u s rep m Hs) as [g Hg].
  pose proof (getreply_run mem _ _ _ _ _ _ _ Hw Hg) as Hp. pose proof (run1_extend mem _ _ _ _ _ (concat chunks) Hs Hg) as Hx. unfold redisGetReplyFromReader.
  inversion Hr as [|? ? ? ? o' u1 m1 l f Hg1 Hr1]; subst.
  destruct g as [o1 u2 m2|[u2 s2 rep2 m2|type str m2|f]]; cbn [get_post] in Hp.
  - destruct Hp as (r' & -> & Hw'). cbn [mbind outcome_bind]. change (REDIS_OK =? REDIS_ERR) with false. cbv iota.
    pose proof (run1_det _ _ _ _ _ _ _ Hg1 Hx) as E. injection E as -> -> ->. left. exists r'. split; [done|]. split; [by exists N, u2, root_task, None, m2, m'|].
    assert (unread (c_reader c) = u) as -> by (destruct Hw as [[(_ & _ & Hw)|[_ Hw]] _]; apply Hw). intros ->. destruct Hw as [_ Hnil].
    by pose proof (run1_nil mem s rep m _ (Hnil eq_refl) Hg).
  - destruct Hp as (r' & -> & Hw'). destruct Hx as [Hs2 Hx]. cbn [mbind outcome_bind]. change (REDIS_OK =? REDIS_ERR) with false. cbv iota. right. exists r'. split; [done|].
    destruct (reads_total mem (u2 ++ concat chunks) s2 rep2 m2 Hs2) as (l2 & f2 & Hr2).
    pose proof (reads_chunks mem _ _ _ _ [] _ _ _ _ (concat chunks) _ _ Hs (reads_end _ _ _ _ _ _ Hg) Hr2) as Hr3. cbn [app] in Hr3.
    destruct (reads_det _ _ _ _ _ _ _ _ _ Hr Hr3) as [<- <-]. split; [by exists N, u2, s2, rep2, m2, m'|].
    intros ->. cbn [concat] in *. rewrite app_nil_r in *. pose proof (run1_det _ _ _ _ _ _ _ Hg1 Hg). done.
  - by pose proof (run1_det _ _ _ _ _ _ _ Hg1 Hx).
  - by pose proof (run1_det _ _ _ _ _ _ _ Hg1 Hx).
Qed.

Lemma buffer_read_ok c w x chunks objs : c_err c = 0 -> x <> [] -> w_in w = Rd x :: (Rd <$> chunks) -> pending c (x :: chunks) objs ->
  exists r', redisBufferRead grow strerror c w = Done (REDIS_OK, set_reader r' c, tick (mk_world (Rd <$> chunks) (w_out w) (w_sent w) (w_clock w))) /\ pending (set_reader r' c) chunks objs.
Proof.
  intros He Hx Hw (N & u & s & rep & m & m' & Hwt & HN & Hr). cbn [concat] in HN, Hr. rewrite length_app in HN.
  destruct (feed_waiting mem N (c_reader c) u s rep m x Hwt) as (r' & E & Hw'); [lia|]. exists r'. unfold redisBufferRead, sys_read. rewrite He, Hw.
  change (negb (0 =? 0)) with false. cbv iota. cbn [mbind outcome_bind]. destruct x as [|b x]; [done|]. cbn [w_clock]. rewrite Hgrow, E.
  change (REDIS_OK =? REDIS_OK) with true. cbv iota. split; [done|]. exists (N + Z.of_nat (length (b :: x))), (u ++ b :: x), s, rep, m, m'.
  split_and!; [done|lia|]. by rewrite <- app_assoc.
Qed.

Lemma read_loop_ok chunks : forall c w o objs n, c_err c = 0 -> Forall (fun x => x <> []) chunks -> w_in w = Rd <$> chunks -> pending c chunks (o :: objs) -> chunks <> [] ->
  (length chunks < n)%nat ->
  exists r' w' chunks', read_loop mem grow strerror n c w = Done (REDIS_OK, Some o, set_reader r' c, w') /\ pending (set_reader r' c) chunks' objs /\
    w_in w' = Rd <$> chunks' /\ w_out w' = w_out w /\ w_sent w' = w_sent w /\ Forall (fun x => x <> []) chunks'.
Proof.
  induction chunks as [|x chunks IH]; intros c w o objs n He Hne Hw Hp Hc Hn; [done|]. destruct n as [|n]; [lia|]. inversion Hne as [|? ? Hx Hne']; subst.
  cbn [read_loop]. destruct (buffer_read_ok c w x chunks _ He Hx Hw Hp) as (r1 & -> & Hp1). cbn [mbind outcome_bind]. change (REDIS_OK =? REDIS_ERR) with false. cbv iota.
  destruct (from_reader (set_reader r1 c) chunks o objs He Hp1) as [(r2 & -> & Hp2 & _)|(r2 & -> & Hp2 & Hnil)]; cbn [mbind outcome_bind]; change (REDIS_OK =? REDIS_ERR) with false; cbv iota.
  - exists r2. eexists _, chunks. split; [reflexivity|]. by split_and!.
  - destruct (IH (set_reader r2 (set_reader r1 c)) (tick (mk_world (Rd <$> chunks) (w_out w) (w_sent w) (w_clock w))) o objs n) as (r3 & w3 & ch3 & E & H1 & H2 & H3 & H4 & H5);
      [done|done|done|done|done|cbn [length] in Hn; lia|]. exists r3, w3, ch3. split; [exact E|]. by split_and!.
Qed.

(** A call of the blocking client gives the next reply; what is not sent is in the buffer, and nothing is if the reply had not come yet. *)
Lemma get_reply_ok c w o objs ns chunks : c_err c = 0 -> blocking c = true -> w_out w = Wr <$> ns -> (length (s_buf (c_obuf c)) <= sum_list ns)%nat ->
  Z.of_nat (length (s_buf (c_obuf c))) < 2 ^ 31 -> w_in w = Rd <$> chunks -> Forall (fun x => x <> []) chunks -> pending c chunks (o :: objs) ->
  exists c' w' chunks' ns', redisGetReply mem grow strerror c w = Done (REDIS_OK, Some o, c', w') /\ c_err c' = 0 /\ blocking c' = true /\ pending c' chunks' objs /\
    w_in w' = Rd <$> chunks' /\ Forall (fun x => x <> []) chunks' /\ w_out w' = Wr <$> ns' /\ w_sent w' ++ s_buf (c_obuf c') = w_sent w ++ s_buf (c_obuf c) /\
    (s_buf (c_obuf c') = [] \/ c_obuf c' = c_obuf c /\ ns' = ns /\ unread (c_reader c) <> []).
Proof.
  intros He Hbl Hout Hsum Hb Hin Hne Hp. unfold redisGetReply.
  destruct (from_reader c chunks o objs He Hp) as [(r1 & -> & Hp1 & Hu)|(r1 & -> & Hp1 & Hnil)]; cbn [mbind outcome_bind]; change (REDIS_OK =? REDIS_ERR) with false; cbv iota.
  - exists (set_reader r1 c), w, chunks, ns. split_and!; try done. by right.
  - change (blocking (set_reader r1 c)) with (blocking c). rewrite Hbl.
    destruct (write_loop_ok ns (set_reader r1 c) w (S (length (w_out w)))) as (b & w1 & -> & Hb1 & Hin1 & Hs1 & ns1 & Ho1);
      [done|done|done|done|done|rewrite Hout, length_fmap; lia|]. cbn [mbind outcome_bind]. change (REDIS_OK =? REDIS_ERR) with false. cbv iota.
    destruct (read_loop_ok chunks (set_obuf b (set_reader r1 c)) w1 o objs (S (length (w_in w1)))) as (r2 & w2 & ch2 & -> & H1 & H2 & H3 & H4 & H5);
      [done|done|by rewrite Hin1|done|done|rewrite Hin1, Hin, length_fmap; lia|].
    exists (set_reader r2 (set_obuf b (set_reader r1 c))), w2, ch2, ns1. split_and!; try done.
    + by rewrite H3.
    + cbn. by rewrite H4, Hs1, Hb1, app_nil_r.
    + by left.
Qed.

(** Replies one after the other. *)
Fixpoint get_n (n : nat) (c : redisContext) (w : world) : outcome (list redisReply * redisContext * world) :=
  match n with
  | O => Done ([], c, w)
  | S n =>
      '(_, o, c, w) ← redisGetReply mem grow strerror c w;
      match o with
      | None => Done ([], c, w)
      | Some o => '(l, c, w) ← get_n n c w; Done (o :: l, c, w)
      end
  end.

(** After the output was flushed. *)
Lemma get_n_flushed objs : forall c w ns chunks, c_err c = 0 -> blocking c = true -> s_buf (c_obuf c) = [] -> w_out w = Wr <$> ns ->
  w_in w = Rd <$> chunks -> Forall (fun x => x <> []) chunks -> pending c chunks objs ->
  exists c' w', get_n (length objs) c w = Done (objs, c', w') /\ c_err c' = 0 /\ s_buf (c_obuf c') = [] /\ w_sent w' = w_sent w.
Proof.
  induction objs as [|o objs IH]; intros c w ns chunks He Hbl Hob Hout Hin Hne Hp; cbn [length get_n]; [by exists c, w|].
  destruct (get_reply_ok c w o objs ns chunks) as (c1 & w1 & ch1 & ns1 & -> & H1 & H2 & H3 & H4 & H5 & H6 & H7 & H8); try done; [rewrite Hob; cbn; lia|by rewrite Hob|].
  cbn [mbind outcome_bind]. assert (Hob1 : s_buf (c_obuf c1) = []) by (destruct H8 as [|(-> & _)]; done).
  destruct (IH c1 w1 ns1 ch1) as (c2 & w2 & -> & G1 & G2 & G3); [done..|]. exists c2, w2. split; [done|]. split_and!; [done|done|].
  rewrite Hob, Hob1, !app_nil_r in H7. by rewrite G3.
Qed.

Lemma get_n_ok objs c w ns chunks : c_err c = 0 -> blocking c = true -> unread (c_reader c) = [] -> (length (s_buf (c_obuf c)) <= sum_list ns)%nat -> objs <> [] ->
  Z.of_nat (length (s_buf (c_obuf c))) < 2 ^ 31 -> w_out w = Wr <$> ns ->
  w_in w = Rd <$> chunks -> Forall (fun x => x <> []) chunks -> pending c chunks objs ->
  exists c' w', get_n (length objs) c w = Done (objs, c', w') /\ c_err c' = 0 /\ s_buf (c_obuf c') = [] /\ w_sent w' = w_sent w ++ s_buf (c_obuf c).
Proof.
  intros He Hbl Hu Hsum Hne Hb Hout Hin Hch Hp. destruct objs as [|o objs]; [done|]. cbn [length get_n].
  destruct (get_reply_ok c w o objs ns chunks) as (c1 & w1 & ch1 & ns1 & -> & H1 & H2 & H3 & H4 & H5 & H6 & H7 & H8); try done.
  cbn [mbind outcome_bind]. assert (Hob1 : s_buf (c_obuf c1) = []) by (destruct H8 as [|(_ & _ & Hx)]; done).
  destruct (get_n_flushed objs c1 w1 ns1 ch1) as (c2 & w2 & -> & G1 & G2 & G3); [done..|]. exists c2, w2. split; [done|]. split_and!; [done|done|].
  rewrite Hob1, app_nil_r in H7. by rewrite G3.
Qed.

(** Commands are appended, and then their replies are taken. *)
Fixpoint append_all (cmds : list (list (list Z))) (c : redisContext) (w : world) : outcome (redisContext * world) :=
  match cmds with
  | [] => Done (c, w)
  | a :: cmds => '(_, c, w) ← redisAppendCommandArgv grow true c a (Some (lengths a)) w; append_all cmds c w
  end.

Definition pipeline (cmds : list (list (list Z))) (c : redisContext) (w : world) : outcome (list redisReply * redisContext * world) :=
  '(c, w) ← append_all cmds c w; get_n (length cmds) c w.

Definition commands (cmds : list (list (list Z))) : list Z := concat ((fun a => enc (RArray (RBulk <$> a))) <$> cmds).

Lemma append_all_ok cmds : forall c w, c_err c = 0 -> Z.of_nat (length (commands cmds)) < 2 ^ 31 - 1 ->
  exists b w', append_all cmds c w = Done (set_obuf b c, w') /\ s_buf b = s_buf (c_obuf c) ++ commands cmds /\ w_in w' = w_in w /\ w_out w' = w_out w /\ w_sent w' = w_sent w.
Proof.
  induction cmds as [|a cmds IH]; intros c w He Hb; cbn [append_all].
  { exists (c_obuf c), w. unfold commands. cbn. rewrite app_nil_r. split_and!; try done. by destruct c. }
  unfold commands in *. rewrite fmap_cons in *. cbn [concat] in *. fold (commands cmds) in *. rewrite length_app in Hb.
  unfold redisAppendCommandArgv. rewrite format_exact by lia. cbn [of_res mbind outcome_bind append_formatted snd]. unfold __redisAppendCommand. rewrite Hgrow.
  destruct (sdscatlen_ok (c_obuf c) (enc (RArray (RBulk <$> a)))) as (b1 & -> & Hb1).
  destruct (IH (set_obuf b1 c) (tick w)) as (b2 & w2 & E & H1 & H2 & H3 & H4); [done|lia|]. exists b2, w2. split; [exact E|]. split_and!; try done.
  rewrite H1. cbn [c_obuf set_obuf]. by rewrite Hb1, <- app_assoc.
Qed.
End client.

(** C16. Pipelining: on a new blocking connection, commands that are appended one after the other and then waited for give their replies in
    order.  However the system cuts what it accepts of the output and what it delivers of the input, every command is sent exactly once, whole and in
    order, the n-th call of [redisGetReply] returns the n-th reply of the server, and there is no error at the end. *)
Theorem redis_pipeline mem grow strerror cmds rs ns chunks :
  (forall i, mem i = true) -> (forall i, grow i = true) -> length cmds = length rs ->
  Z.of_nat (length (commands cmds)) < 2 ^ 31 - 1 -> (length (commands cmds) <= sum_list ns)%nat ->
  Forall (fun j => resp_okb j = true /\ (depth j <= 3)%nat) rs -> concat chunks = concat (enc <$> rs) -> Forall (fun x => x <> []) chunks ->
  Z.of_nat (length (concat chunks)) < 2 ^ 62 ->
  exists c' w', pipeline mem grow strerror cmds (redisContextInit REDIS_BLOCK) (mk_world (Rd <$> chunks) (Wr <$> ns) [] 0) = Done (obj_of <$> rs, c', w')
    /\ w_sent w' = commands cmds /\ c_err c' = 0.
Proof.
  intros Hmem Hgrow Hlen Hb Hsum Hrs Hch Hne HN. unfold pipeline. destruct (append_all_ok grow Hgrow cmds (redisContextInit REDIS_BLOCK) (mk_world (Rd <$> chunks) (Wr <$> ns) [] 0)) as (b & w1 & -> & H1 & H2 & H3 & H4);
    [done|done|]. cbn [mbind outcome_bind]. cbn [c_obuf redisContextInit s_buf app] in H1. cbn [w_in w_out w_sent] in *. rewrite Hlen.
  destruct rs as [|j rs]; [destruct cmds; [|done]; by exists (set_obuf b (redisContextInit REDIS_BLOCK)), w1|].
  destruct (get_n_ok mem grow strerror Hgrow (obj_of <$> j :: rs) (set_obuf b (redisContextInit REDIS_BLOCK)) w1 ns chunks) as (c2 & w2 & E & G1 & G2 & G3);
    [done|done|done|cbn [c_obuf set_obuf]; by rewrite H1|done|cbn [c_obuf set_obuf]; rewrite H1; lia|done|done|done| |].
  - destruct (stream_reads mem Hmem (j :: rs) 0 Hrs) as (m' & Hr). exists 0, [], root_task, None, 0%nat, m'. split_and!; [apply create_waiting|lia|]. cbn [app]. by rewrite Hch.
  - rewrite length_fmap in E. exists c2, w2. rewrite E. split_and!; [done| |done]. rewrite G3, H4. cbn [c_obuf set_obuf app]. exact H1.
Qed.

Lemma redis_pipeline_witness :
  exists c' w', pipeline (fun _ => true) (fun _ => true) (fun _ => []) [[cs "INCR"; cs "n"]; [cs "GET"; cs "a b"]] (redisContextInit REDIS_BLOCK)
      (mk_world (Rd <$> [cs ":4"; [13]; 10 :: cs "$2" ++ [13; 10]; cs "hi" ++ [13; 10]]) (Wr <$> [7%nat; 0%nat; 100%nat]) [] 0)
    = Done ([obj_of (RInt 4); obj_of (RBulk (cs "hi"))], c', w')
    /\ w_sent w' = commands [[cs "INCR"; cs "n"]; [cs "GET"; cs "a b"]] /\ c_err c' = 0.
Proof.
  apply (redis_pipeline (fun _ => true) (fun _ => true) (fun _ => []) [[cs "INCR"; cs "n"]; [cs "GET"; cs "a b"]] [RInt 4; RBulk (cs "hi")]
    [7%nat; 0%nat; 100%nat] [cs ":4"; [13]; 10 :: cs "$2" ++ [13; 10]; cs "hi" ++ [13; 10]]).
  - done.
  - done.
  - done.
  - vm_compute. reflexivity.
  - apply (bool_decide_unpack _). vm_compute. exact I.
  - apply (bool_decide_unpack _). vm_compute. exact I.
  - vm_compute. reflexivity.
  - apply (bool_decide_unpack _). vm_compute. exact I.
  - vm_compute. reflexivity.
Defined.
