(* ===== verification/RedisAsync.v ===== *)
(** * The asynchronous client of hiredis

    packages/redis/async.c: commands with callbacks, the queue of the callbacks that wait for a reply, subscriptions, and the end of a
    connection.  What the library does to its surroundings is a trace of events; [EAccept] records that a callback was queued for a command.  The program is a
    parameter: what a callback does is a list of calls of the library, which may depend on everything that happened before.  [s_live] is false after the
    context was freed.  A queue with head and tail is a list, the dictionaries are those of RedisDict.v; [ac->errstr] is an alias of the text of the
    context.  The allocations of callbacks, which the code does not check, succeed. *)

From S2P Require Import Prelude CString Session Digits Redirect Sds RedisDict Hiredis HiredisSpec HiredisReply HiredisCommand HiredisContext.

(** [fn] is [NULL] or a function. *)
Record redisCallback := mk_cb { cb_fn : option Z; cb_privdata : Z }.

Inductive event : Type :=
  | EAccept (cb : redisCallback) (cmd : list Z)
  | ECall (fn : Z) (reply : option redisReply) (privdata : Z)
  | EAddRead
  | EAddWrite
  | EDelWrite
  | ECleanup
  | EConnect (fn status : Z)
  | EDisconnect (fn status : Z).

(** What a program does in a callback. *)
Inductive action : Type :=
  | ACommand (cb : redisCallback) (argv : list (list Z))
  | ADisconnect
  | AFree.

Record redisAsyncContext := mk_async {
  a_c : redisContext;
  a_err : Z;
  a_hooks : bool;
  a_onConnect : option Z;
  a_onDisconnect : option Z;
  a_replies : list redisCallback;
  a_invalid : list redisCallback;
  a_channels : dict redisCallback;
  a_patterns : dict redisCallback
}.

Record astate := mk_ast { s_ac : redisAsyncContext; s_live : bool; s_w : world; s_tr : list event }.

Definition a_flags (st : astate) : Z := c_flags (a_c (s_ac st)).
Definition flagged (f : Z) (st : astate) : bool := has_flag (a_flags st) f.

Definition set_ac (ac : redisAsyncContext) (st : astate) : astate := mk_ast ac (s_live st) (s_w st) (s_tr st).
Definition set_c (c : redisContext) (st : astate) : astate :=
  let a := s_ac st in set_ac (mk_async c (a_err a) (a_hooks a) (a_onConnect a) (a_onDisconnect a) (a_replies a) (a_invalid a) (a_channels a) (a_patterns a)) st.
Definition set_a_err (e : Z) (st : astate) : astate :=
  let a := s_ac st in set_ac (mk_async (a_c a) e (a_hooks a) (a_onConnect a) (a_onDisconnect a) (a_replies a) (a_invalid a) (a_channels a) (a_patterns a)) st.
Definition set_replies (l : list redisCallback) (st : astate) : astate :=
  let a := s_ac st in set_ac (mk_async (a_c a) (a_err a) (a_hooks a) (a_onConnect a) (a_onDisconnect a) l (a_invalid a) (a_channels a) (a_patterns a)) st.
Definition set_invalid (l : list redisCallback) (st : astate) : astate :=
  let a := s_ac st in set_ac (mk_async (a_c a) (a_err a) (a_hooks a) (a_onConnect a) (a_onDisconnect a) (a_replies a) l (a_channels a) (a_patterns a)) st.
Definition set_channels (d : dict redisCallback) (st : astate) : astate :=
  let a := s_ac st in set_ac (mk_async (a_c a) (a_err a) (a_hooks a) (a_onConnect a) (a_onDisconnect a) (a_replies a) (a_invalid a) d (a_patterns a)) st.
Definition set_patterns (d : dict redisCallback) (st : astate) : astate :=
  let a := s_ac st in set_ac (mk_async (a_c a) (a_err a) (a_hooks a) (a_onConnect a) (a_onDisconnect a) (a_replies a) (a_invalid a) (a_channels a) d) st.
Definition set_w (w : world) (st : astate) : astate := mk_ast (s_ac st) (s_live st) w (s_tr st).
Definition log (e : event) (st : astate) : astate := mk_ast (s_ac st) (s_live st) (s_w st) (s_tr st ++ [e]).
Definition raise (f : Z) (st : astate) : astate := set_c (set_flags (add_flag (a_flags st) f) (a_c (s_ac st))) st.
Definition lower (f : Z) (st : astate) : astate := set_c (set_flags (del_flag (a_flags st) f) (a_c (s_ac st))) st.

(** The macros [_EL_*]: a hook that is set is called. *)
Definition hook (e : event) (st : astate) : astate := if a_hooks (s_ac st) then log e st else st.

(** [redisAsyncInitialize] of a non-blocking context. *)
Definition redisAsyncInitialize (c : redisContext) : redisAsyncContext :=
  mk_async (set_flags (del_flag (c_flags c) REDIS_CONNECTED) c) 0 false None None [] [] dictCreate dictCreate.

Definition __redisAsyncCopyError (st : astate) : astate := set_a_err (c_err (a_c (s_ac st))) st.

Definition redisAsyncSetConnectCallback (fn : Z) (st : astate) : Z * astate :=
  let a := s_ac st in
  match a_onConnect a with
  | None => (REDIS_OK, hook EAddWrite (set_ac (mk_async (a_c a) (a_err a) (a_hooks a) (Some fn) (a_onDisconnect a) (a_replies a) (a_invalid a) (a_channels a) (a_patterns a)) st))
  | Some _ => (REDIS_ERR, st)
  end.

Definition redisAsyncSetDisconnectCallback (fn : Z) (st : astate) : Z * astate :=
  let a := s_ac st in
  match a_onDisconnect a with
  | None => (REDIS_OK, set_ac (mk_async (a_c a) (a_err a) (a_hooks a) (a_onConnect a) (Some fn) (a_replies a) (a_invalid a) (a_channels a) (a_patterns a)) st)
  | Some _ => (REDIS_ERR, st)
  end.

Definition __redisPushCallback (l : list redisCallback) (cb : redisCallback) : list redisCallback := l ++ [cb].
Definition __redisShiftCallback (l : list redisCallback) : option (redisCallback * list redisCallback) :=
  match l with cb :: l => Some (cb, l) | [] => None end.

(** ** The arguments of a command *)

Fixpoint digits_prefix (s : list Z) : list Z := match s with c :: s' => if is_digit c then c :: digits_prefix s' else [] | [] => [] end.

(** [strtol] of the library, in base 10. *)
Definition strtol10 (s : list Z) : Z :=
  let s := skip_spaces s in
  let '(neg, s) := if char_at s 0 =? ch "-" then (true, tail s) else if char_at s 0 =? ch "+" then (false, tail s) else (false, s) in
  let v := run_value 0 (digits_prefix s) in
  Z.max (- 2 ^ 63) (Z.min (2 ^ 63 - 1) (if neg then - v else v)).

(** The argument at or after [start]: its bytes and what follows them, its length, and the next argument; [None] for [NULL]. *)
Definition nextArgument (start : list Z) : res (option (list Z * Z * list Z)) :=
  match (if char_at start 0 =? ch "$" then Some start else strstr1 start (ch "$")) with
  | None => Ret None
  | Some p =>
      let len := wrap 64 (swrap 32 (strtol10 (tail p))) in
      match strstr1 p 13 with
      | None => Fault AssertFail
      | Some p =>
          let str := drop 2 p in
          if len + 2 <=? Z.of_nat (length str) then Ret (Some (str, len, drop (Z.to_nat (len + 2)) str)) else Fault OutOfBounds
      end
  end.

Definition strncasecmp (a b : list Z) (n : nat) : Z := strncmp (tolower <$> a) (tolower <$> b) n.

(** Every channel or pattern gets a copy of the callback; an argument takes at least a byte. *)
Fixpoint subscribe_loop (n : nat) (p : list Z) (cb : redisCallback) (d : dict redisCallback) : outcome (dict redisCallback) :=
  match n with
  | O => NoFuel
  | S n =>
      a ← of_res (nextArgument p);
      match a with
      | None => Done d
      | Some (astr, alen, p) =>
          sname ← of_res (read_bytes astr alen);
          '(_, d) ← of_res (dictReplace d sname cb);
          subscribe_loop n p cb d
      end
  end.

Section async.
Variables (mem grow : nat -> bool) (strerror : Z -> list Z).
(** The callbacks of the program, and its callback for the connection. *)
Variable app : list event -> Z -> option redisReply -> Z -> list action.
Variable conn_app : list event -> Z -> Z -> list action.

Definition __redisAsyncCommand (st : astate) (cb : redisCallback) (cmd : list Z) : outcome (Z * astate) :=
  if flagged (Z.lor REDIS_DISCONNECTING REDIS_FREEING) st then Done (REDIS_ERR, st)
  else
    a ← of_res (nextArgument cmd);
    match a with
    | None => Crash AssertFail
    | Some (cstr, clen, p) =>
        let hasnext := char_at p 0 =? ch "$" in
        let pvariant := tolower (char_at cstr 0) =? ch "p" in
        let cstr := if pvariant then tail cstr else cstr in
        let send st :=
          let '(_, c, w) := __redisAppendCommand grow (a_c (s_ac st)) cmd (s_w st) in
          Done (REDIS_OK, hook EAddWrite (set_w w (set_c c st))) in
        if hasnext && (strncasecmp cstr (cs "subscribe" ++ crlf) 11 =? 0) then
          let st := raise REDIS_SUBSCRIBED st in
          if pvariant then d ← subscribe_loop (S (length p)) p cb (a_patterns (s_ac st)); send (set_patterns d st)
          else d ← subscribe_loop (S (length p)) p cb (a_channels (s_ac st)); send (set_channels d st)
        else if strncasecmp cstr (cs "unsubscribe" ++ crlf) 13 =? 0 then
          if flagged REDIS_SUBSCRIBED st then send st else Done (REDIS_ERR, st)
        else if flagged REDIS_SUBSCRIBED st then send (set_invalid (__redisPushCallback (a_invalid (s_ac st)) cb) st)
        else send (log (EAccept cb cmd) (set_replies (__redisPushCallback (a_replies (s_ac st)) cb) st))
    end.

(** Without a command the uninitialised pointer is used. *)
Definition redisAsyncCommandArgv (st : astate) (cb : redisCallback) (argv : list (list Z)) (argvlen : option (list Z)) : outcome (Z * astate) :=
  x ← of_res (redisFormatCommandArgv (grow (w_clock (s_w st))) argv argvlen);
  let st := set_w (tick (s_w st)) st in
  match snd x with None => Crash Uninitialised | Some cmd => __redisAsyncCommand st cb cmd end.

Definition redisvAsyncCommand (fmem : nat -> bool) (printf : list Z -> vararg -> list Z) (st : astate) (cb : redisCallback) (format : list Z) (ap : list vararg)
    : outcome (Z * astate) :=
  x ← redisvFormatCommand fmem printf format ap;
  match snd x with None => Crash Uninitialised | Some cmd => __redisAsyncCommand st cb cmd end.

(** ** The end of a connection *)

(** [now] is what happens outside of a callback. *)
Definition free_with (now : astate -> outcome astate) (st : astate) : outcome astate :=
  let st := raise REDIS_FREEING st in
  if flagged REDIS_IN_CALLBACK st then Done st else now st.

Definition disconnect_with (now : astate -> outcome astate) (st : astate) : outcome astate :=
  let st := raise REDIS_DISCONNECTING st in
  match a_replies (s_ac st) with
  | [] => if flagged REDIS_IN_CALLBACK st then Done st else now st
  | _ => Done st
  end.

Fixpoint run_actions (now_disconnect now_free : astate -> outcome astate) (acts : list action) (st : astate) : outcome astate :=
  match acts with
  | [] => Done st
  | a :: acts =>
      if s_live st then
        st ← match a with
             | ACommand cb argv => '(_, st) ← redisAsyncCommandArgv st cb argv (Some (lengths argv)); Done st
             | ADisconnect => disconnect_with now_disconnect st
             | AFree => free_with now_free st
             end;
        run_actions now_disconnect now_free acts st
      else Crash UseAfterFree
  end.

(** In a callback the flag is set, and nothing happens at once. *)
Definition in_callback : astate -> outcome astate := fun _ => Crash AbortCall.

Definition __redisRunCallback (cb : redisCallback) (reply : option redisReply) (st : astate) : outcome astate :=
  match cb_fn cb with
  | None => Done st
  | Some fn =>
      let acts := app (s_tr st) fn reply (cb_privdata cb) in
      st ← run_actions in_callback in_callback acts (log (ECall fn reply (cb_privdata cb)) (raise REDIS_IN_CALLBACK st));
      Done (lower REDIS_IN_CALLBACK st)
  end.

(** [while (__redisShiftCallback(list,&cb) == REDIS_OK) __redisRunCallback(ac,&cb,NULL);] *)
Fixpoint drain (n : nat) (get : astate -> list redisCallback) (set : list redisCallback -> astate -> astate) (st : astate) : outcome astate :=
  match n with
  | O => NoFuel
  | S n =>
      match __redisShiftCallback (get st) with
      | None => Done st
      | Some (cb, l) => st ← __redisRunCallback cb None (set l st); drain n get set st
      end
  end.

(** The callbacks of a dictionary; while the context is freed no command is accepted, and the dictionary stays as it is. *)
Fixpoint run_entries (l : list (dictEntry redisCallback)) (st : astate) : outcome astate :=
  match l with [] => Done st | e :: l => st ← __redisRunCallback (e_val e) None st; run_entries l st end.

Definition __redisAsyncFree (st : astate) : outcome astate :=
  st ← drain (S (length (a_replies (s_ac st)))) (fun st => a_replies (s_ac st)) set_replies st;
  st ← drain (S (length (a_invalid (s_ac st)))) (fun st => a_invalid (s_ac st)) set_invalid st;
  l ← of_res (dict_entries (a_channels (s_ac st)));
  st ← run_entries l st;
  l ← of_res (dict_entries (a_patterns (s_ac st)));
  st ← run_entries l (set_channels dictCreate st);
  let st := hook ECleanup (set_patterns dictCreate st) in
  let st :=
    match a_onDisconnect (s_ac st) with
    | Some fn =>
        if flagged REDIS_CONNECTED st then
          log (EDisconnect fn (if flagged REDIS_FREEING st then REDIS_OK else if a_err (s_ac st) =? 0 then REDIS_OK else REDIS_ERR)) st
        else st
    | None => st
    end in
  Done (mk_ast (s_ac st) false (s_w st) (s_tr st)).

(** A clean disconnect asserts that no callback waits. *)
Definition __redisAsyncDisconnect (st : astate) : outcome astate :=
  let st := __redisAsyncCopyError st in
  if a_err (s_ac st) =? 0 then
    match __redisShiftCallback (a_replies (s_ac st)) with
    | None => __redisAsyncFree st
    | Some _ => Crash AssertFail
    end
  else __redisAsyncFree (raise REDIS_DISCONNECTING st).

Definition redisAsyncFree (st : astate) : outcome astate := free_with __redisAsyncFree st.
Definition redisAsyncDisconnect (st : astate) : outcome astate := disconnect_with __redisAsyncDisconnect st.

(** ** Replies *)

(** An element of an array: [reply->element[i]]. *)
Definition element (reply : redisReply) (i : nat) : res redisReply :=
  match rp_element reply with
  | None => Fault NullDeref
  | Some l => match l !! i with Some (Some r) => Ret r | Some None => Fault NullDeref | None => Fault OutOfBounds end
  end.

Definition assert_type (r : redisReply) (t : Z) : res unit := if rp_type r =? t then Ret tt else Fault AssertFail.

(** The text of an object. *)
Definition str_of (r : redisReply) : res (list Z) := match rp_str r with Some s => Ret s | None => Fault NullDeref end.

(** [dstcb] stays what it was when there is no callback. *)
Definition __redisGetSubscribeCallback (st : astate) (reply : redisReply) (dstcb : option redisCallback) : res (option redisCallback * astate) :=
  if rp_type reply =? REDIS_REPLY_ARRAY then
    if rp_elements reply <? 2 then Fault AssertFail
    else
      e0 ← element reply 0;
      _ ← assert_type e0 REDIS_REPLY_STRING;
      stype ← str_of e0;
      let pvariant := tolower (char_at stype 0) =? ch "p" in
      let callbacks := if pvariant then a_patterns (s_ac st) else a_channels (s_ac st) in
      e1 ← element reply 1;
      _ ← assert_type e1 REDIS_REPLY_STRING;
      sname ← str_of e1;
      de ← dictFind callbacks sname;
      match de with
      | None => Ret (dstcb, st)
      | Some e =>
          if strncasecmp (if pvariant then tail stype else stype) (cs "unsubscribe") 12 =? 0 then
            '(_, d) ← dictDelete callbacks sname;
            let st := if pvariant then set_patterns d st else set_channels d st in
            e2 ← element reply 2;
            _ ← assert_type e2 REDIS_REPLY_INTEGER;
            Ret (Some (e_val e), if rp_integer e2 =? 0 then lower REDIS_SUBSCRIBED st else st)
          else Ret (Some (e_val e), st)
      end
  else
    match __redisShiftCallback (a_invalid (s_ac st)) with
    | None => Ret (dstcb, st)
    | Some (cb, l) => Ret (Some cb, set_invalid l st)
    end.

(** The text of an error as [%s] prints it. *)
Definition text_of (reply : redisReply) : list Z := let s := default [] (rp_str reply) in take (strlen s) s.

(** The loop over the replies; [cb] is the variable of the function, which starts uninitialised. *)
Fixpoint process_callbacks (n : nat) (cb : option redisCallback) (st : astate) : outcome astate :=
  match n with
  | O => NoFuel
  | S n =>
      '(status, reply, c, w) ← redisGetReply mem grow strerror (a_c (s_ac st)) (s_w st);
      let st := set_w w (set_c c st) in
      if status =? REDIS_OK then
        match reply with
        | None => if flagged REDIS_DISCONNECTING st && (sdslen (c_obuf (a_c (s_ac st))) =? 0) then __redisAsyncDisconnect st else Done st
        | Some reply =>
            let deliver cb st :=
              match cb with
              | None => Crash Uninitialised
              | Some x =>
                  match cb_fn x with
                  | Some _ =>
                      st ← __redisRunCallback x (Some reply) st;
                      if flagged REDIS_FREEING st then __redisAsyncFree st else process_callbacks n cb st
                  | None => process_callbacks n cb st
                  end
              end in
            match __redisShiftCallback (a_replies (s_ac st)) with
            | Some (x, l) => deliver (Some x) (set_replies l st)
            | None =>
                if negb (flagged REDIS_SUBSCRIBED st) && (rp_type reply =? REDIS_REPLY_ERROR) then
                  let c := a_c (s_ac st) in
                  __redisAsyncDisconnect (set_c (mk_ctx REDIS_ERR_OTHER (printed 128 (text_of reply)) (c_flags c) (c_obuf c) (c_reader c)) st)
                else if negb (flagged REDIS_SUBSCRIBED st) then Crash AssertFail
                else '(cb, st) ← of_res (__redisGetSubscribeCallback st reply cb); deliver cb st
            end
        end
      else __redisAsyncDisconnect st
  end.

(** A turn takes a reply from the unread bytes. *)
Definition redisProcessCallbacks (st : astate) : outcome astate :=
  process_callbacks (S (S (length (unread (c_reader (a_c (s_ac st))))))) None st.

(** ** Events of the socket *)

Definition EINPROGRESS : Z := 115.

(** The callback for the connection, outside of [REDIS_IN_CALLBACK]. *)
Definition run_connect (status : Z) (st : astate) : outcome astate :=
  match a_onConnect (s_ac st) with
  | None => Done st
  | Some fn => run_actions redisAsyncDisconnect redisAsyncFree (conn_app (s_tr st) fn status) (log (EConnect fn status) st)
  end.

Definition live_only (st : astate) : outcome astate := if s_live st then Done st else Crash UseAfterFree.

(** [sock] is the error of the socket with its text, if there is one. *)
Definition __redisAsyncHandleConnect (sock : option (Z * list Z)) (st : astate) : outcome (Z * astate) :=
  match sock with
  | Some (errno, text) =>
      let st := set_c (__redisSetError REDIS_ERR_IO text (a_c (s_ac st))) st in
      if errno =? EINPROGRESS then Done (REDIS_OK, st)
      else
        st ← run_connect REDIS_ERR st;
        st ← live_only st;
        st ← __redisAsyncDisconnect st;
        Done (REDIS_ERR, st)
  | None =>
      st ← run_connect REDIS_OK (raise REDIS_CONNECTED st);
      Done (REDIS_OK, st)
  end.

(** The first event of a connection; [false] when the handler returns. *)
Definition handle_connect (sock : option (Z * list Z)) (st : astate) : outcome (bool * astate) :=
  if flagged REDIS_CONNECTED st then Done (true, st)
  else
    '(status, st) ← __redisAsyncHandleConnect sock st;
    if status =? REDIS_OK then st ← live_only st; Done (flagged REDIS_CONNECTED st, st) else Done (false, st).

Definition redisAsyncHandleRead (sock : option (Z * list Z)) (st : astate) : outcome astate :=
  '(go, st) ← handle_connect sock st;
  if (go : bool) then
    '(status, c, w) ← redisBufferRead grow strerror (a_c (s_ac st)) (s_w st);
    let st := set_w w (set_c c st) in
    if status =? REDIS_ERR then __redisAsyncDisconnect st else redisProcessCallbacks (hook EAddRead st)
  else Done st.

Definition redisAsyncHandleWrite (sock : option (Z * list Z)) (st : astate) : outcome astate :=
  '(go, st) ← handle_connect sock st;
  if (go : bool) then
    '(status, wdone, c, w) ← redisBufferWrite grow strerror (a_c (s_ac st)) (s_w st);
    let st := set_w w (set_c c st) in
    if status =? REDIS_ERR then __redisAsyncDisconnect st
    else Done (hook EAddRead (hook (if (wdone : bool) then EDelWrite else EAddWrite) st))
  else Done st.
End async.

(** ** Flags *)

Class Pow2 (f : Z) := pow2 : exists j, 0 <= j /\ f = 2 ^ j.
#[local] Ltac solve_pow2 k := exists k; split; [lia|reflexivity].
#[export] Instance pow2_block : Pow2 REDIS_BLOCK. Proof. solve_pow2 0. Qed.
#[export] Instance pow2_connected : Pow2 REDIS_CONNECTED. Proof. solve_pow2 1. Qed.
#[export] Instance pow2_disconnecting : Pow2 REDIS_DISCONNECTING. Proof. solve_pow2 2. Qed.
#[export] Instance pow2_freeing : Pow2 REDIS_FREEING. Proof. solve_pow2 3. Qed.
#[export] Instance pow2_in_callback : Pow2 REDIS_IN_CALLBACK. Proof. solve_pow2 4. Qed.
#[export] Instance pow2_subscribed : Pow2 REDIS_SUBSCRIBED. Proof. solve_pow2 5. Qed.

Lemma has_flag_bit x k : 0 <= k -> has_flag x (2 ^ k) = Z.testbit x k.
Proof.
  intros Hk. unfold has_flag. destruct (Z.eqb_spec (Z.land x (2 ^ k)) 0) as [E|E]; cbn [negb].
  - apply (f_equal (fun z => Z.testbit z k)) in E. rewrite Z.land_spec, Z.pow2_bits_true, andb_true_r, Z.bits_0 in E by done. done.
  - destruct (Z.testbit x k) eqn:Ex; [done|]. exfalso. apply E. apply Z.bits_inj'. intros i Hi. rewrite Z.land_spec, Z.bits_0.
    destruct (Z.eq_dec i k) as [->|]; [by rewrite Ex|]. rewrite (Z.pow2_bits_false k i) by lia. apply andb_false_r.
Qed.

Lemma has_flag_add x f g : Pow2 f -> Pow2 g -> has_flag (add_flag x f) g = has_flag x g || (f =? g).
Proof.
  intros (j & Hj & ->) (k & Hk & ->). rewrite !has_flag_bit by done. unfold add_flag. rewrite Z.lor_spec, Z.pow2_bits_eqb by done.
  f_equal. destruct (Z.eqb_spec j k) as [->|Hn]; [by rewrite Z.eqb_refl|]. symmetry. apply Z.eqb_neq. intros E. apply Hn. by apply Z.pow_inj_r in E.
Qed.

Lemma has_flag_del x f g : Pow2 f -> Pow2 g -> has_flag (del_flag x f) g = has_flag x g && negb (f =? g).
Proof.
  intros (j & Hj & ->) (k & Hk & ->). rewrite !has_flag_bit by done. unfold del_flag. rewrite Z.land_spec, Z.lnot_spec, Z.pow2_bits_eqb by done.
  do 2 f_equal. destruct (Z.eqb_spec j k) as [->|Hn]; [by rewrite Z.eqb_refl|]. symmetry. apply Z.eqb_neq. intros E. apply Hn. by apply Z.pow_inj_r in E.
Qed.

Lemma has_flag_lor x f g : Pow2 f -> Pow2 g -> has_flag x (Z.lor f g) = has_flag x f || has_flag x g.
Proof.
  intros (j & Hj & ->) (k & Hk & ->). rewrite !has_flag_bit by done. unfold has_flag. rewrite Z.land_lor_distr_r.
  destruct (Z.eqb_spec (Z.lor (Z.land x (2 ^ j)) (Z.land x (2 ^ k))) 0) as [E|E]; cbn [negb].
  - apply Z.lor_eq_0_iff in E as [E1 E2]. rewrite <- (has_flag_bit x j), <- (has_flag_bit x k) by done. unfold has_flag. by rewrite E1, E2.
  - rewrite <- (has_flag_bit x j), <- (has_flag_bit x k) by done. unfold has_flag.
    destruct (Z.eqb_spec (Z.land x (2 ^ j)) 0) as [E1|]; [|done]. destruct (Z.eqb_spec (Z.land x (2 ^ k)) 0) as [E2|]; [|done]. by rewrite E1, E2 in E.
Qed.

Lemma flagged_raise f g st : Pow2 f -> Pow2 g -> flagged g (raise f st) = flagged g st || (f =? g).
Proof. intros Hf Hg. exact (has_flag_add _ f g Hf Hg). Qed.

Lemma flagged_lower f g st : Pow2 f -> Pow2 g -> flagged g (lower f st) = flagged g st && negb (f =? g).
Proof. intros Hf Hg. exact (has_flag_del _ f g Hf Hg). Qed.

(** ** The first argument of a command *)

Lemma digits_prefix_run ds rest : Forall (fun c => is_digit c = true) ds -> is_digit (char_at rest 0) = false -> digits_prefix (ds ++ rest) = ds.
Proof.
  intros Hd Hr. induction Hd as [|c ds Hc _ IH]; cbn [app digits_prefix].
  - destruct rest as [|c rest]; [done|]. change (char_at (c :: rest) 0) with c in Hr. cbn [digits_prefix]. by rewrite Hr.
  - by rewrite Hc, IH.
Qed.

Lemma strtol10_decimal z rest : 0 <= z < 2 ^ 31 -> strtol10 (decimal z ++ crlf ++ rest) = z.
Proof.
  intros Hz. unfold decimal. rewrite (proj2 (Z.ltb_ge z 0)) by lia. destruct (digits_run 20 z []) as (c & ds & -> & Hd & Hv & _); [lia|lia|]. rewrite app_nil_r.
  inversion Hd as [|? ? Hc _]; subst. unfold is_digit in Hc. apply andb_true_iff in Hc as [?%Z.leb_le ?%Z.leb_le]. unfold strtol10.
  assert (Hs : skip_spaces ((c :: ds) ++ crlf ++ rest) = (c :: ds) ++ crlf ++ rest).
  { cbn [app skip_spaces]. unfold isspace. rewrite (proj2 (Z.eqb_neq c 32)), (proj2 (Z.leb_le 9 c)), (proj2 (Z.leb_gt c 13)) by lia. done. }
  rewrite Hs. change (char_at ((c :: ds) ++ crlf ++ rest) 0) with c. change (ch "-") with 45. change (ch "+") with 43.
  rewrite (proj2 (Z.eqb_neq c 45)), (proj2 (Z.eqb_neq c 43)) by lia. rewrite digits_prefix_run by done. lia.
Qed.

Lemma strstr1_skip x s rest : Forall (fun c => c <> 0 /\ c <> x) s -> strstr1 (s ++ rest) x = strstr1 rest x.
Proof. induction 1 as [|c s [H0 Hx] _ IH]; [done|]. cbn [app strstr1]. by rewrite (proj2 (Z.eqb_neq c 0)), (proj2 (Z.eqb_neq c x)). Qed.

Lemma decimal_chars z x : 0 <= z < 2 ^ 31 -> is_digit x = false -> Forall (fun c => c <> 0 /\ c <> x) (decimal z).
Proof.
  intros Hz Hx. unfold decimal. rewrite (proj2 (Z.ltb_ge z 0)) by lia. destruct (digits_run 20 z []) as (c & ds & -> & Hd & _); [lia|lia|]. rewrite app_nil_r.
  eapply Forall_impl; [exact Hd|]. cbn beta. intros d Hd'. split; intros ->; [done|by rewrite Hd' in Hx].
Qed.

Lemma next_bulk a rest : Z.of_nat (length a) < 2 ^ 31 -> nextArgument (enc (RBulk a) ++ rest) = Ret (Some (a ++ crlf ++ rest, Z.of_nat (length a), rest)).
Proof.
  intros Ha. unfold nextArgument. cbn [enc app]. change (char_at (ch "$" :: _) 0 =? ch "$") with true. cbv iota. cbn [tail]. rewrite <- !app_assoc.
  rewrite strtol10_decimal, swrap_small, wrap_small by (try change (32 - 1) with 31; lia). cbn [strstr1]. change (ch "$" =? 0) with false. change (ch "$" =? 13) with false. cbv iota.
  rewrite (strstr1_skip 13 (decimal _)) by (apply decimal_chars; done || lia). cbn [app crlf strstr1]. change (13 =? 0) with false. change (13 =? 13) with true. cbv iota.
  change (drop 2 _) with (a ++ crlf ++ rest). rewrite !length_app, (proj2 (Z.leb_le _ _)) by (cbn [length crlf]; lia). do 3 f_equal.
  replace (Z.to_nat (Z.of_nat (length a) + 2)) with (length a + 2)%nat by lia. rewrite <- drop_drop, drop_app_length. done.
Qed.

Lemma next_first a argv : Z.of_nat (length (enc (RArray (RBulk <$> a :: argv)))) < 2 ^ 31 - 1 ->
  nextArgument (enc (RArray (RBulk <$> a :: argv))) = Ret (Some (a ++ crlf ++ bulks argv, Z.of_nat (length a), bulks argv)).
Proof.
  intros Hb. pose proof (command_args (a :: argv) a Hb ltac:(by left)) as Ha. pose proof (bulks_ge (a :: argv)) as Hg. pose proof (command_length (a :: argv)) as Hl.
  rewrite <- (next_bulk a (bulks argv) Ha). rewrite enc_command. unfold nextArgument at 1. change (char_at (ch "*" :: _) 0 =? ch "$") with false. cbv iota.
  cbn [strstr1]. change (ch "*" =? 0) with false. change (ch "*" =? ch "$") with false. cbv iota. rewrite (strstr1_skip (ch "$") (decimal _)) by (apply decimal_chars; done || lia).
  cbn [app crlf strstr1]. change (13 =? 0) with false. change (13 =? ch "$") with false. change (10 =? 0) with false. change (10 =? ch "$") with false. cbv iota.
  unfold bulks at 1. rewrite fmap_cons. cbn [concat]. fold (bulks argv). unfold nextArgument.
  change (char_at (enc (RBulk a) ++ bulks argv) 0 =? ch "$") with true. cbv iota.
  change (strstr1 (enc (RBulk a) ++ bulks argv) (ch "$")) with (Some (enc (RBulk a) ++ bulks argv)). done.
Qed.
