(* ===== verification/RedisAsyncSpec.v ===== *)
(** * Theorems on the asynchronous client

    Every command that the client of RedisAsync.v accepts has its callback called once, in the order of the commands, with the reply of the
    server or, at the end of the connection, with [NULL] ([redis_callbacks_once]). *)

From S2P Require Import Prelude CString Session Digits Redirect Sds RedisDict Hiredis HiredisSpec HiredisReply HiredisCommand HiredisContext RedisAsync.

(** ** Commands that do not subscribe *)

Lemma strncmp_zero_prefix b a : Forall (fun c => c <> 0) b -> strncmp a b (length b) = 0 -> b `prefix_of` a.
Proof.
  intros Hb. revert a. induction Hb as [|c b Hc _ IH]; intros a Ha; [apply prefix_nil|]. destruct a as [|d a]; cbn in Ha.
  - destruct (0 =? c) eqn:E; [by apply Z.eqb_eq in E; subst|lia].
  - destruct (Z.eqb_spec d c) as [->|]; [|lia]. rewrite (proj2 (Z.eqb_neq c 0)) in Ha by done. by apply prefix_cons, IH.
Qed.

Lemma prefix_before (x : Z) w t r : x ∉ w -> w `prefix_of` t ++ x :: r -> w `prefix_of` t.
Proof.
  revert t. induction w as [|c w IH]; intros t Hx Hp; [apply prefix_nil|]. apply not_elem_of_cons in Hx as [Hc Hw]. destruct t as [|d t]; cbn [app] in Hp.
  - apply prefix_cons_inv_1 in Hp. by subst.
  - pose proof (prefix_cons_inv_1 _ _ _ _ Hp) as ->. apply prefix_cons, IH; [done|]. by apply prefix_cons_inv_2 in Hp.
Qed.

(** The name without the [p] of the pattern variants. *)
Definition base_name (a : list Z) : list Z := if tolower (char_at a 0) =? ch "p" then tail a else a.
Definition plain_name (a : list Z) : bool := negb (bool_decide (cs "subscribe" `prefix_of` (tolower <$> base_name a))).

Lemma name_in_command a r : (if tolower (char_at (a ++ crlf ++ r) 0) =? ch "p" then tail (a ++ crlf ++ r) else a ++ crlf ++ r) = base_name a ++ crlf ++ r.
Proof. unfold base_name. destruct a as [|c a]; [done|]. change (char_at ((c :: a) ++ crlf ++ r) 0) with c. change (char_at (c :: a) 0) with c. by destruct (_ =? _). Qed.

Lemma plain_compare a r : plain_name a = true -> (strncasecmp (base_name a ++ crlf ++ r) (cs "subscribe" ++ crlf) 11 =? 0) = false.
Proof.
  intros Hp. apply Z.eqb_neq. intros E. unfold plain_name in Hp. apply negb_true_iff, bool_decide_eq_false in Hp. apply Hp.
  unfold strncasecmp in E. change 11%nat with (length (tolower <$> cs "subscribe" ++ crlf)) in E.
  apply strncmp_zero_prefix in E; [|apply (bool_decide_unpack _); vm_compute; exact I].
  rewrite (fmap_app _ (base_name a)) in E. change (tolower <$> crlf ++ r) with (13 :: 10 :: (tolower <$> r)) in E.
  assert (Hw : cs "subscribe" `prefix_of` (tolower <$> base_name a) ++ 13 :: 10 :: (tolower <$> r)).
  { etrans; [|exact E]. exists crlf. vm_compute. reflexivity. }
  apply prefix_before in Hw; [done|]. apply (bool_decide_unpack _). vm_compute. exact I.
Qed.

(** A command that has a name, fits in a buffer and is no subscription. *)
Definition plain_argv (argv : list (list Z)) : Prop :=
  Z.of_nat (length (enc (RArray (RBulk <$> argv)))) < 2 ^ 31 - 1 /\ match argv with [] => False | a :: _ => plain_name a = true end.

(** ** Traces *)

Definition call : Type := Z * option redisReply * Z.
Definition accepted (tr : list event) : list (redisCallback * list Z) := omap (fun e => match e with EAccept cb cmd => Some (cb, cmd) | _ => None end) tr.
Definition calls (tr : list event) : list call := omap (fun e => match e with ECall fn reply p => Some (fn, reply, p) | _ => None end) tr.

Lemma accepted_app t1 t2 : accepted (t1 ++ t2) = accepted t1 ++ accepted t2.
Proof. apply omap_app. Qed.
Lemma calls_app t1 t2 : calls (t1 ++ t2) = calls t1 ++ calls t2.
Proof. apply omap_app. Qed.

(** What the library does while the program runs: calls [cs], and new commands. *)
Record moved (cs : list call) (new : list (redisCallback * list Z)) (st st' : astate) : Prop := {
  mv_live : s_live st' = s_live st;
  mv_ond : a_onDisconnect (s_ac st') = a_onDisconnect (s_ac st);
  mv_onc : a_onConnect (s_ac st') = a_onConnect (s_ac st);
  mv_err : c_err (a_c (s_ac st')) = c_err (a_c (s_ac st));
  mv_reader : c_reader (a_c (s_ac st')) = c_reader (a_c (s_ac st));
  mv_invalid : a_invalid (s_ac st') = a_invalid (s_ac st);
  mv_channels : a_channels (s_ac st') = a_channels (s_ac st);
  mv_patterns : a_patterns (s_ac st') = a_patterns (s_ac st);
  mv_flag : forall g, g ∈ [REDIS_BLOCK; REDIS_CONNECTED; REDIS_DISCONNECTING; REDIS_SUBSCRIBED] -> flagged g st' = flagged g st;
  mv_freeing : flagged REDIS_FREEING st = true -> flagged REDIS_FREEING st' = true;
  mv_replies : a_replies (s_ac st') = a_replies (s_ac st) ++ new.*1;
  mv_accepted : accepted (s_tr st') = accepted (s_tr st) ++ new;
  mv_calls : calls (s_tr st') = calls (s_tr st) ++ cs;
  mv_obuf : s_buf (c_obuf (a_c (s_ac st'))) = s_buf (c_obuf (a_c (s_ac st))) ++ concat new.*2;
  mv_sent : w_sent (s_w st') = w_sent (s_w st);
  mv_refused : flagged REDIS_DISCONNECTING st || flagged REDIS_FREEING st = true -> new = []
}.

Lemma moved_refl st : moved [] [] st st.
Proof. split; rewrite ?app_nil_r; done. Qed.

Lemma moved_trans c1 n1 c2 n2 a b c : moved c1 n1 a b -> moved c2 n2 b c -> moved (c1 ++ c2) (n1 ++ n2) a c.
Proof.
  intros [] []. split; try congruence.
  - intros g Hg. rewrite mv_flag1, mv_flag0 by done. done.
  - auto.
  - rewrite mv_replies1, mv_replies0, fmap_app. by rewrite <- app_assoc.
  - by rewrite mv_accepted1, mv_accepted0, <- app_assoc.
  - by rewrite mv_calls1, mv_calls0, <- app_assoc.
  - by rewrite mv_obuf1, mv_obuf0, fmap_app, concat_app, <- app_assoc.
  - intros H. rewrite (mv_refused0 H). cbn [app]. apply mv_refused1. rewrite mv_flag0 by set_solver.
    apply orb_true_iff in H as [->| H]; [done|]. by rewrite (mv_freeing0 H), orb_true_r.
Qed.

Definition silent (e : event) : Prop := match e with EAccept _ _ | ECall _ _ _ => False | _ => True end.

Lemma moved_hook e st : silent e -> moved [] [] st (hook e st) /\ flagged REDIS_IN_CALLBACK (hook e st) = flagged REDIS_IN_CALLBACK st.
Proof.
  intros He. unfold hook. destruct (a_hooks (s_ac st)); [|split; [apply moved_refl|done]]. split; [|done].
  split; cbn; rewrite ?accepted_app, ?calls_app, ?app_nil_r; try done; by destruct e; cbn; rewrite ?app_nil_r.
Qed.

Lemma moved_tick st : moved [] [] st (set_w (tick (s_w st)) st).
Proof. split; cbn; rewrite ?app_nil_r; done. Qed.

Lemma moved_freeing st : moved [] [] st (raise REDIS_FREEING st).
Proof.
  split; cbn; rewrite ?app_nil_r; try done.
  - intros g Hg. rewrite flagged_raise; [|apply _|]; cbn [elem_of] in Hg; repeat (apply elem_of_cons in Hg as [->|Hg]; [try apply _; by rewrite orb_false_r|]); by apply not_elem_of_nil in Hg.
  - intros _. rewrite flagged_raise by apply _. apply orb_true_r.
Qed.

(** The calls of a callback. *)
Definition call_of (cb : redisCallback) (reply : option redisReply) : list call := match cb_fn cb with None => [] | Some fn => [(fn, reply, cb_privdata cb)] end.

Definition action_ok (a : action) : Prop := match a with ACommand _ argv => plain_argv argv | ADisconnect => False | AFree => True end.

Section program.
Variables (mem grow : nat -> bool) (strerror : Z -> list Z).
Variable prog : list event -> Z -> option redisReply -> Z -> list action.
Hypothesis Hgrow : forall i, grow i = true.
Hypothesis Hprog : forall tr fn reply p, Forall action_ok (prog tr fn reply p).

(** A command is accepted with its callback, or refused. *)
Lemma command_moved st cb argv : plain_argv argv -> flagged REDIS_SUBSCRIBED st = false ->
  exists status st' new, redisAsyncCommandArgv grow st cb argv (Some (lengths argv)) = Done (status, st') /\ moved [] new st st' /\
    a_flags st' = a_flags st /\ (new = [] \/ new = [(cb, enc (RArray (RBulk <$> argv)))]).
Proof.
  intros [Hb Hn] Hs. destruct argv as [|a argv]; [done|]. unfold redisAsyncCommandArgv. rewrite Hgrow, format_exact by done. cbn [of_res mbind outcome_bind snd].
  set (st1 := set_w (tick (s_w st)) st). assert (Hm1 : moved [] [] st st1) by apply moved_tick. set (cmd := enc _).
  unfold __redisAsyncCommand. unfold flagged at 1. rewrite has_flag_lor by apply _. fold (flagged REDIS_DISCONNECTING st1) (flagged REDIS_FREEING st1).
  destruct (flagged REDIS_DISCONNECTING st1 || flagged REDIS_FREEING st1) eqn:Er; [exists REDIS_ERR, st1, []; by split_and!; [..|left]|].
  unfold cmd. rewrite next_first by done. cbn [of_res mbind outcome_bind]. fold cmd. rewrite name_in_command, plain_compare, andb_false_r by done.
  change (flagged REDIS_SUBSCRIBED st1) with (flagged REDIS_SUBSCRIBED st). rewrite Hs. destruct (_ =? 0); [exists REDIS_ERR, st1, []; by split_and!; [..|left]|].
  unfold __redisAppendCommand. rewrite Hgrow. set (st2 := log (EAccept cb cmd) (set_replies (__redisPushCallback (a_replies (s_ac st1)) cb) st1)).
  destruct (sdscatlen_ok (c_obuf (a_c (s_ac st2))) cmd) as (b & -> & Hbuf). set (st3 := set_w (tick (s_w st2)) (set_c (set_obuf b (a_c (s_ac st2))) st2)).
  assert (Hm3 : moved [] [(cb, cmd)] st1 st3).
  { split; cbn; rewrite ?accepted_app, ?calls_app, ?app_nil_r; try done. intros H. change (flagged REDIS_DISCONNECTING st1 || flagged REDIS_FREEING st1 = true) in H. by rewrite Er in H. }
  destruct (moved_hook EAddWrite st3 I) as [Hm4 Hf4]. eexists _, (hook EAddWrite st3), [(cb, cmd)]. split; [done|]. split; [|split; [by unfold hook; destruct (a_hooks _)|by right]].
  pose proof (moved_trans _ _ _ _ _ _ _ (moved_trans _ _ _ _ _ _ _ Hm1 Hm3) Hm4) as H. exact H.
Qed.

Lemma run_actions_moved acts : Forall action_ok acts -> forall st, s_live st = true -> flagged REDIS_IN_CALLBACK st = true -> flagged REDIS_SUBSCRIBED st = false ->
  exists st' new, run_actions grow in_callback in_callback acts st = Done st' /\ moved [] new st st' /\ flagged REDIS_IN_CALLBACK st' = true.
Proof.
  induction 1 as [|a acts Ha _ IH]; intros st Hl Hc Hs; cbn [run_actions]; [exists st, []; split_and!; [done|apply moved_refl|done]|]. rewrite Hl.
  assert (Hstep : exists st1 n1, match a with
             | ACommand cb argv => '(_, st) ← redisAsyncCommandArgv grow st cb argv (Some (lengths argv)); Done st
             | ADisconnect => disconnect_with in_callback st
             | AFree => free_with in_callback st
             end = Done st1 /\ moved [] n1 st st1 /\ flagged REDIS_IN_CALLBACK st1 = true).
  { destruct a as [cb argv| |]; [|done|].
    - destruct (command_moved st cb argv Ha Hs) as (status & st1 & n1 & -> & Hm & Hf & _). exists st1, n1. split_and!; [done|done|]. unfold flagged. by rewrite Hf.
    - exists (raise REDIS_FREEING st), []. unfold free_with. assert (Hf : flagged REDIS_IN_CALLBACK (raise REDIS_FREEING st) = true).
      { rewrite flagged_raise by apply _. by rewrite Hc. }
      rewrite Hf. split_and!; [done|apply moved_freeing|done]. }
  destruct Hstep as (st1 & n1 & -> & Hm1 & Hf1). cbn [mbind outcome_bind].
  destruct (IH st1) as (st2 & n2 & -> & Hm2 & Hf2); [by rewrite (mv_live _ _ _ _ Hm1)|done|rewrite (mv_flag _ _ _ _ Hm1); [done|set_solver]|].
  exists st2, (n1 ++ n2). split_and!; [done|exact (moved_trans _ _ _ _ _ _ _ Hm1 Hm2)|done].
Qed.

Lemma moved_call fn reply p st : moved [(fn, reply, p)] [] st (log (ECall fn reply p) (raise REDIS_IN_CALLBACK st)).
Proof.
  split; cbn; rewrite ?accepted_app, ?calls_app, ?app_nil_r; try done.
  - intros g Hg. change (flagged g (raise REDIS_IN_CALLBACK st) = flagged g st).
    repeat (apply elem_of_cons in Hg as [->|Hg]; [rewrite flagged_raise by apply _; by rewrite orb_false_r|]); by apply not_elem_of_nil in Hg.
  - intros Hf. change (flagged REDIS_FREEING (raise REDIS_IN_CALLBACK st) = true). rewrite flagged_raise by apply _. by rewrite Hf.
Qed.

Lemma moved_lower st : moved [] [] st (lower REDIS_IN_CALLBACK st).
Proof.
  split; cbn; rewrite ?app_nil_r; try done.
  - intros g Hg. repeat (apply elem_of_cons in Hg as [->|Hg]; [rewrite flagged_lower by apply _; by rewrite andb_true_r|]); by apply not_elem_of_nil in Hg.
  - intros Hf. rewrite flagged_lower by apply _. by rewrite Hf.
Qed.

Lemma run_callback_moved cb reply st : s_live st = true -> flagged REDIS_IN_CALLBACK st = false -> flagged REDIS_SUBSCRIBED st = false ->
  exists st' new, __redisRunCallback grow prog cb reply st = Done st' /\ moved (call_of cb reply) new st st' /\ flagged REDIS_IN_CALLBACK st' = false.
Proof.
  intros Hl Hc Hs. unfold __redisRunCallback, call_of. destruct (cb_fn cb) as [fn|]; [|exists st, []; split_and!; [done|apply moved_refl|done]].
  set (st1 := log _ _). pose proof (moved_call fn reply (cb_privdata cb) st) as Hm1. fold st1 in Hm1.
  destruct (run_actions_moved (prog (s_tr st) fn reply (cb_privdata cb)) (Hprog _ _ _ _) st1) as (st2 & n2 & -> & Hm2 & Hf2).
  - by rewrite (mv_live _ _ _ _ Hm1).
  - change (flagged REDIS_IN_CALLBACK (raise REDIS_IN_CALLBACK st) = true). rewrite flagged_raise by apply _. apply orb_true_r.
  - rewrite (mv_flag _ _ _ _ Hm1); [done|set_solver].
  - cbn [mbind outcome_bind]. exists (lower REDIS_IN_CALLBACK st2), n2. split_and!; [done| |].
    + pose proof (moved_trans _ _ _ _ _ _ _ (moved_trans _ _ _ _ _ _ _ Hm1 Hm2) (moved_lower st2)) as H. rewrite !app_nil_r in H. exact H.
    + rewrite flagged_lower by apply _. apply andb_false_r.
Qed.

(** A context that no callback is running on, and that is not subscribed. *)
Record calm (st : astate) : Prop := {
  cm_live : s_live st = true;
  cm_callback : flagged REDIS_IN_CALLBACK st = false;
  cm_subscribed : flagged REDIS_SUBSCRIBED st = false;
  cm_block : flagged REDIS_BLOCK st = false;
  cm_invalid : a_invalid (s_ac st) = [];
  cm_channels : a_channels (s_ac st) = dictCreate;
  cm_patterns : a_patterns (s_ac st) = dictCreate;
  cm_onc : a_onConnect (s_ac st) = None
}.

Lemma calm_moved cs new st st' : calm st -> moved cs new st st' -> flagged REDIS_IN_CALLBACK st' = false -> calm st'.
Proof. intros [] [] Hc. split; try congruence; rewrite mv_flag0; congruence || set_solver. Qed.

Definition ending (st : astate) : bool := flagged REDIS_DISCONNECTING st || flagged REDIS_FREEING st.

Lemma ending_moved cs new st st' : ending st = true -> moved cs new st st' -> ending st' = true.
Proof.
  unfold ending. intros He Hm. rewrite (mv_flag _ _ _ _ Hm) by set_solver. apply orb_true_iff in He as [->|He]; [done|]. by rewrite (mv_freeing _ _ _ _ Hm He), orb_true_r.
Qed.

Definition null_calls (l : list redisCallback) : list call := concat ((fun cb => call_of cb None) <$> l).

Lemma moved_set_replies cs l a b : moved cs [] a b -> moved cs [] (set_replies l a) (set_replies l b).
Proof. intros []. split; try done. cbn. by rewrite app_nil_r. Qed.

(** Every callback that waits is called with [NULL]. *)
Lemma drain_ok n : forall st, calm st -> ending st = true -> (length (a_replies (s_ac st)) < n)%nat ->
  exists st', drain grow prog n (fun st => a_replies (s_ac st)) set_replies st = Done st' /\ calm st' /\ moved (null_calls (a_replies (s_ac st))) [] (set_replies [] st) st'.
Proof.
  induction n as [|n IH]; intros st Hc He Hn; [lia|]. cbn [drain]. destruct (a_replies (s_ac st)) as [|cb l] eqn:El; cbn [__redisShiftCallback].
  { exists st. split_and!; [done|done|]. replace (set_replies [] st) with st; [apply moved_refl|]. destruct st as [[] ? ? ?]. cbn in *. by subst. }
  set (st0 := set_replies l st). assert (Hc0 : calm st0) by (by destruct Hc).
  destruct (run_callback_moved cb None st0 (cm_live _ Hc0) (cm_callback _ Hc0) (cm_subscribed _ Hc0)) as (st1 & new & -> & Hm1 & Hf1). cbn [mbind outcome_bind].
  assert (new = []) as -> by (by apply (mv_refused _ _ _ _ Hm1)). assert (Hr1 : a_replies (s_ac st1) = l) by (rewrite (mv_replies _ _ _ _ Hm1); cbn; by rewrite app_nil_r).
  destruct (IH st1) as (st2 & -> & Hc2 & Hm2); [by eapply calm_moved|by eapply (ending_moved _ _ st0)|rewrite Hr1; cbn [length] in Hn; lia|].
  exists st2. split_and!; [done|done|]. rewrite Hr1 in Hm2. exact (moved_trans _ _ _ _ _ _ _ (moved_set_replies _ [] _ _ Hm1) Hm2).
Qed.

(** The context is gone: every callback was called, nothing else was. *)
Record gone (st st' : astate) : Prop := {
  gn_live : s_live st' = false;
  gn_calls : calls (s_tr st') = calls (s_tr st) ++ null_calls (a_replies (s_ac st));
  gn_accepted : accepted (s_tr st') = accepted (s_tr st);
  gn_sent : w_sent (s_w st') = w_sent (s_w st);
  gn_obuf : s_buf (c_obuf (a_c (s_ac st'))) = s_buf (c_obuf (a_c (s_ac st)))
}.

Lemma free_ok st : calm st -> ending st = true -> exists st', __redisAsyncFree grow prog st = Done st' /\ gone st st'.
Proof.
  intros Hc He. unfold __redisAsyncFree.
  destruct (drain_ok (S (length (a_replies (s_ac st)))) st Hc He) as (st1 & -> & Hc1 & Hm1); [lia|]. cbn [mbind outcome_bind].
  rewrite (cm_invalid _ Hc1). cbn [length drain]. rewrite (cm_invalid _ Hc1). cbn [__redisShiftCallback mbind outcome_bind]. rewrite (cm_channels _ Hc1).
  change (dict_entries dictCreate) with (Ret (@nil (dictEntry redisCallback))). cbn [of_res mbind outcome_bind run_entries]. rewrite (cm_patterns _ Hc1).
  change (dict_entries dictCreate) with (Ret (@nil (dictEntry redisCallback))). cbn [of_res mbind outcome_bind run_entries].
  set (st2 := set_patterns dictCreate (set_channels dictCreate st1)). destruct (moved_hook ECleanup st2 I) as [Hm2 _].
  set (st3 := match a_onDisconnect _ with Some _ => _ | None => _ end). exists (mk_ast (s_ac st3) false (s_w st3) (s_tr st3)). split; [done|].
  assert (H3 : s_ac st3 = s_ac (hook ECleanup st2) /\ s_w st3 = s_w (hook ECleanup st2) /\ calls (s_tr st3) = calls (s_tr st2) /\ accepted (s_tr st3) = accepted (s_tr st2)).
  { pose proof (mv_calls _ _ _ _ Hm2) as H1. pose proof (mv_accepted _ _ _ _ Hm2) as H2. rewrite app_nil_r in H1, H2.
    unfold st3. destruct (a_onDisconnect _); [|done]. destruct (flagged _ _); [|done]. cbn [s_ac s_w s_tr log]. rewrite calls_app, accepted_app. cbn. by rewrite !app_nil_r. }
  destruct H3 as (H3 & H4 & H5 & H6). split; cbn [s_live s_tr s_w s_ac].
  - done.
  - rewrite H5. exact (mv_calls _ _ _ _ Hm1).
  - rewrite H6. change (accepted (s_tr st2)) with (accepted (s_tr st1)). rewrite (mv_accepted _ _ _ _ Hm1). apply app_nil_r.
  - rewrite H4, (mv_sent _ _ _ _ Hm2). exact (mv_sent _ _ _ _ Hm1).
  - rewrite H3, (mv_obuf _ _ _ _ Hm2). cbn. rewrite app_nil_r. pose proof (mv_obuf _ _ _ _ Hm1) as H. cbn in H. by rewrite app_nil_r in H.
Qed.

(** A context with an error ends; so does one that waits for nothing. *)
Lemma disconnect_ok st : calm st -> c_err (a_c (s_ac st)) <> 0 \/ a_replies (s_ac st) = [] /\ ending st = true ->
  exists st', __redisAsyncDisconnect grow prog st = Done st' /\ gone st st'.
Proof.
  intros Hc Hcase. unfold __redisAsyncDisconnect. set (st1 := __redisAsyncCopyError st).
  assert (Hc1 : calm st1) by (by destruct Hc). change (a_err (s_ac st1)) with (c_err (a_c (s_ac st))). destruct (Z.eqb_spec (c_err (a_c (s_ac st))) 0) as [E|E].
  - destruct Hcase as [|[Hr He]]; [done|]. change (a_replies (s_ac st1)) with (a_replies (s_ac st)). rewrite Hr. cbn [__redisShiftCallback].
    destruct (free_ok st1 Hc1 He) as (st' & -> & []). exists st'. by split.
  - set (st2 := raise REDIS_DISCONNECTING st1). assert (Hc2 : calm st2).
    { destruct Hc1. split; try done; unfold st2; rewrite flagged_raise by apply _; by apply orb_false_iff. }
    destruct (free_ok st2 Hc2) as (st' & -> & []); [|by exists st'; split]. unfold ending, st2. rewrite flagged_raise by apply _. by rewrite orb_true_r.
Qed.

(** ** Replies in order *)

(** The calls of callbacks with their replies. *)
Definition delivered (cbs : list redisCallback) (objs : list redisReply) : list call := concat (zip_with (fun cb o => call_of cb (Some o)) cbs objs).

Lemma delivered_more cbs more objs : (length objs <= length cbs)%nat -> delivered (cbs ++ more) objs = delivered cbs objs.
Proof.
  revert objs. unfold delivered. induction cbs as [|cb cbs IH]; intros [|o objs] Hl; cbn [length] in Hl; try (by destruct more || lia); [lia|].
  cbn [app zip_with concat]. by rewrite IH by lia.
Qed.

Lemma delivered_snoc cbs objs o cb : cbs !! length objs = Some cb -> delivered cbs (objs ++ [o]) = delivered cbs objs ++ call_of cb (Some o).
Proof.
  revert cbs. unfold delivered. induction objs as [|x objs IH]; intros [|c cbs] Hc; cbn in Hc; try done.
  - injection Hc as ->. cbn. by destruct cbs; cbn; rewrite app_nil_r.
  - cbn [app zip_with concat]. by rewrite (IH cbs Hc), app_assoc.
Qed.

(** The state after the replies [D]: the callbacks of the others wait. *)
Record good (st : astate) (D : list redisReply) : Prop := {
  gd_calm : calm st;
  gd_err : c_err (a_c (s_ac st)) = 0;
  gd_len : (length D <= length (accepted (s_tr st)))%nat;
  gd_replies : a_replies (s_ac st) = drop (length D) (accepted (s_tr st)).*1;
  gd_calls : calls (s_tr st) = delivered (accepted (s_tr st)).*1 D;
  gd_sent : w_sent (s_w st) ++ s_buf (c_obuf (a_c (s_ac st))) = concat (accepted (s_tr st)).*2
}.

(** The end after the replies [D]: the other callbacks were called with [NULL]. *)
Record finished (st : astate) (D : list redisReply) : Prop := {
  fn_live : s_live st = false;
  fn_len : (length D <= length (accepted (s_tr st)))%nat;
  fn_calls : calls (s_tr st) = delivered (accepted (s_tr st)).*1 D ++ null_calls (drop (length D) (accepted (s_tr st)).*1);
  fn_sent : w_sent (s_w st) `prefix_of` concat (accepted (s_tr st)).*2
}.

Lemma good_gone st st' D : good st D -> gone st st' -> finished st' D.
Proof.
  intros [] []. split; [done|by rewrite gn_accepted0| |].
  - by rewrite gn_calls0, gn_accepted0, gd_calls0, gd_replies0.
  - rewrite gn_sent0, gn_accepted0, <- gd_sent0. by apply prefix_app_r.
Qed.

Lemma good_moved st st' D new : good st D -> moved [] new st st' -> flagged REDIS_IN_CALLBACK st' = false -> good st' D.
Proof.
  intros [] Hm Hf. pose proof (calm_moved _ _ _ _ gd_calm0 Hm Hf) as Hc. destruct Hm. split; [done|congruence| | | |].
  - rewrite mv_accepted0, length_app. lia.
  - rewrite mv_replies0, mv_accepted0, fmap_app, gd_replies0, drop_app_le by (rewrite length_fmap; lia). done.
  - rewrite mv_calls0, mv_accepted0, fmap_app, app_nil_r, delivered_more by (rewrite length_fmap; lia). done.
  - by rewrite mv_sent0, mv_obuf0, mv_accepted0, fmap_app, concat_app, app_assoc, gd_sent0.
Qed.

(** The next callback is called with the next reply. *)
Lemma good_call st st' D o cb l new : good st D -> a_replies (s_ac st) = cb :: l -> moved (call_of cb (Some o)) new (set_replies l st) st' ->
  flagged REDIS_IN_CALLBACK st' = false -> good st' (D ++ [o]).
Proof.
  intros [] Hr Hm Hf. assert (Hc0 : calm (set_replies l st)) by (by destruct gd_calm0). pose proof (calm_moved _ _ _ _ Hc0 Hm Hf) as Hc. destruct Hm.
  cbn [set_replies set_ac s_ac s_tr s_w s_live a_c a_replies] in *. rewrite Hr in gd_replies0.
  assert (Hcb : (accepted (s_tr st)).*1 !! length D = Some cb) by (rewrite <- (Nat.add_0_r (length D)), <- lookup_drop, <- gd_replies0; done).
  pose proof (lookup_lt_Some _ _ _ Hcb) as Hlt. rewrite length_fmap in Hlt.
  split; [done|congruence| | | |].
  - rewrite mv_accepted0, !length_app. cbn. lia.
  - rewrite mv_replies0, mv_accepted0, fmap_app, length_app. cbn [length]. rewrite drop_app_le by (rewrite length_fmap; lia). f_equal.
    rewrite <- drop_drop, <- gd_replies0. done.
  - rewrite mv_calls0, mv_accepted0, fmap_app, delivered_more by (rewrite length_fmap, length_app; cbn; lia). by rewrite (delivered_snoc _ _ _ _ Hcb), gd_calls0.
  - by rewrite mv_sent0, mv_obuf0, mv_accepted0, fmap_app, concat_app, app_assoc, gd_sent0.
Qed.

(** The reader of the context. *)
Abbreviation reader_of st := (c_reader (a_c (s_ac st))).

(** A call of [redisGetReply] on the context. *)
Lemma get_reply_nonblocking st N u s rep m g : calm st -> waiting mem N (reader_of st) u s rep m -> run1 mem u s rep m g ->
  match g with
  | Got o u' m' => exists r', redisGetReply mem grow strerror (a_c (s_ac st)) (s_w st) = Done (REDIS_OK, Some o, set_reader r' (a_c (s_ac st)), s_w st)
      /\ waiting mem N r' u' root_task None m'
  | Stop (FMore u' s' rep' m') => exists r', redisGetReply mem grow strerror (a_c (s_ac st)) (s_w st) = Done (REDIS_OK, None, set_reader r' (a_c (s_ac st)), s_w st)
      /\ waiting mem N r' u' s' rep' m'
  | Stop (FErr _ _ _) => exists c', redisGetReply mem grow strerror (a_c (s_ac st)) (s_w st) = Done (REDIS_ERR, None, c', s_w st)
      /\ c_err c' <> 0 /\ c_flags c' = a_flags st /\ c_obuf c' = c_obuf (a_c (s_ac st))
  | Stop (FFault _) => True
  end.
Proof.
  intros Hc Hw Hg. pose proof (getreply_run mem _ _ _ _ _ _ _ Hw Hg) as Hp. unfold redisGetReply, redisGetReplyFromReader.
  destruct g as [o u' m'|[u' s' rep' m'|type str m'|f]]; cbn [get_post] in Hp; [| | |done].
  - destruct Hp as (r' & -> & Hw'). exists r'. done.
  - destruct Hp as (r' & -> & Hw'). cbn [mbind outcome_bind]. change (REDIS_OK =? REDIS_ERR) with false. cbv iota.
    assert (Hb : blocking (set_reader r' (a_c (s_ac st))) = false) by exact (cm_block _ Hc). cbn [mbind outcome_bind].
    change (REDIS_OK =? REDIS_ERR) with false. cbv iota. rewrite Hb. by exists r'.
  - destruct Hp as (r' & -> & E & _ & Ht). cbn [mbind outcome_bind]. change (REDIS_ERR =? REDIS_ERR) with true. cbv iota. eexists. split; [done|]. cbn. by rewrite E.
Qed.

Lemma good_reader st D r : good st D -> good (set_w (s_w st) (set_c (set_reader r (a_c (s_ac st))) st)) D.
Proof. intros [[] ? ? ? ? ?]. by split. Qed.

(** All replies of the unread bytes are delivered, unless the program frees the context or the server breaks the protocol. *)
Lemma process_ok l : forall n cb st D N u s rep m f, good st D -> ending st = false -> waiting mem N (reader_of st) u s rep m -> reads mem u s rep m l f ->
  (forall x, f <> FFault x) -> (length D + length l <= length (accepted (s_tr st)))%nat -> (length u < n)%nat ->
  exists st', process_callbacks mem grow strerror prog n cb st = Done st' /\
    ((exists u' s' rep' m', f = FMore u' s' rep' m' /\ good st' (D ++ l) /\ ending st' = false /\ waiting mem N (reader_of st') u' s' rep' m')
     \/ exists k, finished st' (D ++ take k l)).
Proof.
  induction l as [|o l IH]; intros n cb st D N u s rep m f Hg He Hw Hr Hf Hl Hn; (destruct n as [|n]; [lia|]); cbn [process_callbacks];
    inversion Hr as [? ? ? ? ? Hrun|? ? ? ? ? u1 m1 ? ? Hrun Hr1]; subst; pose proof (get_reply_nonblocking st _ _ _ _ _ _ (gd_calm _ _ Hg) Hw Hrun) as Hp.
  - destruct f as [u' s' rep' m'|type str m'|x]; [| |by destruct (Hf x)].
    + destruct Hp as (r' & -> & Hw'). cbn [mbind outcome_bind]. change (REDIS_OK =? REDIS_OK) with true. cbv iota.
      set (st1 := set_w _ _). assert (Hd : flagged REDIS_DISCONNECTING st1 = false) by (by apply orb_false_iff in He as [? _]). rewrite Hd. cbn [andb].
      exists st1. split; [done|]. left. rewrite app_nil_r. exists u', s', rep', m'. split_and!; [done|by apply good_reader|done|done].
    + destruct Hp as (c' & -> & He' & Hfl & Hob). cbn [mbind outcome_bind]. change (REDIS_ERR =? REDIS_OK) with false. cbv iota. set (st1 := set_w _ _).
      assert (Hc1 : calm st1).
      { destruct (gd_calm _ _ Hg). split; try done; unfold flagged, a_flags; cbn; rewrite Hfl; done. }
      destruct (disconnect_ok st1 Hc1 (or_introl He')) as (st2 & -> & []). exists st2. split; [done|]. right. exists 0%nat. rewrite app_nil_r.
      eapply (good_gone st); [done|]. split; try done. by rewrite gn_obuf0; cbn; rewrite Hob.
  - destruct Hp as (r' & -> & Hw'). cbn [mbind outcome_bind]. change (REDIS_OK =? REDIS_OK) with true. cbv iota. cbn zeta.
    set (st1 := set_w (s_w st) (set_c (set_reader r' (a_c (s_ac st))) st)). assert (Hg1 : good st1 D) by (by apply good_reader). assert (He1 : ending st1 = false) by done.
    cbn [length] in Hl. pose proof (run1_got_shorter mem _ _ _ _ _ _ _ (waiting_stack mem _ _ _ _ _ _ Hw) Hrun) as Hsh.
    destruct (a_replies (s_ac st1)) as [|x q] eqn:Eq.
    { pose proof (gd_replies _ _ Hg1) as E. rewrite Eq in E. apply (f_equal length) in E. rewrite length_drop, length_fmap in E. change (s_tr st1) with (s_tr st) in E. cbn [length] in E. lia. }
    cbn [__redisShiftCallback]. set (st2 := set_replies q st1). assert (Hc2 : calm st2) by (by destruct (gd_calm _ _ Hg1)).
    destruct (run_callback_moved x (Some o) st2 (cm_live _ Hc2) (cm_callback _ Hc2) (cm_subscribed _ Hc2)) as (st3 & new & E3 & Hm3 & Hf3).
    pose proof (good_call st1 st3 D o x q new Hg1 Eq Hm3 Hf3) as Hg3.
    assert (Hread3 : reader_of st3 = r') by (by rewrite (mv_reader _ _ _ _ Hm3)).
    assert (Hlen3 : (length (D ++ [o]) + length l <= length (accepted (s_tr st3)))%nat) by (rewrite (mv_accepted _ _ _ _ Hm3), !length_app; change (s_tr st2) with (s_tr st); cbn [length]; lia).
    assert (Hnext : ending st3 = false -> exists st', process_callbacks mem grow strerror prog n (Some x) st3 = Done st' /\
      ((exists u' s' rep' m', f = FMore u' s' rep' m' /\ good st' (D ++ o :: l) /\ ending st' = false /\ waiting mem N (reader_of st') u' s' rep' m')
       \/ exists k, finished st' (D ++ take k (o :: l)))).
    { intros He3. destruct (IH n (Some x) st3 (D ++ [o]) N u1 root_task None m1 f Hg3 He3) as (st' & E & Hres); [by rewrite Hread3|done|done|done|lia|]. exists st'. split; [done|].
      rewrite <- !app_assoc in Hres. cbn [List.app] in Hres. destruct Hres as [Hres|(k & Hres)]; [by left|]. right. exists (S k). by rewrite <- app_assoc in Hres. }
    assert (Hd3 : flagged REDIS_DISCONNECTING st3 = false) by (rewrite (mv_flag _ _ _ _ Hm3) by set_solver; by apply orb_false_iff in He as [? _]).
    destruct (cb_fn x) as [fn|] eqn:Ef.
    + rewrite E3. cbn [mbind outcome_bind]. destruct (flagged REDIS_FREEING st3) eqn:Efr.
      * destruct (free_ok st3 (gd_calm _ _ Hg3)) as (st4 & -> & Hgone); [unfold ending; by rewrite Efr, orb_true_r|]. exists st4. split; [done|]. right. exists 1%nat. cbn [take]. by eapply good_gone.
      * apply Hnext. unfold ending. by rewrite Hd3, Efr.
    + unfold __redisRunCallback in E3. rewrite Ef in E3. injection E3 as <-. apply Hnext. done.
Qed.

(** ** Operations *)

Variable conn : list event -> Z -> Z -> list action.

(** What the program and the event loop do with a context: the socket has its state, and the result of its next call. *)
Inductive aop : Type :=
  | OCommand (cb : redisCallback) (argv : list (list Z))
  | ORead (sock : option (Z * list Z)) (r : rd_result)
  | OWrite (sock : option (Z * list Z)) (r : wr_result)
  | ODisconnect
  | OFree.

Definition ready_in (r : rd_result) (st : astate) : astate := set_w (mk_world [r] [] (w_sent (s_w st)) (w_clock (s_w st))) st.
Definition ready_out (r : wr_result) (st : astate) : astate := set_w (mk_world [] [r] (w_sent (s_w st)) (w_clock (s_w st))) st.

Definition async_op (op : aop) (st : astate) : outcome astate :=
  match op with
  | OCommand cb argv => '(_, st) ← redisAsyncCommandArgv grow st cb argv (Some (lengths argv)); Done st
  | ORead sock r => redisAsyncHandleRead mem grow strerror prog conn sock (ready_in r st)
  | OWrite sock r => redisAsyncHandleWrite grow strerror prog conn sock (ready_out r st)
  | ODisconnect => redisAsyncDisconnect grow prog st
  | OFree => redisAsyncFree grow prog st
  end.

Definition sock_ok (sock : option (Z * list Z)) : Prop := match sock with Some (errno, _) => errno <> EINPROGRESS | None => True end.

(** After the bytes [R] of the server: it answers commands that were accepted, and sends no array that the reader cannot hold. *)
Definition allowed (R : list Z) (st : astate) (op : aop) : Prop :=
  match op with
  | OCommand _ argv => plain_argv argv
  | ORead sock r => sock_ok sock /\
      match r with
      | Rd x => Z.of_nat (length (R ++ x)) < 2 ^ 62 /\
          forall l f, reads mem (R ++ x) root_task None 0 l f -> (length l <= length (accepted (s_tr st)))%nat /\ forall y, f <> FFault y
      | RdErr _ => True
      end
  | OWrite sock r => sock_ok sock /\ Z.of_nat (length (s_buf (c_obuf (a_c (s_ac st))))) < 2 ^ 31
  | ODisconnect => a_replies (s_ac st) = []
  | OFree => True
  end.

Definition bytes_of (op : aop) : list Z := match op with ORead _ (Rd x) => x | _ => [] end.

(** The invariant: all replies of the bytes so far were delivered, or the context is gone. *)
Definition async_inv (R : list Z) (st : astate) : Prop :=
  exists D, (good st D /\ ending st = false /\ exists N u s rep m, waiting mem N (reader_of st) u s rep m /\ N <= Z.of_nat (length R) /\ reads mem R root_task None 0 D (FMore u s rep m))
    \/ (finished st D /\ exists l f, reads mem R root_task None 0 l f /\ D `prefix_of` l).

Lemma good_raise f st D : f ∈ [REDIS_CONNECTED; REDIS_DISCONNECTING; REDIS_FREEING] -> good st D -> good (raise f st) D.
Proof.
  intros Hf [[] ? ? ? ? ?]. split; try done. split; try done; (repeat (apply elem_of_cons in Hf as [->|Hf]; [rewrite flagged_raise by apply _; by apply orb_false_iff|])); by apply not_elem_of_nil in Hf.
Qed.

Lemma good_world w st D : w_sent w = w_sent (s_w st) -> good st D -> good (set_w w st) D.
Proof. intros Hs [[] ? ? ? ? ?]. split; try done. cbn. by rewrite Hs. Qed.

Lemma good_io st D c w : good st D -> c_err c = 0 -> c_flags c = a_flags st -> w_sent w ++ s_buf (c_obuf c) = w_sent (s_w st) ++ s_buf (c_obuf (a_c (s_ac st))) ->
  good (set_w w (set_c c st)) D.
Proof.
  intros [[] ? ? ? ? Hs] He Hf Hw. split; try done; [split; try done; unfold flagged, a_flags; cbn; rewrite Hf; done|].
  cbn [set_w set_c set_ac s_w s_ac s_tr a_c]. by rewrite Hw.
Qed.

Lemma connect_ok sock st D : good st D -> ending st = false -> sock_ok sock ->
  (exists st1, handle_connect grow prog conn sock st = Done (true, st1) /\ good st1 D /\ ending st1 = false /\ reader_of st1 = reader_of st /\ s_w st1 = s_w st /\ s_tr st1 = s_tr st
     /\ c_obuf (a_c (s_ac st1)) = c_obuf (a_c (s_ac st)))
  \/ (exists st1, handle_connect grow prog conn sock st = Done (false, st1) /\ finished st1 D).
Proof.
  intros Hg He Hs. unfold handle_connect. destruct (flagged REDIS_CONNECTED st) eqn:Ec; [left; by exists st|]. unfold __redisAsyncHandleConnect, run_connect.
  pose proof (gd_calm _ _ Hg) as Hc. destruct sock as [[errno text]|].
  - right. cbn in Hs. rewrite (proj2 (Z.eqb_neq _ _) Hs). set (st1 := set_c _ st). change (a_onConnect (s_ac st1)) with (a_onConnect (s_ac st)). rewrite (cm_onc _ Hc).
    cbn [mbind outcome_bind]. unfold live_only. change (s_live st1) with (s_live st). rewrite (cm_live _ Hc). cbn [mbind outcome_bind].
    assert (Hc1 : calm st1) by (by destruct Hc). destruct (disconnect_ok st1 Hc1) as (st2 & -> & []); [by left|]. cbn [mbind outcome_bind].
    change (REDIS_ERR =? REDIS_OK) with false. cbv iota. exists st2. split; [done|]. eapply (good_gone st); [done|]. by split.
  - left. set (st1 := raise REDIS_CONNECTED st). change (a_onConnect (s_ac st1)) with (a_onConnect (s_ac st)). rewrite (cm_onc _ Hc). cbn [mbind outcome_bind].
    change (REDIS_OK =? REDIS_OK) with true. cbv iota. unfold live_only. change (s_live st1) with (s_live st). rewrite (cm_live _ Hc). cbn [mbind outcome_bind].
    exists st1. assert (flagged REDIS_CONNECTED st1 = true) as -> by (unfold st1; rewrite flagged_raise by apply _; apply orb_true_r).
    split; [done|]. split; [apply good_raise; [set_solver|done]|]. split; [|done]. unfold ending, st1. rewrite !flagged_raise by apply _. by rewrite !orb_false_r.
Qed.

(** Where more bytes are needed, no reply is there. *)
Lemma reads_stuck R s0 rep0 m0 D u s rep m : s0 <> [] -> reads mem R s0 rep0 m0 D (FMore u s rep m) -> reads mem u s rep m [] (FMore u s rep m).
Proof.
  intros Hs Hr. remember (FMore u s rep m) as f eqn:Ef. revert Hs. induction Hr as [R s0 rep0 m0 f Hg|R s0 rep0 m0 o R1 m1 l f _ _ IH]; intros Hs; subst.
  - apply reads_end. apply (run1_more mem u s rep m 0 s). by eapply run1_stuck.
  - by apply IH.
Qed.

Lemma error_ends st D c' w : good st D -> c_err c' <> 0 -> c_flags c' = a_flags st -> c_obuf c' = c_obuf (a_c (s_ac st)) -> w_sent w = w_sent (s_w st) ->
  exists st', __redisAsyncDisconnect grow prog (set_w w (set_c c' st)) = Done st' /\ finished st' D.
Proof.
  intros Hg He Hf Ho Hw. set (st1 := set_w w (set_c c' st)). assert (Hc1 : calm st1).
  { destruct (gd_calm _ _ Hg). split; try done; unfold flagged, a_flags; cbn; rewrite Hf; done. }
  destruct (disconnect_ok st1 Hc1 (or_introl He)) as (st2 & E & []). exists st2. split; [done|]. eapply (good_gone st); [done|]. split; try done.
  - by rewrite gn_sent0.
  - by rewrite gn_obuf0; cbn; rewrite Ho.
Qed.

Lemma finished_prefix R x st D u s rep m : finished st D -> reads mem R root_task None 0 D (FMore u s rep m) ->
  s <> [] -> exists l f, reads mem (R ++ x) root_task None 0 l f /\ D `prefix_of` l.
Proof.
  intros Hf Hr Hs. destruct (reads_total mem (u ++ x) s rep m Hs) as (l & f & Hr2). exists (D ++ l), f. split; [|by apply prefix_app_r].
  by apply (reads_chunks mem R root_task None 0 D u s rep m x l f).
Qed.

(** The replies of new bytes. *)
Lemma process_new st D N u s rep m R x : good st D -> ending st = false -> waiting mem N (reader_of st) (u ++ x) s rep m -> N <= Z.of_nat (length (R ++ x)) ->
  reads mem R root_task None 0 D (FMore u s rep m) ->
  (forall l f, reads mem (R ++ x) root_task None 0 l f -> (length l <= length (accepted (s_tr st)))%nat /\ forall y, f <> FFault y) ->
  exists st', redisProcessCallbacks mem grow strerror prog st = Done st' /\ async_inv (R ++ x) st'.
Proof.
  intros Hg He Hw HN Hr Hall. pose proof (waiting_stack mem _ _ _ _ _ _ Hw) as Hs. destruct (reads_total mem (u ++ x) s rep m Hs) as (l & f & Hr2).
  pose proof (reads_chunks mem R root_task None 0 D u s rep m x l f ltac:(done) Hr Hr2) as Hr3. destruct (Hall _ _ Hr3) as [Hl Hf]. rewrite length_app in Hl.
  assert (Hu : unread (reader_of st) = u ++ x) by (destruct Hw as [[(_ & _ & Hw)|[_ Hw]] _]; apply Hw).
  unfold redisProcessCallbacks. rewrite Hu. destruct (process_ok l (S (S (length (u ++ x)))) None st D N (u ++ x) s rep m f Hg He Hw Hr2 Hf Hl) as (st' & E & Hres); [lia|].
  exists st'. split; [done|]. destruct Hres as [(u' & s' & rep' & m' & -> & Hg' & He' & Hw')|(k & Hfin)].
  - exists (D ++ l). left. split_and!; [done|done|]. by exists N, u', s', rep', m'.
  - exists (D ++ take k l). right. split; [done|]. exists (D ++ l), f. split; [done|]. apply prefix_app. exists (drop k l). by rewrite take_drop.
Qed.

Lemma read_step R st D N u s rep m sock r : good st D -> ending st = false -> waiting mem N (reader_of st) u s rep m -> N <= Z.of_nat (length R) ->
  reads mem R root_task None 0 D (FMore u s rep m) -> allowed R st (ORead sock r) ->
  exists st', async_op (ORead sock r) st = Done st' /\ async_inv (R ++ bytes_of (ORead sock r)) st'.
Proof.
  intros Hg He Hw HN Hr [Hs Hall]. pose proof (waiting_stack mem _ _ _ _ _ _ Hw) as Hst. cbn [async_op]. unfold redisAsyncHandleRead.
  assert (Hg0 : good (ready_in r st) D) by (by apply good_world).
  destruct (connect_ok sock (ready_in r st) D Hg0 He Hs) as [(st1 & -> & Hg1 & He1 & Hrd & Hwd & Htr & _)|(st1 & -> & Hfin)]; cbn [mbind outcome_bind]; cbv iota.
  2: { exists st1. split; [done|]. exists D. right. split; [done|]. by eapply finished_prefix. }
  change (reader_of (ready_in r st)) with (reader_of st) in Hrd. change (s_tr (ready_in r st)) with (s_tr st) in Htr. pose proof (gd_calm _ _ Hg1) as Hc1.
  assert (Hbl : blocking (a_c (s_ac st1)) = false) by exact (cm_block _ Hc1).
  unfold redisBufferRead, sys_read. rewrite (gd_err _ _ Hg1), Hwd. change (negb (0 =? 0)) with false. cbv iota. cbn [w_in ready_in s_w set_w mbind outcome_bind]. rewrite Hbl.
  assert (Hend : forall c' w, c_err c' <> 0 -> c_flags c' = a_flags st1 -> c_obuf c' = c_obuf (a_c (s_ac st1)) -> w_sent w = w_sent (s_w st1) ->
    exists st', __redisAsyncDisconnect grow prog (set_w w (set_c c' st1)) = Done st' /\ async_inv (R ++ bytes_of (ORead sock r)) st').
  { intros c' w H1 H2 H3 H4. destruct (error_ends st1 D c' w Hg1 H1 H2 H3 H4) as (st2 & E & Hfin). exists st2. split; [done|]. exists D. right. split; [done|]. by eapply finished_prefix. }
  destruct r as [[|b x]|errno].
  - change (REDIS_ERR =? REDIS_ERR) with true. cbv iota. apply Hend; try done. by rewrite Hwd.
  - destruct Hall as [Hlen Hall]. rewrite length_app in Hlen. destruct (feed_waiting mem N (reader_of st) u s rep m (b :: x) Hw) as (r' & E & Hw'); [lia|].
    rewrite Hrd, Hgrow, E. change (REDIS_OK =? REDIS_OK) with true. cbv iota. change (REDIS_OK =? REDIS_ERR) with false. cbv iota. cbn [mbind outcome_bind]. change (REDIS_OK =? REDIS_ERR) with false. cbv iota zeta. set (st2 := set_w _ (set_c _ st1)).
    assert (Hg2 : good st2 D) by (apply good_io; [done|exact (gd_err _ _ Hg1)|done| by rewrite Hwd]).
    destruct (moved_hook EAddRead st2 I) as [Hm3 Hf3]. assert (Hg3 : good (hook EAddRead st2) D) by (eapply good_moved; [exact Hg2|exact Hm3|]; by rewrite Hf3, (cm_callback _ (gd_calm _ _ Hg2))).
    destruct (process_new (hook EAddRead st2) D (N + Z.of_nat (length (b :: x))) u s rep m R (b :: x) Hg3) as (st4 & E4 & Hinv4).
    + unfold hook. by destruct (a_hooks _).
    + by rewrite (mv_reader _ _ _ _ Hm3).
    + rewrite length_app. lia.
    + done.
    + intros l f Hlf. rewrite (mv_accepted _ _ _ _ Hm3), app_nil_r. change (s_tr st2) with (s_tr st1). rewrite Htr. by apply Hall.
    + by exists st4.
  - cbn [andb negb]. rewrite andb_true_r. cbn [bytes_of]. destruct (errno =? EAGAIN).
    + change (REDIS_OK =? REDIS_ERR) with false. cbv iota. cbn [mbind outcome_bind]. change (REDIS_OK =? REDIS_ERR) with false. cbv iota zeta. set (st2 := set_w _ (set_c _ st1)).
      assert (Hg2 : good st2 D) by (apply good_io; [done|exact (gd_err _ _ Hg1)|done| by rewrite Hwd]).
      destruct (moved_hook EAddRead st2 I) as [Hm3 Hf3]. assert (Hg3 : good (hook EAddRead st2) D) by (eapply good_moved; [exact Hg2|exact Hm3|]; by rewrite Hf3, (cm_callback _ (gd_calm _ _ Hg2))).
      apply (process_new (hook EAddRead st2) D N u s rep m R [] Hg3).
      * unfold hook. by destruct (a_hooks _).
      * rewrite app_nil_r, (mv_reader _ _ _ _ Hm3). change (reader_of st2) with (reader_of st1). by rewrite Hrd.
      * rewrite app_nil_r. lia.
      * done.
      * intros l f Hlf. rewrite app_nil_r in Hlf. destruct (reads_det _ _ _ _ _ _ _ _ _ Hlf Hr) as [-> ->]. split; [|done]. exact (gd_len _ _ Hg3).
    + change (REDIS_ERR =? REDIS_ERR) with true. cbv iota. apply Hend; try done. by rewrite Hwd.
Qed.

(** A write keeps what was sent and what is to be sent. *)
Lemma write_io st D r : good st D -> w_out (s_w st) = [r] -> Z.of_nat (length (s_buf (c_obuf (a_c (s_ac st))))) < 2 ^ 31 ->
  exists status wdone c w, redisBufferWrite grow strerror (a_c (s_ac st)) (s_w st) = Done (status, wdone, c, w) /\ c_reader c = reader_of st /\ c_flags c = a_flags st /\
    ((status = REDIS_OK /\ c_err c = 0 /\ w_sent w ++ s_buf (c_obuf c) = w_sent (s_w st) ++ s_buf (c_obuf (a_c (s_ac st))))
     \/ (status = REDIS_ERR /\ c_err c <> 0 /\ c_obuf c = c_obuf (a_c (s_ac st)) /\ w_sent w = w_sent (s_w st))).
Proof.
  intros Hg Hwd Hb. assert (Hbl : blocking (a_c (s_ac st)) = false) by exact (cm_block _ (gd_calm _ _ Hg)). unfold redisBufferWrite. rewrite (gd_err _ _ Hg).
  change (negb (0 =? 0)) with false. cbv iota. pose proof (gd_err _ _ Hg) as He. unfold sdslen. set (ob := c_obuf (a_c (s_ac st))) in *.
  destruct (0 <? Z.of_nat (length (s_buf ob))); [|eexists _, _, _, _; split; [done|]; split_and!; try done; left; by split_and!].
  unfold sys_write. rewrite Hwd. destruct r as [n|errno]; cbn [mbind outcome_bind].
  - set (j := Nat.min n (length (s_buf ob))). destruct (Nat.ltb_spec 0 j) as [Hj|Hj].
    + rewrite swrap_small by (change (32 - 1) with 31; lia). destruct (Z.eqb_spec (Z.of_nat j) (Z.of_nat (length (s_buf ob)))) as [E|E].
      * rewrite Hgrow. cbn [sdsempty sdsnewlen]. eexists _, _, _, _. split; [done|]. split_and!; try done. left. split_and!; try done. cbn. rewrite take_ge by lia. by rewrite app_nil_r.
      * eexists _, _, _, _. split; [done|]. split_and!; try done. left. split_and!; try done. cbn. rewrite sdsrange_drop by (unfold sdslen; lia). by rewrite Nat2Z.id, <- app_assoc, take_drop.
    + eexists _, _, _, _. split; [done|]. split_and!; try done. left. split_and!; try done. cbn. replace j with 0%nat by lia. cbn. by rewrite app_nil_r.
  - rewrite Hbl, andb_true_r. destruct (errno =? EAGAIN); eexists _, _, _, _; (split; [done|]); split_and!; try done; [left|right]; by split_and!.
Qed.

Lemma write_step R st D N u s rep m sock r : good st D -> ending st = false -> waiting mem N (reader_of st) u s rep m -> N <= Z.of_nat (length R) ->
  reads mem R root_task None 0 D (FMore u s rep m) -> allowed R st (OWrite sock r) ->
  exists st', async_op (OWrite sock r) st = Done st' /\ async_inv R st'.
Proof.
  intros Hg He Hw HN Hr [Hs Hb]. cbn [async_op]. unfold redisAsyncHandleWrite. assert (Hg0 : good (ready_out r st) D) by (by apply good_world).
  assert (Hfin : forall st', finished st' D -> async_inv R st') by (intros st' Hf; exists D; right; split; [done|]; by exists D, (FMore u s rep m)).
  destruct (connect_ok sock (ready_out r st) D Hg0 He Hs) as [(st1 & -> & Hg1 & He1 & Hrd & Hwd & Htr & Hob)|(st1 & -> & Hf)]; cbn [mbind outcome_bind]; cbv iota; [|exists st1; split; [done|by apply Hfin]].
  change (reader_of (ready_out r st)) with (reader_of st) in Hrd.
  destruct (write_io st1 D r Hg1) as (status & wdone & c & w & -> & Hrc & Hfl & Hcase); [by rewrite Hwd|by rewrite Hob|]. cbn [mbind outcome_bind].
  destruct Hcase as [(-> & Hce & Hsent)|(-> & Hce & Hobc & Hsent)].
  - change (REDIS_OK =? REDIS_ERR) with false. cbv iota zeta. set (st2 := set_w w (set_c c st1)). assert (Hg2 : good st2 D) by (by apply good_io).
    destruct (moved_hook (if wdone then EDelWrite else EAddWrite) st2) as [Hm3 Hf3]; [by destruct wdone|]. set (st3 := hook _ st2) in *. destruct (moved_hook EAddRead st3 I) as [Hm4 Hf4].
    pose proof (moved_trans _ _ _ _ _ _ _ Hm3 Hm4) as Hm. exists (hook EAddRead st3). split; [done|]. exists D. left. split_and!.
    + eapply good_moved; [exact Hg2|exact Hm|]. by rewrite Hf4, Hf3, (cm_callback _ (gd_calm _ _ Hg2)).
    + assert (He2 : ending st2 = false) by (unfold ending, flagged, a_flags; cbn; by rewrite Hfl). unfold st3, hook. by repeat destruct (a_hooks _).
    + exists N, u, s, rep, m. split_and!; [|done|done]. rewrite (mv_reader _ _ _ _ Hm). cbn. by rewrite Hrc, Hrd.
  - change (REDIS_ERR =? REDIS_ERR) with true. cbv iota. destruct (error_ends st1 D c w Hg1 Hce Hfl Hobc Hsent) as (st2 & -> & Hf). exists st2. split; [done|by apply Hfin].
Qed.

(** Every operation that is allowed ends without a fault and keeps the invariant. *)
Lemma async_step R st op : async_inv R st -> s_live st = true -> allowed R st op -> exists st', async_op op st = Done st' /\ async_inv (R ++ bytes_of op) st'.
Proof.
  intros (D & [(Hg & He & N & u & s & rep & m & Hw & HN & Hr)|(Hf & _)]) Hl Ha; [|by rewrite (fn_live _ _ Hf) in Hl]. pose proof (gd_calm _ _ Hg) as Hc.
  assert (Hend : forall st1 st2, good st1 D -> gone st1 st2 -> async_inv R st2).
  { intros st1 st2 Hg1 Hgone. exists D. right. split; [by eapply good_gone|]. by exists D, (FMore u s rep m). }
  destruct op as [cb argv|sock r|sock r| |]; [|by eapply read_step| | |]; cbn [bytes_of]; rewrite app_nil_r.
  - destruct (command_moved st cb argv Ha (cm_subscribed _ Hc)) as (status & st1 & new & E & Hm & Hf & _). exists st1. cbn [async_op]. rewrite E. split; [done|].
    exists D. left. split_and!; [eapply good_moved; [exact Hg|exact Hm|]; unfold flagged; rewrite Hf; exact (cm_callback _ Hc)| |by exists N, u, s, rep, m; rewrite (mv_reader _ _ _ _ Hm)].
    unfold ending, flagged. by rewrite Hf.
  - by eapply write_step.
  - cbn in Ha. cbn [async_op]. unfold redisAsyncDisconnect, disconnect_with. change (a_replies (s_ac (raise REDIS_DISCONNECTING st))) with (a_replies (s_ac st)). rewrite Ha.
    set (st1 := raise REDIS_DISCONNECTING st). assert (Hg1 : good st1 D) by (apply good_raise; [set_solver|done]). rewrite (cm_callback _ (gd_calm _ _ Hg1)).
    destruct (disconnect_ok st1 (gd_calm _ _ Hg1)) as (st2 & -> & Hgone); [right; split; [done|]; unfold ending, st1; rewrite flagged_raise by apply _; by rewrite orb_true_r|].
    exists st2. split; [done|by eapply Hend].
  - cbn [async_op]. unfold redisAsyncFree, free_with. set (st1 := raise REDIS_FREEING st). assert (Hg1 : good st1 D) by (apply good_raise; [set_solver|done]).
    rewrite (cm_callback _ (gd_calm _ _ Hg1)). destruct (free_ok st1 (gd_calm _ _ Hg1)) as (st2 & -> & Hgone);
      [unfold ending, st1; rewrite (flagged_raise _ REDIS_FREEING) by apply _; by rewrite !orb_true_r|]. exists st2. split; [done|by eapply Hend].
Qed.

(** ** Executions *)

(** A context as [redisAsyncConnect] leaves it, with the hooks of an event loop or without, and a callback for the end. *)
Definition connecting (hooks : bool) (ond : option Z) : astate :=
  let a := redisAsyncInitialize (redisContextInit 0) in
  mk_ast (mk_async (a_c a) (a_err a) hooks (a_onConnect a) ond (a_replies a) (a_invalid a) (a_channels a) (a_patterns a)) true (mk_world [] [] [] 0) [].

(** The bytes that were received, and the state. *)
Inductive reach (hooks : bool) (ond : option Z) : list Z -> astate -> Prop :=
  | reach_start : reach hooks ond [] (connecting hooks ond)
  | reach_op R st op st' : reach hooks ond R st -> s_live st = true -> allowed R st op -> async_op op st = Done st' -> reach hooks ond (R ++ bytes_of op) st'.

Lemma reach_inv hooks ond R st : reach hooks ond R st -> async_inv R st.
Proof.
  induction 1 as [|R st op st' _ IH Hl Ha E].
  - exists []. left. split_and!; [by split|done|]. exists 0, [], root_task, None, 0%nat. split_and!; [apply create_waiting|done|]. apply reads_end.
    exact (run1_more mem [] root_task None 0 0 root_task eq_refl).
  - destruct (async_step R st op IH Hl Ha) as (st1 & E1 & Hi). rewrite E in E1. by injection E1 as <-.
Qed.
End program.

(** C7. Every callback is called exactly once.  The program issues commands (no subscriptions) whenever it likes, also from its callbacks, and frees the
    context or lets it end by an error of the socket or of the protocol, or by a disconnect when no reply is due; the server answers commands that were accepted,
    its bytes come in any pieces.  Then at every moment the callbacks of the first replies [D] were called with these replies, in the order of the
    commands; while the context lives, [D] is all that the bytes so far contain and the other callbacks wait in their order; when it is gone, each of them
    was called with [NULL], in order, and none was called twice.  The bytes that were sent are a prefix of the commands in order.
    No operation runs into an assertion, a wild pointer or an endless loop. *)
Theorem redis_callbacks_once mem grow strerror prog conn hooks ond R st :
  (forall i, grow i = true) -> (forall tr fn reply p, Forall action_ok (prog tr fn reply p)) -> reach mem grow strerror prog conn hooks ond R st ->
  let cbs := (accepted (s_tr st)).*1 in
  (exists D l f, reads mem R root_task None 0 l f /\ D `prefix_of` l /\ (length D <= length cbs)%nat /\
     calls (s_tr st) = delivered cbs D ++ (if s_live st then [] else null_calls (drop (length D) cbs)) /\
     (s_live st = true -> D = l /\ a_replies (s_ac st) = drop (length D) cbs) /\
     w_sent (s_w st) `prefix_of` concat (accepted (s_tr st)).*2) /\
  forall op, s_live st = true -> allowed mem R st op -> exists st', async_op mem grow strerror prog conn op st = Done st'.
Proof.
  intros Hgrow Hprog Hr cbs. pose proof (reach_inv mem grow strerror prog Hgrow Hprog conn hooks ond R st Hr) as Hi. split.
  - unfold cbs. destruct Hi as (D & [(Hg & _ & N & u & s & rep & m & _ & _ & Hrd)|(Hf & l & f & Hrd & Hp)]).
    + exists D, D, (FMore u s rep m). rewrite (cm_live _ (gd_calm _ _ Hg)), app_nil_r, length_fmap. split_and!; [done|done|exact (gd_len _ _ Hg)|exact (gd_calls _ _ Hg)|split; [done|exact (gd_replies _ _ Hg)]|].
      rewrite <- (gd_sent _ _ Hg). by apply prefix_app_r.
    + exists D, l, f. rewrite (fn_live _ _ Hf), length_fmap. split_and!; [done|done|exact (fn_len _ _ Hf)|exact (fn_calls _ _ Hf)|done|exact (fn_sent _ _ Hf)].
  - intros op Hl Ha. destruct (async_step mem grow strerror prog Hgrow Hprog conn R st op Hi Hl Ha) as (st' & E & _). by exists st'.
Qed.

(** ** An execution *)

(** The first callback asks for more; the server answers one command and closes the connection. *)
Definition sample_prog (tr : list event) (fn : Z) (reply : option redisReply) (p : Z) : list action :=
  if fn =? 1 then [ACommand (mk_cb (Some 3) 30) [cs "PING"]] else [].
Definition sample_ops : list aop :=
  [OCommand (mk_cb (Some 1) 10) [cs "GET"; cs "a"]; OCommand (mk_cb (Some 2) 20) [cs "INCR"; cs "n"]; OWrite None (Wr 25); ORead None (Rd (enc (RBulk (cs "x")))); ORead None (Rd [])].

Fixpoint run_sample (ops : list aop) (st : astate) : outcome astate :=
  match ops with
  | [] => Done st
  | op :: ops => st ← async_op (fun _ => true) (fun _ => true) (fun _ => []) sample_prog (fun _ _ _ => []) op st; run_sample ops st
  end.

Lemma causal_bytes R x rs st : R ++ x = concat (enc <$> rs) -> Forall (fun j => resp_okb j = true /\ (depth j <= 3)%nat) rs -> (length rs <= length (accepted (s_tr st)))%nat ->
  forall l f, reads (fun _ => true) (R ++ x) root_task None 0 l f -> (length l <= length (accepted (s_tr st)))%nat /\ forall y, f <> FFault y.
Proof.
  intros -> Hrs Hl l f Hr. destruct (stream_reads (fun _ => true) ltac:(done) rs 0 Hrs) as (m' & Hr'). destruct (reads_det _ _ _ _ _ _ _ _ _ Hr Hr') as [-> ->].
  rewrite length_fmap. done.
Qed.

Definition sample_end : astate := match run_sample sample_ops (connecting true (Some 9)) with Done st => st | _ => connecting true None end.

Lemma sample_reach : reach (fun _ => true) (fun _ => true) (fun _ => []) sample_prog (fun _ _ _ => []) true (Some 9) (enc (RBulk (cs "x"))) sample_end.
Proof.
  set (go := fun ops => match run_sample ops (connecting true (Some 9)) with Done st => st | _ => connecting true None end).
  assert (H1 : reach (fun _ => true) (fun _ => true) (fun _ => []) sample_prog (fun _ _ _ => []) true (Some 9) [] (go (take 1 sample_ops))).
  { apply (reach_op _ _ _ _ _ _ _ [] (connecting true (Some 9)) (OCommand (mk_cb (Some 1) 10) [cs "GET"; cs "a"])); [apply reach_start|done|split; vm_compute; reflexivity|vm_compute; reflexivity]. }
  assert (H2 : reach (fun _ => true) (fun _ => true) (fun _ => []) sample_prog (fun _ _ _ => []) true (Some 9) [] (go (take 2 sample_ops))).
  { apply (reach_op _ _ _ _ _ _ _ [] _ (OCommand (mk_cb (Some 2) 20) [cs "INCR"; cs "n"]) _ H1); [vm_compute; reflexivity|split; vm_compute; reflexivity|vm_compute; reflexivity]. }
  assert (H3 : reach (fun _ => true) (fun _ => true) (fun _ => []) sample_prog (fun _ _ _ => []) true (Some 9) [] (go (take 3 sample_ops))).
  { apply (reach_op _ _ _ _ _ _ _ [] _ (OWrite None (Wr 25)) _ H2); [vm_compute; reflexivity|split; [exact I|vm_compute; reflexivity]|vm_compute; reflexivity]. }
  assert (H4 : reach (fun _ => true) (fun _ => true) (fun _ => []) sample_prog (fun _ _ _ => []) true (Some 9) (enc (RBulk (cs "x"))) (go (take 4 sample_ops))).
  { apply (reach_op _ _ _ _ _ _ _ [] _ (ORead None (Rd (enc (RBulk (cs "x"))))) _ H3); [vm_compute; reflexivity| |vm_compute; reflexivity]. split; [exact I|]. split; [vm_compute; reflexivity|].
    apply (causal_bytes [] _ [RBulk (cs "x")]); [vm_compute; reflexivity|apply (bool_decide_unpack _); vm_compute; exact I|apply (bool_decide_unpack _); vm_compute; exact I]. }
  replace (enc (RBulk (cs "x"))) with (enc (RBulk (cs "x")) ++ bytes_of (ORead None (Rd []))) by (vm_compute; reflexivity).
  apply (reach_op _ _ _ _ _ _ _ (enc (RBulk (cs "x"))) _ (ORead None (Rd [])) _ H4); [vm_compute; reflexivity| |vm_compute; reflexivity]. split; [exact I|]. split; [vm_compute; reflexivity|].
  apply (causal_bytes _ [] [RBulk (cs "x")]); [vm_compute; reflexivity|apply (bool_decide_unpack _); vm_compute; exact I|apply (bool_decide_unpack _); vm_compute; exact I].
Qed.

Lemma redis_callbacks_once_witness :
  calls (s_tr sample_end) = [(1, Some (obj_of (RBulk (cs "x"))), 10); (2, None, 20); (3, None, 30)] /\
  exists D l f, reads (fun _ => true) (enc (RBulk (cs "x"))) root_task None 0 l f /\ D `prefix_of` l /\
    calls (s_tr sample_end) = delivered (accepted (s_tr sample_end)).*1 D ++ null_calls (drop (length D) (accepted (s_tr sample_end)).*1).
Proof.
  split; [vm_compute; reflexivity|].
  destruct (redis_callbacks_once (fun _ => true) (fun _ => true) (fun _ => []) sample_prog (fun _ _ _ => []) true (Some 9) (enc (RBulk (cs "x"))) sample_end)
    as [(D & l & f & H1 & H2 & _ & H4 & _) _].
  - done.
  - intros tr fn reply p. unfold sample_prog. destruct (fn =? 1); [|constructor]. constructor; [|constructor]. split; vm_compute; reflexivity.
  - apply sample_reach.
  - exists D, l, f. split; [exact H1|]. split; [exact H2|]. exact H4.
Defined.

(** ** What the theorem leaves out *)

(** A disconnect while two replies are due: after the first of them the output is empty and no reply is there, the context is taken for
    one that waits for nothing, and the assertion on the queue stops the process. *)
Lemma disconnect_with_replies_due :
  run_sample [OCommand (mk_cb (Some 5) 1) [cs "GET"; cs "a"]; OCommand (mk_cb (Some 6) 2) [cs "GET"; cs "b"]; OWrite None (Wr 100); ODisconnect;
    ORead None (Rd (enc (RInt 1)))] (connecting true None) = Crash AssertFail.
Proof. vm_compute. reflexivity. Qed.

(** A message for a channel without a callback, behind a reply: the callback of that reply is called again, with the message.  Alone in the loop it is a jump
    through an uninitialised variable. *)
Lemma stale_callback :
  (exists st, run_sample [OCommand (mk_cb (Some 5) 1) [cs "PING"]; OCommand (mk_cb (Some 6) 2) [cs "SUBSCRIBE"; cs "a"]; OWrite None (Wr 100);
     ORead None (Rd (enc (RStatus (cs "PONG")) ++ enc (RArray (RBulk <$> [cs "message"; cs "b"; cs "hello"]))))] (connecting true None) = Done st /\
     calls (s_tr st) = [(5, Some (obj_of (RStatus (cs "PONG"))), 1); (5, Some (obj_of (RArray (RBulk <$> [cs "message"; cs "b"; cs "hello"]))), 1)]) /\
  run_sample [OCommand (mk_cb (Some 6) 2) [cs "SUBSCRIBE"; cs "a"]; ORead None (Rd (enc (RArray (RBulk <$> [cs "message"; cs "b"; cs "hello"]))))] (connecting true None) = Crash Uninitialised.
Proof. split; [eexists; split; vm_compute; reflexivity|vm_compute; reflexivity]. Qed.

(** A subscription whose messages come reaches its callback until it is cancelled. *)
Lemma subscription_delivered :
  exists st, run_sample [OCommand (mk_cb (Some 6) 2) [cs "SUBSCRIBE"; cs "a"]; OWrite None (Wr 100); ORead None (Rd (enc (RArray [RBulk (cs "message"); RBulk (cs "a"); RBulk (cs "hello")])));
     OCommand (mk_cb None 0) [cs "UNSUBSCRIBE"]; ORead None (Rd (enc (RArray [RBulk (cs "unsubscribe"); RBulk (cs "a"); RInt 0])))] (connecting true None) = Done st /\
     (fun c => fst (fst c)) <$> calls (s_tr st) = [6; 6] /\ flagged REDIS_SUBSCRIBED st = false /\ dictFind (a_channels (s_ac st)) (cs "a") = Ret None.
Proof. eexists. split; [vm_compute; reflexivity|]. vm_compute. done. Qed.

(** The callback for the connection runs without [REDIS_IN_CALLBACK]: a program that frees the context there has it freed at once, and the handler goes on with it. *)
Lemma free_in_connect_callback :
  redisAsyncHandleRead (fun _ => true) (fun _ => true) (fun _ => []) sample_prog (fun _ _ _ => [AFree]) None (ready_in (Rd []) (snd (redisAsyncSetConnectCallback 7 (connecting true None))))
  = Crash UseAfterFree.
Proof. vm_compute. reflexivity. Qed.
