(* ===== verification/RedisSubscribe.v ===== *)
(** * Subscriptions of the asynchronous client

    The two dictionaries of a context of RedisAsync.v are maps from channels and from patterns to callbacks: a subscription adds its names, a
    message finds the callback of its name, the message that ends a subscription removes it and, when it was the last, ends the mode
    ([redis_subscriptions]).  The dictionaries are used through their refinement of RedisDict.v. *)

From stdpp Require Import gmap.
From S2P Require Import Prelude CString Session Digits Redirect Sds RedisDict Hiredis HiredisSpec HiredisReply HiredisCommand HiredisContext RedisAsync.

(** A dictionary of at most [n] entries. *)
Definition dict_room (n : Z) (d : dict redisCallback) : Prop := dict_wf d /\ d_size d <= Z.max 4 (2 * n) /\ d_used d <= n.

Definition subscribe_all (cb : redisCallback) (names : list (list Z)) (m : gmap (list Z) redisCallback) : gmap (list Z) redisCallback :=
  fold_left (fun m k => <[k := cb]> m) names m.

Lemma subscribe_all_lookup cb names m k : k ∈ names -> subscribe_all cb names m !! k = Some cb.
Proof.
  unfold subscribe_all. revert m. induction names as [|a names IH]; intros m Hk; [by apply not_elem_of_nil in Hk|]. cbn [fold_left].
  destruct (decide (k ∈ names)) as [Hin|Hin]; [by apply IH|]. apply elem_of_cons in Hk as [<-|]; [|done]. clear IH.
  assert (H : forall m : gmap (list Z) redisCallback, m !! k = Some cb -> fold_left (fun m k => <[k := cb]> m) names m !! k = Some cb).
  { clear m. induction names as [|b names IH]; intros m Hm; [done|]. cbn [fold_left]. apply not_elem_of_cons in Hin as [Hkb Hin]. apply IH; [done|]. by rewrite lookup_insert_ne. }
  apply H. by rewrite lookup_insert_eq.
Qed.

(** The names of a subscription. *)
Lemma subscribe_loop_ok cb names : Forall (fun a => Z.of_nat (length a) < 2 ^ 31) names -> forall n d k, dict_room n d -> n + Z.of_nat (length names) < 2 ^ 29 -> (length names < k)%nat ->
  exists d', subscribe_loop k (bulks names) cb d = Done d' /\ dict_room (n + Z.of_nat (length names)) d' /\ to_map d' = subscribe_all cb names (to_map d).
Proof.
  induction 1 as [|a names Ha _ IH]; intros n d k (Hwf & Hs & Hu) Hn Hk; (destruct k as [|k]; [lia|]); cbn [subscribe_loop].
  - exists d. change (bulks []) with (@nil Z). split_and!; [done| |done]. cbn [length]. rewrite Z.add_0_r. done.
  - unfold bulks. rewrite fmap_cons. cbn [concat]. fold (bulks names). rewrite next_bulk by done. cbn [of_res mbind outcome_bind]. unfold read_bytes.
    rewrite !(proj2 (Z.leb_le _ _)) by (rewrite ?length_app; lia). cbn [andb of_res mbind outcome_bind]. rewrite Nat2Z.id, take_app_length. cbn [length] in *.
    destruct (dictReplace_map d a cb Hwf) as (d1 & -> & Hwf1 & Hm1 & Hs1 & Hu1); [lia|]. cbn [of_res mbind outcome_bind].
    destruct (IH (n + 1) d1 k) as (d2 & -> & Hr2 & Hm2); [split_and!; [done|lia|lia]|lia|lia|]. exists d2. split_and!; [done| |].
    + by replace (n + Z.of_nat (S (length names))) with (n + 1 + Z.of_nat (length names)) by lia.
    + rewrite Hm2, Hm1. done.
Qed.

Lemma strncmp_same b r : strncmp (b ++ r) b (length b) = 0.
Proof. induction b as [|c b IH]; [done|]. cbn. rewrite Z.eqb_refl. by destruct (c =? 0). Qed.

Definition variant (pv : bool) (s : list Z) : list Z := if pv then ch "p" :: s else s.
Definition sub_dict (pv : bool) (st : astate) : dict redisCallback := if pv then a_patterns (s_ac st) else a_channels (s_ac st).

(** The name of a command without regard to case. *)
Lemma subscribe_name pv name r : tolower <$> name = variant pv (cs "subscribe") ->
  let cstr := name ++ crlf ++ r in
  (tolower (char_at cstr 0) =? ch "p") = pv /\ strncasecmp (if pv then tail cstr else cstr) (cs "subscribe" ++ crlf) 11 = 0.
Proof.
  intros Hn cstr. destruct name as [|c name]; [by destruct pv|]. rewrite fmap_cons in Hn. unfold cstr. change (char_at ((c :: name) ++ crlf ++ r) 0) with c.
  assert (Hcmp : forall s, tolower <$> s = cs "subscribe" -> strncasecmp (s ++ crlf ++ r) (cs "subscribe" ++ crlf) 11 = 0).
  { intros s Hs. unfold strncasecmp. rewrite !fmap_app, Hs. change (tolower <$> cs "subscribe") with (cs "subscribe"). rewrite app_assoc.
    exact (strncmp_same (cs "subscribe" ++ (tolower <$> crlf)) _). }
  destruct pv; cbn [variant] in Hn.
  - injection Hn as Hc Hn. split; [by rewrite Hc|]. cbn [app tail]. by apply Hcmp.
  - split; [|by apply Hcmp; rewrite fmap_cons]. assert (Hc : tolower c = ch "s") by (by injection Hn as Hc _). by rewrite Hc.
Qed.

(** A message of the server: its kind, the name it is for (a channel or a pattern), the next element and the others; a message that came
    through a pattern has four, the channel and the payload after the pattern. *)
Definition message (kind name : list Z) (rest : resp) (more : list resp) : redisReply :=
  obj_of (RArray (RBulk kind :: RBulk name :: rest :: more)).

Lemma subscribe_lookup pv st kind name rest more dst : (tolower (char_at kind 0) =? ch "p") = pv ->
  __redisGetSubscribeCallback st (message kind name rest more) dst =
    de ← dictFind (sub_dict pv st) name;
    match de with
    | None => Ret (dst, st)
    | Some e =>
        if strncasecmp (if pv then tail kind else kind) (cs "unsubscribe") 12 =? 0 then
          '(_, d) ← dictDelete (sub_dict pv st) name;
          _ ← assert_type (obj_of rest) REDIS_REPLY_INTEGER;
          let st := if pv then set_patterns d st else set_channels d st in
          Ret (Some (e_val e), if rp_integer (obj_of rest) =? 0 then lower REDIS_SUBSCRIBED st else st)
        else Ret (Some (e_val e), st)
    end.
Proof.
  intros <-. unfold __redisGetSubscribeCallback. change (rp_type (message kind name rest more) =? REDIS_REPLY_ARRAY) with true. cbv iota.
  assert (He : (rp_elements (message kind name rest more) <? 2) = false) by (apply Z.ltb_ge; cbn [message obj_of rp_elements length]; lia).
  by rewrite He.
Qed.

Lemma message_found pv st name rest more dst cb : dict_wf (sub_dict pv st) -> to_map (sub_dict pv st) !! name = Some cb ->
  __redisGetSubscribeCallback st (message (variant pv (cs "message")) name rest more) dst = Ret (Some cb, st).
Proof.
  intros Hwf Hm. destruct (dictFind_map _ name Hwf) as (o & E & Ho). rewrite Hm in Ho. destruct o as [e|]; [|done]. injection Ho as Ho.
  rewrite (subscribe_lookup pv) by (by destruct pv). rewrite E. cbn [mbind res_bind]. rewrite Ho. by destruct pv.
Qed.

Lemma unsubscribe_found pv st name n k dst cb : dict_room n (sub_dict pv st) -> n < 2 ^ 29 -> to_map (sub_dict pv st) !! name = Some cb ->
  exists st', __redisGetSubscribeCallback st (message (variant pv (cs "unsubscribe")) name (RInt k) []) dst = Ret (Some cb, st') /\
    to_map (sub_dict pv st') = delete name (to_map (sub_dict pv st)) /\ flagged REDIS_SUBSCRIBED st' = flagged REDIS_SUBSCRIBED st && negb (k =? 0).
Proof.
  intros (Hwf & Hs & Hu) Hn Hm. destruct (dictFind_map _ name Hwf) as (o & E & Ho). rewrite Hm in Ho. destruct o as [e|]; [|done]. injection Ho as Ho.
  destruct (dictDelete_map _ name Hwf) as (d' & Ed & Hwf' & Hm' & Hs' & Hu'); [lia|]. rewrite (subscribe_lookup pv) by (by destruct pv). rewrite E. cbn [mbind res_bind].
  assert (Hk : (strncasecmp (if pv then tail (variant pv (cs "unsubscribe")) else variant pv (cs "unsubscribe")) (cs "unsubscribe") 12 =? 0) = true) by (by destruct pv).
  rewrite Hk, Ed. cbn [mbind res_bind]. change (assert_type (obj_of (RInt k)) REDIS_REPLY_INTEGER) with (Ret tt). cbn [mbind res_bind]. cbv zeta. rewrite Ho.
  set (st1 := if pv then set_patterns d' st else set_channels d' st). eexists. split; [done|]. change (rp_integer (obj_of (RInt k))) with k. split.
  - rewrite <- Hm'. unfold st1. by destruct pv, (k =? 0).
  - assert (Hf1 : flagged REDIS_SUBSCRIBED st1 = flagged REDIS_SUBSCRIBED st) by (unfold st1; by destruct pv). rewrite <- Hf1.
    destruct (k =? 0); [by rewrite flagged_lower by apply _|by rewrite andb_true_r].
Qed.

(** C11. Subscriptions are a map.  A [SUBSCRIBE] or [PSUBSCRIBE] (in any case) of some names is appended to the output, the context is in the mode of
    subscriptions, and its map, of channels or of patterns, has the callback under every name, in place of an older one; the other map stays.  From then on
    a message on one of the names gives its callback, and the message that ends the subscription of a name gives the callback once more, removes the
    name and ends the mode when the server counts none left. *)
Theorem redis_subscriptions grow st cb pv name names n :
  (forall i, grow i = true) -> flagged (Z.lor REDIS_DISCONNECTING REDIS_FREEING) st = false -> tolower <$> name = variant pv (cs "subscribe") -> names <> [] ->
  Z.of_nat (length (enc (RArray (RBulk <$> name :: names)))) < 2 ^ 31 - 1 -> dict_room n (sub_dict pv st) -> n + Z.of_nat (length names) < 2 ^ 29 ->
  exists st', redisAsyncCommandArgv grow st cb (name :: names) (Some (lengths (name :: names))) = Done (REDIS_OK, st') /\ flagged REDIS_SUBSCRIBED st' = true /\
    s_buf (c_obuf (a_c (s_ac st'))) = s_buf (c_obuf (a_c (s_ac st))) ++ enc (RArray (RBulk <$> name :: names)) /\
    to_map (sub_dict pv st') = subscribe_all cb names (to_map (sub_dict pv st)) /\ sub_dict (negb pv) st' = sub_dict (negb pv) st /\
    forall k, k ∈ names ->
      (forall rest more dst, __redisGetSubscribeCallback st' (message (variant pv (cs "message")) k rest more) dst = Ret (Some cb, st')) /\
      (forall left dst, exists st2, __redisGetSubscribeCallback st' (message (variant pv (cs "unsubscribe")) k (RInt left) []) dst = Ret (Some cb, st2) /\
         to_map (sub_dict pv st2) = delete k (to_map (sub_dict pv st')) /\ flagged REDIS_SUBSCRIBED st2 = negb (left =? 0)).
Proof.
  intros Hgrow He Hname Hne Hb Hroom Hn.
  assert (Hnames : Forall (fun a => Z.of_nat (length a) < 2 ^ 31) names).
  { apply Forall_forall. intros a Ha. apply (command_args (name :: names)); [done|by right]. }
  assert (Hst : exists st' d', redisAsyncCommandArgv grow st cb (name :: names) (Some (lengths (name :: names))) = Done (REDIS_OK, st') /\ flagged REDIS_SUBSCRIBED st' = true /\
    s_buf (c_obuf (a_c (s_ac st'))) = s_buf (c_obuf (a_c (s_ac st))) ++ enc (RArray (RBulk <$> name :: names)) /\ sub_dict pv st' = d' /\
    dict_room (n + Z.of_nat (length names)) d' /\ to_map d' = subscribe_all cb names (to_map (sub_dict pv st)) /\ sub_dict (negb pv) st' = sub_dict (negb pv) st).
  { destruct (subscribe_loop_ok cb names Hnames n (sub_dict pv st) (S (length (bulks names))) Hroom Hn) as (d' & Ed & Hr & Hm); [pose proof (bulks_ge names); lia|].
    unfold redisAsyncCommandArgv. rewrite Hgrow, format_exact by done. cbn [of_res mbind outcome_bind snd]. unfold __redisAsyncCommand.
    change (flagged (Z.lor REDIS_DISCONNECTING REDIS_FREEING) (set_w (tick (s_w st)) st)) with (flagged (Z.lor REDIS_DISCONNECTING REDIS_FREEING) st). rewrite He.
    rewrite next_first by done. cbn [of_res mbind outcome_bind]. destruct (subscribe_name pv name (bulks names) Hname) as [Hp Hc]. rewrite Hp, Hc.
    assert (Hhas : (char_at (bulks names) 0 =? ch "$") = true) by (by destruct names). rewrite Hhas. change (true && (0 =? 0)) with true. cbv iota zeta.
    assert (Hsub : flagged REDIS_SUBSCRIBED (raise REDIS_SUBSCRIBED (set_w (tick (s_w st)) st)) = true) by (rewrite flagged_raise by apply _; apply orb_true_r).
    destruct (sdscatlen_ok (c_obuf (a_c (s_ac st))) (enc (RArray (RBulk <$> name :: names)))) as (b & Eb & Hbuf).
    destruct pv; unfold sub_dict in *; cbn [negb] in *; cbn [raise set_c set_ac set_w s_ac a_patterns a_channels]; rewrite Ed; cbn [mbind outcome_bind];
      unfold __redisAppendCommand; cbn [a_c set_patterns set_channels set_ac s_ac set_w set_c raise c_obuf set_flags]; rewrite Hgrow, Eb;
      eexists _, d'; (split; [reflexivity|]); unfold hook; cbn [a_hooks]; destruct (a_hooks _); by split_and!. }
  destruct Hst as (st' & d' & E & H1 & H2 & H3 & Hr & H4 & H5). exists st'. rewrite H3. split_and!; try done. intros k Hk.
  assert (Hl : to_map (sub_dict pv st') !! k = Some cb) by (rewrite H3, H4; by apply subscribe_all_lookup). split.
  - intros rest more dst. apply message_found; [rewrite H3; apply Hr|done].
  - intros left dst. destruct (unsubscribe_found pv st' k (n + Z.of_nat (length names)) left dst cb) as (st2 & E2 & Hm2 & Hf2); [by rewrite H3|done|done|].
    exists st2. rewrite <- H3. split_and!; [done|done|]. by rewrite Hf2, H1.
Qed.

Definition fresh : astate := mk_ast (redisAsyncInitialize (redisContextInit 0)) true (mk_world [] [] [] 0) [].

Lemma redis_subscriptions_witness : exists st', 
  redisAsyncCommandArgv (fun _ => true) fresh (mk_cb (Some 1) 0) (cs "Subscribe" :: [cs "a"; cs "b"]) (Some (lengths (cs "Subscribe" :: [cs "a"; cs "b"]))) = Done (REDIS_OK, st') /\
  to_map (a_channels (s_ac st')) !! cs "b" = Some (mk_cb (Some 1) 0).
Proof.
  destruct (redis_subscriptions (fun _ => true) fresh (mk_cb (Some 1) 0) false (cs "Subscribe") [cs "a"; cs "b"] 0) as (st' & E & _ & _ & Hm & _ & _);
    [done|vm_compute; reflexivity|vm_compute; reflexivity|done|vm_compute; reflexivity|split_and!; [apply create_wf|vm_compute; discriminate|vm_compute; discriminate]|done|].
  exists st'. split; [exact E|]. cbn [sub_dict] in Hm. rewrite Hm. apply subscribe_all_lookup. by right; left.
Defined.
