(* ===== verification/Ssls.v ===== *)
(** * The TLS server of packages/ssls

    packages/ssls/ssl_server.c: the context of a server with its connections, the socket it listens on, and the loop that turns the events of
    epoll into calls of the callbacks of a service.  The TLS library is the class [PolarSSL].  What the kernel and the allocator answer to the calls of
    one event, and what the callback it leads to does with the package, are the [answers] of the event.  SslsSpec.v has the theorems. *)

From S2P Require Import Prelude CString.

(** The calls that configure a new session, in the order of the source. *)
Inductive ssl_setup :=
  | SslInit
  | SslSetEndpoint
  | SslSetAuthmode
  | SslSetRng
  | SslSetDbg
  | SslSetCiphersuites
  | SslSetSession
  | SslSetSessionCache
  | SslSetCaChain
  | SslSetOwnCert
  | SslSetDhParam
  | SslSetDhParamCtx
  | SslSetBio (fd : Z).

(** PolarSSL: its contexts, what the network answers during a read ([ssl_input]), and its calls.  [ssl_read] gives its result, the bytes it stored
    in the buffer, and the new context.  The two flags are its compile time options and [old_version] the test of its version. *)
Class PolarSSL := {
  ssl_context : Type;
  ssl_input : Type;
  x509_cert : Type;
  rsa_context : Type;
  dhm_context : Type;
  ssl_garbage : ssl_context;
  ssl_set : ssl_context -> ssl_setup -> ssl_context;
  ssl_read : ssl_context -> ssl_input -> Z -> Z * list Z * ssl_context;
  ssl_write : ssl_context -> list Z -> Z * ssl_context;
  x509_zero : x509_cert;
  rsa_zero : rsa_context;
  dhm_zero : dhm_context;
  rsa_init : rsa_context -> rsa_context;
  x509parse_crtfile : x509_cert -> list Z -> Z * x509_cert;
  x509parse_keyfile : rsa_context -> list Z -> Z * rsa_context;
  x509parse_dhmfile : dhm_context -> list Z -> Z * dhm_context;
  POLARSSL_ERR_NET_WANT_READ : Z;
  POLARSSL_ERR_NET_WANT_WRITE : Z;
  POLARSSL_ERR_SSL_CONN_EOF : Z;
  old_version : bool;
  POLARSSL_SSL_CACHE_C : bool;
  POLARSSL_DHM_C : bool
}.

(** What its documentation says of [ssl_read]: the number of bytes read, at most [len], or a negative error. *)
Class PolarSSLSpec `{PolarSSL} := {
  ssl_read_length c i len : 0 <= len -> let '(ret, data, _) := ssl_read c i len in Z.of_nat (length data) = Z.max 0 ret /\ ret <= len;
  polarssl_errors : POLARSSL_ERR_NET_WANT_READ < 0 /\ POLARSSL_ERR_NET_WANT_WRITE < 0 /\ POLARSSL_ERR_SSL_CONN_EOF < 0 /\
    POLARSSL_ERR_SSL_CONN_EOF <> POLARSSL_ERR_NET_WANT_READ /\ POLARSSL_ERR_SSL_CONN_EOF <> POLARSSL_ERR_NET_WANT_WRITE
}.

Definition EPOLLIN : Z := 1.
Definition EPOLLOUT : Z := 4.
Definition EPOLLERR : Z := 8.
Definition EPOLLHUP : Z := 16.
Definition EPOLLRDHUP : Z := 8192.
Definition EPOLLET : Z := 2 ^ 31.

Inductive epoll_op := EPOLL_CTL_ADD | EPOLL_CTL_DEL | EPOLL_CTL_MOD.

(** The callbacks of a service, by number. *)
Record ssls_callbacks := mk_scbs { cb_accepted : option Z; cb_read : option Z; cb_write : option Z; cb_close : option Z; cb_timeout : option Z }.

(** What a callback does with the package. *)
Inductive ssls_act :=
  | ActWrite (conn : option Z) (data : list Z)
  | ActMod (fd mode : Z)
  | ActAdd (fd : Z)
  | ActDel (fd : Z).

(** Calls of callbacks carry the pointer to the connection, if any, and the descriptor. *)
Inductive ssls_effect :=
  | ECtl (efd fd : Z) (op : epoll_op) (events : Z)
  | EAccepted (f : Z) (conn : option Z) (fd : Z)
  | ERead (f : Z) (conn : option Z) (fd : Z) (buf : option (list Z)) (size : Z)
  | EWrite (f : Z) (conn : option Z) (fd : Z)
  | EClose (f conn fd : Z)
  | EWritten (conn fd : Z) (data : list Z) (ret : Z)
  | ERegister (conn fd : Z)
  | ENonblocking (fd : Z)
  | EFree (conn fd : Z)
  | ECloseFd (fd : Z).

(** The environment's part of one event: the result of [accept], the block for the connection, what the network answers, and what the callback does. *)
Record answers `{PolarSSL} := mk_ans { an_accept : Z; an_block : option Z; an_input : ssl_input; an_acts : list ssls_act }.
Arguments mk_ans {_} _ _ _ _.

Record epoll_event := mk_ev { ev_fd : Z; ev_events : Z }.

Section ssls.
Context `{PolarSSL}.

Record ssls_conn_t := mk_conn { cn_addr : Z; cn_fd : Z; cn_ssl : ssl_context }.

(** [x_cbs] is [None] until [ssls_set_callbacks] stores the five pointers: the block comes from [malloc]. *)
Record ssls_ctx_t := mk_sctx {
  x_fd : Z; x_efd : Z; x_conns : list ssls_conn_t;
  x_cacert : x509_cert; x_srvcert : x509_cert; x_dhm : dhm_context; x_rsa : rsa_context;
  x_cbs : option ssls_callbacks }.

Definition set_conns (l : list ssls_conn_t) (x : ssls_ctx_t) : ssls_ctx_t :=
  mk_sctx (x_fd x) (x_efd x) l (x_cacert x) (x_srvcert x) (x_dhm x) (x_rsa x) (x_cbs x).

Definition ssls_event_handler (efd fd : Z) (op : epoll_op) (mode : Z) : ssls_effect :=
  ECtl efd fd op (Z.lor (Z.lor (Z.lor (Z.lor EPOLLERR EPOLLHUP) EPOLLRDHUP) mode) EPOLLET).
Definition ssls_event_mod (efd fd mode : Z) : ssls_effect := ssls_event_handler efd fd EPOLL_CTL_MOD mode.
Definition ssls_event_add (efd fd : Z) : ssls_effect := ssls_event_handler efd fd EPOLL_CTL_ADD EPOLLIN.
Definition ssls_event_del (efd fd : Z) : ssls_effect := ECtl efd fd EPOLL_CTL_DEL 0.

(** ** Keys and certificates: the return value and the context. *)

Definition ssls_load_dh_param (x : ssls_ctx_t) (dh_file : list Z) : Z * ssls_ctx_t :=
  let '(ret, d) := x509parse_dhmfile (x_dhm x) dh_file in
  (if ret <? 0 then -1 else 0, mk_sctx (x_fd x) (x_efd x) (x_conns x) (x_cacert x) (x_srvcert x) d (x_rsa x) (x_cbs x)).

Definition ssls_load_ca_root_cert (x : ssls_ctx_t) (cert_file : list Z) : Z * ssls_ctx_t :=
  let '(ret, c) := x509parse_crtfile (x_cacert x) cert_file in
  (if negb (ret =? 0) then -1 else 0, mk_sctx (x_fd x) (x_efd x) (x_conns x) c (x_srvcert x) (x_dhm x) (x_rsa x) (x_cbs x)).

Definition ssls_load_cert (x : ssls_ctx_t) (cert_file : list Z) : Z * ssls_ctx_t :=
  let '(ret, c) := x509parse_crtfile (x_srvcert x) cert_file in
  (if negb (ret =? 0) then -1 else 0, mk_sctx (x_fd x) (x_efd x) (x_conns x) (x_cacert x) c (x_dhm x) (x_rsa x) (x_cbs x)).

Definition ssls_load_key (x : ssls_ctx_t) (key_file : list Z) : Z * ssls_ctx_t :=
  let '(ret, k) := x509parse_keyfile (x_rsa x) key_file in
  (if ret <? 0 then -1 else 0, mk_sctx (x_fd x) (x_efd x) (x_conns x) (x_cacert x) (x_srvcert x) (x_dhm x) k (x_cbs x)).

Definition ssls_set_callbacks (x : ssls_ctx_t) (cbs : ssls_callbacks) : ssls_ctx_t :=
  mk_sctx (x_fd x) (x_efd x) (x_conns x) (x_cacert x) (x_srvcert x) (x_dhm x) (x_rsa x) (Some cbs).

(** ** Connections *)

Definition setup_calls (fd : Z) : list ssl_setup :=
  [SslInit; SslSetEndpoint; SslSetAuthmode; SslSetRng; SslSetDbg] ++
  (if old_version then [SslSetCiphersuites; SslSetSession] else []) ++
  (if POLARSSL_SSL_CACHE_C then [SslSetSessionCache] else []) ++
  [SslSetCaChain; SslSetOwnCert] ++
  (if POLARSSL_DHM_C then [SslSetDhParam; SslSetDhParamCtx] else []) ++
  [SslSetBio fd].

Definition ssls_register_connection (x : ssls_ctx_t) (fd : Z) (block : option Z) : option Z * ssls_ctx_t * list ssls_effect :=
  match block with
  | None => (None, x, [])
  | Some a => (Some a, set_conns (x_conns x ++ [mk_conn a fd (fold_left ssl_set (setup_calls fd) ssl_garbage)]) x, [ERegister a fd])
  end.

Fixpoint conn_search (fd : Z) (l : list ssls_conn_t) : option ssls_conn_t :=
  match l with
  | [] => None
  | c :: l' => if cn_fd c =? fd then Some c else conn_search fd l'
  end.

Definition ssls_get_connection (x : ssls_ctx_t) (fd : Z) : option ssls_conn_t := conn_search fd (x_conns x).

(** The first connection of the descriptor is unlinked and freed. *)
Fixpoint conn_unlink (fd : Z) (l : list ssls_conn_t) : list ssls_conn_t * list ssls_effect :=
  match l with
  | [] => ([], [])
  | c :: l' => if cn_fd c =? fd then (l', [EFree (cn_addr c) (cn_fd c)]) else let '(r, e) := conn_unlink fd l' in (c :: r, e)
  end.

Definition ssls_remove_connection (x : ssls_ctx_t) (fd : Z) : ssls_ctx_t * list ssls_effect :=
  let '(l, e) := conn_unlink fd (x_conns x) in (set_conns l x, e).

Fixpoint conn_at (a : Z) (l : list ssls_conn_t) : option ssls_conn_t :=
  match l with
  | [] => None
  | c :: l' => if cn_addr c =? a then Some c else conn_at a l'
  end.

(** The session at an address is updated in place. *)
Definition conn_set (a : Z) (s : ssl_context) (x : ssls_ctx_t) : ssls_ctx_t :=
  set_conns ((fun c => if cn_addr c =? a then mk_conn (cn_addr c) (cn_fd c) s else c) <$> x_conns x) x.

Definition ssls_write (x : ssls_ctx_t) (conn : option Z) (data : list Z) : res (ssls_ctx_t * list ssls_effect) :=
  match conn with
  | None => Fault NullDeref
  | Some a => match conn_at a (x_conns x) with
              | None => Fault UseAfterFree
              | Some c => let '(ret, s) := ssl_write (cn_ssl c) data in Ret (conn_set a s x, [EWritten a (cn_fd c) data ret])
              end
  end.

(** What a callback does. *)
Fixpoint run_acts (x : ssls_ctx_t) (acts : list ssls_act) : res (ssls_ctx_t * list ssls_effect) :=
  match acts with
  | [] => Ret (x, [])
  | a :: acts =>
      '(x, e) ← match a with
                | ActWrite conn data => ssls_write x conn data
                | ActMod fd mode => Ret (x, [ssls_event_mod (x_efd x) fd mode])
                | ActAdd fd => Ret (x, [ssls_event_add (x_efd x) fd])
                | ActDel fd => Ret (x, [ssls_event_del (x_efd x) fd])
                end;
      '(x, e') ← run_acts x acts;
      Ret (x, e ++ e')
  end.

(** [if (ctx->cb) ctx->cb(...)], the call being [call f] for the function [f]. *)
Definition run_cb (x : ssls_ctx_t) (slot : ssls_callbacks -> option Z) (call : Z -> ssls_effect) (acts : list ssls_act) : res (ssls_ctx_t * list ssls_effect) :=
  match x_cbs x with
  | None => Fault Uninitialised
  | Some cbs => match slot cbs with
                | None => Ret (x, [])
                | Some f => '(x, e) ← run_acts x acts; Ret (x, call f :: e)
                end
  end.

(** ** The loop *)

Definition buf_size : Z := 4096.

(** The context, the buffer of the loop, and what was done so far. *)
Record ssls_state := mk_sst { st_ctx : ssls_ctx_t; st_buf : option (list Z); st_log : list ssls_effect }.

(** [data] at the start of the buffer. *)
Definition buf_store (data : list Z) (buf : option (list Z)) : res (option (list Z)) :=
  match data, buf with
  | [], _ => Ret buf
  | _, None => Fault NullDeref
  | _, Some b => if (length data <=? length b)%nat then Ret (Some (data ++ drop (length data) b)) else Fault OutOfBounds
  end.

(** A new connection. *)
Definition on_accept (st : ssls_state) (an : answers) : res ssls_state :=
  let x := st_ctx st in
  let remote_fd := an_accept an in
  if remote_fd <? 0 then Ret st
  else
    let '(conn, x, e1) := ssls_register_connection x remote_fd (an_block an) in
    let e2 := [ENonblocking remote_fd; ssls_event_add (x_efd x) remote_fd] in
    '(x, e3) ← run_cb x cb_accepted (fun f => EAccepted f conn remote_fd) (an_acts an);
    Ret (mk_sst x (st_buf st) (st_log st ++ e1 ++ e2 ++ e3)).

(** A descriptor that is ready for reading: it may belong to no connection. *)
Definition on_readable (st : ssls_state) (fd : Z) (an : answers) : res ssls_state :=
  let x := st_ctx st in
  match ssls_get_connection x fd with
  | None =>
      '(x, e) ← run_cb x cb_read (fun f => ERead f None fd None (-1)) (an_acts an);
      Ret (mk_sst x (st_buf st) (st_log st ++ e))
  | Some c =>
      let '(ret, data, s) := ssl_read (cn_ssl c) (an_input an) buf_size in
      buf ← buf_store data (st_buf st);
      let x := conn_set (cn_addr c) s x in
      if (ret =? POLARSSL_ERR_NET_WANT_READ) || (ret =? POLARSSL_ERR_NET_WANT_WRITE) then Ret (mk_sst x buf (st_log st))
      else if ret =? POLARSSL_ERR_SSL_CONN_EOF then Fault ExitFailure
      else if 0 <? ret then
        '(x, e) ← run_cb x cb_read (fun f => ERead f (Some (cn_addr c)) fd buf buf_size) (an_acts an);
        Ret (mk_sst x buf (st_log st ++ e))
      else
        '(x, e) ← run_cb x cb_close (fun f => EClose f (cn_addr c) fd) (an_acts an);
        let '(x, e') := ssls_remove_connection x fd in
        Ret (mk_sst x buf (st_log st ++ e ++ e' ++ [ECloseFd fd]))
  end.

Definition on_writable (st : ssls_state) (fd : Z) (an : answers) : res ssls_state :=
  let x := st_ctx st in
  '(x, e) ← run_cb x cb_write (fun f => EWrite f (cn_addr <$> ssls_get_connection x fd) fd) (an_acts an);
  Ret (mk_sst x (st_buf st) (st_log st ++ e)).

(** The body of the loop over the events. *)
Definition ssls_event (st : ssls_state) (ev : epoll_event) (an : answers) : res ssls_state :=
  let fd := ev_fd ev in
  if negb (Z.land (ev_events ev) EPOLLIN =? 0) then
    if fd =? x_fd (st_ctx st) then on_accept st an else on_readable st fd an
  else if negb (Z.land (ev_events ev) EPOLLOUT =? 0) then on_writable st fd an
  else Ret st.

Fixpoint ssls_events (st : ssls_state) (evs : list (epoll_event * answers)) : res ssls_state :=
  match evs with
  | [] => Ret st
  | (ev, an) :: evs => st ← ssls_event st ev an; ssls_events st evs
  end.

(** The loop does not return: the result is its state after the waits whose events are given. *)
Fixpoint server_waits (st : ssls_state) (waits : list (list (epoll_event * answers))) : res ssls_state :=
  match waits with
  | [] => Ret st
  | w :: waits => st ← ssls_events st w; server_waits st waits
  end.

Definition ssls_server_loop (x : option ssls_ctx_t) (buf : option (list Z)) (waits : list (list (epoll_event * answers))) : res ssls_state :=
  match x with
  | None => Fault ExitFailure
  | Some x => if (x_fd x <=? 0) || (x_efd x <=? 0) then Fault ExitFailure else server_waits (mk_sst x buf []) waits
  end.

(** ** Creation *)

(** What the kernel answers for one address of [getaddrinfo]. *)
Record addr_answers := mk_addr { ad_socket : Z; ad_bind : Z; ad_listen : Z }.

Definition ssls_socket_bind (ad : addr_answers) : Z :=
  if ad_bind ad =? -1 then ad_bind ad
  else if ad_listen ad =? -1 then -1 else ad_listen ad.

(** The loop over the addresses: the socket, if an address was left, and the sockets that were opened. *)
Fixpoint try_addresses (l : list addr_answers) : option Z * list Z :=
  match l with
  | [] => (None, [])
  | ad :: l' =>
      if ad_socket ad =? -1 then try_addresses l'
      else if ssls_socket_bind ad =? -1 then let '(r, o) := try_addresses l' in (r, ad_socket ad :: o)
      else (Some (ad_socket ad), [ad_socket ad])
  end.

(** [addrs] is the list of [getaddrinfo], [None] when it fails.  The result and the sockets left open. *)
Definition ssls_socket_server (addrs : option (list addr_answers)) : Z * list Z :=
  match addrs with
  | None => (-1, [])
  | Some l => let '(r, o) := try_addresses l in (default (-1) r, o)
  end.

(** The context, and the descriptors that stay open. *)
Definition ssls_init (alloc_ok : bool) (addrs : option (list addr_answers)) (efd drbg : Z) : res (option ssls_ctx_t * list Z * list ssls_effect) :=
  if negb alloc_ok then Fault ExitFailure
  else
    let '(fd, opened) := ssls_socket_server addrs in
    if fd =? -1 then Ret (None, opened, [])
    else if efd =? -1 then Ret (None, opened, [ENonblocking fd])
    else if negb (drbg =? 0) then Ret (None, opened ++ [efd], [ENonblocking fd])
    else
      let x := mk_sctx fd efd [] x509_zero x509_zero dhm_zero (rsa_init rsa_zero) None in
      Ret (Some x, opened ++ [efd], [ENonblocking fd; ssls_event_add efd fd]).
End ssls.
