(* ===== verification/SslsSpec.v ===== *)
(** * Theorems on the TLS server

    The life of a connection of Ssls.v over every sequence of events: a monitor reads what the server does and accepts it only when every connection is
    registered, announced, read and written, closed, freed and its descriptor closed in this order and each once ([ssls_connections]).  What a read callback is
    given, and that it holds bytes of other sessions, is in [read_delivers] and [other_session_bytes]. *)

From stdpp Require Import gmap.
From S2P Require Import Prelude CString Ssls.

(** The life of a connection; it is [Ready] for events once it was announced. *)
Inductive phase := New | Ready | Closing | Freed.

#[export] Instance phase_eq_dec : EqDecision phase.
Proof. solve_decision. Defined.

(** The connections by descriptor, with their addresses. *)
Abbreviation monitor := (gmap Z (Z * phase)).

Section monitor.
Context (cbs : ssls_callbacks).

Definition ready : phase := if cb_accepted cbs is Some _ then Ready else New.
Definition dying : phase := if cb_close cbs is Some _ then Closing else ready.

Definition expect (m : monitor) (fd : Z) (v : option (Z * phase)) (m' : monitor) : option monitor := if decide (m !! fd = v) then Some m' else None.

(** The connection an event of [fd] is for: the one of the descriptor, or none. *)
Definition of_conn (conn : option Z) : option (Z * phase) := (fun a => (a, ready)) <$> conn.

Definition mstep (m : monitor) (e : ssls_effect) : option monitor :=
  match e with
  | ECtl _ _ _ _ | ENonblocking _ => Some m
  | ERegister a fd => expect m fd None (<[fd := (a, New)]> m)
  | EAccepted _ (Some a) fd => expect m fd (Some (a, New)) (<[fd := (a, Ready)]> m)
  | EAccepted _ None fd => expect m fd None m
  | ERead _ None fd None size => if size =? -1 then expect m fd None m else None
  | ERead _ (Some a) fd (Some b) size => if Z.of_nat (length b) =? size then expect m fd (Some (a, ready)) m else None
  | ERead _ _ _ _ _ => None
  | EWrite _ conn fd => expect m fd (of_conn conn) m
  | EClose _ a fd => expect m fd (Some (a, ready)) (<[fd := (a, Closing)]> m)
  | EWritten a fd _ _ => match m !! fd with Some (a', p) => if decide (a' = a /\ p <> Freed) then Some m else None | None => None end
  | EFree a fd => expect m fd (Some (a, dying)) (<[fd := (a, Freed)]> m)
  | ECloseFd fd => match m !! fd with Some (_, Freed) => Some (delete fd m) | _ => None end
  end.

Fixpoint mrun (m : monitor) (l : list ssls_effect) : option monitor :=
  match l with
  | [] => Some m
  | e :: l => match mstep m e with Some m => mrun m l | None => None end
  end.

Lemma mrun_app m l l' m1 : mrun m l = Some m1 -> mrun m (l ++ l') = mrun m1 l'.
Proof. revert m. induction l as [|e l IH]; intros m Hm; cbn in *; [by injection Hm as ->|]. destruct (mstep m e); [by apply IH|done]. Qed.

Lemma expect_ok m fd v m' : m !! fd = v -> expect m fd v m' = Some m'.
Proof. intros Hm. unfold expect. by rewrite decide_True. Qed.
End monitor.

Section spec.
Context `{PolarSSLSpec}.
Implicit Types (x : ssls_ctx_t) (l : list ssls_conn_t) (st : ssls_state).

(** The connections of a context as the monitor knows them. *)
Definition table (cbs : ssls_callbacks) (l : list ssls_conn_t) : monitor := list_to_map ((fun c => (cn_fd c, (cn_addr c, ready cbs))) <$> l).

Lemma table_lookup cbs l fd : table cbs l !! fd = (fun c => (cn_addr c, ready cbs)) <$> conn_search fd l.
Proof.
  unfold table. induction l as [|c l IH]; [done|]. cbn. destruct (Z.eqb_spec (cn_fd c) fd) as [<-|Hne]; [by rewrite lookup_insert_eq|]. by rewrite lookup_insert_ne.
Qed.

Lemma search_fd fd l c : conn_search fd l = Some c -> cn_fd c = fd /\ c ∈ l.
Proof.
  induction l as [|c' l IH]; [done|]. cbn. destruct (Z.eqb_spec (cn_fd c') fd) as [<-|]; intros E.
  - injection E as <-. split; [done|left].
  - destruct (IH E) as [? ?]. split; [done|by right].
Qed.

Lemma search_none fd l : conn_search fd l = None <-> fd ∉ cn_fd <$> l.
Proof.
  induction l as [|c l IH]; cbn; [split; [intros _; apply not_elem_of_nil|done]|]. rewrite not_elem_of_cons, <- IH.
  destruct (Z.eqb_spec (cn_fd c) fd) as [<-|]; naive_solver.
Qed.

Lemma search_app fd l l' : conn_search fd (l ++ l') = match conn_search fd l with Some c => Some c | None => conn_search fd l' end.
Proof. induction l as [|c l IH]; [done|]. cbn. by destruct (cn_fd c =? fd). Qed.

Lemma search_in l c : NoDup (cn_fd <$> l) -> c ∈ l -> conn_search (cn_fd c) l = Some c.
Proof.
  induction l as [|c' l IH]; intros Hd Hc; [by apply elem_of_nil in Hc|]. cbn. apply NoDup_cons in Hd as [Hn Hd]. apply elem_of_cons in Hc as [<-|Hc]; [by rewrite Z.eqb_refl|].
  destruct (Z.eqb_spec (cn_fd c') (cn_fd c)) as [E|]; [|auto]. destruct Hn. rewrite E. by apply list_elem_of_fmap_2.
Qed.

Lemma unlink_ok fd l c : NoDup (cn_fd <$> l) -> conn_search fd l = Some c ->
  exists r, conn_unlink fd l = (r, [EFree (cn_addr c) fd]) /\ r `sublist_of` l /\ forall fd', conn_search fd' r = if decide (fd' = fd) then None else conn_search fd' l.
Proof.
  induction l as [|c' l IH]; intros Hd; [done|]. apply NoDup_cons in Hd as [Hn Hd]. cbn. destruct (Z.eqb_spec (cn_fd c') fd) as [<-|Hne]; intros E.
  - injection E as <-. exists l. split_and!; [done|by constructor|]. intros fd'. destruct (decide (fd' = cn_fd c')) as [->|]; [by apply search_none|].
    by destruct (Z.eqb_spec (cn_fd c') fd').
  - destruct (IH Hd E) as (r & -> & Hs & Hr). exists (c' :: r). split_and!; [done|by constructor|]. intros fd'. cbn. rewrite Hr.
    destruct (Z.eqb_spec (cn_fd c') fd') as [<-|]; [by rewrite decide_False|done].
Qed.

(** ** What callbacks change *)

Definition ids (l : list ssls_conn_t) : list (Z * Z) := (fun c => (cn_fd c, cn_addr c)) <$> l.

(** Writes change the sessions and nothing else of a context. *)
Definition same (x x' : ssls_ctx_t) : Prop := x_fd x' = x_fd x /\ x_efd x' = x_efd x /\ x_cbs x' = x_cbs x /\ ids (x_conns x') = ids (x_conns x).

Lemma same_refl x : same x x.
Proof. done. Qed.
Lemma same_trans x y z : same x y -> same y z -> same x z.
Proof. unfold same. intros (-> & -> & -> & ->) (-> & -> & -> & ->). done. Qed.

Lemma conn_set_same a s x : same x (conn_set a s x).
Proof. split_and!; try done. cbn. unfold ids. rewrite <- list_fmap_compose. apply list_fmap_ext. intros i c _. cbn. by destruct (cn_addr c =? a). Qed.

Lemma ids_fds l : cn_fd <$> l = fst <$> ids l.
Proof. unfold ids. by rewrite <- list_fmap_compose. Qed.
Lemma ids_addrs l : cn_addr <$> l = snd <$> ids l.
Proof. unfold ids. by rewrite <- list_fmap_compose. Qed.
Lemma ids_table cbs l : table cbs l = list_to_map ((fun i => (i.1, (i.2, ready cbs))) <$> ids l).
Proof. unfold table, ids. by rewrite <- list_fmap_compose. Qed.

Lemma conn_at_in a l : a ∈ cn_addr <$> l -> exists c, conn_at a l = Some c /\ c ∈ l /\ cn_addr c = a.
Proof.
  induction l as [|c l IH]; intros Ha; [by apply elem_of_nil in Ha|]. cbn in *. destruct (Z.eqb_spec (cn_addr c) a) as [E|Hne]; [exists c; split_and!; [done|left|done]|].
  apply elem_of_cons in Ha as [->|Ha]; [done|]. destruct (IH Ha) as (c' & ? & ? & ?). exists c'. split_and!; [done|by right|done].
Qed.

(** Callbacks write only to connections that were not freed. *)
Definition act_ok (live : list Z) (act : ssls_act) : bool :=
  match act with
  | ActWrite (Some a) _ => bool_decide (a ∈ live)
  | ActWrite None _ => false
  | _ => true
  end.

Lemma run_acts_ok cbs acts : forall x m, forallb (act_ok (cn_addr <$> x_conns x)) acts = true ->
  (forall i, i ∈ ids (x_conns x) -> exists p, p <> Freed /\ m !! i.1 = Some (i.2, p)) ->
  exists x' e, run_acts x acts = Ret (x', e) /\ same x x' /\ mrun cbs m e = Some m.
Proof.
  induction acts as [|act acts IH]; intros x m Ha Hm; [by eexists _, _|]. cbn [forallb] in Ha. apply andb_true_iff in Ha as [Ha Hr]. cbn [run_acts].
  assert (Hstep : exists x1 e1, match act with
     | ActWrite conn data => ssls_write x conn data
     | ActMod fd mode => Ret (x, [ssls_event_mod (x_efd x) fd mode])
     | ActAdd fd => Ret (x, [ssls_event_add (x_efd x) fd])
     | ActDel fd => Ret (x, [ssls_event_del (x_efd x) fd]) end = Ret (x1, e1) /\ same x x1 /\ mrun cbs m e1 = Some m).
  { destruct act as [[a|] data| | |]; cbn [act_ok] in Ha; try (eexists _, _; split; [reflexivity|by split]); [|done].
    apply bool_decide_eq_true in Ha. destruct (conn_at_in a _ Ha) as (c & E & Hc & Hca). cbn [ssls_write]. rewrite E.
    destruct (ssl_write (cn_ssl c) data) as [ret s]. eexists _, _. split_and!; [reflexivity|apply conn_set_same|].
    destruct (Hm (cn_fd c, cn_addr c)) as (p & Hp & Hmp); [by apply (list_elem_of_fmap_2 (fun c => (cn_fd c, cn_addr c)))|]. cbn in *. rewrite Hmp, decide_True; done. }
  destruct Hstep as (x1 & e1 & -> & Hs1 & Hm1). cbn [mbind res_bind]. pose proof Hs1 as (_ & _ & _ & Hi).
  destruct (IH x1 m) as (x2 & e2 & -> & Hs2 & Hm2); [by rewrite ids_addrs, Hi, <- ids_addrs|by rewrite Hi|]. cbn [mbind res_bind].
  eexists _, _. split_and!; [reflexivity|by eapply same_trans|]. by rewrite (mrun_app _ _ _ _ _ Hm1).
Qed.

Lemma run_cb_ok cbs slot call acts x m m' : x_cbs x = Some cbs -> forallb (act_ok (cn_addr <$> x_conns x)) acts = true ->
  match slot cbs with Some f => mstep cbs m (call f) = Some m' | None => m' = m end ->
  (forall i, i ∈ ids (x_conns x) -> exists p, p <> Freed /\ m' !! i.1 = Some (i.2, p)) ->
  exists x' e, run_cb x slot call acts = Ret (x', e) /\ same x x' /\ mrun cbs m e = Some m'.
Proof.
  intros Hc Ha Hstep Hm. unfold run_cb. rewrite Hc. destruct (slot cbs) as [f|]; [|by subst; eexists _, _].
  destruct (run_acts_ok cbs acts x m' Ha Hm) as (x' & e & -> & Hs & He). cbn [mbind res_bind]. eexists _, _. split_and!; [reflexivity|done|]. cbn. by rewrite Hstep.
Qed.

(** ** The invariant *)

Record sinv (cbs : ssls_callbacks) (st : ssls_state) : Prop := {
  sinv_cbs : x_cbs (st_ctx st) = Some cbs;
  sinv_fds : NoDup (cn_fd <$> x_conns (st_ctx st));
  sinv_addrs : NoDup (cn_addr <$> x_conns (st_ctx st));
  sinv_buf : exists b, st_buf st = Some b /\ Z.of_nat (length b) = buf_size;
  sinv_log : mrun cbs ∅ (st_log st) = Some (table cbs (x_conns (st_ctx st)))
}.

Lemma ready_live cbs : ready cbs <> Freed.
Proof. unfold ready. by destruct (cb_accepted cbs). Qed.

Lemma table_live cbs l : NoDup (cn_fd <$> l) -> forall i, i ∈ ids l -> exists p, p <> Freed /\ table cbs l !! i.1 = Some (i.2, p).
Proof.
  intros Hd i (c & -> & Hc)%list_elem_of_fmap. exists (ready cbs). split; [apply ready_live|]. rewrite table_lookup. cbn. by rewrite search_in.
Qed.

(** A step that leaves the connections as they are. *)
Lemma sinv_same cbs st x b e : sinv cbs st -> same (st_ctx st) x -> Z.of_nat (length b) = buf_size ->
  mrun cbs (table cbs (x_conns (st_ctx st))) e = Some (table cbs (x_conns (st_ctx st))) -> sinv cbs (mk_sst x (Some b) (st_log st ++ e)).
Proof.
  intros [Hc Hf Ha _ Hl] (Ef & Ee & Ec & Ei) Hb He. split; cbn.
  - by rewrite Ec.
  - by rewrite ids_fds, Ei, <- ids_fds.
  - by rewrite ids_addrs, Ei, <- ids_addrs.
  - by exists b.
  - rewrite (mrun_app _ _ _ _ _ Hl), He. by rewrite !ids_table, Ei.
Qed.

Lemma buf_store_ok (data b : list Z) : (length data <= length b)%nat -> buf_store data (Some b) = Ret (Some (data ++ drop (length data) b)).
Proof. intros Hd. unfold buf_store. destruct data as [|c data]; [done|]. by rewrite (proj2 (Nat.leb_le _ _) Hd). Qed.

Lemma stored_length (data b : list Z) : (length data <= length b)%nat -> length (data ++ drop (length data) b) = length b.
Proof. intros Hd. rewrite length_app, length_drop. lia. Qed.

(** The rules of the environment: [accept] gives a descriptor that is not in use, the allocator a block that is not in use, and callbacks write to connections
    that were not freed. *)
Definition env_ok (st : ssls_state) (ev : epoll_event) (an : answers) : bool :=
  let l := x_conns (st_ctx st) in
  if negb (Z.land (ev_events ev) EPOLLIN =? 0) && (ev_fd ev =? x_fd (st_ctx st)) then
    (an_accept an <? 0) || bool_decide (an_accept an ∉ cn_fd <$> l) &&
      match an_block an with
      | None => forallb (act_ok (cn_addr <$> l)) (an_acts an)
      | Some a => bool_decide (a ∉ cn_addr <$> l) && forallb (act_ok ((cn_addr <$> l) ++ [a])) (an_acts an)
      end
  else forallb (act_ok (cn_addr <$> l)) (an_acts an).

(** A new connection at the end of the list. *)
Lemma table_snoc cbs l c : cn_fd c ∉ cn_fd <$> l -> table cbs (l ++ [c]) = <[cn_fd c := (cn_addr c, ready cbs)]> (table cbs l).
Proof.
  intros Hn%search_none. apply map_eq. intros fd. rewrite table_lookup, search_app. cbn. destruct (Z.eqb_spec (cn_fd c) fd) as [<-|].
  - by rewrite Hn, lookup_insert_eq.
  - rewrite lookup_insert_ne, table_lookup by done. by destruct (conn_search fd l).
Qed.

Lemma NoDup_snoc {A B} (f : A -> B) (l : list A) c : NoDup (f <$> l) -> f c ∉ f <$> l -> NoDup (f <$> (l ++ [c])).
Proof. intros Hd Hn. rewrite fmap_app. apply NoDup_app. split_and!; [done| |apply NoDup_singleton]. intros y Hy ->%list_elem_of_singleton. done. Qed.

Lemma accept_registered cbs st c acts : sinv cbs st -> cn_fd c ∉ cn_fd <$> x_conns (st_ctx st) -> cn_addr c ∉ cn_addr <$> x_conns (st_ctx st) ->
  forallb (act_ok ((cn_addr <$> x_conns (st_ctx st)) ++ [cn_addr c])) acts = true ->
  let x := set_conns (x_conns (st_ctx st) ++ [c]) (st_ctx st) in
  exists x' e, run_cb x cb_accepted (fun f => EAccepted f (Some (cn_addr c)) (cn_fd c)) acts = Ret (x', e) /\
    sinv cbs (mk_sst x' (st_buf st) (st_log st ++ [ERegister (cn_addr c) (cn_fd c)] ++ [ENonblocking (cn_fd c); ssls_event_add (x_efd x) (cn_fd c)] ++ e)).
Proof.
  intros [Hc Hf Ha Hb Hl] Hfd Haddr Hacts x. pose proof (NoDup_snoc cn_fd _ c Hf Hfd) as Hfds. pose proof (NoDup_snoc cn_addr _ c Ha Haddr) as Haddrs.
  pose proof (table_snoc cbs _ c Hfd) as Ht.
  destruct (run_cb_ok cbs cb_accepted (fun f => EAccepted f (Some (cn_addr c)) (cn_fd c)) acts x (<[cn_fd c := (cn_addr c, New)]> (table cbs (x_conns (st_ctx st)))) (table cbs (x_conns x)))
    as (x' & e & -> & (_ & _ & Ec & Ei) & He); [done|by cbn; rewrite fmap_app| |by apply table_live|].
  { cbn [x set_conns x_conns]. unfold ready in Ht. destruct (cb_accepted cbs); [|done]. cbn [mstep]. rewrite expect_ok by apply lookup_insert_eq. by rewrite insert_insert_eq, Ht. }
  eexists _, _. split; [reflexivity|]. split; cbn [st_ctx st_buf st_log]; [by rewrite Ec|by rewrite ids_fds, Ei, <- ids_fds|by rewrite ids_addrs, Ei, <- ids_addrs|done|].
  rewrite (mrun_app _ _ _ _ _ Hl). cbn [app mrun mstep]. rewrite expect_ok by (rewrite table_lookup; by rewrite (proj2 (search_none _ _) Hfd)). cbn [mrun mstep ssls_event_add ssls_event_handler].
  rewrite He. by rewrite !ids_table, Ei.
Qed.

Lemma on_accept_ok cbs st ev an : sinv cbs st -> env_ok st ev an = true -> negb (Z.land (ev_events ev) EPOLLIN =? 0) && (ev_fd ev =? x_fd (st_ctx st)) = true ->
  exists st', on_accept st an = Ret st' /\ sinv cbs st'.
Proof.
  intros Hi He Hev. pose proof Hi as [Hc Hf Ha (b & Eb & Hb) Hl]. unfold env_ok in He. rewrite Hev in He. revert He. unfold on_accept.
  destruct (an_accept an <? 0); [by eexists|]. cbn [orb]. rewrite andb_true_iff, bool_decide_eq_true. intros [Hfd Hacts]. destruct (an_block an) as [a|]; cbn [ssls_register_connection].
  - apply andb_true_iff in Hacts as [Haddr%bool_decide_eq_true Hacts]. set (c := mk_conn a (an_accept an) _).
    destruct (accept_registered cbs st c (an_acts an) Hi Hfd Haddr Hacts) as (x' & e & E & Hi'). cbn [cn_addr cn_fd c] in E. rewrite E. cbn [mbind res_bind]. by eexists.
  - destruct (run_cb_ok cbs cb_accepted (fun f => EAccepted f None (an_accept an)) (an_acts an) (st_ctx st) (table cbs (x_conns (st_ctx st))) (table cbs (x_conns (st_ctx st))))
      as (x' & e & -> & Hs & He); [done|done| |by apply table_live|].
    { destruct (cb_accepted cbs); [|done]. cbn [mstep]. apply expect_ok. by rewrite table_lookup, (proj2 (search_none _ _) Hfd). }
    cbn [mbind res_bind]. eexists. split; [done|]. rewrite Eb. by apply sinv_same.
Qed.

Lemma sublist_fmap {A B} (f : A -> B) (l1 l2 : list A) : l1 `sublist_of` l2 -> f <$> l1 `sublist_of` f <$> l2.
Proof. induction 1; cbn; by constructor. Qed.

(** The end of a connection: after its callback the connection is freed and the descriptor closed. *)
Lemma close_connection cbs st x b fd c acts : sinv cbs st -> same (st_ctx st) x -> Z.of_nat (length b) = buf_size -> ssls_get_connection (st_ctx st) fd = Some c ->
  forallb (act_ok (cn_addr <$> x_conns (st_ctx st))) acts = true ->
  exists x1 e, run_cb x cb_close (fun f => EClose f (cn_addr c) fd) acts = Ret (x1, e) /\
    let '(x2, e') := ssls_remove_connection x1 fd in sinv cbs (mk_sst x2 (Some b) (st_log st ++ e ++ e' ++ [ECloseFd fd])).
Proof.
  intros [Hc Hf Ha _ Hl] (Ef & Ee & Ec & Ei) Hb Hg Hacts. set (t := table cbs (x_conns (st_ctx st))).
  assert (Ht : t !! fd = Some (cn_addr c, ready cbs)) by (unfold t; rewrite table_lookup; unfold ssls_get_connection in Hg; by rewrite Hg).
  destruct (run_cb_ok cbs cb_close (fun f => EClose f (cn_addr c) fd) acts x t (<[fd := (cn_addr c, dying cbs)]> t)) as (x1 & e & -> & (_ & _ & Ec1 & Ei1) & He).
  - by rewrite Ec.
  - by rewrite ids_addrs, Ei, <- ids_addrs.
  - unfold dying. destruct (cb_close cbs); [by apply expect_ok|by rewrite insert_id].
  - rewrite Ei. intros i Hin. destruct (table_live cbs _ Hf i Hin) as (p & Hp & Hi). destruct (decide (i.1 = fd)) as [E|]; [|exists p; by rewrite lookup_insert_ne].
    fold t in Hi. rewrite E, Ht in Hi. injection Hi as -> <-. exists (dying cbs). rewrite E, lookup_insert_eq. split; [|done]. unfold dying. by destruct (cb_close cbs).
  - assert (Hi1 : ids (x_conns x1) = ids (x_conns (st_ctx st))) by congruence. assert (Hf1 : NoDup (cn_fd <$> x_conns x1)) by (by rewrite ids_fds, Hi1, <- ids_fds).
    assert (Ht1 : table cbs (x_conns x1) = t) by (unfold t; by rewrite !ids_table, Hi1).
    assert (Hg1 : exists c1, conn_search fd (x_conns x1) = Some c1 /\ cn_addr c1 = cn_addr c).
    { rewrite <- Ht1, table_lookup in Ht. destruct (conn_search fd (x_conns x1)) as [c1|]; [|done]. injection Ht as ?. by exists c1. }
    destruct Hg1 as (c1 & Hg1 & Hca). destruct (unlink_ok fd _ c1 Hf1 Hg1) as (r & Er & Hsub & Hr). eexists _, _. split; [reflexivity|].
    unfold ssls_remove_connection. rewrite Er. split; cbn [st_ctx st_buf st_log set_conns x_cbs x_conns].
    + congruence.
    + eapply sublist_NoDup; [exact Hf1|]. by apply sublist_fmap.
    + eapply sublist_NoDup; [|apply sublist_fmap; exact Hsub]. by rewrite ids_addrs, Hi1, <- ids_addrs.
    + by exists b.
    + rewrite (mrun_app _ _ _ _ _ Hl), (mrun_app _ _ _ _ _ He). cbn [app mrun mstep]. rewrite expect_ok by (rewrite lookup_insert_eq; congruence). cbn [mrun mstep].
      rewrite lookup_insert_eq. f_equal. apply map_eq. intros fd'. rewrite table_lookup, Hr. rewrite !insert_insert_eq, delete_insert_eq. destruct (decide (fd' = fd)) as [->|]; [by rewrite lookup_delete_eq|].
      rewrite lookup_delete_ne by done. by rewrite <- Ht1, table_lookup.
Qed.

(** The event on which the server stops: a session whose peer went away without saying so. *)
Definition eof_event (st : ssls_state) (ev : epoll_event) (an : answers) : bool :=
  negb (Z.land (ev_events ev) EPOLLIN =? 0) && negb (ev_fd ev =? x_fd (st_ctx st)) &&
  match ssls_get_connection (st_ctx st) (ev_fd ev) with
  | Some c => (ssl_read (cn_ssl c) (an_input an) buf_size).1.1 =? POLARSSL_ERR_SSL_CONN_EOF
  | None => false
  end.

Lemma on_readable_ok cbs st fd an : sinv cbs st -> forallb (act_ok (cn_addr <$> x_conns (st_ctx st))) (an_acts an) = true ->
  match ssls_get_connection (st_ctx st) fd with Some c => (ssl_read (cn_ssl c) (an_input an) buf_size).1.1 <> POLARSSL_ERR_SSL_CONN_EOF | None => True end ->
  exists st', on_readable st fd an = Ret st' /\ sinv cbs st'.
Proof.
  intros Hi Hacts Heof. pose proof Hi as [Hc Hf Ha (b & Eb & Hb) Hl]. unfold on_readable. destruct (ssls_get_connection (st_ctx st) fd) as [c|] eqn:Hg.
  - pose proof (ssl_read_length (cn_ssl c) (an_input an) buf_size ltac:(done)) as Hr. destruct (ssl_read _ _ _) as [[ret data] s]. destruct Hr as [Hd Hle]. cbn in Heof.
    assert (Hlen : (length data <= length b)%nat) by (unfold buf_size in *; lia). rewrite Eb, buf_store_ok by done. pose proof (stored_length data b Hlen) as Hsl.
    set (b' := data ++ drop (length data) b) in *. cbn [mbind res_bind]. set (x := conn_set (cn_addr c) s (st_ctx st)). assert (Hs : same (st_ctx st) x) by apply conn_set_same.
    assert (Hb' : Z.of_nat (length b') = buf_size) by congruence.
    destruct ((ret =? POLARSSL_ERR_NET_WANT_READ) || (ret =? POLARSSL_ERR_NET_WANT_WRITE)).
    { eexists. split; [done|]. rewrite <- (app_nil_r (st_log st)). by apply sinv_same. }
    rewrite (proj2 (Z.eqb_neq _ _) Heof). destruct (0 <? ret).
    + destruct (run_cb_ok cbs cb_read (fun f => ERead f (Some (cn_addr c)) fd (Some b') buf_size) (an_acts an) x (table cbs (x_conns (st_ctx st))) (table cbs (x_conns (st_ctx st))))
        as (x' & e & -> & Hs' & He); [by rewrite (proj1 (proj2 (proj2 Hs)))|by rewrite ids_addrs, (proj2 (proj2 (proj2 Hs))), <- ids_addrs| |rewrite (proj2 (proj2 (proj2 Hs))); by apply table_live|].
      { destruct (cb_read cbs); [|done]. cbn [mstep]. rewrite Hb', Z.eqb_refl. apply expect_ok. rewrite table_lookup. unfold ssls_get_connection in Hg. by rewrite Hg. }
      cbn [mbind res_bind]. eexists. split; [done|]. apply sinv_same; [done|by eapply same_trans|done|done].
    + destruct (close_connection cbs st x b' fd c (an_acts an)) as (x1 & e & -> & Hx); [done|done|done|done|done|]. cbn [mbind res_bind].
      destruct (ssls_remove_connection x1 fd) as [x2 e']. by eexists.
  - destruct (run_cb_ok cbs cb_read (fun f => ERead f None fd None (-1)) (an_acts an) (st_ctx st) (table cbs (x_conns (st_ctx st))) (table cbs (x_conns (st_ctx st))))
      as (x' & e & -> & Hs' & He); [done|done| |by apply table_live|].
    { destruct (cb_read cbs); [|done]. cbn [mstep]. rewrite Z.eqb_refl. apply expect_ok. rewrite table_lookup. unfold ssls_get_connection in Hg. by rewrite Hg. }
    cbn [mbind res_bind]. eexists. split; [done|]. rewrite Eb. by apply sinv_same.
Qed.

Lemma on_writable_ok cbs st fd an : sinv cbs st -> forallb (act_ok (cn_addr <$> x_conns (st_ctx st))) (an_acts an) = true ->
  exists st', on_writable st fd an = Ret st' /\ sinv cbs st'.
Proof.
  intros Hi Hacts. pose proof Hi as [Hc Hf Ha (b & Eb & Hb) Hl]. unfold on_writable.
  destruct (run_cb_ok cbs cb_write (fun f => EWrite f (cn_addr <$> ssls_get_connection (st_ctx st) fd) fd) (an_acts an) (st_ctx st) (table cbs (x_conns (st_ctx st))) (table cbs (x_conns (st_ctx st))))
    as (x' & e & -> & Hs' & He); [done|done| |by apply table_live|].
  { destruct (cb_write cbs); [|done]. cbn [mstep]. apply expect_ok. rewrite table_lookup. unfold ssls_get_connection, of_conn. by destruct (conn_search fd _). }
  cbn [mbind res_bind]. eexists. split; [done|]. rewrite Eb. by apply sinv_same.
Qed.

Lemma ssls_event_ok cbs st ev an : sinv cbs st -> env_ok st ev an = true ->
  if eof_event st ev an then ssls_event st ev an = Fault ExitFailure else exists st', ssls_event st ev an = Ret st' /\ sinv cbs st'.
Proof.
  intros Hi He. unfold eof_event, ssls_event. pose proof (on_accept_ok cbs st ev an Hi He) as Hacc. unfold env_ok in He.
  destruct (Z.land (ev_events ev) EPOLLIN =? 0); cbn [negb andb] in *.
  { destruct (Z.land (ev_events ev) EPOLLOUT =? 0); cbn [negb]; [by eexists|by apply on_writable_ok]. }
  destruct (ev_fd ev =? x_fd (st_ctx st)); cbn [negb andb] in *; [by apply Hacc|].
  pose proof (on_readable_ok cbs st (ev_fd ev) an Hi He) as Hr. destruct (ssls_get_connection (st_ctx st) (ev_fd ev)) as [c|] eqn:Hg; [|by apply Hr].
  destruct (Z.eqb_spec (ssl_read (cn_ssl c) (an_input an) buf_size).1.1 POLARSSL_ERR_SSL_CONN_EOF) as [E|]; [|by apply Hr]. clear Hr.
  unfold on_readable. rewrite Hg. pose proof (ssl_read_length (cn_ssl c) (an_input an) buf_size ltac:(done)) as Hl. destruct (ssl_read _ _ _) as [[ret data] s]. cbn in E. subst ret.
  destruct polarssl_errors as (_ & _ & Hneg & H1 & H2). destruct data as [|? ?]; [|cbn [length] in Hl; lia]. cbn [buf_store mbind res_bind].
  by rewrite (proj2 (Z.eqb_neq _ _) H1), (proj2 (Z.eqb_neq _ _) H2), Z.eqb_refl.
Qed.

(** ** Sequences of events *)

Fixpoint env_run (st : ssls_state) (evs : list (epoll_event * answers)) : bool :=
  match evs with
  | [] => true
  | (ev, an) :: evs => env_ok st ev an && match ssls_event st ev an with Ret st => env_run st evs | Fault _ => true end
  end.

Fixpoint eof_run (st : ssls_state) (evs : list (epoll_event * answers)) : bool :=
  match evs with
  | [] => false
  | (ev, an) :: evs => eof_event st ev an || match ssls_event st ev an with Ret st => eof_run st evs | Fault _ => false end
  end.

Lemma ssls_events_ok cbs evs : forall st, sinv cbs st -> env_run st evs = true ->
  if eof_run st evs then ssls_events st evs = Fault ExitFailure else exists st', ssls_events st evs = Ret st' /\ sinv cbs st'.
Proof.
  induction evs as [|[ev an] evs IH]; intros st Hi He; [by eexists|]. cbn [env_run] in He. apply andb_true_iff in He as [He Hr]. cbn [eof_run ssls_events].
  pose proof (ssls_event_ok cbs st ev an Hi He) as Hs. destruct (eof_event st ev an); cbn [orb]; [by rewrite Hs|]. destruct Hs as (st' & E & Hi'). rewrite E in *. cbn [mbind res_bind].
  by apply IH.
Qed.

Lemma server_waits_concat waits : forall st, server_waits st waits = ssls_events st (concat waits).
Proof.
  assert (Happ : forall a b st, ssls_events st (a ++ b) = ssls_events st a ≫= (fun st => ssls_events st b)).
  { induction a as [|[ev an] a IH]; intros b st; [done|]. cbn [app ssls_events]. destruct (ssls_event st ev an); [apply IH|done]. }
  induction waits as [|w waits IH]; intros st; [done|]. cbn [server_waits concat]. rewrite Happ. destruct (ssls_events st w); [apply IH|done].
Qed.

(** C8. The life of TLS connections.  For every sequence of events that a server waits for, whatever the kernel, the network and the callbacks answer (within
    the rules of [env_ok]), the server keeps going as long as no session ends without a notification, and stops the process at the first that does.
    What it did up to then is accepted by the monitor: every connection is registered under a free descriptor, announced once before any other call, every
    callback is called with the connection of its descriptor, the close callback is called once, then the connection is freed once and the descriptor
    closed, and nothing refers to it later.  The connections in the list are those the monitor has open. *)
Theorem ssls_connections (x : ssls_ctx_t) cbs buf waits :
  0 < x_fd x -> 0 < x_efd x -> x_conns x = [] -> x_cbs x = Some cbs -> Z.of_nat (length buf) = buf_size -> env_run (mk_sst x (Some buf) []) (concat waits) = true ->
  if eof_run (mk_sst x (Some buf) []) (concat waits) then ssls_server_loop (Some x) (Some buf) waits = Fault ExitFailure
  else exists st, ssls_server_loop (Some x) (Some buf) waits = Ret st /\ mrun cbs ∅ (st_log st) = Some (table cbs (x_conns (st_ctx st))) /\
    NoDup (cn_fd <$> x_conns (st_ctx st)) /\ NoDup (cn_addr <$> x_conns (st_ctx st)).
Proof.
  intros Hfd Hefd Hc Hcbs Hb He. assert (Hi : sinv cbs (mk_sst x (Some buf) [])) by (split; cbn; rewrite ?Hc; try done; [constructor|constructor|by exists buf]).
  pose proof (ssls_events_ok cbs (concat waits) _ Hi He) as Hr. unfold ssls_server_loop. rewrite (proj2 (Z.leb_gt _ _) Hfd), (proj2 (Z.leb_gt _ _) Hefd), server_waits_concat. cbn [orb].
  destruct (eof_run _ _); [done|]. destruct Hr as (st & -> & [_ Hf Ha _ Hl]). by exists st.
Qed.

(** ** What a read callback is given *)

(** The bytes of the record, then whatever the buffer held: the size is that of the buffer, not that of the record. *)
Lemma read_delivers cbs st fd an c ret data s f : sinv cbs st -> cb_read cbs = Some f -> ssls_get_connection (st_ctx st) fd = Some c ->
  ssl_read (cn_ssl c) (an_input an) buf_size = (ret, data, s) -> 0 < ret -> an_acts an = [] ->
  on_readable st fd an = Ret (mk_sst (conn_set (cn_addr c) s (st_ctx st)) (Some (data ++ drop (length data) (default [] (st_buf st))))
    (st_log st ++ [ERead f (Some (cn_addr c)) fd (Some (data ++ drop (length data) (default [] (st_buf st)))) buf_size])).
Proof.
  intros [Hc _ _ (b & Eb & Hb) _] Hf Hg Er Hret Hacts. unfold on_readable. rewrite Hg. pose proof (ssl_read_length (cn_ssl c) (an_input an) buf_size ltac:(done)) as Hl.
  rewrite Er in *. destruct Hl as [Hd Hle]. destruct polarssl_errors as (H1 & H2 & H3 & _). rewrite Eb, buf_store_ok by (unfold buf_size in *; lia). cbn [mbind res_bind from_option id].
  rewrite !(proj2 (Z.eqb_neq _ _)) by lia. cbn [orb]. rewrite (proj2 (Z.ltb_lt _ _) Hret). unfold run_cb. cbn [conn_set set_conns x_cbs]. by rewrite Hc, Hf, Hacts.
Qed.

(** So a short record of one session is handed over together with the end of a full buffer of another one. *)
Lemma other_session_bytes cbs st fd1 fd2 an1 an2 c1 c2 s1 s2 d1 d2 f : sinv cbs st -> cb_read cbs = Some f -> fd1 <> fd2 ->
  ssls_get_connection (st_ctx st) fd1 = Some c1 -> ssls_get_connection (st_ctx st) fd2 = Some c2 -> an_acts an1 = [] -> an_acts an2 = [] ->
  ssl_read (cn_ssl c1) (an_input an1) buf_size = (buf_size, d1, s1) ->
  ssl_read (cn_ssl c2) (an_input an2) buf_size = (Z.of_nat (length d2), d2, s2) -> d2 <> [] ->
  exists st1 st2, on_readable st fd1 an1 = Ret st1 /\ on_readable st1 fd2 an2 = Ret st2 /\
    last (st_log st2) = Some (ERead f (Some (cn_addr c2)) fd2 (Some (d2 ++ drop (length d2) d1)) buf_size).
Proof.
  intros Hi Hf Hne Hg1 Hg2 Ha1 Ha2 Er1 Er2 Hd2. pose proof (read_delivers cbs st fd1 an1 c1 _ d1 s1 f Hi Hf Hg1 Er1 ltac:(done) Ha1) as E1.
  pose proof Hi as [Hc Hfds Haddrs (b & Eb & Hb) Hl]. rewrite Eb in E1. cbn [from_option id] in E1.
  pose proof (ssl_read_length (cn_ssl c1) (an_input an1) buf_size ltac:(done)) as Hl1. rewrite Er1 in Hl1. destruct Hl1 as [Hl1 _].
  assert (Hdrop : drop (length d1) b = []) by (apply drop_ge; unfold buf_size in *; lia). rewrite Hdrop, app_nil_r in E1. set (st1 := mk_sst _ _ _) in E1.
  destruct (on_readable_ok cbs st fd1 an1 Hi) as (st' & E' & Hi1); [by rewrite Ha1|rewrite Hg1, Er1; cbn; destruct polarssl_errors as (_ & _ & ? & _); unfold buf_size; lia|].
  rewrite E1 in E'. injection E' as <-.
  assert (Hg : ssls_get_connection (st_ctx st1) fd2 = Some c2).
  { assert (Hna : cn_addr c2 <> cn_addr c1).
    { destruct (search_fd _ _ _ Hg1) as [H1 [i1 Hi1']%list_elem_of_lookup], (search_fd _ _ _ Hg2) as [H2 [i2 Hi2']%list_elem_of_lookup]. intros E. destruct Hne. rewrite <- H1, <- H2.
      assert (i1 = i2) as <-; [|congruence]. eapply (NoDup_lookup (cn_addr <$> x_conns (st_ctx st))); [done|by rewrite list_lookup_fmap, Hi1'|]. rewrite list_lookup_fmap, Hi2'. cbn. by rewrite E. }
    revert Hg2. unfold ssls_get_connection. cbn [st_ctx st1 conn_set set_conns x_conns]. generalize (x_conns (st_ctx st)). intros l. induction l as [|c l IH]; [done|]. cbn.
    destruct (Z.eqb_spec (cn_addr c) (cn_addr c1)) as [E|]; cbn; (destruct (cn_fd c =? fd2); [|exact IH]); [intros [= ->]; done|done]. }
  assert (Hpos : 0 < Z.of_nat (length d2)) by (destruct d2; [done|cbn [length]; lia]).
  exists st1. eexists. split; [exact E1|]. rewrite (read_delivers cbs st1 fd2 an2 c2 _ d2 s2 f Hi1 Hf Hg Er2 Hpos Ha2). split; [reflexivity|].
  cbn [st_log]. by rewrite last_snoc.
Qed.

(** ** Sockets *)

(** The server listens on the first address that works; the sockets of the addresses before it stay open. *)
Lemma socket_server_first addrs fd opened : ssls_socket_server (Some addrs) = (fd, opened) ->
  (fd = -1 /\ Forall (fun ad => ad_socket ad = -1 \/ ssls_socket_bind ad = -1) addrs) \/
  (exists pre ad post, addrs = pre ++ ad :: post /\ fd = ad_socket ad /\ fd <> -1 /\ ssls_socket_bind ad <> -1 /\
     Forall (fun ad => ad_socket ad = -1 \/ ssls_socket_bind ad = -1) pre /\ opened = filter (fun s => s <> -1) (ad_socket <$> pre) ++ [fd]).
Proof.
  unfold ssls_socket_server. revert fd opened. induction addrs as [|ad addrs IH]; intros fd opened; cbn [try_addresses]; [intros [= <- <-]; by left|].
  destruct (Z.eqb_spec (ad_socket ad) (-1)) as [E|Hne].
  - intros Hs. destruct (IH _ _ Hs) as [[-> Hf]|(pre & ad' & post & -> & -> & H1 & H2 & H3 & ->)]; [left; split; [done|constructor; auto]|].
    right. exists (ad :: pre), ad', post. split_and!; try done; [constructor; auto|]. rewrite fmap_cons, filter_cons_False by (by intros ?). done.
  - destruct (Z.eqb_spec (ssls_socket_bind ad) (-1)) as [E|Hne'].
    + destruct (try_addresses addrs) as [r o]. intros [= <- <-]. destruct (IH _ _ eq_refl) as [[-> Hf]|(pre & ad' & post & -> & Hr & H1 & H2 & H3 & ->)]; [left; split; [done|constructor; auto]|].
      right. exists (ad :: pre), ad', post. split_and!; try done; [constructor; auto|]. rewrite fmap_cons, filter_cons_True by done. by rewrite Hr.
    + intros [= <- <-]. right. exists [], ad, addrs. by split_and!.
Qed.
End spec.

(** ** A session library

    Sessions that hold the decrypted bytes the callback was not given yet. *)

Inductive net_answer := NetRecord (l : list Z) | NetNothing | NetClosed | NetEof.

Definition ref_read (s : list Z) (i : net_answer) (len : Z) : Z * list Z * list Z :=
  let s := match i with NetRecord l => s ++ l | _ => s end in
  match s with
  | [] => (match i with NetClosed => 0 | NetEof => -29312 | _ => -82 end, [], [])
  | _ => let d := take (Z.to_nat len) s in (Z.of_nat (length d), d, drop (Z.to_nat len) s)
  end.

#[export] Instance RefTls : PolarSSL := {|
  ssl_context := list Z; ssl_input := net_answer; x509_cert := unit; rsa_context := unit; dhm_context := unit;
  ssl_garbage := []; ssl_set s _ := s; ssl_read := ref_read; ssl_write s data := (Z.of_nat (length data), s);
  x509_zero := tt; rsa_zero := tt; dhm_zero := tt; rsa_init u := u;
  x509parse_crtfile u _ := (0, u); x509parse_keyfile u _ := (0, u); x509parse_dhmfile u _ := (0, u);
  POLARSSL_ERR_NET_WANT_READ := -82; POLARSSL_ERR_NET_WANT_WRITE := -84; POLARSSL_ERR_SSL_CONN_EOF := -29312;
  old_version := false; POLARSSL_SSL_CACHE_C := true; POLARSSL_DHM_C := true |}.

#[export] Instance RefTlsSpec : PolarSSLSpec.
Proof.
  split; [|done]. intros s i len Hlen. cbn. unfold ref_read. set (s' := match i with NetRecord l => s ++ l | _ => s end). destruct s' as [|c s'].
  - destruct i; cbn; lia.
  - rewrite length_take. split; lia.
Qed.

Definition demo_ctx : ssls_ctx_t := mk_sctx 3 4 [] tt tt tt tt (Some (mk_scbs (Some 1) (Some 2) (Some 3) (Some 4) None)).
Definition demo_events : list (list (epoll_event * answers)) :=
  [[(mk_ev 3 1, mk_ans 7 (Some 100) NetNothing [ActWrite (Some 100) [65]]); (mk_ev 3 1, mk_ans 8 (Some 200) NetNothing [])];
   [(mk_ev 7 1, mk_ans 0 None (NetRecord [66; 67]) []); (mk_ev 8 4, mk_ans 0 None NetNothing [ActWrite (Some 200) [1]])];
   [(mk_ev 7 1, mk_ans 0 None NetClosed []); (mk_ev 3 1, mk_ans 7 (Some 100) NetNothing [])]].

Lemma ssls_connections_witness : exists st, ssls_server_loop (Some demo_ctx) (Some (replicate 4096 0)) demo_events = Ret st /\ NoDup (cn_fd <$> x_conns (st_ctx st)).
Proof.
  pose proof (ssls_connections demo_ctx (mk_scbs (Some 1) (Some 2) (Some 3) (Some 4) None) (replicate 4096 0) demo_events eq_refl eq_refl eq_refl eq_refl eq_refl ltac:(vm_compute; reflexivity)) as Hw.
  assert (E : eof_run (mk_sst demo_ctx (Some (replicate 4096 0)) []) (concat demo_events) = false) by (vm_compute; reflexivity). rewrite E in Hw. destruct Hw as (st & Hs & _ & Hd & _).
  exists st. split; [exact Hs|exact Hd].
Defined.

(** A record longer than the buffer: the rest stays in the session, and no event will come for it, the descriptor being edge-triggered. *)
Lemma record_tail_waits : exists st, ssls_server_loop (Some demo_ctx) (Some (replicate 4096 0))
    [[(mk_ev 3 1, mk_ans 7 (Some 100) NetNothing [])]; [(mk_ev 7 1, mk_ans 0 None (NetRecord (replicate 5000 1)) [])]] = Ret st /\
  (fun c => length (cn_ssl c : list Z)) <$> x_conns (st_ctx st) = [904%nat].
Proof. eexists. split; vm_compute; reflexivity. Qed.
