(* ===== verification/WsBroadcast.v ===== *)
(** * The broadcaster of packages/websocket

    packages/websocket/broadcast.c and [cb_request_list_init] of request.c as a system of threads: every worker of the server owns a list of connections and may
    be inside [ws_broadcast], which writes one frame to the pipe of each worker; beside it a thread reads one pipe and walks the list of the worker.  A step
    is one operation of one thread, so that a sequence of steps is an interleaving.  A pipe holds whole frames (a frame is shorter than
    [PIPE_BUF], so the kernel does not split it) and at most [capacity] of them, a writer waiting for room. *)

From S2P Require Import Prelude CString BodyBuffer Queue Http Websocket.

(** The walk of a thread: the frame it read and the node of the list it is at, [None] when that node was freed. *)
Record bworker := mk_bw {
  bw_conns : list ws_request;
  bw_channel : option nat;
  bw_pending : option (ws_broadcast_frame * nat);
  bw_turn : option (ws_broadcast_frame * option Z) }.

Inductive blog :=
  | LCall (w : nat) (f : ws_broadcast_frame)
  | LWritten (w p : nat) (f : ws_broadcast_frame)
  | LLost (w p : nat) (f : ws_broadcast_frame)
  | LTaken (w : nat) (f : ws_broadcast_frame)
  | LSent (w : nat) (socket : Z) (frame : list Z).

(** The pipes in the order of [ws_broadcast_channels], the workers, and what was done. *)
Record bsys := mk_bsys { b_pipes : list (list ws_broadcast_frame); b_workers : list bworker; b_log : list blog }.

Definition set_bconns (l : list ws_request) (wk : bworker) : bworker := mk_bw l (bw_channel wk) (bw_pending wk) (bw_turn wk).
Definition set_pending (o : option (ws_broadcast_frame * nat)) (wk : bworker) : bworker := mk_bw (bw_conns wk) (bw_channel wk) o (bw_turn wk).
Definition set_turn (o : option (ws_broadcast_frame * option Z)) (wk : bworker) : bworker := mk_bw (bw_conns wk) (bw_channel wk) (bw_pending wk) o.
Definition put_worker (w : nat) (wk : bworker) (e : list blog) (s : bsys) : bsys := mk_bsys (b_pipes s) (<[w := wk]> (b_workers s)) (b_log s ++ e).

(** ** Start *)

(** One channel per worker of the server; [pipe_ok] is the success of each [pipe]. *)
Fixpoint broadcast_channels (pipe_ok : list bool) : res (list (list ws_broadcast_frame)) :=
  match pipe_ok with
  | [] => Ret []
  | ok :: r => if ok then l ← broadcast_channels r; Ret ([] :: l) else Fault ExitFailure
  end.

(** The new counter, the flag [is_broadcast] and the channels. *)
Definition ws_broadcaster (pipe_ok : list bool) : res (nat * bool * list (list ws_broadcast_frame)) :=
  l ← broadcast_channels pipe_ok; Ret (0%nat, true, l).

(** The search of the channel at the start of [ws_broadcast_worker], whose result is followed without a test. *)
Definition thread_channel (channel : nat) (pipes : list (list ws_broadcast_frame)) : res nat :=
  match pipes !! channel with
  | None => Fault NullDeref
  | Some _ => Ret channel
  end.

(** A worker starts: its list, the counter, and its thread when the broadcaster is on. *)
Definition cb_request_list_init (is_broadcast : bool) (count : nat) (pipes : list (list ws_broadcast_frame)) : res (bworker * nat) :=
  if is_broadcast then p ← thread_channel count pipes; Ret (mk_bw [] (Some p) None None, S count)
  else Ret (mk_bw [] None None None, count).

Fixpoint start_workers (n : nat) (is_broadcast : bool) (count : nat) (pipes : list (list ws_broadcast_frame)) : res (list bworker) :=
  match n with
  | O => Ret []
  | S n => '(wk, count) ← cb_request_list_init is_broadcast count pipes; l ← start_workers n is_broadcast count pipes; Ret (wk :: l)
  end.

(** ** Steps *)

Inductive bop :=
  | BAdd (w : nat) (wr : ws_request)
  | BDelete (w : nat) (socket : Z)
  | BCall (w : nat) (origin : option ws_request) (payload : list Z) (msg_type channel : Z)
  | BWrite (w : nat) (ok : bool)
  | BRead (w : nat)
  | BSend (w : nat) (n : Z).

(** [head->next]: the node after the one of [socket]. *)
Fixpoint next_node (socket : Z) (l : list ws_request) : option Z :=
  match l with
  | [] => None
  | wr :: l' => if wr_socket wr =? socket then wr_socket <$> head l' else next_node socket l'
  end.

(** The two tests before [ws_write]. *)
Definition skips (f : ws_broadcast_frame) (wr : ws_request) : bool :=
  (0 <=? br_channel f) && negb (wr_channel wr =? br_channel f) || (br_source f =? wr_socket wr).

(** The next pipe of the loop of [ws_broadcast], or its end. *)
Definition next_pipe (s : bsys) (f : ws_broadcast_frame) (k : nat) : option (ws_broadcast_frame * nat) :=
  if (k <? length (b_pipes s))%nat then Some (f, k) else None.

Section steps.
Context (capacity : nat).

(** [ws_broadcast] is called: the frame is built. *)
Definition step_call (w : nat) (wk : bworker) (origin : option ws_request) (payload : list Z) (msg_type channel : Z) (s : bsys) : option (res bsys) :=
  match bw_pending wk with
  | Some _ => None
  | None => Some (f ← ws_broadcast origin payload msg_type channel; Ret (put_worker w (set_pending (next_pipe s f 0) wk) [LCall w f] s))
  end.

(** One turn of its loop; a failed write is only reported. *)
Definition step_write (w : nat) (wk : bworker) (ok : bool) (s : bsys) : option (res bsys) :=
  match bw_pending wk with
  | None => None
  | Some (f, k) =>
      match b_pipes s !! k with
      | None => None
      | Some q =>
          let wk := set_pending (next_pipe s f (S k)) wk in
          if ok then
            if (length q <? capacity)%nat then
              Some (Ret (mk_bsys (<[k := q ++ [f]]> (b_pipes s)) (<[w := wk]> (b_workers s)) (b_log s ++ [LWritten w k f])))
            else None
          else Some (Ret (put_worker w wk [LLost w k f] s))
      end
  end.

(** The thread reads a frame and goes to the head of the list. *)
Definition step_read (w : nat) (wk : bworker) (s : bsys) : option (res bsys) :=
  match bw_turn wk, bw_channel wk with
  | None, Some p =>
      match b_pipes s !! p with
      | Some (f :: q) =>
          let turn := (fun wr => (f, Some (wr_socket wr))) <$> head (bw_conns wk) in
          Some (Ret (mk_bsys (<[p := q]> (b_pipes s)) (<[w := set_turn turn wk]> (b_workers s)) (b_log s ++ [LTaken w f])))
      | _ => None
      end
  | _, _ => None
  end.

(** The body of the loop over the connections; [n] is the result of the socket. *)
Definition step_send (w : nat) (wk : bworker) (n : Z) (s : bsys) : option (res bsys) :=
  match bw_turn wk with
  | None => None
  | Some (f, None) => Some (Fault UseAfterFree)
  | Some (f, Some socket) =>
      match ws_request_get socket (bw_conns wk) with
      | None => Some (Fault UseAfterFree)
      | Some wr =>
          let turn := (fun socket => (f, Some socket)) <$> next_node socket (bw_conns wk) in
          Some (if skips f wr then Ret (put_worker w (set_turn turn wk) [] s)
                else
                  '(_, acts) ← ws_write n wr (br_type f) (take (Z.to_nat (br_len f)) (br_data f));
                  Ret (put_worker w (set_turn turn wk) (omap (fun a => match a with Sent fd b => Some (LSent w fd b) | _ => None end) acts) s))
      end
  end.

(** The worker registers and removes connections when it is not inside [ws_broadcast]. *)
Definition step_add (w : nat) (wk : bworker) (wr : ws_request) (s : bsys) : option (res bsys) :=
  match bw_pending wk with
  | Some _ => None
  | None => Some (Ret (put_worker w (set_bconns (ws_request_add wr (bw_conns wk)) wk) [] s))
  end.

(** The node a thread is at is freed with the others. *)
Definition step_delete (w : nat) (wk : bworker) (socket : Z) (s : bsys) : option (res bsys) :=
  match bw_pending wk with
  | Some _ => None
  | None =>
      let turn := match bw_turn wk with
                  | Some (f, Some x) => if (x =? socket) && ((ws_request_delete socket (bw_conns wk)).1 =? 0) then Some (f, None) else bw_turn wk
                  | t => t
                  end in
      Some (Ret (put_worker w (set_turn turn (set_bconns (ws_request_delete socket (bw_conns wk)).2 wk)) [] s))
  end.

(** [None] when the thread of the operation has to wait, or has nothing to do. *)
Definition bstep (s : bsys) (op : bop) : option (res bsys) :=
  let at_worker w g := match b_workers s !! w with Some wk => g wk | None => None end in
  match op with
  | BAdd w wr => at_worker w (fun wk => step_add w wk wr s)
  | BDelete w socket => at_worker w (fun wk => step_delete w wk socket s)
  | BCall w origin payload msg_type channel => at_worker w (fun wk => step_call w wk origin payload msg_type channel s)
  | BWrite w ok => at_worker w (fun wk => step_write w wk ok s)
  | BRead w => at_worker w (fun wk => step_read w wk s)
  | BSend w n => at_worker w (fun wk => step_send w wk n s)
  end.

Fixpoint brun (s : bsys) (ops : list bop) : option (res bsys) :=
  match ops with
  | [] => Some (Ret s)
  | op :: ops => match bstep s op with
                 | Some (Ret s) => brun s ops
                 | r => r
                 end
  end.
End steps.

(** ** What was done *)

Definition sent_to (v : nat) (socket : Z) (l : list blog) : list (list Z) :=
  omap (fun e => match e with LSent w fd b => if (w =? v)%nat && (fd =? socket) then Some b else None | _ => None end) l.





(** ** The invariant *)













Section preservation.
Context (capacity : nat).










End preservation.

(** ** Ends *)

(** No call of [ws_broadcast] is under way, no frame is in a pipe and no thread is walking. *)
Definition at_rest (wk : bworker) : bool := match bw_pending wk, bw_turn wk with None, None => true | _, _ => false end.
Definition quiescent (s : bsys) : bool := forallb at_rest (b_workers s) && forallb (fun q => match q with [] => true | _ => false end) (b_pipes s).



Section work.
Context (bound npipes : nat).

End work.






Section completion.
Context (capacity : nat).


End completion.

(** ** The system as it starts *)

(** Workers with the given connections, each with the thread of its own channel. *)
Definition started (conns : list (list ws_request)) : bsys :=
  mk_bsys (replicate (length conns) []) (imap (fun i l => mk_bw l (Some i) None None) conns) [].

Lemma channels_all n : broadcast_channels (replicate n true) = Ret (replicate n []).
Proof. induction n as [|n IH]; [done|]. cbn. by rewrite IH. Qed.

(** [ws_broadcaster] and the start of the workers give each worker the channel of its turn. *)
Lemma start_channels n : ('(count, on, pipes) ← ws_broadcaster (replicate n true); l ← start_workers n on count pipes; Ret (mk_bsys pipes l [])) = Ret (started (replicate n [])).
Proof.
  unfold ws_broadcaster. rewrite channels_all. cbn [mbind res_bind]. unfold started. rewrite length_replicate.
  assert (H : forall m k, (k + m <= n)%nat -> start_workers m true k (replicate n []) = Ret (imap (fun i l => mk_bw l (Some (k + i)%nat) None None) (replicate m []))).
  { induction m as [|m IH]; intros k Hk; [done|]. cbn [start_workers cb_request_list_init]. unfold thread_channel. rewrite lookup_replicate_2 by lia. cbn [mbind res_bind].
    rewrite IH by lia. cbn [mbind res_bind replicate imap]. rewrite Nat.add_0_r. do 2 f_equal. apply imap_ext. intros i x _. cbn. do 2 f_equal. lia. }
  rewrite (H n O) by lia. done.
Qed.


Section runs.
Context (capacity : nat).



End runs.


Definition demo_conn (socket channel : Z) : ws_request := ws_request_create socket channel sample_cbs.


(** Two workers that broadcast at the same time: their connections see the two messages in different orders. *)
Lemma orders_differ : exists s, brun 4 (started [[demo_conn 7 1]; [demo_conn 8 1]])
    [BCall 0 None [65] 1 1; BCall 1 None [66] 1 1; BWrite 0 true; BWrite 1 true; BWrite 1 true; BWrite 0 true; BRead 0; BSend 0 1; BRead 0; BSend 0 1; BRead 1; BSend 1 1; BRead 1; BSend 1 1]
    = Some (Ret s) /\
  sent_to 0 7 (b_log s) = [rfc6455_short 1 [65]; rfc6455_short 1 [66]] /\ sent_to 1 8 (b_log s) = [rfc6455_short 1 [66]; rfc6455_short 1 [65]].
Proof. eexists. split_and!; vm_compute; reflexivity. Qed.

(** The list is shared without a lock: a connection that is closed while the thread is at it is used after it was freed. *)
Lemma walk_of_freed_node : brun 4 (started [[demo_conn 7 1; demo_conn 8 1]]) [BCall 0 None [65] 1 1; BWrite 0 true; BRead 0; BDelete 0 7; BSend 0 1] = Some (Fault UseAfterFree).
Proof. vm_compute. reflexivity. Qed.

(** A worker that starts when all channels are taken follows a null pointer. *)
Lemma more_workers_than_channels n : start_workers (S n) true 0 (replicate n []) = Fault NullDeref.
Proof.
  assert (H : forall m k, (k + m = n)%nat -> start_workers (S m) true k (replicate n []) = Fault NullDeref); [|by apply (H n O)].
  assert (Hs : forall m k, start_workers (S m) true k (replicate n []) =
    ('(wk, count) ← cb_request_list_init true k (replicate n []); l ← start_workers m true count (replicate n []); Ret (wk :: l))) by done.
  induction m as [|m IH]; intros k Hk; rewrite Hs; unfold cb_request_list_init, thread_channel.
  - assert (E : replicate n (@nil ws_broadcast_frame) !! k = None) by (apply lookup_ge_None; rewrite length_replicate; lia). by rewrite E.
  - rewrite lookup_replicate_2 by lia. cbn [mbind res_bind]. by rewrite (IH (S k)) by lia.
Qed.

(** Messages that are too long: above 1024 bytes [ws_broadcast] writes past the frame, and from 253 bytes on the thread that sends the frame writes
    past the buffer of [ws_send_data]; from 126 bytes on the announced length is wrong ([ws_write_medium_length]). *)
Lemma long_broadcasts origin payload t c wr n : (252 < length payload)%nat ->
  if (1024 <? length payload)%nat then ws_broadcast origin payload t c = Fault OutOfBounds
  else exists f, ws_broadcast origin payload t c = Ret f /\ ws_write n wr (br_type f) (take (Z.to_nat (br_len f)) (br_data f)) = Fault OutOfBounds.
Proof.
  intros Hl. unfold ws_broadcast, BROADCAST_BUFFER. destruct (Nat.ltb_spec 1024 (length payload)).
  - by rewrite (proj2 (Z.ltb_lt _ _)) by lia.
  - rewrite (proj2 (Z.ltb_ge _ _)) by lia. eexists. split; [done|]. cbn [br_type br_len br_data]. rewrite Nat2Z.id, take_app_length.
    unfold ws_write, ws_send_data, ws_frame. rewrite (proj2 (Z.ltb_ge _ 126)), (proj2 (Z.leb_le 126 _)), (proj2 (Z.leb_le _ 0xFFFF)) by lia. cbn [andb length].
    rewrite (proj2 (Z.ltb_lt buf_size _)) by (unfold buf_size; lia). done.
Qed.

(** A pipe that refuses a message: the connections of that worker are not sent it, and the caller is told nothing. *)
Lemma refused_write_loses : exists s, brun 4 (started [[demo_conn 7 1]; [demo_conn 8 1]]) [BCall 0 None [65] 1 1; BWrite 0 true; BWrite 0 false; BRead 0; BSend 0 1] = Some (Ret s) /\
  quiescent s = true /\ sent_to 0 7 (b_log s) = [rfc6455_short 1 [65]] /\ sent_to 1 8 (b_log s) = [].
Proof. eexists. split_and!; vm_compute; reflexivity. Qed.
