(* ===== verification/SdsText.v ===== *)
(** * The other string functions of packages/redis/sds.c

    Copies, trimming, comparison, splitting by a separator, numbers, and the quoted_text form of strings with its reader.  [ok] answers the allocations by
    their number, [n] being the number of the next one; [None] is [NULL].  Strings are those of Sds.v. *)

From S2P Require Import Prelude CString Session Digits Sds Hiredis.

Definition sdsnew (ok : bool) (init : option (list Z)) : option sds := sdsnewlen ok (match init with None => [] | Some t => take (strlen t) t end).
Definition sdsdup (ok : bool) (s : sds) : option sds := sdsnewlen ok (s_buf s).

(** The length up to the first NUL. *)
Definition sdsupdatelen (s : sds) : sds :=
  let reallen := strlen (s_buf s) in mk_sds (take reallen (s_buf s)) (swrap 32 (s_free s + (sdslen s - Z.of_nat reallen))).

Definition sdsgrowzero (ok : bool) (s : sds) (len : Z) : option sds :=
  let curlen := sdslen s in
  if len <=? curlen then Some s
  else match sdsMakeRoomFor ok s (len - curlen) with
       | None => None
       | Some s => Some (mk_sds (s_buf s ++ replicate (Z.to_nat (len - curlen)) 0) (swrap 32 (sdslen s + s_free s - len)))
       end.

Definition sdscpylen (ok : bool) (s : sds) (t : list Z) : option sds :=
  let len := Z.of_nat (length t) in
  match (if s_free s + sdslen s <? len then sdsMakeRoomFor ok s (len - sdslen s) else Some s) with
  | None => None
  | Some s => Some (mk_sds t (swrap 32 (s_free s + sdslen s - len)))
  end.

Definition sdscpy (ok : bool) (s : sds) (t : list Z) : option sds := sdscpylen ok s (take (strlen t) t).

(** ** Trimming *)

(** [strchr(cset, c)], which also finds the NUL of the set. *)
Definition in_cset (cset : list Z) (c : Z) : bool := bool_decide (c ∈ take (strlen cset) cset) || (c =? 0).

(** [while(sp <= end && strchr(cset, *sp)) sp++]: the number of bytes passed. *)
Fixpoint trim_start (cset l : list Z) : nat :=
  match l with
  | [] => O
  | c :: l => if in_cset cset c then S (trim_start cset l) else O
  end.

(** [while(ep > start && strchr(cset, *ep)) ep--]. *)
Fixpoint trim_end (cset l : list Z) (ep : nat) : nat :=
  match ep with
  | O => O
  | S k => if in_cset cset (char_at l ep) then trim_end cset l k else ep
  end.

Definition sdstrim (s : sds) (cset : list Z) : sds :=
  let sp := Z.of_nat (trim_start cset (s_buf s)) in
  let ep := if sdslen s =? 0 then -1 else Z.of_nat (trim_end cset (s_buf s) (length (s_buf s) - 1)) in
  let len := if ep <? sp then 0 else ep - sp + 1 in
  mk_sds (take (Z.to_nat len) (drop (Z.to_nat sp) (s_buf s))) (swrap 32 (s_free s + (sdslen s - len))).

(** ** Letters and order *)

Definition toupper (c : Z) : Z := if (97 <=? c) && (c <=? 122) then c - 32 else c.
Definition sdstolower (s : sds) : sds := mk_sds (tolower <$> s_buf s) (s_free s).
Definition sdstoupper (s : sds) : sds := mk_sds (toupper <$> s_buf s) (s_free s).

(** The difference of the first bytes that differ. *)
Fixpoint memcmp (a b : list Z) (n : nat) : Z :=
  match n, a, b with
  | S n, x :: a, y :: b => if x =? y then memcmp a b n else x - y
  | _, _, _ => 0
  end.

Definition sdscmp (s1 s2 : sds) : Z :=
  let l1 := sdslen s1 in
  let l2 := sdslen s2 in
  let minlen := if l1 <? l2 then l1 else l2 in
  let cmp := memcmp (s_buf s1) (s_buf s2) (Z.to_nat minlen) in
  if cmp =? 0 then swrap 32 (l1 - l2) else cmp.

(** ** Splitting *)

Section alloc.
Context (ok : nat -> bool).

(** [tokens[elements] = sdsnewlen(...)]: the array has [slots] entries. *)
Definition add_token (slots : Z) (tokens : list sds) (t : list Z) (n : nat) : res (option (list sds)) :=
  if Z.of_nat (length tokens) <? slots then
    match sdsnewlen (ok n) t with
    | None => Ret None
    | Some t => Ret (Some (tokens ++ [t]))
    end
  else Fault OutOfBounds.

(** The loop over the positions [j], with the start of the token.  The result [None] is the way through [cleanup]. *)
Fixpoint split_at_sep (fuel : nat) (s sep : list Z) (j start slots : Z) (tokens : list sds) (n : nat) : outcome (option (list sds * Z * Z * nat)) :=
  let len := Z.of_nat (length s) in
  let seplen := Z.of_nat (length sep) in
  if j <? len - (seplen - 1) then
    match fuel with
    | O => NoFuel
    | S fuel =>
        let full := slots <? Z.of_nat (length tokens) + 2 in
        if full && negb (ok n) then Done None
        else
          let '(slots, n) := if full then (slots * 2, S n) else (slots, n) in
          if (seplen =? 1) && (char_at s (Z.to_nat j) =? char_at sep 0) || (memcmp (drop (Z.to_nat j) s) sep (length sep) =? 0) then
            r ← of_res (add_token slots tokens (take (Z.to_nat (j - start)) (drop (Z.to_nat start) s)) n);
            match r with
            | None => Done None
            | Some tokens => split_at_sep fuel s sep (j + seplen) (j + seplen) slots tokens (S n)
            end
          else split_at_sep fuel s sep (j + 1) start slots tokens n
    end
  else Done (Some (tokens, start, slots, n)).

(** The tokens; their number is [*count]. *)
Definition sdssplitlen (s sep : list Z) (n : nat) : outcome (option (list sds)) :=
  if (Z.of_nat (length sep) <? 1) || negb (ok n) then Done None
  else if (length s =? 0)%nat then Done (Some [])
  else
    r ← split_at_sep (length s) s sep 0 0 5 [] (S n);
    match r with
    | None => Done None
    | Some (tokens, start, slots, n) =>
        of_res (add_token slots tokens (take (length s - Z.to_nat start) (drop (Z.to_nat start) s)) n)
    end.

(** ** Numbers *)

(** [-value] of the least [long long] is not defined in C; the conversion to [unsigned long long] makes it [2 ^ 63] where it wraps around.
    The 32 bytes of the buffer are more than the 20 digits and the sign. *)
Definition sdsfromlonglong (value : Z) (n : nat) : option sds :=
  let v := wrap 64 (if value <? 0 then - value else value) in
  let ds := digits_of 31 10 v [] in
  sdsnewlen (ok n) (if value <? 0 then ch "-" :: ds else ds).

(** ** Quoted strings *)

Definition bel : Z := 7.
Definition bs : Z := 8.
Definition tab : Z := 9.
Definition nl : Z := 10.
Definition cr : Z := 13.
Definition dquote : Z := 34.
Definition bslash : Z := 92.

Definition hex_char (d : Z) : Z := if d <? 10 then 48 + d else 87 + d.

(** What is appended for one byte, and whether through [sdscatprintf]. *)
Definition repr_byte (c : Z) : bool * list Z :=
  if (c =? bslash) || (c =? dquote) then (true, [bslash; c])
  else if c =? nl then (false, [bslash; ch "n"])
  else if c =? cr then (false, [bslash; ch "r"])
  else if c =? tab then (false, [bslash; ch "t"])
  else if c =? bel then (false, [bslash; ch "a"])
  else if c =? bs then (false, [bslash; ch "b"])
  else if isprint c then (true, [c])
  else (true, [bslash; ch "x"; hex_char (c / 16); hex_char (c mod 16)]).

(** The string printed takes one block for the text and perhaps one for the room. *)
Definition cat_byte (s : sds) (c : Z) (n : nat) : outcome (option sds) :=
  let '(printed, t) := repr_byte c in
  if printed then if ok n then sdscatvprintf 1 (ok (S n)) s t else Done None
  else Done (sdscatlen (ok n) s t).

Fixpoint repr_loop (s : sds) (p : list Z) (n : nat) : outcome (option (sds * nat)) :=
  match p with
  | [] => Done (Some (s, n))
  | c :: p => r ← cat_byte s c n; match r with None => Done None | Some s => repr_loop s p (n + 2) end
  end.

Definition sdscatrepr (s : sds) (p : list Z) (n : nat) : outcome (option sds) :=
  match sdscatlen (ok n) s [dquote] with
  | None => Done None
  | Some s => r ← repr_loop s p (S n); match r with None => Done None | Some (s, n) => Done (sdscatlen (ok n) s [dquote]) end
  end.

(** ** Reading arguments *)

Definition escaped_char (c : Z) : Z :=
  if c =? ch "n" then nl else if c =? ch "r" then cr else if c =? ch "t" then tab else if c =? ch "b" then bs else if c =? ch "a" then bel else c.

(** One token from the text [p] (without its NUL): the string and the rest, [None] for the way to [err]. *)
Fixpoint split_token (inq : bool) (p : list Z) (current : sds) (n : nat) : option (sds * list Z * nat) :=
  if inq then
    match p with
    | [] => None
    | c :: r =>
        if c =? bslash then
          match r with
          | [] => match sdscatlen (ok n) current [c] with None => None | Some current => split_token inq r current (S n) end
          | d :: r => match sdscatlen (ok n) current [escaped_char d] with None => None | Some current => split_token inq r current (S n) end
          end
        else if c =? dquote then
          match r with
          | d :: _ => if isspace d then Some (current, r, n) else None
          | [] => Some (current, r, n)
          end
        else match sdscatlen (ok n) current [c] with None => None | Some current => split_token inq r current (S n) end
    end
  else
    match p with
    | [] => Some (current, [], n)
    | c :: r =>
        if (c =? 32) || (c =? nl) || (c =? cr) || (c =? tab) then Some (current, r, n)
        else if c =? dquote then split_token true r current n
        else match sdscatlen (ok n) current [c] with None => None | Some current => split_token inq r current (S n) end
    end.

(** The loop over the tokens: a block for the string and one for the vector. *)
Fixpoint split_args (fuel : nat) (p : list Z) (vector : list sds) (n : nat) : outcome (option (list sds)) :=
  match fuel with
  | O => NoFuel
  | S fuel =>
      match skip_spaces p with
      | [] => Done (Some vector)
      | p =>
          match sdsempty (ok n) with
          | None => Done None
          | Some current =>
              match split_token false p current (S n) with
              | None => Done None
              | Some (current, p, n) => if ok n then split_args fuel p (vector ++ [current]) (S n) else Done None
              end
          end
      end
  end.

(** The result is [*argc] and the vector, which stays [NULL] on a line without a token; on an error the tokens are freed and the count ends at -1. *)
Definition sdssplitargs (line : list Z) (n : nat) : outcome (Z * option (list sds)) :=
  let line := take (strlen line) line in
  r ← split_args (S (length line)) line [] n;
  Done (match r with
        | None => (-1, None)
        | Some [] => (0, None)
        | Some vector => (Z.of_nat (length vector), Some vector)
        end).
End alloc.

(** ** The quoted_text form *)

Definition quoted_text (p : list Z) : list Z := dquote :: concat ((fun c => (repr_byte c).2) <$> p) ++ [dquote].

Lemma hex_char_range d : 0 <= d < 16 -> 0 < hex_char d < 256.
Proof. unfold hex_char. dbool; lia. Qed.

Lemma repr_cstr c : is_byte c -> cstr (repr_byte c).2 /\ (length (repr_byte c).2 <= 4)%nat.
Proof.
  intros Hc. unfold is_byte in Hc. unfold repr_byte, bslash, dquote, nl, cr, tab, bel, bs, isprint.
  destruct (Z.eqb_spec c 92), (Z.eqb_spec c 34), (Z.eqb_spec c 10), (Z.eqb_spec c 13), (Z.eqb_spec c 9), (Z.eqb_spec c 7), (Z.eqb_spec c 8); cbn [orb snd]; try (split; [repeat constructor; cbn; lia|cbn; lia]).
  destruct (Z.leb_spec 32 c), (Z.leb_spec c 126); cbn [andb snd]; (split; [|cbn; lia]); repeat constructor; try (cbn; lia); apply hex_char_range; lia_div.
Qed.

Section fine.
Context (ok : nat -> bool) (Hok : forall n, ok n = true).

Lemma catlen_ok n s t : exists s', sdscatlen (ok n) s t = Some s' /\ s_buf s' = s_buf s ++ t.
Proof. rewrite Hok. apply sdscatlen_ok. Qed.

Lemma cat_byte_ok s c n : is_byte c -> exists s', cat_byte ok s c n = Done (Some s') /\ s_buf s' = s_buf s ++ (repr_byte c).2.
Proof.
  intros Hc. destruct (repr_cstr c Hc) as [Hcs Hlen]. unfold cat_byte. destruct (repr_byte c) as [printed t]. cbn [snd] in *. destruct printed.
  - rewrite !Hok. unfold sdscatvprintf. change 16 with (16 * 2 ^ 0). rewrite (vprintf_loop_ok 1 0 t) by (done || cbn; lia). cbn [mbind outcome_bind]. unfold sdscat.
    rewrite strlen_cstr, take_ge by done. destruct (sdscatlen_ok s t) as (s' & -> & Hb). by exists s'.
  - destruct (catlen_ok n s t) as (s' & -> & Hb). by exists s'.
Qed.

(** What [sdscatrepr] appends. *)
Lemma catrepr_ok s p n : Forall is_byte p -> exists s', sdscatrepr ok s p n = Done (Some s') /\ s_buf s' = s_buf s ++ quoted_text p.
Proof.
  intros Hp. unfold sdscatrepr. destruct (catlen_ok n s [dquote]) as (s1 & -> & Hb1).
  assert (Hloop : forall s n, exists s' n', repr_loop ok s p n = Done (Some (s', n')) /\ s_buf s' = s_buf s ++ concat ((fun c => (repr_byte c).2) <$> p)).
  { clear s1 Hb1. induction Hp as [|c p Hc _ IH]; intros s1 m; cbn [repr_loop]; [eexists _, _; split; [done|by rewrite app_nil_r]|].
    destruct (cat_byte_ok s1 c m Hc) as (s2 & -> & Hb2). cbn [mbind outcome_bind]. destruct (IH s2 (m + 2)%nat) as (s3 & n3 & -> & Hb3). eexists _, _. split; [done|].
    by rewrite Hb3, Hb2, fmap_cons, <- app_assoc. }
  destruct (Hloop s1 (S n)) as (s2 & n2 & -> & Hb2). cbn [mbind outcome_bind]. destruct (catlen_ok n2 s2 [dquote]) as (s3 & -> & Hb3). exists s3. split; [done|].
  rewrite Hb3, Hb2, Hb1. unfold quoted_text. by rewrite <- !app_assoc.
Qed.

(** ** Reading it back *)

(** The bytes that are quoted_text without a number. *)
Definition plain_char (c : Z) : bool := isprint c || bool_decide (c ∈ [nl; cr; tab; bel; bs]).

Lemma plain_byte c : plain_char c = true -> is_byte c.
Proof.
  unfold plain_char, isprint, is_byte. rewrite orb_true_iff, andb_true_iff, !Z.leb_le, bool_decide_eq_true. unfold nl, cr, tab, bel, bs. intros [?|H]; [lia|].
  repeat (apply elem_of_cons in H as [->|H]; [lia|]). by apply elem_of_nil in H.
Qed.

(** A quoted_text byte in front of the rest. *)
Lemma token_byte c r cur n : plain_char c = true ->
  exists cur', split_token ok true ((repr_byte c).2 ++ r) cur n = split_token ok true r cur' (S n) /\ s_buf cur' = s_buf cur ++ [c].
Proof.
  intros Hp. destruct (catlen_ok n cur [c]) as (cur' & E & Hb). exists cur'. split; [|done].
  assert (Hesc : forall d, escaped_char d = c -> split_token ok true ([bslash; d] ++ r) cur n = split_token ok true r cur' (S n)).
  { intros d Hd. cbn [app split_token]. rewrite Z.eqb_refl, Hd, E. done. }
  unfold repr_byte, plain_char in *. destruct (Z.eqb_spec c bslash) as [->|H1]; [by apply Hesc|]. destruct (Z.eqb_spec c dquote) as [->|H2]; [by apply Hesc|]. cbn [orb].
  destruct (Z.eqb_spec c nl) as [->|]; [by apply Hesc|]. destruct (Z.eqb_spec c cr) as [->|]; [by apply Hesc|]. destruct (Z.eqb_spec c tab) as [->|]; [by apply Hesc|].
  destruct (Z.eqb_spec c bel) as [->|]; [by apply Hesc|]. destruct (Z.eqb_spec c bs) as [->|]; [by apply Hesc|].
  assert (Hni : bool_decide (c ∈ [nl; cr; tab; bel; bs]) = false) by (apply bool_decide_eq_false; set_solver). rewrite Hni, orb_false_r in Hp. rewrite Hp.
  cbn [snd app split_token]. by rewrite (proj2 (Z.eqb_neq _ _) H1), (proj2 (Z.eqb_neq _ _) H2), E.
Qed.

Definition ends_token (r : list Z) : bool := match r with [] => true | c :: _ => isspace c end.

Lemma token_quoted p r cur n : Forall (fun c => plain_char c = true) p -> ends_token r = true ->
  exists cur' n', split_token ok false (quoted_text p ++ r) cur n = Some (cur', r, n') /\ s_buf cur' = s_buf cur ++ p.
Proof.
  intros Hp Hr. unfold quoted_text. cbn [app split_token]. change ((dquote =? 32) || (dquote =? nl) || (dquote =? cr) || (dquote =? tab)) with false. cbv iota. rewrite Z.eqb_refl.
  revert cur n. induction Hp as [|c p Hc _ IH]; intros cur n.
  - cbn [fmap list_fmap concat app]. exists cur, n. rewrite app_nil_r. split; [|done]. cbn [split_token]. change (dquote =? bslash) with false. cbv iota. rewrite Z.eqb_refl.
    destruct r as [|d r]; [done|]. cbn in Hr. by rewrite Hr.
  - rewrite fmap_cons. cbn [concat]. rewrite <- !app_assoc. destruct (token_byte c (concat ((fun c => (repr_byte c).2) <$> p) ++ [dquote] ++ r) cur n Hc) as (cur1 & -> & Hb1).
    rewrite app_assoc. destruct (IH cur1 (S n)) as (cur2 & n2 & -> & Hb2). exists cur2, n2. split; [done|]. by rewrite Hb2, Hb1, <- app_assoc.
Qed.

(** Arguments in quotes, with a blank in front of each. *)
Definition arg_line (args : list (list Z)) : list Z := concat ((fun a => 32 :: quoted_text a) <$> args).

Lemma arg_line_ends args : ends_token (arg_line args) = true.
Proof. by destruct args. Qed.

Lemma split_args_line args : Forall (Forall (fun c => plain_char c = true)) args -> forall fuel vector n, (length args < fuel)%nat ->
  exists v, split_args ok fuel (arg_line args) vector n = Done (Some v) /\ s_buf <$> v = (s_buf <$> vector) ++ args.
Proof.
  induction 1 as [|a args Ha _ IH]; intros fuel vector n Hf; (destruct fuel as [|fuel]; [cbn in Hf; lia|]); cbn [split_args].
  - exists vector. by rewrite app_nil_r.
  - unfold arg_line. rewrite fmap_cons. cbn [concat app skip_spaces]. change (isspace 32) with true. cbv iota. fold (arg_line args).
    destruct (quoted_text a ++ arg_line args) as [|x r] eqn:Eq; [done|]. assert (Hx : skip_spaces (x :: r) = x :: r) by (injection Eq as <- _; done). rewrite Hx, <- Eq.
    unfold sdsempty, sdsnewlen. rewrite Hok. destruct (token_quoted a (arg_line args) (mk_sds [] 0) (S n) Ha (arg_line_ends args)) as (cur & n' & -> & Hb). rewrite Hok.
    destruct (IH fuel (vector ++ [cur]) (S n')) as (v & -> & Hv); [cbn in Hf; lia|]. exists v. split; [done|]. rewrite Hv, fmap_app, <- app_assoc. cbn. by rewrite Hb.
Qed.
End fine.

(** A client that prints arguments with [sdscatrepr], a blank in front of each. *)
Fixpoint print_args (ok : nat -> bool) (s : sds) (args : list (list Z)) (n : nat) : outcome (option sds) :=
  match args with
  | [] => Done (Some s)
  | a :: args =>
      match sdscatlen (ok n) s [32] with
      | None => Done None
      | Some s => r ← sdscatrepr ok s a (S n); match r with None => Done None | Some s => print_args ok s args (n + 2 * length a + 3) end
      end
  end.

Lemma print_args_ok ok args : (forall n, ok n = true) -> Forall (Forall is_byte) args -> forall s n, exists s', print_args ok s args n = Done (Some s') /\ s_buf s' = s_buf s ++ arg_line args.
Proof.
  intros Hok. induction 1 as [|a args Ha _ IH]; intros s n; cbn [print_args]; [exists s; split; [done|by rewrite app_nil_r]|].
  destruct (catlen_ok ok Hok n s [32]) as (s1 & -> & Hb1). destruct (catrepr_ok ok Hok s1 a (S n) Ha) as (s2 & -> & Hb2). cbn [mbind outcome_bind].
  destruct (IH s2 (n + 2 * length a + 3)%nat) as (s3 & -> & Hb3). exists s3. split; [done|]. rewrite Hb3, Hb2, Hb1. unfold arg_line. rewrite fmap_cons. cbn [concat].
  by rewrite <- !app_assoc.
Qed.

Lemma quoted_text_cstr p : Forall is_byte p -> cstr (quoted_text p).
Proof.
  intros Hp. unfold quoted_text. apply cstr_cons. split; [done|]. apply cstr_app. split; [|by repeat constructor]. induction Hp as [|c p Hc _ IH]; [constructor|].
  rewrite fmap_cons. cbn [concat]. apply cstr_app. split; [by apply repr_cstr|done].
Qed.

Lemma arg_line_cstr args : Forall (Forall is_byte) args -> cstr (arg_line args) /\ (length args <= length (arg_line args))%nat.
Proof.
  induction 1 as [|a args Ha _ [IH1 IH2]]; [split; [constructor|done]|]. unfold arg_line. rewrite fmap_cons. cbn [concat app]. fold (arg_line args). split.
  - apply cstr_cons. split; [done|]. apply cstr_app. split; [by apply quoted_text_cstr|done].
  - cbn [length]. rewrite length_app. lia.
Qed.

(** C15. Arguments are read back.  Any list of arguments of printable characters, line ends, tabs, bells and backspaces (blanks, quotes and backslashes
    among them, and empty arguments) that is printed with [sdscatrepr] is read by [sdssplitargs] as the same list, with its length in [*argc] (no argument
    leaves the vector [NULL]). *)
Theorem args_roundtrip ok args n m : (forall n, ok n = true) -> Forall (Forall (fun c => plain_char c = true)) args ->
  exists line v, print_args ok (mk_sds [] 0) args n = Done (Some line) /\ sdssplitargs ok (s_buf line) m = Done (Z.of_nat (length args), v) /\ s_buf <$> default [] v = args.
Proof.
  intros Hok Hp. assert (Hb : Forall (Forall is_byte) args) by (eapply Forall_impl; [exact Hp|]; intros a Ha; eapply Forall_impl; [exact Ha|]; apply plain_byte).
  destruct (print_args_ok ok args Hok Hb (mk_sds [] 0) n) as (line & E & Hl). cbn [s_buf app] in Hl. destruct (arg_line_cstr args Hb) as [Hc Hlen].
  destruct (split_args_line ok Hok args Hp (S (length (arg_line args))) [] m) as (v & Ev & Hv); [lia|]. exists line, (if decide (v = []) then None else Some v).
  unfold sdssplitargs. rewrite Hl, strlen_cstr, take_ge, Ev by done. cbn [mbind outcome_bind]. cbn in Hv. subst args. rewrite length_fmap. by destruct v.
Qed.

Lemma args_roundtrip_witness : exists line v, print_args (fun _ => true) (mk_sds [] 0) [cs "set"; []; dquote :: nl :: cs " x\"] 0 = Done (Some line) /\
  sdssplitargs (fun _ => true) (s_buf line) 0 = Done (3, v) /\ s_buf <$> default [] v = [cs "set"; []; dquote :: nl :: cs " x\"].
Proof. apply (args_roundtrip (fun _ => true) [cs "set"; []; dquote :: nl :: cs " x\"] 0 0); [reflexivity|apply (bool_decide_unpack _); vm_compute; exact I]. Defined.

(** Other bytes are printed as a number that the reader does not know: it drops the backslash. *)
Lemma number_not_read_back : exists line v, print_args (fun _ => true) (mk_sds [] 0) [[255]] 0 = Done (Some line) /\ s_buf line = 32 :: dquote :: bslash :: cs "xff" ++ [dquote] /\
  sdssplitargs (fun _ => true) (s_buf line) 0 = Done (1, Some v) /\ s_buf <$> v = [cs "xff"].
Proof. eexists _, _. split; [vm_compute; reflexivity|]. split; [vm_compute; reflexivity|]. split; vm_compute; reflexivity. Qed.

(** The reader ends on every line, whatever the allocator answers. *)
Lemma split_token_shorter ok inq p cur n : forall cur' r n', split_token ok inq p cur n = Some (cur', r, n') -> (length r <= length p)%nat /\ (p <> [] -> length r < length p)%nat.
Proof.
  revert inq cur n. induction p as [p IH] using (induction_ltof1 _ (@length Z)). unfold ltof in IH. intros inq cur n cur' r n'.
  assert (Hrec : forall c q s i k, p = c :: q -> split_token ok i q s k = Some (cur', r, n') -> (length r <= length p)%nat /\ (p <> [] -> length r < length p)%nat).
  { intros c q s i k -> E. apply IH in E; [|cbn; lia]. cbn [length]. split; intros; lia. }
  destruct p as [|c p]; [destruct inq; [done|intros [= _ <- _]; done]|]. destruct inq; cbn [split_token].
  - destruct (c =? bslash).
    + destruct p as [|d p]; (destruct (sdscatlen _ _ _) as [s|]; [|done]); [by eapply Hrec|]. intros E. apply (IH p) in E; [|cbn; lia]. cbn [length]. split; intros; lia.
    + destruct (c =? dquote); [|destruct (sdscatlen _ _ _) as [s|]; [by eapply Hrec|done]]. destruct p as [|d p]; [intros [= _ <- _]; cbn; split; intros; lia|].
      destruct (isspace d); [intros [= _ <- _]; cbn; split; intros; lia|done].
  - destruct (_ || _); [intros [= _ <- _]; cbn; split; intros; lia|]. destruct (c =? dquote); [by eapply Hrec|]. destruct (sdscatlen _ _ _) as [s|]; [by eapply Hrec|done].
Qed.

Lemma skip_spaces_le p : (length (skip_spaces p) <= length p)%nat.
Proof. induction p as [|c p IH]; [done|]. cbn. destruct (isspace c); cbn; lia. Qed.

Lemma splitargs_total ok line n : exists r, sdssplitargs ok line n = Done r.
Proof.
  unfold sdssplitargs. set (p := take (strlen line) line). assert (H : forall fuel p vector n, (length p < fuel)%nat -> exists r, split_args ok fuel p vector n = Done r); [|destruct (H (S (length p)) p [] n) as [r ->]; [lia|by eexists]].
  clear. induction fuel as [|fuel IH]; intros p vector n Hl; [lia|]. cbn [split_args]. pose proof (skip_spaces_le p) as Hs. destruct (skip_spaces p) as [|c q] eqn:E; [by eexists|].
  destruct (sdsempty (ok n)); [|by eexists]. destruct (split_token ok false (c :: q) s (S n)) as [[[cur r] n']|] eqn:Et; [|by eexists].
  apply split_token_shorter in Et as [_ Hlt]. destruct (ok n'); [|by eexists]. apply IH. specialize (Hlt ltac:(done)). lia.
Qed.

(** ** Splitting and joining *)

Lemma memcmp_prefix a b : (length b <= length a)%nat -> memcmp a b (length b) = 0 -> exists r, a = b ++ r.
Proof.
  revert a. induction b as [|y b IH]; intros a Hl Hm; [by exists a|]. destruct a as [|x a]; [cbn in Hl; lia|]. cbn in Hm, Hl. destruct (Z.eqb_spec x y) as [->|]; [|lia].
  destruct (IH a) as [r ->]; [lia|done|]. by exists r.
Qed.

Definition closed_tokens (sep : list Z) (tokens : list sds) : list Z := concat ((fun t => s_buf t ++ sep) <$> tokens).

(** The tokens with the separator between them. *)
Definition join (sep : list Z) (tokens : list sds) : list Z :=
  match tokens with
  | [] => []
  | t :: r => s_buf t ++ concat ((fun t => sep ++ s_buf t) <$> r)
  end.

Lemma join_snoc sep tokens t : join sep (tokens ++ [t]) = closed_tokens sep tokens ++ s_buf t.
Proof.
  destruct tokens as [|a tokens]; [by cbn; rewrite app_nil_r|]. unfold join, closed_tokens. cbn [app]. revert a. induction tokens as [|b tokens IH]; intros a.
  - cbn. by rewrite !app_nil_r, <- app_assoc.
  - cbn [app]. rewrite !fmap_cons. cbn [concat]. rewrite <- !app_assoc. rewrite (IH b). rewrite fmap_cons. cbn [concat]. by rewrite <- !app_assoc.
Qed.

Lemma split_at_sep_ok ok s sep : (forall n, ok n = true) -> sep <> [] -> forall fuel j start slots tokens n,
  0 <= start <= j -> start <= Z.of_nat (length s) -> Z.of_nat (length s) <= j + Z.of_nat fuel -> Z.of_nat (length tokens) + 1 <= slots -> 5 <= slots ->
  closed_tokens sep tokens ++ drop (Z.to_nat start) s = s ->
  exists tokens' start' slots' n', split_at_sep ok fuel s sep j start slots tokens n = Done (Some (tokens', start', slots', n')) /\
    Z.of_nat (length tokens') < slots' /\ 0 <= start' <= Z.of_nat (length s) /\ closed_tokens sep tokens' ++ drop (Z.to_nat start') s = s.
Proof.
  intros Hok Hsep. assert (Hpos : 0 < Z.of_nat (length sep)) by (destruct sep; [done|cbn; lia]).
  induction fuel as [|fuel IH]; intros j start slots tokens n Hj Hst Hf Hsl H5 Hs; cbn [split_at_sep]; (destruct (Z.ltb_spec j (Z.of_nat (length s) - (Z.of_nat (length sep) - 1))) as [Hlt|];
    [|eexists _, _, _, _; split_and!; [done|lia|lia|lia|done]]); [lia|].
  rewrite Hok. cbn [negb]. rewrite andb_false_r. set (full := slots <? Z.of_nat (length tokens) + 2).
  assert (Hslots : exists slots' n', (if full then (slots * 2, S n) else (slots, n)) = (slots', n') /\ Z.of_nat (length tokens) + 2 <= slots' /\ 5 <= slots').
  { unfold full. destruct (Z.ltb_spec slots (Z.of_nat (length tokens) + 2)); eexists _, _; split_and!; done || lia. }
  destruct Hslots as (slots' & n' & -> & Hsl' & H5').
  destruct ((Z.of_nat (length sep) =? 1) && (char_at s (Z.to_nat j) =? char_at sep 0) || (memcmp (drop (Z.to_nat j) s) sep (length sep) =? 0)) eqn:Hm.
  - assert (Hpre : exists r, drop (Z.to_nat j) s = sep ++ r).
    { apply memcmp_prefix; [rewrite length_drop; lia|]. apply orb_true_iff in Hm as [[H1%Z.eqb_eq H2]%andb_true_iff|H]; [|by apply Z.eqb_eq]. destruct sep as [|x [|? ?]]; [done| |cbn [length] in H1; lia]. cbn [length].
      unfold char_at in H2. rewrite <- (Nat.add_0_r (Z.to_nat j)) in H2. rewrite <- lookup_drop in H2. destruct (drop (Z.to_nat j) s) as [|y r] eqn:Ed; [apply (f_equal length) in Ed; rewrite length_drop in Ed; cbn in Ed; lia|].
      assert (Hyx : y = x) by (apply Z.eqb_eq in H2; exact H2). cbn [memcmp]. rewrite Hyx, Z.eqb_refl. by destruct r. }
    destruct Hpre as [r Hr]. unfold add_token. rewrite (proj2 (Z.ltb_lt _ _)) by lia. unfold sdsnewlen. rewrite Hok. cbn [of_res mbind outcome_bind].
    assert (Hlr : (Z.to_nat j + length sep <= length s)%nat) by lia.
    apply IH; [lia|lia|lia|rewrite length_app; cbn [length]; lia|lia|]. unfold closed_tokens. rewrite fmap_app, concat_app. cbn [fmap list_fmap concat s_buf]. rewrite app_nil_r, <- !app_assoc. fold (closed_tokens sep tokens).
    etransitivity; [|exact Hs]. f_equal. rewrite <- (take_drop (Z.to_nat (j - start)) (drop (Z.to_nat start) s)) at 2. f_equal. rewrite drop_drop.
    replace (Z.to_nat start + Z.to_nat (j - start))%nat with (Z.to_nat j) by lia. replace (Z.to_nat (j + Z.of_nat (length sep))) with (Z.to_nat j + length sep)%nat by lia.
    rewrite <- drop_drop, Hr. by rewrite drop_app_length.
  - apply IH; [lia|lia|lia|lia|lia|done].
Qed.

(** The tokens of a string, joined with the separator, are the string; the array always has room for them. *)
Lemma splitlen_join ok s sep n : (forall n, ok n = true) -> sep <> [] -> s <> [] -> exists tokens, sdssplitlen ok s sep n = Done (Some tokens) /\ join sep tokens = s.
Proof.
  intros Hok Hsep Hs. unfold sdssplitlen. rewrite (proj2 (Z.ltb_ge _ _)) by (destruct sep; [done|cbn; lia]). rewrite Hok. cbn [negb orb].
  assert (Hl : (length s =? 0)%nat = false) by (by destruct s). rewrite Hl. destruct (split_at_sep_ok ok s sep Hok Hsep (length s) 0 0 5 [] (S n)) as (tokens & start & slots & n' & -> & Hlt & Hst & Hj); [lia|lia|lia|cbn; lia|lia|done|].
  cbn [mbind outcome_bind]. unfold add_token. rewrite (proj2 (Z.ltb_lt _ _) Hlt). unfold sdsnewlen. rewrite Hok. cbn [of_res]. eexists. split; [done|]. rewrite join_snoc. cbn [s_buf].
  rewrite take_ge by (rewrite length_drop; lia). done.
Qed.

(** The empty string has no token, although the comment announces [NULL]. *)
Lemma splitlen_empty ok sep n : ok n = true -> sep <> [] -> sdssplitlen ok [] sep n = Done (Some []).
Proof. intros Hn Hs. unfold sdssplitlen. rewrite Hn, (proj2 (Z.ltb_ge _ _)) by (destruct sep; [done|cbn [length]; lia]). done. Qed.

(** ** Trimming *)

Lemma trim_start_spec cset l : Forall (fun c => in_cset cset c = true) (take (trim_start cset l) l) /\ (trim_start cset l <= length l)%nat /\
  match l !! trim_start cset l with Some c => in_cset cset c = false | None => trim_start cset l = length l end.
Proof.
  induction l as [|c l (H1 & H2 & H3)]; [by split_and!; [constructor|cbn; lia|]|]. cbn [trim_start]. destruct (in_cset cset c) eqn:E.
  - cbn [take length lookup list_lookup]. split_and!; [by constructor|lia|]. change ((c :: l) !! S (trim_start cset l)) with (l !! trim_start cset l). destruct (l !! _); [done|lia].
  - split_and!; [constructor|cbn; lia|done].
Qed.

Lemma trim_end_spec cset l ep : (ep < length l)%nat -> (trim_end cset l ep <= ep)%nat /\ Forall (fun c => in_cset cset c = true) (drop (S (trim_end cset l ep)) (take (S ep) l)) /\
  ((0 < trim_end cset l ep)%nat -> in_cset cset (char_at l (trim_end cset l ep)) = false).
Proof.
  induction ep as [|ep IH]; intros Hl; cbn [trim_end]; [split_and!; [lia| |lia]|].
  - rewrite drop_ge; [constructor|]. rewrite length_take. lia.
  - destruct (in_cset cset (char_at l (S ep))) eqn:E; [|split_and!; [lia| |done]; rewrite drop_ge; [constructor|rewrite length_take; lia]].
    destruct (IH ltac:(lia)) as (H1 & H2 & H3). split_and!; [lia| |done]. destruct (lookup_lt_is_Some_2 l (S ep) Hl) as [c Hc]. rewrite (take_S_r l (S ep) c Hc).
    rewrite drop_app_le by (rewrite length_take; lia). apply Forall_app. split; [done|]. apply Forall_singleton. unfold char_at in E. by rewrite Hc in E.
Qed.

(** What is left starts and ends with a byte outside the set, and only bytes of the set were dropped at both ends. *)
Lemma trim_spec s cset : exists pre post, s_buf s = pre ++ s_buf (sdstrim s cset) ++ post /\ Forall (fun c => in_cset cset c = true) pre /\ Forall (fun c => in_cset cset c = true) post /\
  (forall c, head (s_buf (sdstrim s cset)) = Some c -> in_cset cset c = false) /\ (forall c, last (s_buf (sdstrim s cset)) = Some c -> in_cset cset c = false).
Proof.
  destruct (trim_start_spec cset (s_buf s)) as (H1 & H2 & H3). unfold sdstrim. cbn [s_buf]. set (l := s_buf s) in *. set (sp := trim_start cset l) in *. unfold sdslen. fold l.
  destruct (Z.eqb_spec (Z.of_nat (length l)) 0) as [E|E].
  { destruct l; [|cbn in E; lia]. exists [], []. rewrite drop_nil, take_nil. split_and!; done || constructor. }
  destruct (trim_end_spec cset l (length l - 1)) as (H4 & H5 & H6); [lia|]. set (ep := trim_end cset l (length l - 1)) in *. rewrite take_ge in H5 by lia.
  destruct (l !! sp) as [c|] eqn:Ec.
  - pose proof (lookup_lt_Some _ _ _ Ec) as Hlt.
    assert (Hle : (sp <= ep)%nat).
    { destruct (Nat.le_gt_cases sp ep) as [|Hgt]; [done|]. apply (Forall_lookup_1 _ _ (sp - S ep)%nat c) in H5; [congruence|]. rewrite lookup_drop. by replace (S ep + (sp - S ep))%nat with sp by lia. }
    rewrite (proj2 (Z.ltb_ge _ _)) by lia. replace (Z.to_nat (Z.of_nat ep - Z.of_nat sp + 1)) with (S ep - sp)%nat by lia. rewrite Nat2Z.id. exists (take sp l), (drop (S ep) l). split_and!; try done.
    + rewrite <- (take_drop sp l) at 1. f_equal. rewrite <- (take_drop (S ep - sp) (drop sp l)) at 1. f_equal. rewrite drop_drop. f_equal. lia.
    + rewrite (drop_S _ _ _ Ec). replace (S ep - sp)%nat with (S (ep - sp)) by lia. cbn. by intros ? [= <-].
    + intros x. rewrite last_lookup, length_take, length_drop, Nat.min_l by lia. rewrite lookup_take_lt by lia. rewrite lookup_drop. replace (sp + pred (S ep - sp))%nat with ep by lia. intros Hx.
      destruct (decide (ep = 0%nat)) as [E0|]; [assert (sp = 0%nat) as E1 by lia; congruence|]. unfold char_at in H6. rewrite Hx in H6. apply H6. lia.
  - assert (Hall : Forall (fun c => in_cset cset c = true) l) by (by rewrite take_ge in H1 by lia).
    rewrite (proj2 (Z.ltb_lt _ _)) by lia. cbn. exists l, []. rewrite !app_nil_r. split_and!; done || constructor.
Qed.

(** ** Numbers and order *)

(** The text of every [long long] is its sign and its digits. *)
Lemma fromlonglong_ok ok value n : ok n = true -> value ∈s 64 -> exists s ds, sdsfromlonglong ok value n = Some s /\
  s_buf s = (if value <? 0 then [ch "-"] else []) ++ ds /\ Forall (fun c => is_digit c = true) ds /\ run_value 0 ds = Z.abs value.
Proof.
  intros Hn Hv. unfold sdsfromlonglong. assert (E : wrap 64 (if value <? 0 then - value else value) = Z.abs value).
  { rewrite wrap_small; destruct (Z.ltb_spec value 0); lia. }
  rewrite E. destruct (digits_run 31 (Z.abs value) []) as (c & ds & -> & Hds & Hr & _); [change (10 ^ Z.of_nat 31) with 10000000000000000000000000000000; lia|lia|]. rewrite app_nil_r.
  unfold sdsnewlen. rewrite Hn. eexists _, (c :: ds). split; [reflexivity|]. split_and!; [by destruct (value <? 0)|done|done].
Qed.

Lemma memcmp_same a b n : memcmp a b n = 0 <-> take (n `min` (length a `min` length b)) a = take (n `min` (length a `min` length b)) b.
Proof.
  revert a b. induction n as [|n IH]; intros a b; [by destruct a|]. destruct a as [|x a], b as [|y b]; try done. cbn [memcmp]. destruct (Z.eqb_spec x y) as [->|Hne].
  - rewrite IH. cbn. split; [by intros ->|by intros [= ->]].
  - split; [lia|]. cbn. intros [= ? _]. done.
Qed.

(** [sdscmp] is zero exactly for equal strings. *)
Lemma sdscmp_eq s1 s2 : sdslen s1 < 2 ^ 31 -> sdslen s2 < 2 ^ 31 -> sdscmp s1 s2 = 0 <-> s_buf s1 = s_buf s2.
Proof.
  intros H1 H2. unfold sdscmp, sdslen in *. set (m := Z.to_nat _). assert (Hm : m = (length (s_buf s1) `min` length (s_buf s2))%nat) by (unfold m; dbool; lia).
  destruct (Z.eqb_spec (memcmp (s_buf s1) (s_buf s2) m) 0) as [E|E].
  - apply memcmp_same in E. rewrite swrap_small by lia. split; [intros Hl|intros ->; lia]. rewrite <- Hm, Nat.min_id in E. rewrite !take_ge in E by lia. done.
  - split; [done|]. intros Heq. destruct E. apply memcmp_same. by rewrite Heq.
Qed.
