(* ===== verification/HiredisNet.v ===== *)
(** * Sockets of hiredis

    packages/redis/net.c and the functions of hiredis.c that connect and free a context.  [sys n] is what the kernel answers to the n-th call: its result,
    the [errno] it sets when it fails, and the value it stores.  The descriptors that are opened and closed are logged. *)

From S2P Require Import Prelude CString Session Digits Redirect Sds RedisDict Hiredis HiredisSpec HiredisReply HiredisCommand HiredisContext RedisAsync.

Inductive ncall :=
  | NOpen (fd : Z)
  | NClose (fd : Z)
  | NBlocking (fd : Z) (blocking : bool)
  | NConnect (fd : Z)
  | NNoDelay (fd : Z)
  | NPoll (fd : Z) (msec : Z).

(** The context with its descriptor, [errno], the number of the next call and the log. *)
Record net := mk_net { nt_c : redisContext; nt_fd : Z; nt_errno : Z; nt_n : nat; nt_log : list ncall }.

Record timeval := mk_tv { tv_sec : Z; tv_usec : Z }.

Definition EHOSTUNREACH : Z := 113.
Definition ETIMEDOUT : Z := 110.
Definition INT_MAX : Z := 2 ^ 31 - 1.
Definition __MAX_MSEC : Z := (LONG_MAX - 999) / 1000.

Definition put_context (c : redisContext) (st : net) : net := mk_net c (nt_fd st) (nt_errno st) (nt_n st) (nt_log st).
Definition put_errno (e : Z) (st : net) : net := mk_net (nt_c st) (nt_fd st) e (nt_n st) (nt_log st).
Definition logged (e : ncall) (st : net) : net := mk_net (nt_c st) (nt_fd st) (nt_errno st) (nt_n st) (nt_log st ++ [e]).

Section net.
Context (sys : nat -> Z * Z * Z) (strerror : Z -> list Z).

(** A call: its result and value; [errno] changes when it fails. *)
Definition syscall (st : net) : Z * Z * net :=
  let '(r, e, v) := sys (nt_n st) in
  (r, v, mk_net (nt_c st) (nt_fd st) (if r =? -1 then e else nt_errno st) (S (nt_n st)) (nt_log st)).

(** [close]: its result is not used. *)
Definition close (fd : Z) (st : net) : net := mk_net (nt_c st) (nt_fd st) (nt_errno st) (nt_n st) (nt_log st ++ [NClose fd]).

(** The buffer has 128 bytes. *)
Definition __redisSetErrorFromErrno (type : Z) (prefix : option (list Z)) (st : net) : net :=
  let len := match prefix with Some p => p ++ cs ": " | None => [] end in
  put_context (__redisSetError type (take 127 (len ++ strerror (nt_errno st))) (nt_c st)) st.

(** The common way out of a call on a socket that fails. *)
Definition fail_close (prefix : option (list Z)) (fd : Z) (st : net) : Z * net := (REDIS_ERR, close fd (__redisSetErrorFromErrno REDIS_ERR_IO prefix st)).

Definition redisSetReuseAddr (fd : Z) (st : net) : Z * net :=
  let '(r, _, st) := syscall st in if r =? -1 then fail_close None fd st else (REDIS_OK, st).

(** [inet] is [type == AF_INET]. *)
Definition redisCreateSocket (inet : bool) (st : net) : Z * net :=
  let '(s, _, st) := syscall st in
  if s =? -1 then (REDIS_ERR, __redisSetErrorFromErrno REDIS_ERR_IO None st)
  else
    let st := logged (NOpen s) st in
    if inet then let '(r, st) := redisSetReuseAddr s st in if r =? REDIS_ERR then (REDIS_ERR, st) else (s, st)
    else (s, st).

Definition redisSetBlocking (fd : Z) (blocking : bool) (st : net) : Z * net :=
  let '(flags, _, st) := syscall st in
  if flags =? -1 then fail_close (Some (cs "fcntl(F_GETFL)")) fd st
  else
    let '(r, _, st) := syscall st in
    if r =? -1 then fail_close (Some (cs "fcntl(F_SETFL)")) fd st else (REDIS_OK, logged (NBlocking fd blocking) st).

Definition redisSetTcpNoDelay (fd : Z) (st : net) : Z * net :=
  let '(r, _, st) := syscall st in if r =? -1 then fail_close (Some (cs "setsockopt(TCP_NODELAY)")) fd st else (REDIS_OK, logged (NNoDelay fd) st).

Definition redisCheckSocketError (fd : Z) (st : net) : Z * net :=
  let '(r, err, st) := syscall st in
  if r =? -1 then fail_close (Some (cs "getsockopt(SO_ERROR)")) fd st
  else if negb (err =? 0) then fail_close None fd (put_errno err st)
  else (REDIS_OK, st).

(** The time for [poll], [None] when the timeout is out of range: [long] arithmetic. *)
Definition wait_msec (timeout : option timeval) : option Z :=
  match timeout with
  | None => Some (-1)
  | Some tv =>
      if (1000000 <? tv_usec tv) || (__MAX_MSEC <? tv_sec tv) then None
      else
        let msec := swrap 64 (tv_sec tv * 1000 + Z.quot (tv_usec tv + 999) 1000) in
        Some (if (msec <? 0) || (INT_MAX <? msec) then INT_MAX else msec)
  end.

Definition redisContextWaitReady (fd : Z) (timeout : option timeval) (st : net) : Z * net :=
  match wait_msec timeout with
  | None => (REDIS_ERR, close fd st)
  | Some msec =>
      if nt_errno st =? EINPROGRESS then
        let '(res, _, st) := syscall (logged (NPoll fd msec) st) in
        if res =? -1 then fail_close (Some (cs "poll(2)")) fd st
        else if res =? 0 then fail_close None fd (put_errno ETIMEDOUT st)
        else let '(r, st) := redisCheckSocketError fd st in if negb (r =? REDIS_OK) then (REDIS_ERR, st) else (REDIS_OK, st)
      else fail_close None fd st
  end.

Definition redisContextSetTimeout (st : net) : Z * net :=
  let '(r, _, st) := syscall st in
  if r =? -1 then (REDIS_ERR, __redisSetErrorFromErrno REDIS_ERR_IO (Some (cs "setsockopt(SO_RCVTIMEO)")) st)
  else
    let '(r, _, st) := syscall st in
    if r =? -1 then (REDIS_ERR, __redisSetErrorFromErrno REDIS_ERR_IO (Some (cs "setsockopt(SO_SNDTIMEO)")) st) else (REDIS_OK, st).

(** [connect] and the wait for it. *)
Inductive connected := ConnReady | ConnUnreachable | ConnFailed.

Definition net_connect (tcp : bool) (fd : Z) (timeout : option timeval) (st : net) : connected * net :=
  let '(r, _, st) := syscall (logged (NConnect fd) st) in
  if r =? -1 then
    if tcp && (nt_errno st =? EHOSTUNREACH) then (ConnUnreachable, st)
    else if (nt_errno st =? EINPROGRESS) && negb (blocking (nt_c st)) then (ConnReady, st)
    else let '(r, st) := redisContextWaitReady fd timeout st in if negb (r =? REDIS_OK) then (ConnFailed, st) else (ConnReady, st)
  else (ConnReady, st).

(** The context gets the descriptor. *)
Definition net_done (fd : Z) (st : net) : Z * net :=
  (REDIS_OK, mk_net (set_flags (add_flag (c_flags (nt_c st)) REDIS_CONNECTED) (nt_c st)) fd (nt_errno st) (nt_n st) (nt_log st)).

(** [blocking && redisSetBlocking(c,s,1) != REDIS_OK]. *)
Definition set_back (fd : Z) (st : net) : Z * net := if blocking (nt_c st) then redisSetBlocking fd true st else (REDIS_OK, st).

(** The loop over the addresses, [k] of which are left. *)
Fixpoint connect_loop (k : nat) (timeout : option timeval) (st : net) : Z * net :=
  match k with
  | O => (REDIS_ERR, put_context (__redisSetError REDIS_ERR_OTHER (take 127 (cs "Can't create socket: " ++ strerror (nt_errno st))) (nt_c st)) st)
  | S k =>
      let '(s, _, st) := syscall st in
      if s =? -1 then connect_loop k timeout st
      else
        let '(r, st) := redisSetBlocking s false (logged (NOpen s) st) in
        if negb (r =? REDIS_OK) then (REDIS_ERR, st)
        else
          match net_connect true s timeout st with
          | (ConnUnreachable, st) => connect_loop k timeout (close s st)
          | (ConnFailed, st) => (REDIS_ERR, st)
          | (ConnReady, st) =>
              let '(r, st) := set_back s st in
              if negb (r =? REDIS_OK) then (REDIS_ERR, st)
              else
                let '(r, st) := redisSetTcpNoDelay s st in
                if negb (r =? REDIS_OK) then (REDIS_ERR, st) else net_done s st
          end
  end.

(** [addrs]: the number of addresses of [getaddrinfo], or the text of its error. *)
Definition redisContextConnectTcp (addrs : nat + list Z) (timeout : option timeval) (st : net) : Z * net :=
  match addrs with
  | inr text => (REDIS_ERR, put_context (__redisSetError REDIS_ERR_OTHER text (nt_c st)) st)
  | inl k => connect_loop k timeout st
  end.

Definition redisContextConnectUnix (timeout : option timeval) (st : net) : Z * net :=
  let '(s, st) := redisCreateSocket false st in
  if s <? 0 then (REDIS_ERR, st)
  else
    let '(r, st) := redisSetBlocking s false st in
    if negb (r =? REDIS_OK) then (REDIS_ERR, st)
    else
      match net_connect false s timeout st with
      | (ConnReady, st) =>
          let '(r, st) := set_back s st in
          if negb (r =? REDIS_OK) then (REDIS_ERR, st) else net_done s st
      | (_, st) => (REDIS_ERR, st)
      end.

(** The new context comes from [calloc]. *)
Definition net_init (flags : Z) : net := mk_net (redisContextInit flags) 0 0 0 [].

Definition redisConnect (addrs : nat + list Z) : net := (redisContextConnectTcp addrs None (net_init REDIS_BLOCK)).2.
Definition redisConnectWithTimeout (addrs : nat + list Z) (tv : timeval) : net := (redisContextConnectTcp addrs (Some tv) (net_init REDIS_BLOCK)).2.
Definition redisConnectNonBlock (addrs : nat + list Z) : net := (redisContextConnectTcp addrs None (net_init 0)).2.
Definition redisConnectUnix : net := (redisContextConnectUnix None (net_init REDIS_BLOCK)).2.
Definition redisConnectUnixWithTimeout (tv : timeval) : net := (redisContextConnectUnix (Some tv) (net_init REDIS_BLOCK)).2.
Definition redisConnectUnixNonBlock : net := (redisContextConnectUnix None (net_init 0)).2.

Definition redisSetTimeout (st : net) : Z * net := if blocking (nt_c st) then redisContextSetTimeout st else (REDIS_ERR, st).

(** The descriptor of a context that is freed. *)
Definition redisFree (st : net) : net := if 0 <? nt_fd st then close (nt_fd st) st else st.
End net.

(** ** Descriptors *)

(** The descriptors that are open after some calls; [None] when one is closed that is not. *)
Fixpoint open_fds (l : list Z) (log : list ncall) : option (list Z) :=
  match log with
  | [] => Some l
  | NOpen fd :: log => open_fds (fd :: l) log
  | NClose fd :: log => match l with x :: l => if x =? fd then open_fds l log else None | [] => None end
  | _ :: log => open_fds l log
  end.

(** The mode the descriptors were last set to. *)
Definition last_mode (log : list ncall) : option bool := last (omap (fun e => match e with NBlocking _ b => Some b | _ => None end) log).

Lemma open_fds_snoc l log e l1 : open_fds l log = Some l1 -> open_fds l (log ++ [e]) = open_fds l1 [e].
Proof.
  revert l. induction log as [|x log IH]; intros l E; [by injection E as ->|]. destruct x as [fd|fd|fd b|fd|fd|fd ms]; cbn [open_fds app] in *; auto.
  destruct l as [|y l]; [done|]. destruct (y =? fd); [auto|done].
Qed.

Lemma mode_snoc log e : match e with NBlocking _ _ => False | _ => True end -> last_mode (log ++ [e]) = last_mode log.
Proof. intros He. unfold last_mode. rewrite omap_app. destruct e; try done; cbn; by rewrite app_nil_r. Qed.

Lemma mode_set log fd b : last_mode (log ++ [NBlocking fd b]) = Some b.
Proof. unfold last_mode. rewrite omap_app. cbn. by rewrite last_snoc. Qed.

Section descriptors.
Context (sys : nat -> Z * Z * Z) (strerror : Z -> list Z).
Implicit Types st : net.

Definition open_at (l : list Z) st : Prop := open_fds [] (nt_log st) = Some l.

(** A call on the only open socket: it stays open, or it is closed and the context has an error. *)
Record call_ok (fd : Z) st (rst : Z * net) (m : option bool) : Prop := {
  call_fd : nt_fd rst.2 = nt_fd st;
  call_result : (rst.1 = REDIS_OK /\ open_at [fd] rst.2 /\ nt_c rst.2 = nt_c st /\ last_mode (nt_log rst.2) = m) \/
                (rst.1 = REDIS_ERR /\ open_at [] rst.2 /\ c_err (nt_c rst.2) <> 0)
}.

Lemma syscall_log st : nt_log (syscall sys st).2 = nt_log st /\ nt_c (syscall sys st).2 = nt_c st /\ nt_fd (syscall sys st).2 = nt_fd st.
Proof. unfold syscall. by destruct (sys (nt_n st)) as [[r e] v]. Qed.

Lemma fail_ok prefix fd st m : open_at [fd] st -> call_ok fd st (fail_close strerror prefix fd st) m.
Proof.
  intros Ho. split; [done|]. right. split_and!; [done| |done]. unfold open_at. cbn. rewrite (open_fds_snoc _ _ _ _ Ho). cbn. by rewrite Z.eqb_refl.
Qed.

Lemma call_ok_from fd st st' rst m : nt_c st' = nt_c st -> nt_fd st' = nt_fd st -> call_ok fd st' rst m -> call_ok fd st rst m.
Proof. intros Ec Ef [H1 H2]. split; [congruence|]. destruct H2 as [(? & ? & ? & ?)|?]; [left; split_and!; done || congruence|by right]. Qed.

Ltac call t := let H := fresh "Hlog" in pose proof (syscall_log t) as H; destruct (syscall sys t) as [[? ?] ?st]; cbn [snd] in H; destruct H as (? & ? & ?).

Lemma setblocking_ok fd b st : open_at [fd] st -> call_ok fd st (redisSetBlocking sys strerror fd b st) (Some b).
Proof.
  intros Ho. unfold redisSetBlocking. call st. assert (open_at [fd] st0) by (unfold open_at in *; congruence).
  destruct (_ =? -1); [by apply (call_ok_from fd st st0), fail_ok|]. call st0. assert (open_at [fd] st1) by (unfold open_at in *; congruence).
  destruct (_ =? -1); [apply (call_ok_from fd st st1); [congruence|congruence|by apply fail_ok]|]. split; [cbn; congruence|]. left. split_and!; [done| |cbn; congruence|].
  - unfold open_at in *. cbn. by rewrite (open_fds_snoc _ _ _ [fd]).
  - cbn. apply mode_set.
Qed.

Lemma nodelay_ok fd st m : open_at [fd] st -> last_mode (nt_log st) = m -> call_ok fd st (redisSetTcpNoDelay sys strerror fd st) m.
Proof.
  intros Ho Hm. unfold redisSetTcpNoDelay. call st. assert (open_at [fd] st0) by (unfold open_at in *; congruence).
  destruct (_ =? -1); [by apply (call_ok_from fd st st0), fail_ok|]. split; [done|]. left. split_and!; [done| |done|].
  - unfold open_at in *. cbn. by rewrite (open_fds_snoc _ _ _ [fd]).
  - cbn. rewrite mode_snoc by done. congruence.
Qed.

Lemma checkerror_ok fd st m : open_at [fd] st -> last_mode (nt_log st) = m -> call_ok fd st (redisCheckSocketError sys strerror fd st) m.
Proof.
  intros Ho Hm. unfold redisCheckSocketError. call st. assert (open_at [fd] st0) by (unfold open_at in *; congruence).
  destruct (_ =? -1); [by apply (call_ok_from fd st st0), fail_ok|]. destruct (negb _); [by apply (call_ok_from fd st (put_errno z0 st0)), fail_ok|].
  split; [done|]. left. cbn [fst snd]. split_and!; done || congruence.
Qed.

(** The wait also fails without an error of the context, when the timeout is out of range. *)
Lemma waitready_ok fd timeout st m : open_at [fd] st -> last_mode (nt_log st) = m ->
  match wait_msec timeout with
  | None => redisContextWaitReady sys strerror fd timeout st = (REDIS_ERR, close fd st)
  | Some _ => call_ok fd st (redisContextWaitReady sys strerror fd timeout st) m
  end.
Proof.
  intros Ho Hm. unfold redisContextWaitReady. destruct (wait_msec timeout) as [ms|]; [|done]. destruct (nt_errno st =? EINPROGRESS); [|by apply fail_ok].
  call (logged (NPoll fd ms) st). assert (open_at [fd] st0). { unfold open_at in *. replace (nt_log st0) with (nt_log st ++ [NPoll fd ms]) by done. by rewrite (open_fds_snoc _ _ _ [fd]). }
  destruct (_ =? -1); [by apply (call_ok_from fd st st0), fail_ok|]. destruct (_ =? 0); [by apply (call_ok_from fd st (put_errno ETIMEDOUT st0)), fail_ok|].
  pose proof (checkerror_ok fd st0 m H2) as Hc. destruct (redisCheckSocketError sys strerror fd st0) as [r st1]. apply (call_ok_from fd st st0); [done|done|].
  destruct Hc as [Hf Hr]; [replace (nt_log st0) with (nt_log st ++ [NPoll fd ms]) by done; by rewrite mode_snoc|]. cbn [fst snd] in *.
  split; [by destruct Hr as [(-> & _)|(-> & _)]|]. destruct Hr as [(-> & ? & ? & ?)|(-> & ? & ?)]; [left|right]; by split_and!.
Qed.

(** ** Connecting *)

(** What a connection attempt leaves: the context with the only open descriptor in its mode, or no open descriptor and an error. *)
Definition connect_ok (timeout : option timeval) st (rst : Z * net) : Prop :=
  (rst.1 = REDIS_OK /\ open_at [nt_fd rst.2] rst.2 /\ last_mode (nt_log rst.2) = Some (blocking (nt_c st)) /\
    nt_c rst.2 = set_flags (add_flag (c_flags (nt_c st)) REDIS_CONNECTED) (nt_c st)) \/
  (rst.1 = REDIS_ERR /\ open_at [] rst.2 /\ nt_fd rst.2 = nt_fd st /\ (c_err (nt_c rst.2) <> 0 \/ wait_msec timeout = None)).

Lemma call_fails timeout fd st rst m : call_ok fd st rst m -> negb (rst.1 =? REDIS_OK) = true -> connect_ok timeout st (REDIS_ERR, rst.2).
Proof. intros [Hf [(-> & _)|(_ & Ho & He)]] Hr; [done|]. right. split_and!; auto. Qed.

Lemma connect_ok_from timeout st st' rst : nt_c st' = nt_c st -> nt_fd st' = nt_fd st -> connect_ok timeout st' rst -> connect_ok timeout st rst.
Proof. intros Ec Ef. unfold connect_ok. by rewrite Ec, Ef. Qed.

(** After [connect]: ready with the same context, unreachable with the socket open, or failed. *)
Lemma net_connect_ok tcp fd timeout st m : open_at [fd] st -> last_mode (nt_log st) = m ->
  match net_connect sys strerror tcp fd timeout st with
  | (ConnReady, st') => call_ok fd st (REDIS_OK, st') m
  | (ConnUnreachable, st') => tcp = true /\ open_at [fd] st' /\ nt_c st' = nt_c st /\ nt_fd st' = nt_fd st
  | (ConnFailed, st') => connect_ok timeout st (REDIS_ERR, st')
  end.
Proof.
  intros Ho Hm. unfold net_connect. call (logged (NConnect fd) st).
  assert (Ho0 : open_at [fd] st0). { unfold open_at in *. replace (nt_log st0) with (nt_log st ++ [NConnect fd]) by done. by rewrite (open_fds_snoc _ _ _ [fd]). }
  assert (Hm0 : last_mode (nt_log st0) = m) by (replace (nt_log st0) with (nt_log st ++ [NConnect fd]) by done; by rewrite mode_snoc).
  assert (Hready : call_ok fd st (REDIS_OK, st0) m) by (split; [done|left; by split_and!]). destruct (_ =? -1); [|done].
  destruct (tcp && (nt_errno st0 =? EHOSTUNREACH)) eqn:Et; [apply andb_true_iff in Et as [-> _]; by split_and!|].
  destruct ((nt_errno st0 =? EINPROGRESS) && negb (blocking (nt_c st0))); [done|].
  pose proof (waitready_ok fd timeout st0 m Ho0 Hm0) as Hw. destruct (wait_msec timeout) as [ms|] eqn:Ew.
  - destruct (redisContextWaitReady sys strerror fd timeout st0) as [r st1]. destruct (r =? REDIS_OK) eqn:Er; cbn [negb].
    + apply Z.eqb_eq in Er as ->. by apply (call_ok_from fd st st0).
    + apply (connect_ok_from timeout st st0); [done|done|]. apply (call_fails timeout fd st0 (r, st1) m Hw). cbn. by rewrite Er.
  - rewrite Hw. cbn. right. split_and!; [done| |done|by right]. unfold open_at in *. cbn. rewrite (open_fds_snoc _ _ _ _ Ho0). cbn. by rewrite Z.eqb_refl.
Qed.

(** The end of an attempt, with and without [TCP_NODELAY]. *)
Lemma set_back_ok fd st : open_at [fd] st -> last_mode (nt_log st) = Some false -> call_ok fd st (set_back sys strerror fd st) (Some (blocking (nt_c st))).
Proof.
  intros Ho Hm. unfold set_back. destruct (blocking (nt_c st)); [by apply setblocking_ok|]. split; [done|left; by split_and!].
Qed.

Lemma net_done_ok timeout fd st st0 : open_at [fd] st -> last_mode (nt_log st) = Some (blocking (nt_c st0)) -> nt_c st = nt_c st0 -> connect_ok timeout st0 (net_done fd st).
Proof. intros Ho Hm Hc. left. unfold net_done. cbn. by rewrite Hc. Qed.

Lemma connect_loop_ok k timeout : forall st, open_at [] st -> connect_ok timeout st (connect_loop sys strerror k timeout st).
Proof.
  induction k as [|k IH]; intros st Ho; cbn [connect_loop]; [right; split_and!; [done|done|done|by left]|]. call st.
  assert (Ho0 : open_at [] st0) by (unfold open_at in *; congruence). destruct (_ =? -1); [apply (connect_ok_from timeout st st0); auto|]. set (st1 := logged (NOpen z) st0).
  assert (Ho1 : open_at [z] st1) by (unfold open_at in *; cbn; by rewrite (open_fds_snoc _ _ _ _ Ho0)). apply (connect_ok_from timeout st st1); [done|done|].
  pose proof (setblocking_ok z false st1 Ho1) as Hb. destruct (redisSetBlocking sys strerror z false st1) as [r st2] eqn:Eb. destruct (negb (r =? REDIS_OK)) eqn:Er; [by apply (call_fails timeout z st1 (r, st2) _ Hb)|].
  destruct Hb as [Hf2 [(_ & Ho2 & Hc2 & Hm2)|(E & _)]]; cbn in *; [|by subst r]. apply (connect_ok_from timeout st1 st2); [done|done|].
  pose proof (net_connect_ok true z timeout st2 (Some false) Ho2 Hm2) as Hn. destruct (net_connect sys strerror true z timeout st2) as [[| |] st3]; [| |done].
  - destruct Hn as [Hf3 [(_ & Ho3 & Hc3 & Hm3)|(E & _)]]; cbn in *; [|done]. apply (connect_ok_from timeout st2 st3); [done|done|].
    pose proof (set_back_ok z st3 Ho3 Hm3) as Hs. destruct (set_back sys strerror z st3) as [r4 st4]. destruct (negb (r4 =? REDIS_OK)) eqn:Er4; [by apply (call_fails timeout z st3 (r4, st4) _ Hs)|].
    destruct Hs as [Hf4 [(_ & Ho4 & Hc4 & Hm4)|(E & _)]]; cbn in *; [|by subst r4]. pose proof (nodelay_ok z st4 _ Ho4 Hm4) as Hd.
    destruct (redisSetTcpNoDelay sys strerror z st4) as [r5 st5]. destruct (negb (r5 =? REDIS_OK)) eqn:Er5.
    + apply (connect_ok_from timeout st3 st4); [done|done|]. by apply (call_fails timeout z st4 (r5, st5) _ Hd).
    + destruct Hd as [Hf5 [(_ & Ho5 & Hc5 & Hm5)|(E & _)]]; cbn in *; [|by subst r5]. apply net_done_ok; congruence || done.
  - destruct Hn as (_ & Ho3 & Hc3 & Hf3). apply (connect_ok_from timeout st2 (close z st3)); [done|done|]. apply IH. unfold open_at in *. cbn. rewrite (open_fds_snoc _ _ _ _ Ho3). cbn. by rewrite Z.eqb_refl.
Qed.

Lemma connect_unix_ok timeout st : (forall n, -1 <= (sys n).1.1) -> open_at [] st -> connect_ok timeout st (redisContextConnectUnix sys strerror timeout st).
Proof.
  intros Hsys Ho. unfold redisContextConnectUnix, redisCreateSocket. assert (Hs0 : -1 <= (syscall sys st).1.1) by (unfold syscall; specialize (Hsys (nt_n st)); by destruct (sys (nt_n st)) as [[? ?] ?]).
  call st. cbn in Hs0. assert (Ho0 : open_at [] st0) by (unfold open_at in *; congruence).
  destruct (Z.eqb_spec z (-1)) as [->|Hz]; [cbn; right; split_and!; [done|done|done|by left]|]. rewrite (proj2 (Z.ltb_ge _ _)) by lia. set (st1 := logged (NOpen z) st0).
  assert (Ho1 : open_at [z] st1) by (unfold open_at in *; cbn; by rewrite (open_fds_snoc _ _ _ _ Ho0)). apply (connect_ok_from timeout st st1); [done|done|].
  pose proof (setblocking_ok z false st1 Ho1) as Hb. destruct (redisSetBlocking sys strerror z false st1) as [r st2] eqn:Eb. destruct (negb (r =? REDIS_OK)) eqn:Er; [by apply (call_fails timeout z st1 (r, st2) _ Hb)|].
  destruct Hb as [Hf2 [(_ & Ho2 & Hc2 & Hm2)|(E & _)]]; cbn in *; [|by subst r]. apply (connect_ok_from timeout st1 st2); [done|done|].
  pose proof (net_connect_ok false z timeout st2 (Some false) Ho2 Hm2) as Hn. destruct (net_connect sys strerror false z timeout st2) as [[| |] st3]; [|by destruct Hn|done].
  destruct Hn as [Hf3 [(_ & Ho3 & Hc3 & Hm3)|(E & _)]]; cbn in *; [|done]. apply (connect_ok_from timeout st2 st3); [done|done|].
  pose proof (set_back_ok z st3 Ho3 Hm3) as Hs. destruct (set_back sys strerror z st3) as [r4 st4]. destruct (negb (r4 =? REDIS_OK)) eqn:Er4; [by apply (call_fails timeout z st3 (r4, st4) _ Hs)|].
  destruct Hs as [Hf4 [(_ & Ho4 & Hc4 & Hm4)|(E & _)]]; cbn in *; [|by subst r4]. apply net_done_ok; congruence || done.
Qed.
End descriptors.

(** C10. Descriptors of redis connections.  Whatever the kernel answers to each call, and for any list of addresses, an attempt to connect ends with exactly one open
    descriptor, that of the context, in the mode of the context (blocking or not) and with the context marked as connected; or it fails with no open
    descriptor and an error in the context, unless the timeout was out of range.  No descriptor is closed twice, and [redisFree] closes the one that is left. *)
Theorem redis_descriptors sys strerror flags timeout addrs rst : (forall n, -1 <= (sys n).1.1) ->
  rst = redisContextConnectTcp sys strerror addrs timeout (net_init flags) \/ rst = redisContextConnectUnix sys strerror timeout (net_init flags) ->
  ((rst.1 = REDIS_OK /\ open_fds [] (nt_log rst.2) = Some [nt_fd rst.2] /\ last_mode (nt_log rst.2) = Some (has_flag flags REDIS_BLOCK) /\
      has_flag (c_flags (nt_c rst.2)) REDIS_CONNECTED = true /\ c_err (nt_c rst.2) = 0) \/
   (rst.1 = REDIS_ERR /\ open_fds [] (nt_log rst.2) = Some [] /\ nt_fd rst.2 = 0 /\ (c_err (nt_c rst.2) <> 0 \/ wait_msec timeout = None))) /\
  (nt_fd rst.2 <> 0 -> 0 <= nt_fd rst.2 -> open_fds [] (nt_log (redisFree rst.2)) = Some []).
Proof.
  intros Hsys Hrst. assert (Hc : connect_ok timeout (net_init flags) rst).
  { destruct Hrst as [->| ->]; [|by apply connect_unix_ok]. destruct addrs as [k|text]; [by apply connect_loop_ok|]. right. split_and!; [done|done|done|by left]. }
  split.
  - destruct Hc as [(H1 & H2 & H3 & H4)|?]; [left|by right]. split_and!; [done|done|done| |by rewrite H4]. rewrite H4. cbn. rewrite has_flag_add by apply _. apply orb_true_r.
  - intros H0 Hpos. unfold redisFree. rewrite (proj2 (Z.ltb_lt _ _)) by lia. destruct Hc as [(_ & H2 & _)|(_ & _ & H3 & _)]; [|done]. cbn. rewrite (open_fds_snoc _ _ _ _ H2). cbn. by rewrite Z.eqb_refl.
Qed.

Definition demo_sys (n : nat) : Z * Z * Z := match n with 0%nat => (5, 0, 0) | 3%nat => (-1, EINPROGRESS, 0) | 4%nat => (1, 0, 0) | _ => (0, 0, 0) end.

Lemma redis_descriptors_witness : let rst := redisContextConnectTcp demo_sys (fun _ => []) (inl 2%nat) None (net_init REDIS_BLOCK) in
  rst.1 = REDIS_OK /\ nt_log rst.2 = [NOpen 5; NBlocking 5 false; NConnect 5; NPoll 5 (-1); NBlocking 5 true; NNoDelay 5] /\ open_fds [] (nt_log (redisFree rst.2)) = Some [].
Proof.
  intros rst. split; [reflexivity|]. split; [reflexivity|].
  destruct (redis_descriptors demo_sys (fun _ => []) REDIS_BLOCK None (inl 2%nat) rst) as [_ H].
  - intros n. unfold demo_sys. destruct n as [|[|[|[|[|n]]]]]; cbn; lia.
  - left. reflexivity.
  - apply H; [vm_compute; discriminate|vm_compute; discriminate].
Defined.

(** ** The time of a wait *)

(** The time given to [poll] is the timeout in milliseconds, rounded up, at most [INT_MAX]: the arithmetic does not overflow. *)
Lemma wait_msec_range tv ms : 0 <= tv_sec tv -> 0 <= tv_usec tv -> wait_msec (Some tv) = Some ms -> ms = Z.min INT_MAX (tv_sec tv * 1000 + (tv_usec tv + 999) / 1000).
Proof.
  intros Hs Hu. unfold wait_msec. destruct (Z.ltb_spec 1000000 (tv_usec tv)); [done|]. destruct (Z.ltb_spec __MAX_MSEC (tv_sec tv)) as [|Hm]; [done|]. cbn [orb].
  rewrite Z.quot_div_nonneg by lia. change __MAX_MSEC with 9223372036854774 in Hm. assert (0 <= (tv_usec tv + 999) / 1000 <= 1000) by lia_div.
  rewrite swrap_small by (try lia; change (2 ^ (64 - 1)) with 9223372036854775808; lia). intros [= <-]. unfold INT_MAX. change (2 ^ 31 - 1) with 2147483647. dbool; cbn; lia.
Qed.

(** A timeout out of range fails without an error in the context, which then looks connected. *)
Lemma timeout_without_error : let st := redisConnectWithTimeout demo_sys (fun _ => []) (inl 1%nat) (mk_tv 0 1000001) in c_err (nt_c st) = 0 /\ open_fds [] (nt_log st) = Some [].
Proof. split; reflexivity. Qed.

(** A connection that was not waited for and fails: [redisCheckSocketError] closes the descriptor, which the context keeps, and [redisFree] closes it again. *)
Lemma failed_connect_closed_twice sys strerror st : open_fds [] (nt_log st) = Some [nt_fd st] -> 0 < nt_fd st -> (redisCheckSocketError sys strerror (nt_fd st) st).1 = REDIS_ERR ->
  open_fds [] (nt_log (redisFree (redisCheckSocketError sys strerror (nt_fd st) st).2)) = None.
Proof.
  intros Ho Hpos Hr. destruct (checkerror_ok sys strerror (nt_fd st) st _ Ho eq_refl) as [Hf [(E & _)|(_ & Hc & _)]]; [by rewrite E in Hr|].
  unfold redisFree. rewrite Hf, (proj2 (Z.ltb_lt _ _) Hpos). cbn. by rewrite (open_fds_snoc _ _ _ _ Hc).
Qed.
