(* ===== verification/JsonPackage.v ===== *)
(** * The interface of packages/json to services

    packages/json/duda_package.c: the calls of a service are those of cJSON (Json.v), except the two below, which use the
    request: the body of a request is read as JSON, and a text that is printed is left to the collector of the request. *)

From Stdlib Require Import SpecFloat.
From S2P Require Import Prelude CString Gc Http Session Digits Redirect Double Json JsonSpec.

Section package.
Context `{Libm} `{GcMem}.
Variable mem : nat -> bool.
Variable junk : Z.

(** The root, the state of cJSON, and the copy of the body that was freed; [copy_ok] tells whether the copy could be allocated. *)
Definition json_parse_data (copy_ok : bool) (dr : http_dr) (st : json_state) : outcome (option cJSON * json_state * option (list Z)) :=
  is_data ← of_res (duda_request_is_data dr);
  if negb is_data then Done (None, st, None)
  else
    match duda_request_get_data copy_ok dr with
    | (None, _) => Done (None, st, None)
    | (Some data, _) =>
        '(root, st) ← cJSON_Parse mem junk (take (strlen data) data) st;
        Done (root, st, Some data)
    end.

(** The result of [gc->add] is not looked at; [addr] is the address of the text. *)
Definition gc_text (addr : Z) (buf : option (list Z)) (g : duda_gc_map) : res duda_gc_map :=
  match buf with Some _ => '(_, g) ← duda_gc_add g addr; Ret g | None => Ret g end.

Definition json_print_gc (addr : Z) (item : cJSON) (st : json_state) (g : duda_gc_map) : res (option (list Z) * json_state * duda_gc_map) :=
  '(buf, st) ← cJSON_Print mem item st; g ← gc_text addr buf g; Ret (buf, st, g).

Definition json_print_unformatted_gc (addr : Z) (item : cJSON) (st : json_state) (g : duda_gc_map) : res (option (list Z) * json_state * duda_gc_map) :=
  '(buf, st) ← cJSON_PrintUnformatted mem item st; g ← gc_text addr buf g; Ret (buf, st, g).
End package.

(** ** The text of a value has no NUL *)

Lemma short_escape_char c e : short_escape c = Some e -> 0 < e < 256.
Proof.
  unfold short_escape, quote, backslash. change (ch "b") with 98. change (ch "f") with 102. change (ch "n") with 110. change (ch "r") with 114. change (ch "t") with 116.
  repeat case_match; intros [= <-]; lia.
Qed.

Lemma escape_cstr s : cstr s -> cstr (escape s).
Proof.
  induction 1 as [|c s Hc _ IH]; [constructor|]. cbn [escape]. apply Forall_app. split; [|done].
  destruct ((31 <? c) && _ && _) eqn:E; [constructor; [done|constructor]|]. constructor; [unfold backslash; lia|].
  destruct (short_escape c) as [e|] eqn:Es; [constructor; [by eapply short_escape_char|constructor]|].
  assert (Hh : forall d, 0 <= d < 16 -> 0 < hex_char d < 256) by (intros d Hd; unfold hex_char; case_match; lia).
  assert (0 <= c / 16 < 16) by (split; [apply Z.div_pos; lia|apply Z.div_lt_upper_bound; lia]). pose proof (Z.mod_pos_bound c 16 ltac:(lia)).
  unfold fmt_04x. repeat (apply Forall_cons; split); [change (ch "u") with 117; lia|lia|lia|by apply Hh|by apply Hh|constructor].
Qed.

Lemma quoted_cstr s : cstr s -> cstr (quoted s).
Proof. intros Hs. unfold quoted. constructor; [unfold quote; lia|]. apply Forall_app. split; [by apply escape_cstr|]. constructor; [unfold quote; lia|constructor]. Qed.

Lemma digits_cstr z : 0 <= z < 10 ^ 10 -> cstr (digits_of 10 10 z []).
Proof.
  intros Hz. destruct (digits_run 10 z []) as (c & ds & -> & Hd & _); [done|lia|]. rewrite app_nil_r.
  eapply Forall_impl; [exact Hd|]. intros x [?%Z.leb_le ?%Z.leb_le]%andb_true_iff. change (ch "0") with 48 in *. change (ch "9") with 57 in *. lia.
Qed.

Lemma fmt_d_cstr z : INT_MIN <= z <= INT_MAX -> cstr (fmt_d z).
Proof.
  unfold INT_MIN, INT_MAX, fmt_d. intros Hz. destruct (Z.ltb_spec z 0); [|apply digits_cstr; lia].
  constructor; [change (ch "-") with 45; lia|]. apply digits_cstr. lia.
Qed.

Lemma join_elements_cstr fmt es : Forall cstr es -> cstr (join_elements fmt es).
Proof.
  induction 1 as [|e es He Hes IH]; [constructor|]. destruct es as [|e' es]; [done|]. cbn [join_elements] in *.
  apply Forall_app. split; [done|]. apply Forall_app. split; [|done]. destruct fmt; by (apply (bool_decide_unpack _); vm_compute).
Qed.

Lemma tabs_cstr n : cstr (tabs n).
Proof. unfold tabs, cstr. apply Forall_replicate. lia. Qed.

Lemma join_members_cstr fmt depth es : Forall (fun e => cstr e.1 /\ cstr e.2) es -> cstr (join_members fmt depth es).
Proof.
  induction 1 as [|[n e] es [Hn He] Hes IH]; [constructor|]. cbn [join_members fst snd] in *. unfold cstr in *. rewrite !Forall_app.
  pose proof (tabs_cstr depth). split_and!; try done; destruct fmt; try done; try constructor; try (by apply (bool_decide_unpack _); vm_compute); destruct es; by (apply (bool_decide_unpack _); vm_compute).
Qed.

Lemma text_cstr fmt j : json_okb j = true -> forall depth, cstr (text fmt depth j).
Proof.
  induction j as [|b|z|s|l IH|l IH] using json_ind; intros Hok depth; cbn [text].
  - by apply (bool_decide_unpack _).
  - destruct b; by apply (bool_decide_unpack _).
  - by apply fmt_d_cstr, json_num_ok.
  - apply quoted_cstr. by apply bool_decide_eq_true in Hok.
  - cbn [json_okb] in Hok. apply forallb_Forall in Hok. constructor; [by apply (bool_decide_unpack _)|]. apply Forall_app. split; [|by apply (bool_decide_unpack _)].
    apply join_elements_cstr, Forall_fmap, (Forall_with _ _ _ _ IH Hok). intros j Hj Hk. by apply Hj.
  - cbn [json_okb] in Hok. apply forallb_Forall in Hok. constructor; [by apply (bool_decide_unpack _)|]. unfold cstr. rewrite !Forall_app. pose proof (tabs_cstr (depth + 1 - 1)).
    split_and!; [destruct fmt; by apply (bool_decide_unpack _)| |by destruct fmt|by apply (bool_decide_unpack _)].
    apply join_members_cstr, Forall_fmap, (Forall_with _ _ _ _ IH Hok). intros [k j] Hj [Hk%bool_decide_eq_true Hj']%andb_true_iff. cbn [fst snd] in *. split; [by apply quoted_cstr|by apply Hj].
Qed.

(** ** Bodies and texts *)

Lemma take_strlen_nul s rest : cstr s -> take (strlen (s ++ 0 :: rest)) (s ++ 0 :: rest) = s.
Proof. induction 1 as [|c s Hc _ IH]; [done|]. cbn [strlen app]. rewrite (proj2 (Z.eqb_neq c 0)) by lia. cbn [take]. by rewrite IH. Qed.

(** A request that carries a body. *)
Definition has_body (dr : http_dr) (body : list Z) : Prop :=
  h_has_session dr = true /\ exists rq d, h_request dr = Some rq /\ (rq_method rq = METHOD_POST \/ rq_method rq = METHOD_PUT) /\
    0 < rq_content_length rq /\ rq_data rq = Some d /\ ptr_bytes d = body.

Section spec.
Context `{HL : LibmSpec} `{HG : GcMemSpec}.
Variable mem : nat -> bool.
Variable junk : Z.

(** The body that is read is the part before its first NUL, and the copy is freed on every branch. *)
Lemma parse_data_body dr body st : has_body dr body ->
  json_parse_data mem junk true dr st = ('(root, st) ← cJSON_Parse mem junk (take (strlen (body ++ [0])) (body ++ [0])) st; Done (root, st, Some (body ++ [0]))).
Proof.
  intros (Hs & rq & d & Hr & Hm & Hl & Hd & <-). unfold json_parse_data, duda_request_is_data, duda_request_get_data, with_request. rewrite Hs, Hr, Hd.
  rewrite (proj2 (Z.leb_gt _ 0)) by lia. by destruct Hm as [-> | ->].
Qed.

(** No body is read from a request that is neither a POST nor a PUT or has no content. *)
Lemma parse_data_other copy_ok dr rq st : h_request dr = Some rq ->
  (rq_method rq <> METHOD_POST /\ rq_method rq <> METHOD_PUT) \/ rq_content_length rq <= 0 ->
  json_parse_data mem junk copy_ok dr st = Done (None, st, None).
Proof.
  intros Hr Hn. unfold json_parse_data, duda_request_is_data, with_request. rewrite Hr.
  destruct Hn as [[H1 H2]|Hl]; [by rewrite !bool_decide_true|]. rewrite (proj2 (Z.leb_le _ 0)) by done. by destruct (_ && _).
Qed.

(** An exchange of JSON: the body of a POST or PUT that is the text of a value, in either format, is read as an item for this value, whose
    text, when the service prints it for the response, is the same body again in the format it asks for, is registered in the collector of the
    request, and is freed with it once. *)
Lemma json_exchange fmt out_fmt j dr st g addr : (forall i, mem i = true) -> json_okb j = true -> has_body dr (text fmt 0 j) ->
  gc_ok g -> gc_used g < gc_size g \/ can_grow g ->
  exists c st1 st2 g' g'' freed,
    json_parse_data mem junk true dr st = Done (Some c, st1, Some (text fmt 0 j ++ [0])) /\ value_of c = Some j /\
    (if out_fmt : bool then json_print_gc mem addr c st1 g else json_print_unformatted_gc mem addr c st1 g) = Ret (Some (text out_fmt 0 j), st2, g') /\
    duda_gc_free_content g' = Ret (Z.of_nat (S (length (registered g))), g'', freed) /\ freed ≡ₚ addr :: registered g.
Proof.
  intros Hm Hok Hb Hg Hroom. destruct (parse_text mem junk j fmt st Hm Hok) as [st1 Ep]. pose proof (value_of_item None j Hok) as Hv.
  destruct (print_value_text mem (item_of None j) j out_fmt 0 Hm Hv ltac:(lia) st1) as [st2 Et].
  destruct (gc_add_ok g addr Hg Hroom) as (g' & Ea & Hg' & Hp). destruct (gc_free_ok g' Hg') as (g'' & Ef & _).
  exists (item_of None j), st1, st2, g', g'', (registered g'). split_and!; [|done| | |done].
  - rewrite (parse_data_body dr (text fmt 0 j)) by done. rewrite take_strlen_nul by by apply text_cstr. by rewrite Ep.
  - unfold json_print_gc, json_print_unformatted_gc, cJSON_Print, cJSON_PrintUnformatted. destruct out_fmt; rewrite Et; cbn; by rewrite Ea.
  - rewrite Ef, (gc_used_count _ Hg'). apply Permutation_length in Hp. by rewrite Hp.
Qed.
End spec.

(** After a body that is not JSON the package frees its copy, into which the error pointer of cJSON still points. *)
Lemma error_points_into_freed_body : exists st,
  @json_parse_data libm_example all_memory 0 true
    (mk_http_dr 4 true (Some (mk_rq METHOD_POST 3 (mk_ptr [] 0) (Some (mk_ptr (cs "[?]") 3)) None 0 (-1) [])) (-2) false false 0 None []) js0
  = Done (None, st, Some (cs "[?]" ++ [0])) /\ js_ep st = Some (cs "?]").
Proof. eexists. split; reflexivity. Qed.

(** The exchange at a POST with an array. *)
Lemma json_exchange_example : exists c st1 st2 g' g'' freed,
  @json_parse_data libm_example all_memory 0 true
    (mk_http_dr 4 true (Some (mk_rq METHOD_POST 3 (mk_ptr [] 0) (Some (mk_ptr (cs "[7]") 3)) None 0 (-1) [])) (-2) false false 0 None []) js0
    = Done (Some c, st1, Some (cs "[7]" ++ [0])) /\ value_of c = Some (JArr [JNum 7]) /\
  @json_print_unformatted_gc libm_example (RefGc.ops []) all_memory 4096 c st1 (mk_gc_map 0 64 (replicate 64 (mk_gc_entry 0 0))) = Ret (Some (cs "[7]"), st2, g') /\
  duda_gc_free_content g' = Ret (1, g'', freed) /\ freed ≡ₚ [4096].
Proof. do 6 eexists. repeat split; reflexivity. Qed.
