(* ===== verification/Objects.v ===== *)
(** * Small objects: time, console, and packages/sqlite

    lib/objects/duda_xtime.c, lib/objects/duda_console.c (the dashboard address and the sizes of its memory panel), and packages/sqlite/sqlite.c over the
    class [Sqlite] of the library. *)

From S2P Require Import Prelude CString.

(** ** Time *)

Definition TIME_HOUR : Z := 3600.
Definition TIME_DAY : Z := TIME_HOUR * 24.

(** [now] is what Monkey answers; [h * TIME_HOUR] is computed as an [int]. *)
Definition duda_xtime_now (now : Z) : Z := now.
Definition duda_xtime_tomorrow (now : Z) : Z := now + TIME_DAY.
Definition duda_xtime_next_hours (now h : Z) : Z := now + swrap 32 (h * TIME_HOUR).

(** ** Console *)

(** The unit of a size: [None] when the units end.  [u] is a [long]. *)
Fixpoint size_unit (k : nat) (i : nat) (u size : Z) : res (nat * Z) :=
  match k with
  | O => Ret (i, u)
  | S k => if u =? 0 then Fault DivisionByZero else if Z.quot size u =? 0 then Ret (i, u) else size_unit k (S i) (swrap 64 (u * 1024)) size
  end.

Definition units : list (list Z) := [cs "b"; cs "K"; cs "M"; cs "G"; cs "T"; cs "P"; cs "E"; cs "Z"; cs "Y"].

(** What is printed: the number of bytes, or the quotient of the two numbers with two decimals, and the unit. *)
Inductive human_size := HBytes (size : Z) (unit : list Z) | HScaled (size divisor : Z) (unit : option (list Z)).

Definition human_readable_size (size : Z) : res human_size :=
  '(i, u) ← size_unit (length units) 0 1024 size;
  match i with
  | O => Ret (HBytes size (cs "b"))
  | S _ => Ret (HScaled size (Z.quot u 1024) (units !! i))
  end.

(** The result and the address that is stored; [None] is [NULL]. *)
Definition duda_console_dashboard (uri : option (list Z)) (dashboard : option (list Z)) : Z * option (list Z) :=
  match uri with
  | None => (-1, dashboard)
  | Some uri =>
      if negb (char_at uri 0 =? ch "/") then (-1, dashboard)
      else match strstr1 uri (ch ":") with
           | Some _ => (-1, dashboard)
           | None => (0, Some uri)
           end
  end.

(** The copy of the address in a buffer of 1024 bytes, with a slash at its end; the registration is left out in the source. *)
Definition duda_console_enable (map : list Z) : res (Z * list Z) :=
  let len := strlen map in
  if (1024 <? len)%nat then Fault OutOfBounds
  else
    match len with
    | O => Fault OutOfBounds
    | S k =>
        let buf := take len map ++ replicate (1024 - len) 0 in
        if negb (char_at buf k =? ch "/") then if (len <? 1024)%nat then Ret (-1, <[len := ch "/"]> buf) else Fault OutOfBounds
        else Ret (-1, buf)
    end.

(** The loop divides by the powers of 1024 up to the first that is too large. *)
Lemma size_unit_power j : forall k i size, 0 <= size < 1024 ^ Z.of_nat (i + S j) -> 1024 ^ Z.of_nat i <= size \/ i = 0%nat -> (S j <= k)%nat -> (i + S j <= 6)%nat ->
  exists m, size_unit k i (1024 ^ Z.of_nat (S i)) size = Ret (m, 1024 ^ Z.of_nat (S m)) /\ (i <= m)%nat /\ size < 1024 ^ Z.of_nat (S m) /\ (1024 ^ Z.of_nat m <= size \/ m = 0%nat).
Proof.
  induction j as [|j IH]; intros k i size Hs Hi Hk Hb; (destruct k as [|k]; [lia|]); cbn [size_unit]; rewrite (proj2 (Z.eqb_neq (1024 ^ Z.of_nat (S i)) 0)) by lia;
    rewrite Z.quot_div_nonneg by lia.
  - exists i. replace (i + 1)%nat with (S i) in Hs by lia. rewrite Z.div_small by lia. split_and!; [done|lia|lia|done].
  - destruct (Z.eqb_spec (size / 1024 ^ Z.of_nat (S i)) 0) as [E|E].
    + exists i. split_and!; [done|lia|apply Z.div_small_iff in E; lia|done].
    + assert (Hp : 1024 ^ Z.of_nat (S i) * 1024 = 1024 ^ Z.of_nat (S (S i))) by (rewrite !Nat2Z.inj_succ, (Z.pow_succ_r 1024 (Z.succ _)) by lia; lia).
      assert (Hle : 1024 ^ Z.of_nat (S i) <= size) by (destruct (Z.le_gt_cases (1024 ^ Z.of_nat (S i)) size); [done|]; rewrite Z.div_small in E by lia; done).
      rewrite Hp, swrap_small; [|lia|].
      * destruct (IH k (S i) size) as (m & Em & H1 & H2 & H3); [by replace (S i + S j)%nat with (i + S (S j))%nat by lia|by left|lia|lia|]. exists m. split_and!; [done|lia|done|done].
      * assert (1024 ^ Z.of_nat (S (S i)) <= 1024 ^ 6) by (apply Z.pow_le_mono_r; lia). change (1024 ^ 6) with 1152921504606846976 in *. change (2 ^ (64 - 1)) with 9223372036854775808. lia.
Qed.

(** A size below 2^60 is printed in the unit that leaves less than 1024 of them. *)
Lemma human_readable_unit size : 0 <= size < 1024 ^ 6 ->
  (size < 1024 /\ human_readable_size size = Ret (HBytes size (cs "b"))) \/
  exists i unit, units !! i = Some unit /\ human_readable_size size = Ret (HScaled size (1024 ^ Z.of_nat i) (Some unit)) /\ 1024 ^ Z.of_nat i <= size < 1024 * 1024 ^ Z.of_nat i.
Proof.
  intros Hs. unfold human_readable_size. destruct (size_unit_power 5 9 0 size) as (m & E & _ & H2 & H3); [done|by right|lia|lia|]. change (1024 ^ Z.of_nat 1) with 1024 in E. cbn [length units]. rewrite E. cbn [mbind res_bind].
  destruct m as [|m]; [left; by split|]. right. destruct H3 as [H3|]; [|done]. rewrite (Nat2Z.inj_succ (S m)), Z.pow_succ_r in * by lia.
  destruct (lookup_lt_is_Some_2 units (S m)) as [unit Hu].
  { cbn. destruct (Nat.le_gt_cases (S m) 5); [lia|]. assert (1024 ^ 6 <= 1024 ^ Z.of_nat (S m)) by (apply Z.pow_le_mono_r; lia). lia. }
  exists (S m), unit. split; [done|]. rewrite Hu. split; [|lia]. rewrite Z.mul_comm, Z.quot_mul by lia. done.
Qed.

(** From 2^60 on the power of 1024 overflows and the loop divides by zero. *)
Lemma human_readable_divides_by_zero : human_readable_size (2 ^ 60) = Fault DivisionByZero.
Proof. vm_compute. reflexivity. Qed.

(** An address without a slash at its end may fill the buffer, and an empty one is read before its start. *)
Lemma console_enable_overflow map : cstr map -> (1024 <= length map)%nat -> last map <> Some (ch "/") -> duda_console_enable map = Fault OutOfBounds.
Proof.
  intros Hc Hl Hlast. unfold duda_console_enable. rewrite strlen_cstr by done. destruct (Nat.ltb_spec 1024 (length map)); [done|]. assert (El : length map = 1024%nat) by lia. rewrite El.
  destruct (Z.eqb_spec (char_at (take 1024 map ++ replicate (1024 - 1024) 0) 1023) (ch "/")) as [E|E]; [|done]. exfalso. apply Hlast. rewrite last_lookup, El. unfold char_at in E.
  rewrite take_ge, lookup_app_l in E by lia. cbn [pred]. destruct (map !! 1023%nat) as [c|] eqn:Ec; [cbn in E; by rewrite E|]. apply lookup_ge_None in Ec. lia.
Qed.

Lemma next_hours_overflow now : duda_xtime_next_hours now 600000 <> now + 600000 * TIME_HOUR.
Proof. unfold duda_xtime_next_hours. change (swrap 32 (600000 * TIME_HOUR)) with (-2134967296). change (600000 * TIME_HOUR) with 2160000000. lia. Qed.

Lemma next_hours_range now h : -596523 <= h <= 596523 -> duda_xtime_next_hours now h = now + h * TIME_HOUR.
Proof. intros Hh. unfold duda_xtime_next_hours, TIME_HOUR. rewrite swrap_small; [done|lia|]. change (2 ^ (32 - 1)) with 2147483648. lia. Qed.

(** ** packages/sqlite *)

Definition SQLITE_OK : Z := 0.
Definition SQLITE_ROW : Z := 100.
Definition SQLITE_DONE : Z := 101.

(** The library: databases, statements, and its calls.  [sqlite3_exec] gives the rows it calls the callback with, in order, as long as the callback answers
    zero. *)
Class Sqlite := {
  sqlite3 : Type;
  sqlite3_stmt : Type;
  row : Type;
  sqlite3_open : list Z -> Z * sqlite3;
  sqlite3_prepare : sqlite3 -> list Z -> Z * option sqlite3_stmt;
  sqlite3_step : sqlite3_stmt -> Z * sqlite3_stmt;
  sqlite3_exec : sqlite3 -> list Z -> (row -> Z) -> Z * list row * sqlite3;
  sqlite3_finalize : sqlite3_stmt -> Z;
  sqlite3_close : sqlite3 -> Z;
  current_row : sqlite3_stmt -> row
}.

Section sqlite.
Context `{Sqlite}.

(** The result, the rows the callback was called with, and the database. *)
Definition sql_exec (db : sqlite3) (query : list Z) (callback : row -> Z) : Z * list row * sqlite3 :=
  let '(ret, rows, db) := sqlite3_exec db query callback in (if negb (ret =? SQLITE_OK) then -1 else 0, rows, db).

Definition sql_open (path : list Z) : res sqlite3 :=
  let '(ret, db) := sqlite3_open path in
  if negb (ret =? SQLITE_OK) then Fault ExitFailure
  else let '(_, _, db) := sql_exec db (cs "PRAGMA synchronous = OFF;") (fun _ => 0) in Ret db.

(** [!handle] tests the address of the caller's variable, which is not null. *)
Definition sql_dump (db : sqlite3) (query : list Z) : Z * option sqlite3_stmt :=
  let '(ret, handle) := sqlite3_prepare db query in (if negb (ret =? SQLITE_OK) then -1 else ret, handle).

Definition sql_step (handle : sqlite3_stmt) : Z * sqlite3_stmt :=
  let '(ret, handle) := sqlite3_step handle in
  (if (ret =? SQLITE_OK) || (ret =? SQLITE_DONE) then 0 else if ret =? SQLITE_ROW then SQLITE_ROW else -1, handle).

Definition sql_done (handle : sqlite3_stmt) : Z := sqlite3_finalize handle.
Definition sql_close (db : sqlite3) : Z := sqlite3_close db.

(** The macro [sqlite_foreach]: the rows the body sees, and the result that ended the loop. *)
Fixpoint sqlite_foreach (n : nat) (handle : sqlite3_stmt) : outcome (list row * Z) :=
  match n with
  | O => NoFuel
  | S n =>
      let '(ret, handle) := sql_step handle in
      if ret =? SQLITE_ROW then '(rows, last) ← sqlite_foreach n handle; Done (current_row handle :: rows, last) else Done ([], ret)
  end.

(** A statement that has these rows left, and then the given result. *)
Fixpoint yields (rows : list row) (final : Z) (handle : sqlite3_stmt) : Prop :=
  match rows with
  | [] => (sqlite3_step handle).1 = final
  | r :: rows => (sqlite3_step handle).1 = SQLITE_ROW /\ current_row (sqlite3_step handle).2 = r /\ yields rows final (sqlite3_step handle).2
  end.

(** The loop sees every row once and in order; it ends the same way when the rows end and when a step fails, and only the result of the
    last step, which the macro does not give, tells the two apart. *)
Lemma foreach_rows rows final handle : yields rows final handle -> final <> SQLITE_ROW ->
  sqlite_foreach (S (length rows)) handle = Done (rows, if (final =? SQLITE_OK) || (final =? SQLITE_DONE) then 0 else -1).
Proof.
  intros Hy Hf. assert (Hs : forall n h, sqlite_foreach (S n) h =
    let '(ret, h) := sql_step h in if ret =? SQLITE_ROW then '(rows, last) ← sqlite_foreach n h; Done (current_row h :: rows, last) else Done ([], ret)) by done.
  revert handle Hy. induction rows as [|r rows IH]; intros handle; cbn [yields length]; rewrite Hs; unfold sql_step at 1; destruct (sqlite3_step handle) as [ret h]; cbn [fst snd].
  - intros ->. rewrite (proj2 (Z.eqb_neq _ _) Hf). by destruct (_ || _).
  - intros (-> & <- & Hy). change ((SQLITE_ROW =? SQLITE_OK) || (SQLITE_ROW =? SQLITE_DONE)) with false. cbv iota. rewrite !Z.eqb_refl. by rewrite (IH h Hy).
Qed.
End sqlite.
